(* ===== verification/_CoqProject ===== *)
-Q . S2P
Prelude.v
SortedLists.v
Strconv.v
Decimal.v
TreeMap.v
Models.v
Bootstrap.v
Window.v
MatchLog.v
OrderBook.v
DepthInv.v
Matching.v
Book.v
Trading.v
LogReader.v
Ledger.v
Users.v
Views.v
Settlement.v
Rest.v
Binlog.v
LedgerInv.v
Accounting.v
OrderInv.v
FillSums.v
Transactions.v
Workers.v
LedgerDemo.v
LedgerTheorems.v
OrderRows.v
RestInv.v
RestTotal.v
RestPages.v
Makers.v
MakerTheorems.v
Circulation.v
Candles.v
RestDemo.v
RestUsers.v
Applier.v
Engine.v
Snapshots.v
BookEquiv.v
EngineInv.v
Observe.v
EngineTheorems.v
Restarts.v
BookTheorems.v
OrderKinds.v
RestTheorems.v
PushBook.v
PushInv.v
PushView.v
PushMirror.v
PushEquiv.v
Messages.v
Hub.v
Level2.v
ClientView.v
HubRun.v
Publishing.v
HubAccess.v
Streams.v
StreamRun.v
PushTheorems.v
HubTheorems.v
BinlogTheorems.v
Json.v
Stores.v
StoreTheorems.v
ClientIO.v
