(* ===== verification/Prelude.v ===== *)
(** A verification development of the CheetahExchange spot exchange.

    * The program

    The exchange is a set of processes that share Kafka topics, a MySQL
    database and Redis ([src/]):
    - the REST server ([rest/], [service/]) takes orders: it checks them, holds
      the funds in the database and writes them to the product's order topic;
    - the matching engine ([matching/]) reads the order topic of one product,
      matches the orders in a book in memory and writes the logs (open, match,
      done) to the product's log topic, with snapshots of the book in Redis;
    - the workers ([worker/]) read the log topic into the database: fills,
      trades and candles, and settle the fills: orders, bills and accounts;
    - the push server ([pushing/]) reads the same log topic, keeps a book of its
      own from it and sends books, matches, tickers, candles, and the users' own
      orders, trades and funds to the subscribed websocket clients.

    * How it is modelled

    Go code is translated function by function.  A function that can fail ends
    in an [outcome] (this file): a value, a returned error, a crash of the
    process (nil dereference, index out of range, [panic], [log.Fatal]) or, for
    a loop with fuel, [Diverge].  Mutable state is passed; where the code shares
    pointers (the orders in both maps of a depth, the de-duplication windows in
    a snapshot, the last ticker of a product) the model keeps the sharing.
    Goroutines are step functions on a record with their channels as bounded
    lists and with what each goroutine has in hand; a blocked step is
    [Err Blocked], and the theorems speak of every interleaving.  Integers are
    [Z] with [i64] and [u64] where Go wraps around.  Decimals (shopspring),
    ordered maps (gods treemap), the LRU cache, a DECIMAL column, password
    hashes (bcrypt), tokens (jwt), Redis and the text of a decimal or a time are
    packages or services that are not in the repository: they are the type
    classes [DecimalPkg], [TreeMapPkg], [BcryptPkg], [JwtPkg], [RedisPkg] and the
    like, or arguments, their documented behaviour is stated as laws, and each
    class has an instance ([QDecimal], [SortedList]) with which the witnesses
    compute.  [time.Now] is an argument.

    * The files

    The common part:
    - [Prelude]: outcomes, channels, wrap-around, lists, tactics.
    - [SortedLists]: lists sorted by a key, and pages of them.
    - [Strconv]: [utils/utils.go] and what the code uses of [strconv] and
      [strings]; numbers are read back as they were printed.
    - [Decimal], [TreeMap]: the two packages, their laws, and their instances.
    - [Models]: [models/models.go] and the sharding of [models/mysql/order_store.go].
    - [Bootstrap]: the loops of the three [bootstrap.go] that start what belongs to
      a product.

    The matching engine:
    - [Window]: [matching/window.go], the bitmap window that refuses an id twice;
      [put_refines] gives it the abstract specification of a set above a minimum.
    - [MatchLog]: [matching/log.go].  [OrderBook]: [matching/order_book.go].
    - [DepthInv], [Matching], [Book]: the abstract book, two lists of orders in
      priority order, and the refinement [book_repr] between [orderBook] and it.
    - [Trading], [Observe]: what a match does, and how it is seen in the logs.
    - [Applier]: [applyOffsetOrder], the switch of [Engine.runApplier], and
      [runOrders], a stream of orders.  [Snapshots], [BookEquiv]: snapshot,
      restore, and books no order can tell apart.
    - [Engine], [EngineInv]: [matching/engine.go] as a transition system of its
      goroutines, the order topic, the log topic and the snapshot store.
    - [BookTheorems], [OrderKinds], [EngineTheorems]: the theorems.  [Restarts]:
      processes of the engine one after the other, and the readers of what they
      leave in the log topic.

    The database side:
    - [LogReader]: [matching/kafka_log_reader.go] and the observer interface, a
      type class the makers and the streams are instances of.
    - [Ledger]: the tables and statements of [models/mysql].  [Settlement]:
      [service/account_service.go] and [service/order_service.go].
    - [LedgerInv], [Accounting], [OrderInv], [FillSums], [Transactions]: the
      invariants of the books and every transaction's effect on them.
    - [Workers]: the executors of [worker/].  [Makers]: the fill, trade and candle
      makers.  [LedgerDemo]: a concrete database.
    - [LedgerTheorems], [MakerTheorems]: the theorems.  [Circulation]: the
      money in a whole run of transactions.

    The REST server:
    - [Users]: [service/user_service.go] and the stores of users and
      configurations.  [Views]: [rest/vo.go].
    - [Rest]: every handler of [rest/], the token middleware of [auth.go], and
      [serve], the routes of [server.go].  Its [World] is the database, the
      users and the order topics; what a handler gets from elsewhere (the clock,
      the id generator, Kafka's answer, a failing read) is its [Env].
    - [OrderRows]: the order tables as rows the engine can take, kept by every
      transaction.  [RestInv]: the effect of a request, and the world it keeps.
      [RestTotal]: every handler answers.  [RestPages]: paging.  [Candles]:
      filling the gaps between candles.  [RestDemo]: a concrete world.
    - [RestUsers], [RestTheorems]: the theorems.

    The push server:
    - [PushBook]: [pushing/order_book.go] and the switch of
      [OrderBookStream.runApplier].  [PushInv], [PushMirror]: it holds what the
      engine's abstract book holds, log by log.  [PushView]: what a snapshot
      says.  [PushEquiv]: books that publish the same, and restoring them.
    - [Messages]: [pushing/message.go].  [Hub]: [pushing/subscription.go] and
      [pushing/client.go].  [Level2], [ClientView]: the level 2 writer, and what
      its messages make of a client's view.
    - [HubRun], [HubAccess]: the clients' goroutines interleaved, and what a
      request can subscribe to.  [Publishing]: the same with [publish] and [close]
      taken apart into their steps under the locks.  [ClientIO]: the reads and writes of a client on
      its websocket, deadlines, pings and failures, and what ends it.
    - [Streams], [StreamRun]: the streams ([order_book_stream.go],
      [match_stream.go], [ticker_stream.go], [redis_stream.go]), and the
      goroutines of the order book stream interleaved with all others.
    - [Binlog]: [models/binlog_stream.go], from a changed row to Redis, with the
      columns of [ddl.sql].
    - [PushTheorems], [HubTheorems], [BinlogTheorems]: the theorems.

    Between the processes:
    - [Json]: what [encoding/json] makes of the structs that are stored or sent:
      a tree for each value, and a codec for each struct from its fields' tags.
    - [Stores]: [matching/redis_snapshot_store.go], the snapshots of
      [pushing/order_book.go] in Redis, [matching/kafka_log_store.go],
      [kafka_order_reader.go] and the bytes side of [kafka_log_reader.go].
    - [StoreTheorems]: what is written by one process is what another reads.

    * What the theorems show

    - The book: no stream of well-formed orders crashes the applier or exhausts
      a loop; the book refines two priority lists; price-time priority,
      conservation of size, the promises of each time in force; a restored book
      cannot be told from the old one; an id is worked once.
    - The engine: in every interleaving the log topic receives, from the start
      of the committer on, the logs of the orders in order, once, without a gap
      (those worked before never get there), and on orders it can take only a
      failing log store crashes it; a restart from a snapshot continues where
      the engine was; over any number of restarts, if no committer starts with
      logs missing in the topic and no stored snapshot is ahead of it, the
      observers of the topic see one log of each number; and interleavings in
      which a crash loses an order or a log.
    - The books of account: balances move only by bills, holds follow the open
      orders, no overdraft, no run of transactions makes or loses
      money beyond the rounding of the fees, a completed order is final, bills are
      worked off, and the pools of workers only commit transactions of
      the services.
    - The makers: fills are written once and in order, candles are those of the
      trades; and crashes that lose a fill or count a trade twice.
    - The REST server: a request changes the ledger by one transaction of the
      services at most and writes only orders of the user of its token; requests
      and workers in any order keep the tables well formed but for the sides of
      orders, which nobody tests, and the engine works a topic without a crash
      if its sides are known; every request is answered, a candle query if its
      clock is bounded, but for a password that is too long; who signs up can sign in; paging shows every
      order once; candles are continuous and at most as many as asked for.  And
      an order with an unknown side stops the engine for good, and ten of the
      eleven granularities of the candles are never answered.
    - The push server: its book mirrors the engine's and its restart is
      invisible; a client that works its messages sees the engine's book,
      whatever changes it misses, as long as no snapshot is sent while changes
      are held back; the stream publishes the changes of the log in order in
      every interleaving; a publish visits exactly the subscribers and misses
      only those whose queue is full, and private channels have only their user;
      and runs in which a client's two writers wait for each other for good, a
      publish then keeps the lock and stops the server, or a client is shown a
      book that never was.
      A changed row reaches the clients of its user as it is, whatever the order
      of the columns, but only the first row of a statement does.  A client
      that was closed, for whatever reason, is in no channel.
    - Between the processes: a snapshot of the book comes back from Redis as it
      was stored for seven days, for the engine and for the push server; and the
      observers of the log topic are called with the logs the engine stored.
    A theorem about a flaw exhibits a run of the modelled code.

    * Bounds and fuel

    Five loops have fuel.  [matchLoop], [fullMatchLoop] and [fillRows] walk a
    treemap and get one more than its size; [clearBits] runs over ids and gets
    their number.  Their specifications ([matchLoop_refines],
    [fullMatchLoop_refines], [fillRows_spec], [clearBits_spec]) show that this
    is enough, so [Diverge] is never reached.  The loop of the candle query
    ([amendLoop]) runs until it is past the clock, which is read in every pass;
    for a clock that stays below [T] seconds, [T + 3] passes are enough, and
    without such a bound the loop need not end.  Counters are [int64]: a theorem on
    sequence numbers asks that fewer than 2^63 of them are used.  The channel
    capacities are the code's.  A level 2 snapshot has 1000 levels at most, so
    the theorems on a client's view ask that the book has no more.

    * Not modelled

    Calls into libraries and services without logic of their own: the
    connections to Kafka, Redis, MySQL and the binlog ([models/mysql/store.go],
    whose transactions are the steps of the ledger, and the interfaces in
    [models/store.go]), the websocket upgrade ([pushing/server.go]), gin
    (matching a route, binding JSON, CORS, recovering from a panic of a handler),
    configuration, logging and the [main] functions.  JSON is modelled as trees:
    how a tree is written as text, base64 of byte slices and the text of a time
    are left to [encoding/json].  [getLastLevel2] of the push server's store is
    never called.  The engine and the streams are proved on
    values; that those arrive as they were sent is the subject of
    [StoreTheorems].  Text is compared byte by byte, where MySQL may ignore case, and
    letters are ASCII.  A REST handler is one step.
    A database transaction is one step: the row locks the services take make the
    modelled transactions serialisable.  [publish] and [close] of the push server
    are one step outside [Publishing], which shows that they do the same when
    nothing comes in between ([publish_uninterrupted], [close_uninterrupted]). *)
From Stdlib Require Export ZArith Lia.
From stdpp Require Export base gmap strings sorting numbers list.

Open Scope Z_scope.

#[export] Set Default Goal Selector "!".

Declare Scope go_scope.
Delimit Scope go_scope with go.

Create HintDb go.
Create Rewrite HintDb go.

(** ** Outcomes of Go functions *)

(** What a Go call can end in: a value, a returned [error], a crash of the
    process ([panic], a nil dereference, an index out of range, a division by
    zero, [log.Fatal]), or an exhausted loop bound of the model.  [Diverge] is
    kept apart from [Panic] so that termination can be stated. *)
Inductive outcome (E A : Type) : Type :=
| Ok (a : A)
| Err (e : E)
| Panic
| Diverge.
Arguments Ok {E A} a.
Arguments Err {E A} e.
Arguments Panic {E A}.
Arguments Diverge {E A}.

#[export] Instance outcome_ret {E} : MRet (outcome E) := fun A a => Ok a.
#[export] Instance outcome_bind {E} : MBind (outcome E) := fun A B f m =>
  match m with
  | Ok a => f a
  | Err e => Err e
  | Panic => Panic
  | Diverge => Diverge
  end.
#[export] Instance outcome_fmap {E} : FMap (outcome E) := fun A B f m =>
  match m with
  | Ok a => Ok (f a)
  | Err e => Err e
  | Panic => Panic
  | Diverge => Diverge
  end.

(** A nil dereference, a failed type assertion, an index out of range. *)
Definition deref {E A} (o : option A) : outcome E A :=
  match o with Some a => Ok a | None => Panic end.

(** A call whose error the caller drops ([_ = f(...)]): the callee returned
    before it changed anything, so the caller keeps its old state. *)
Definition ignoreErr {E E' A} (old : A) (m : outcome E A) : outcome E' A :=
  match m with Ok a => Ok a | Err _ => Ok old | Panic => Panic | Diverge => Diverge end.

(** A call whose error the caller turns into a crash ([log.Fatal(err)], [panic(err)]). *)
Definition fatalErr {E E' A} (m : outcome E A) : outcome E' A :=
  match m with Ok a => Ok a | Err _ => Panic | Panic => Panic | Diverge => Diverge end.

Lemma bind_Ok {E A B} (m : outcome E A) (f : A -> outcome E B) b :
  m ≫= f = Ok b <-> exists a, m = Ok a /\ f a = Ok b.
Proof.
  destruct m as [a|e| |]; simpl; split.
  - eauto.
  - intros (a' & [= ->] & H). exact H.
  - discriminate.
  - intros (a' & ? & _). discriminate.
  - discriminate.
  - intros (a' & ? & _). discriminate.
  - discriminate.
  - intros (a' & ? & _). discriminate.
Qed.

(** Reading off the result of a run that is known to end well. *)
Definition getOk {E A} (default : A) (m : outcome E A) : A := match m with Ok a => a | _ => default end.
Definition isOk {E A} (m : outcome E A) : bool := match m with Ok _ => true | _ => false end.
Lemma isOk_get {E A} (d : A) (m : outcome E A) : isOk m = true -> m = Ok (getOk d m).
Proof. by destruct m. Qed.
Definition isSome {A} (m : option A) : bool := match m with Some _ => true | None => false end.
Lemma isSome_get {A} (d : A) (m : option A) : isSome m = true -> m = Some (default d m).
Proof. by destruct m. Qed.

Lemma bind_no_panic {E A B} (m : outcome E A) (f : A -> outcome E B) :
  m <> Panic -> (forall a, m = Ok a -> f a <> Panic) -> m ≫= f <> Panic.
Proof. destruct m; simpl; intros H1 H2; try done. by apply H2. Qed.

(** [no_panic] splits a run into its steps. *)
Lemma Ok_no_panic {E A} (a : A) : Ok (E := E) a <> Panic.
Proof. done. Qed.
Lemma Err_no_panic {E A} (e : E) : Err (A := A) e <> Panic.
Proof. done. Qed.
Lemma mret_no_panic {E A} (a : A) : mret (M := outcome E) a <> Panic.
Proof. done. Qed.
#[export] Hint Resolve Ok_no_panic Err_no_panic mret_no_panic : go.
Ltac no_panic := repeat first [progress eauto with go | apply bind_no_panic; [|intros ? ?]].

(** ** Channels *)

(** Functions that return no Go error. *)
Definition noerr := Empty_set.

(** A goroutine that has to wait takes no step. *)
Inductive blocked := Blocked.

(** A send on a buffered channel. *)
Definition send {A} (cap : Z) (ch : list A) (x : A) : outcome blocked (list A) :=
  if Z.of_nat (length ch) <? cap then Ok (ch ++ [x]) else Err Blocked.

Definition recv {A} (ch : list A) : outcome blocked (A * list A) :=
  match ch with [] => Err Blocked | x :: ch => Ok (x, ch) end.

(** ** Lists *)

(** Go's [l[i]]: [None] where it panics. *)
Definition indexed {A} (l : list A) (i : Z) : option A := if 0 <=? i then l !! Z.to_nat i else None.

Lemma indexed_Some {A} (l : list A) i x : indexed l i = Some x <-> 0 <= i /\ l !! Z.to_nat i = Some x.
Proof. unfold indexed. destruct (Z.leb_spec 0 i); split; [done|intros [_ ?]; done|done|intros [? _]; lia]. Qed.

Lemma Forall_sublist {A} (P : A -> Prop) l1 l2 : Forall P l2 -> l1 `sublist_of` l2 -> Forall P l1.
Proof.
  rewrite !Forall_forall. intros H Hs x Hx. apply H. by eapply elem_of_sublist.
Qed.

Lemma Forall2_compose {A B C} (P : A -> B -> Prop) (Q : B -> Prop) (R : B -> C -> Prop) (S : A -> C -> Prop) l k m :
  Forall2 P l k -> Forall Q k -> Forall2 R k m -> (forall x y z, P x y -> Q y -> R y z -> S x z) -> Forall2 S l m.
Proof.
  intros HP. revert m. induction HP as [|x y l k Hxy _ IH]; intros m HQ HR HS.
  - inversion HR. constructor.
  - apply Forall_cons in HQ as [Hq HQ]. inversion HR; subst. constructor; [by eapply HS|by apply IH].
Qed.

Lemma filter_id {A} (P : A -> Prop) `{!forall x, Decision (P x)} (l : list A) :
  (forall x, x ∈ l -> P x) -> filter P l = l.
Proof.
  induction l as [|x l IH]; intros Hl; [done|].
  rewrite filter_cons_True by (apply Hl; set_solver). f_equal. apply IH. set_solver.
Qed.

Lemma filter_none {A} (P : A -> Prop) `{!forall x, Decision (P x)} (l : list A) :
  (forall x, x ∈ l -> ~ P x) -> filter P l = [].
Proof.
  induction l as [|x l IH]; intros Hl; [done|].
  rewrite filter_cons_False by (apply Hl; set_solver). apply IH. set_solver.
Qed.

(** ** Machine integers *)

(** Go's [uint64] and [int64]: integers with the wrap-around written out. *)
Definition u64_size : Z := 18446744073709551616.
Definition i64_half : Z := 9223372036854775808.
Definition u64 (x : Z) : Z := x mod u64_size.
Definition i64 (x : Z) : Z := (x + i64_half) mod u64_size - i64_half.

Definition is_u64 (x : Z) : Prop := 0 <= x < u64_size.
Definition is_i64 (x : Z) : Prop := - i64_half <= x < i64_half.

Lemma u64_id x : is_u64 x -> u64 x = x.
Proof. intros [? ?]. unfold u64. by apply Z.mod_small. Qed.

Lemma u64_range x : is_u64 (u64 x).
Proof. unfold is_u64, u64. apply Z.mod_pos_bound. done. Qed.

Lemma i64_id x : is_i64 x -> i64 x = x.
Proof.
  unfold is_i64, i64, u64_size, i64_half. intros.
  rewrite Z.mod_small; lia.
Qed.

Lemma i64_add a b : i64 (i64 a + b) = i64 (a + b).
Proof.
  unfold i64. f_equal. replace ((a + i64_half) mod u64_size - i64_half + b + i64_half) with ((a + i64_half) mod u64_size + b) by lia.
  rewrite Zplus_mod_idemp_l. f_equal. lia.
Qed.

Lemma i64_range x : is_i64 (i64 x).
Proof.
  unfold is_i64, i64.
  pose proof (Z.mod_pos_bound (x + i64_half) u64_size eq_refl).
  unfold u64_size, i64_half in *. lia.
Qed.

#[export] Hint Rewrite @u64_id @i64_id using (unfold is_u64, is_i64, u64_size, i64_half in *; lia) : go.
#[export] Hint Resolve u64_range i64_range : go.

(** ** Tactics *)

(** Split every hypothesis of the form [m ≫= f = Ok b] and the [deref]s below it. *)
Ltac go_step :=
  match goal with
  | H : mbind _ ?m = Ok _ |- _ =>
      let a := fresh "a" in let Ha := fresh "Hrun" in
      apply bind_Ok in H; destruct H as [a [Ha H]]
  | H : deref ?o = Ok _ |- _ =>
      let Ho := fresh "Hsome" in destruct o eqn:Ho; simpl in H; [injection H as ->|discriminate H]
  | H : Ok _ = Ok _ |- _ => injection H as H
  | H : mret _ = Ok _ |- _ => unfold mret, outcome_ret in H; injection H as H
  | H : Err _ = Ok _ |- _ => discriminate H
  | H : Panic = Ok _ |- _ => discriminate H
  | H : Diverge = Ok _ |- _ => discriminate H
  | H : (_, _) = (_, _) |- _ => injection H; clear H; intros; subst
  end.
Ltac go_simpl := repeat (go_step; subst); simpl in *.

(** Run the binds of a goal whose first steps are known. *)
Ltac go_red := cbn [deref mbind outcome_bind mret outcome_ret fmap outcome_fmap ignoreErr fatalErr].

(** Case analysis on the boolean tests of the code. *)
Ltac case_bool :=
  match goal with
  | H : context [if ?b then _ else _] |- _ =>
      lazymatch type of b with bool => let E := fresh "Eb" in destruct b eqn:E end
  | |- context [if ?b then _ else _] =>
      lazymatch type of b with bool => let E := fresh "Eb" in destruct b eqn:E end
  end.
