(* ===== verification/SortedLists.v ===== *)
(** Lists sorted by a decreasing integer key, as [ORDER BY key DESC] returns
    them: when the keys are distinct, filtering and sorting commute, and what is
    below or above a key is a part of the list. *)
From S2P Require Import Prelude.
From stdpp Require Import list sorting.
Open Scope list_scope.
Open Scope Z_scope.

Lemma StronglySorted_filter {A} (S : A -> A -> Prop) (Q : A -> Prop) `{!forall x, Decision (Q x)} l :
  StronglySorted S l -> StronglySorted S (filter Q l).
Proof.
  induction 1 as [|x l Hl IH Hx]; [constructor|]. rewrite filter_cons. case_decide; [|done]. constructor; [done|].
  eapply Forall_sublist; [exact Hx|apply sublist_filter].
Qed.

Lemma filter_same {A} (Q1 Q2 : A -> Prop) `{!forall x, Decision (Q1 x), !forall x, Decision (Q2 x)} (l : list A) :
  (forall x, x ∈ l -> Q1 x <-> Q2 x) -> filter Q1 l = filter Q2 l.
Proof.
  induction l as [|x l IH]; intros Hl; [done|]. rewrite !filter_cons, IH by (intros; apply Hl; by right).
  pose proof (Hl x ltac:(left)). destruct (decide (Q1 x)), (decide (Q2 x)); tauto || done.
Qed.

Lemma filter_comm {A} (Q1 Q2 : A -> Prop) `{!forall x, Decision (Q1 x), !forall x, Decision (Q2 x)} (l : list A) :
  filter Q1 (filter Q2 l) = filter Q2 (filter Q1 l).
Proof. rewrite !list_filter_filter. apply filter_same. naive_solver. Qed.

Section ByKey.
Context {A : Type} (key : A -> Z) (R : A -> A -> Prop) `{!forall x y, Decision (R x y)} (HR : forall x y, R x y <-> key y <= key x).

Definition decreasing : list A -> Prop := StronglySorted (fun x y => key y < key x).

Lemma key_sorted l : StronglySorted R (merge_sort R l).
Proof.
  assert (Transitive R) by (intros x y z; rewrite !HR; lia). assert (Total R) by (intros x y; rewrite !HR; lia).
  apply (Sorted_StronglySorted _), (Sorted_merge_sort _).
Qed.

Lemma merge_sort_decreasing l : NoDup (key <$> l) -> decreasing (merge_sort R l).
Proof.
  intros Hd. rewrite <- (merge_sort_Permutation R l) in Hd. pose proof (key_sorted l) as Hs.
  induction Hs as [|x k Hk IH Hx]; [constructor|]. apply NoDup_cons in Hd as [Hx' Hd]. constructor; [by apply IH|].
  rewrite Forall_forall in *. intros y Hy. specialize (Hx y Hy). apply HR in Hx.
  assert (key y <> key x); [|lia]. intros E. apply Hx'. rewrite <- E. by apply list_elem_of_fmap_2.
Qed.

Lemma decreasing_unique l k : decreasing l -> decreasing k -> l ≡ₚ k -> l = k.
Proof. intros Hl Hk Hp. eapply StronglySorted_unique_strong; [|exact Hl|exact Hk|exact Hp]. cbn. intros. lia. Qed.

Lemma merge_sort_filter (Q : A -> Prop) `{!forall x, Decision (Q x)} l : NoDup (key <$> l) ->
  merge_sort R (filter Q l) = filter Q (merge_sort R l).
Proof.
  intros Hd. apply decreasing_unique.
  - apply merge_sort_decreasing. eapply sublist_NoDup; [exact Hd|]. apply fmap_sublist, sublist_filter.
  - by apply StronglySorted_filter, merge_sort_decreasing.
  - by rewrite !merge_sort_Permutation.
Qed.

(** What is below the last of a beginning is the rest. *)
Lemma filter_below pre x post : decreasing (pre ++ x :: post) -> filter (fun y => key y < key x) (pre ++ x :: post) = post.
Proof.
  intros Hs. apply StronglySorted_app in Hs as (Hpre & _ & Hpost).
  inversion Hpost as [|? ? Hp Hx]; subst. rewrite filter_app, filter_cons_False by lia.
  rewrite (filter_none _ pre), filter_id; [done| |].
  - intros y Hy. rewrite Forall_forall in Hx. by apply Hx.
  - intros y Hy. specialize (Hpre y x Hy ltac:(left)). cbn in Hpre. lia.
Qed.

(** What is above a bound is a beginning. *)
Lemma filter_above b l : decreasing l -> filter (fun y => b < key y) l `prefix_of` l.
Proof.
  induction 1 as [|x l Hl IH Hx]; [done|]. rewrite filter_cons. case_decide as Hb; [by apply prefix_cons|].
  rewrite filter_none; [by apply prefix_nil|]. intros y Hy. rewrite Forall_forall in Hx. specialize (Hx y Hy). lia.
Qed.

Lemma take_decreasing n l : decreasing l -> decreasing (take n l).
Proof. intros Hs. rewrite <- (take_drop n l) in Hs. by apply StronglySorted_app in Hs as (_ & ? & _). Qed.

(** The newest element that is not newer than [t]. *)
Lemma newest_prefix t l k x : l `prefix_of` k -> head (filter (fun y => key y <= t) l) = Some x ->
  head (filter (fun y => key y <= t) k) = Some x.
Proof. intros [k' ->] Hh. rewrite filter_app. by destruct (filter _ l). Qed.

Lemma newest_at t l x : decreasing l -> x ∈ l -> key x = t -> head (filter (fun y => key y <= t) l) = Some x.
Proof.
  intros Hs Hx Ht. apply list_elem_of_split in Hx as (l1 & l2 & ->). apply StronglySorted_app in Hs as (H1 & _ & _).
  rewrite filter_app, filter_none, filter_cons_True by lia || (intros y Hy; specialize (H1 y x Hy ltac:(left)); cbn in H1; lia). done.
Qed.

Lemma decreasing_NoDup l : decreasing l -> NoDup (key <$> l).
Proof.
  induction 1 as [|x l Hl IH Hx]; [constructor|]. rewrite fmap_cons. constructor; [|done].
  intros Hin. apply list_elem_of_fmap in Hin as (y & E & Hy). rewrite Forall_forall in Hx. specialize (Hx y Hy). lia.
Qed.
End ByKey.
