(* ===== verification/Strconv.v ===== *)
(** Text: the conversions of [src/utils/utils.go] and what the code uses of Go's
    [strconv] and [strings].

    [ParseUint] and [ParseInt] are base 10 and 64 bits wide.  Like Go's they
    return a value next to an error, and the code that drops the error goes on
    with that value: zero for what is no number, the nearest bound for a number
    out of range. *)
From S2P Require Import Prelude.
From stdpp Require Import list pretty.
From Stdlib Require Import Ascii.
Open Scope string_scope.
Open Scope list_scope.
Open Scope Z_scope.

(** ** strconv *)

Inductive numError := ErrSyntax | ErrRange.

Definition maxUint64 : Z := 18446744073709551615.

(** A character that is a decimal digit. *)
Definition digitOf (c : ascii) : option Z :=
  let n := Z.of_nat (nat_of_ascii c) in if (48 <=? n) && (n <=? 57) then Some (n - 48) else None.

(** The loop of [ParseUint]: it stops with the range error before it has seen
    the rest of the text. *)
Fixpoint parseDigits (n : Z) (s : string) : Z * option numError :=
  match s with
  | EmptyString => (n, None)
  | String c s =>
      match digitOf c with
      | None => (0, Some ErrSyntax)
      | Some d =>
          if maxUint64 / 10 + 1 <=? n then (maxUint64, Some ErrRange)
          else if maxUint64 <? n * 10 + d then (maxUint64, Some ErrRange)
          else parseDigits (n * 10 + d) s
      end
  end.

Definition ParseUint (s : string) : Z * option numError :=
  if (String.length s =? 0)%nat then (0, Some ErrSyntax) else parseDigits 0 s.

Definition ParseInt (s : string) : Z * option numError :=
  if (String.length s =? 0)%nat then (0, Some ErrSyntax)
  else
    let '(neg, digits) := match s with
                          | String "+" s' => (false, s')
                          | String "-" s' => (true, s')
                          | _ => (false, s)
                          end%char in
    let '(un, err) := ParseUint digits in
    match err with
    | Some ErrSyntax => (0, Some ErrSyntax)
    | _ =>
        if negb neg && (i64_half <=? un) then (i64_half - 1, Some ErrRange)
        else if neg && (i64_half <? un) then (- i64_half, Some ErrRange)
        else (if neg then - un else un, None)
    end.

(** ** utils.go *)

Definition AToInt64 (s : string) : Z * option numError := ParseInt s.
Definition AToUint64 (s : string) : Z * option numError := ParseUint s.
Definition I64ToA (i : Z) : string := pretty i.
Definition U64ToA (i : Z) : string := pretty i.
Definition Int32ToString (i : Z) : string := pretty i.
Definition IntToA (i : Z) : string := pretty i.

Definition isUpper (c : ascii) : bool := let n := nat_of_ascii c in ((65 <=? n) && (n <=? 90))%nat.
Definition isLower (c : ascii) : bool := let n := nat_of_ascii c in ((97 <=? n) && (n <=? 122))%nat.
Definition toLower (c : ascii) : ascii := if isUpper c then ascii_of_nat (nat_of_ascii c + 32) else c.

Fixpoint ToLower (s : string) : string :=
  match s with EmptyString => "" | String c s => String (toLower c) (ToLower s) end.

(** The loop of [SnakeCase] with the character before the one it is at. *)
Fixpoint snakeLoop (prev : option ascii) (s : string) : string :=
  match s with
  | EmptyString => ""
  | String c s =>
      let lowerNext := match s with String d _ => isLower d | EmptyString => false end in
      let rest := String (toLower c) (snakeLoop (Some c) s) in
      match prev with
      | Some p =>
          if isUpper c && negb (Ascii.eqb p "_") && (isLower p || lowerNext) then String "_" rest else rest
      | None => rest
      end
  end.
Definition SnakeCase (s : string) : string := snakeLoop None s.

(** ** strings *)

Definition HasPrefix (s p : string) : bool := String.prefix p s.

(** [strings.Split] for a separator of one character. *)
Fixpoint Split (s : string) (sep : ascii) : list string :=
  match s with
  | EmptyString => [""]
  | String c s =>
      if Ascii.eqb c sep then "" :: Split s sep
      else match Split s sep with [] => [String c ""] | w :: ws => String c w :: ws end
  end.

(** ** Numbers are read back as they were printed *)

Lemma digitOf_pretty x : (x < 10)%N -> digitOf (pretty_N_char x) = Some (Z.of_N x).
Proof.
  intros Hx. assert (H : x ∈ (N.of_nat <$> seq 0 10)).
  { apply list_elem_of_fmap. exists (N.to_nat x). split; [lia|]. apply elem_of_seq. lia. }
  cbn in H. repeat (apply elem_of_cons in H as [->|H]; [reflexivity|]). by apply elem_of_nil in H.
Qed.

Lemma div_less (x : N) : (0 < x)%N -> (x / 10 < x)%N /\ Z.of_N (x / 10) <= Z.of_N x.
Proof. intros H. assert (x / 10 < x)%N by (by apply N.div_lt). split; [done|]. apply N2Z.inj_le. by apply N.lt_le_incl. Qed.

Lemma parseDigits_step n d x : Z.of_N x <= maxUint64 -> n = Z.of_N (x / 10) -> d = Z.of_N (x mod 10) ->
  (maxUint64 / 10 + 1 <=? n) = false /\ (maxUint64 <? n * 10 + d) = false /\ n * 10 + d = Z.of_N x.
Proof.
  intros Hx -> ->. pose proof (N.div_mod x 10 ltac:(done)) as Hd. pose proof (N.mod_lt x 10 ltac:(done)) as Hm.
  change (maxUint64 / 10 + 1) with 1844674407370955162. unfold maxUint64 in *.
  generalize dependent (x / 10)%N. generalize dependent (x mod 10)%N. intros r Hr q Hq.
  split_and!; [apply Z.leb_gt; lia|apply Z.ltb_ge; lia|lia].
Qed.

Lemma parseDigits_pretty x : forall s, (0 < x)%N -> Z.of_N x <= maxUint64 ->
  parseDigits 0 (pretty_N_go x s) = parseDigits (Z.of_N x) s.
Proof.
  induction (N.lt_wf_0 x) as [x _ IH]; intros s Hpos Hx. rewrite pretty_N_go_step by done.
  pose proof (N.mod_lt x 10 ltac:(done)) as Hm. destruct (div_less x Hpos) as [Hlt Hle].
  destruct (parseDigits_step _ _ x Hx eq_refl eq_refl) as (E1 & E2 & E3).
  assert (Hlast : parseDigits (Z.of_N (x / 10)) (String (pretty_N_char (x mod 10)) s) = parseDigits (Z.of_N x) s).
  { cbn [parseDigits]. rewrite digitOf_pretty by done. by rewrite E1, E2, E3. }
  destruct (decide (x / 10 = 0)%N) as [E|E].
  - rewrite E in *. rewrite pretty_N_go_0. exact Hlast.
  - rewrite IH; [exact Hlast|done|by apply N.neq_0_lt_0|by etrans].
Qed.

(** A number printed in base 10 starts with a digit. *)
Definition digitFirst (s : string) : Prop := exists c s', s = String c s' /\ is_Some (digitOf c).

Lemma pretty_N_go_digit x : forall s, (0 < x)%N -> digitFirst (pretty_N_go x s).
Proof.
  induction (N.lt_wf_0 x) as [x _ IH]; intros s Hpos. rewrite pretty_N_go_step by done.
  pose proof (N.mod_lt x 10 ltac:(done)) as Hm. destruct (div_less x Hpos) as [Hlt _].
  destruct (decide (x / 10 = 0)%N) as [E|E].
  - rewrite E, pretty_N_go_0. eexists _, _. split; [done|]. by rewrite digitOf_pretty.
  - apply IH; [done|by apply N.neq_0_lt_0].
Qed.

Lemma pretty_digit (x : N) : digitFirst (pretty x).
Proof.
  unfold pretty, pretty_N. case_decide; [|apply pretty_N_go_digit; lia].
  exists "0"%char, "". split; [done|by eexists].
Qed.

Lemma ParseUint_N (x : N) : Z.of_N x <= maxUint64 -> ParseUint (pretty x) = (Z.of_N x, None).
Proof.
  intros Hx. destruct (pretty_digit x) as (c & s & E & _). unfold ParseUint. rewrite E. cbn [String.length Nat.eqb].
  rewrite <- E. unfold pretty, pretty_N. case_decide as Hz; [by subst|]. by rewrite parseDigits_pretty by lia.
Qed.

Lemma AToUint64_U64ToA x : is_u64 x -> AToUint64 (U64ToA x) = (x, None).
Proof.
  unfold is_u64, AToUint64, U64ToA, u64_size. intros [H0 H1].
  replace (pretty x) with (pretty (Z.to_N x)) by (destruct x; [done|done|lia]).
  rewrite ParseUint_N; [by rewrite Z2N.id|]. unfold maxUint64. lia.
Qed.

Lemma ParseInt_digits s : digitFirst s -> ParseInt s =
  match ParseUint s with
  | (_, Some ErrSyntax) => (0, Some ErrSyntax)
  | (un, _) => if i64_half <=? un then (i64_half - 1, Some ErrRange) else (un, None)
  end.
Proof.
  intros (c & s' & -> & [d Hd]). unfold ParseInt. cbn [String.length Nat.eqb].
  assert (Hc : (match String c s' with
                | String "+" s' => (false, s') | String "-" s' => (true, s') | _ => (false, String c s') end)%char
               = (false, String c s')).
  { destruct c as [[] [] [] [] [] [] [] []]; try reflexivity; vm_compute in Hd; discriminate. }
  rewrite Hc. destruct (ParseUint (String c s')) as [un [[]|]]; [done|..]; cbn; by destruct (i64_half <=? un).
Qed.

Lemma AToInt64_I64ToA x : is_i64 x -> AToInt64 (I64ToA x) = (x, None).
Proof.
  unfold is_i64, AToInt64, I64ToA, i64_half. intros [H0 H1].
  destruct x as [|p|p]; [reflexivity| |].
  - change (pretty (Z.pos p)) with (pretty (N.pos p)). rewrite ParseInt_digits by apply pretty_digit.
    rewrite ParseUint_N by (unfold maxUint64; lia). unfold i64_half. destruct (Z.leb_spec 9223372036854775808 (Z.of_N (N.pos p))); [lia|done].
  - change (pretty (Z.neg p)) with (String "-"%char (pretty (N.pos p))). unfold ParseInt. cbn [String.length Nat.eqb].
    rewrite ParseUint_N by (unfold maxUint64; lia). unfold i64_half. cbn [negb andb].
    destruct (Z.ltb_spec 9223372036854775808 (Z.of_N (N.pos p))); [lia|done].
Qed.

(** An id read as a signed number, as [gbe-after] is: what does not fit becomes
    the largest one. *)
Lemma ParseInt_U64ToA x : is_u64 x -> (ParseInt (U64ToA x)).1 = Z.min x (i64_half - 1).
Proof.
  unfold is_u64, U64ToA, u64_size. intros [H0 H1].
  replace (pretty x) with (pretty (Z.to_N x)) by (destruct x; [done|done|lia]).
  rewrite ParseInt_digits by apply pretty_digit. rewrite ParseUint_N by (unfold maxUint64; lia).
  unfold i64_half. destruct (Z.leb_spec 9223372036854775808 (Z.of_N (Z.to_N x))); cbn; lia.
Qed.
