(* ===== verification/Decimal.v ===== *)
(** The interface of [github.com/shopspring/decimal], the arbitrary-precision
    decimals every price, size and balance of the exchange is made of.

    The package is not part of the repository, so it is a parameter:
    [DecimalPkg] lists the operations the code calls and [DecimalLaws] the
    documented behaviour it relies on, stated through the number [dval d] that
    a decimal denotes.  Two decimals may denote the same number and still
    differ ([1.0] and [1.00]), so equality of values, [≡d], is coarser than
    [=]; the operations are [Proper] for it.  [QDecimal] is a concrete
    implementation on rationals, which discharges the laws. *)
From Stdlib Require Import QArith Qabs Qround Lqa.
From S2P Require Import Prelude.
From stdpp Require Import pretty countable.
Open Scope Z_scope.

(** ** The operations *)

Class DecimalPkg := {
  Dec : Type;
  dec_Zero : Dec;
  dec_NewFromInt : Z -> Dec;
  (** [decimal.NewFromFloat(math.MaxFloat32)] *)
  dec_MaxFloat32 : Dec;
  dec_Add : Dec -> Dec -> Dec;
  dec_Sub : Dec -> Dec -> Dec;
  dec_Mul : Dec -> Dec -> Dec;
  dec_Neg : Dec -> Dec;
  (** [Div] and [Mod] panic on a zero divisor: [None]. *)
  dec_Div : Dec -> Dec -> option Dec;
  dec_Mod : Dec -> Dec -> option Dec;
  dec_Truncate : Dec -> Z -> Dec;
  dec_Round : Dec -> Z -> Dec;
  dec_Cmp : Dec -> Dec -> Z;
  dec_Equal : Dec -> Dec -> bool;
  dec_LessThan : Dec -> Dec -> bool;
  dec_LessThanOrEqual : Dec -> Dec -> bool;
  dec_GreaterThan : Dec -> Dec -> bool;
  dec_GreaterThanOrEqual : Dec -> Dec -> bool;
  dec_IsZero : Dec -> bool;
  dec_IsPositive : Dec -> bool;
  dec_Min : Dec -> Dec -> Dec;
  dec_Max : Dec -> Dec -> Dec;
  dec_String : Dec -> string;
}.

(** One unit of the [p]-th decimal place. *)
Definition ulp (p : Z) : Q := (/ inject_Z (10 ^ p))%Q.

(** The number of digits [Div] keeps: the package's [DivisionPrecision]. *)
Definition DivisionPrecision : Z := 16.

(** ** The documented behaviour *)

Class DecimalLaws (P : DecimalPkg) := {
  dval : Dec -> Q;
  dval_Zero : (dval dec_Zero == 0)%Q;
  dval_NewFromInt z : (dval (dec_NewFromInt z) == inject_Z z)%Q;
  dval_MaxFloat32 : (inject_Z (3 * 10 ^ 38) <= dval dec_MaxFloat32)%Q;
  dval_Add a b : (dval (dec_Add a b) == dval a + dval b)%Q;
  dval_Sub a b : (dval (dec_Sub a b) == dval a - dval b)%Q;
  dval_Mul a b : (dval (dec_Mul a b) == dval a * dval b)%Q;
  dval_Neg a : (dval (dec_Neg a) == - dval a)%Q;
  dec_Div_None a b : dec_Div a b = None <-> (dval b == 0)%Q;
  dval_Div a b q : dec_Div a b = Some q ->
    (Qabs (dval q * dval b - dval a) <= (1 # 2) * ulp DivisionPrecision * Qabs (dval b))%Q;
  dec_Mod_None a b : dec_Mod a b = None <-> (dval b == 0)%Q;
  dval_Mod a b m : dec_Mod a b = Some m ->
    exists q, (dval a == inject_Z q * dval b + dval m)%Q /\ (Qabs (dval m) < Qabs (dval b))%Q;
  dval_Truncate_mult d p : 0 <= p ->
    exists z, (dval (dec_Truncate d p) == inject_Z z * ulp p)%Q;
  dval_Truncate_pos d p : 0 <= p -> (0 <= dval d)%Q ->
    (0 <= dval (dec_Truncate d p) /\ dval (dec_Truncate d p) <= dval d
     /\ dval d - dval (dec_Truncate d p) < ulp p)%Q;
  dval_Truncate_neg d p : 0 <= p -> (dval d <= 0)%Q ->
    (dval (dec_Truncate d p) <= 0 /\ dval d <= dval (dec_Truncate d p)
     /\ dval (dec_Truncate d p) - dval d < ulp p)%Q;
  dval_Round_mult d p : 0 <= p ->
    exists z, (dval (dec_Round d p) == inject_Z z * ulp p)%Q;
  dval_Round d p : 0 <= p ->
    (Qabs (dval (dec_Round d p) - dval d) <= (1 # 2) * ulp p)%Q;
  dec_Cmp_val a b :
    dec_Cmp a b = match (dval a ?= dval b)%Q with Lt => -1 | Eq => 0 | Gt => 1 end;
  dec_Equal_val a b : dec_Equal a b = Qeq_bool (dval a) (dval b);
  dec_LessThan_val a b : dec_LessThan a b = negb (Qle_bool (dval b) (dval a));
  dec_LessThanOrEqual_val a b : dec_LessThanOrEqual a b = Qle_bool (dval a) (dval b);
  dec_GreaterThan_val a b : dec_GreaterThan a b = negb (Qle_bool (dval a) (dval b));
  dec_GreaterThanOrEqual_val a b : dec_GreaterThanOrEqual a b = Qle_bool (dval b) (dval a);
  dec_IsZero_val a : dec_IsZero a = Qeq_bool (dval a) 0;
  dec_IsPositive_val a : dec_IsPositive a = negb (Qle_bool (dval a) 0);
  dec_Min_val a b : dec_Min a b = a /\ (dval a <= dval b)%Q \/ dec_Min a b = b /\ (dval b <= dval a)%Q;
  dec_Max_val a b : dec_Max a b = a /\ (dval b <= dval a)%Q \/ dec_Max a b = b /\ (dval a <= dval b)%Q;
  (** Every digit is printed, and trailing zeros are not. *)
  dec_String_val a b : dec_String a = dec_String b <-> (dval a == dval b)%Q;
}.

(** ** Reasoning from the laws *)

Section Laws.
Context {P : DecimalPkg} {L : DecimalLaws P}.

Lemma negb_Qle_true (x y : Q) : negb (Qle_bool x y) = true <-> (y < x)%Q.
Proof.
  rewrite negb_true_iff, <- not_true_iff_false, Qle_bool_iff. split.
  - apply Qnot_le_lt.
  - apply Qlt_not_le.
Qed.
Lemma negb_Qle_false (x y : Q) : negb (Qle_bool x y) = false <-> (x <= y)%Q.
Proof. rewrite negb_false_iff. apply Qle_bool_iff. Qed.
Lemma Qle_bool_false (x y : Q) : Qle_bool x y = false <-> (y < x)%Q.
Proof. rewrite <- negb_Qle_true, negb_true_iff. done. Qed.
Lemma Qeq_bool_false (x y : Q) : Qeq_bool x y = false <-> ~ (x == y)%Q.
Proof. rewrite <- not_true_iff_false, Qeq_bool_iff. done. Qed.

Lemma Equal_true a b : dec_Equal a b = true <-> (dval a == dval b)%Q.
Proof. rewrite dec_Equal_val. apply Qeq_bool_iff. Qed.
Lemma Equal_false a b : dec_Equal a b = false <-> ~ (dval a == dval b)%Q.
Proof. rewrite dec_Equal_val. apply Qeq_bool_false. Qed.
Lemma LessThan_true a b : dec_LessThan a b = true <-> (dval a < dval b)%Q.
Proof. rewrite dec_LessThan_val. apply negb_Qle_true. Qed.
Lemma LessThan_false a b : dec_LessThan a b = false <-> (dval b <= dval a)%Q.
Proof. rewrite dec_LessThan_val. apply negb_Qle_false. Qed.
Lemma LessThanOrEqual_true a b : dec_LessThanOrEqual a b = true <-> (dval a <= dval b)%Q.
Proof. rewrite dec_LessThanOrEqual_val. apply Qle_bool_iff. Qed.
Lemma LessThanOrEqual_false a b : dec_LessThanOrEqual a b = false <-> (dval b < dval a)%Q.
Proof. rewrite dec_LessThanOrEqual_val. apply Qle_bool_false. Qed.
Lemma GreaterThan_true a b : dec_GreaterThan a b = true <-> (dval b < dval a)%Q.
Proof. rewrite dec_GreaterThan_val. apply negb_Qle_true. Qed.
Lemma GreaterThan_false a b : dec_GreaterThan a b = false <-> (dval a <= dval b)%Q.
Proof. rewrite dec_GreaterThan_val. apply negb_Qle_false. Qed.
Lemma GreaterThanOrEqual_true a b : dec_GreaterThanOrEqual a b = true <-> (dval b <= dval a)%Q.
Proof. rewrite dec_GreaterThanOrEqual_val. apply Qle_bool_iff. Qed.
Lemma GreaterThanOrEqual_false a b : dec_GreaterThanOrEqual a b = false <-> (dval a < dval b)%Q.
Proof. rewrite dec_GreaterThanOrEqual_val. apply Qle_bool_false. Qed.
Lemma IsZero_true a : dec_IsZero a = true <-> (dval a == 0)%Q.
Proof. rewrite dec_IsZero_val. apply Qeq_bool_iff. Qed.
Lemma IsZero_false a : dec_IsZero a = false <-> ~ (dval a == 0)%Q.
Proof. rewrite dec_IsZero_val. apply Qeq_bool_false. Qed.
Lemma IsPositive_true a : dec_IsPositive a = true <-> (0 < dval a)%Q.
Proof. rewrite dec_IsPositive_val. apply negb_Qle_true. Qed.
Lemma IsPositive_false a : dec_IsPositive a = false <-> (dval a <= 0)%Q.
Proof. rewrite dec_IsPositive_val. apply negb_Qle_false. Qed.

Lemma Cmp_neg a b : dec_Cmp a b < 0 <-> (dval a < dval b)%Q.
Proof.
  rewrite dec_Cmp_val. destruct (Qcompare_spec (dval a) (dval b)) as [H|H|H].
  - split; [lia|lra].
  - split; [done|lia].
  - split; [lia|lra].
Qed.
Lemma Cmp_pos a b : 0 < dec_Cmp a b <-> (dval b < dval a)%Q.
Proof.
  rewrite dec_Cmp_val. destruct (Qcompare_spec (dval a) (dval b)) as [H|H|H].
  - split; [lia|lra].
  - split; [lia|lra].
  - split; [done|lia].
Qed.
Lemma Cmp_zero a b : dec_Cmp a b = 0 <-> (dval a == dval b)%Q.
Proof.
  rewrite dec_Cmp_val. destruct (Qcompare_spec (dval a) (dval b)) as [H|H|H].
  - split; [done|lia].
  - split; [lia|lra].
  - split; [lia|lra].
Qed.
End Laws.

(** [dec_prop] turns the code's tests in the context into statements on values. *)
Ltac dec_prop1 :=
  match goal with
  | H : dec_Equal _ _ = true |- _ => apply Equal_true in H
  | H : dec_Equal _ _ = false |- _ => apply Equal_false in H
  | H : dec_LessThan _ _ = true |- _ => apply LessThan_true in H
  | H : dec_LessThan _ _ = false |- _ => apply LessThan_false in H
  | H : dec_LessThanOrEqual _ _ = true |- _ => apply LessThanOrEqual_true in H
  | H : dec_LessThanOrEqual _ _ = false |- _ => apply LessThanOrEqual_false in H
  | H : dec_GreaterThan _ _ = true |- _ => apply GreaterThan_true in H
  | H : dec_GreaterThan _ _ = false |- _ => apply GreaterThan_false in H
  | H : dec_GreaterThanOrEqual _ _ = true |- _ => apply GreaterThanOrEqual_true in H
  | H : dec_GreaterThanOrEqual _ _ = false |- _ => apply GreaterThanOrEqual_false in H
  | H : dec_IsZero _ = true |- _ => apply IsZero_true in H
  | H : dec_IsZero _ = false |- _ => apply IsZero_false in H
  | H : dec_IsPositive _ = true |- _ => apply IsPositive_true in H
  | H : dec_IsPositive _ = false |- _ => apply IsPositive_false in H
  end.
Ltac dec_prop := repeat dec_prop1.

(** [dec_laws] adds the law of every operation whose value is mentioned;
    [dec_lra] then solves what follows by linear arithmetic on the values. *)
Ltac dec_learn pf :=
  let T := type of pf in
  lazymatch goal with
  | _ : T |- _ => fail
  | _ => pose proof pf
  end.
Ltac dec_law e :=
  lazymatch e with
  | @dval ?P ?L dec_Zero => dec_learn (@dval_Zero P L)
  | dval (dec_NewFromInt ?z) => dec_learn (dval_NewFromInt z)
  | dval (dec_Add ?a ?b) => dec_learn (dval_Add a b)
  | dval (dec_Sub ?a ?b) => dec_learn (dval_Sub a b)
  | dval (dec_Mul ?a ?b) => dec_learn (dval_Mul a b)
  | dval (dec_Neg ?a) => dec_learn (dval_Neg a)
  | dval (dec_Min ?a ?b) =>
      let H := fresh in destruct (dec_Min_val a b) as [[H ?]|[H ?]]; rewrite H in *; clear H
  | dval (dec_Max ?a ?b) =>
      let H := fresh in destruct (dec_Max_val a b) as [[H ?]|[H ?]]; rewrite H in *; clear H
  end.
Ltac dec_laws :=
  repeat match goal with
  | |- context [dval ?d] => dec_law (dval d)
  | H : context [dval ?d] |- _ => dec_law (dval d)
  end.
Ltac dec_lra := dec_prop; dec_laws; lra.

(** ** Equality of values *)

Section Equiv.
Context {P : DecimalPkg} {L : DecimalLaws P}.

Definition deq (a b : Dec) : Prop := (dval a == dval b)%Q.

#[export] Instance deq_equivalence : Equivalence deq.
Proof.
  split.
  - intros a. unfold deq. reflexivity.
  - intros a b H. unfold deq in *. lra.
  - intros a b c H1 H2. unfold deq in *. lra.
Qed.

#[export] Instance dval_proper : Proper (deq ==> Qeq) dval.
Proof. intros a b H. exact H. Qed.
#[export] Instance dec_Add_proper : Proper (deq ==> deq ==> deq) dec_Add.
Proof. intros a b H c d H'. unfold deq in *. dec_lra. Qed.
#[export] Instance dec_Sub_proper : Proper (deq ==> deq ==> deq) dec_Sub.
Proof. intros a b H c d H'. unfold deq in *. dec_lra. Qed.
#[export] Instance dec_Neg_proper : Proper (deq ==> deq) dec_Neg.
Proof. intros a b H. unfold deq in *. dec_lra. Qed.
#[export] Instance dec_Mul_proper : Proper (deq ==> deq ==> deq) dec_Mul.
Proof.
  intros a b H c d H'. unfold deq in *.
  rewrite !dval_Mul. rewrite H, H'. reflexivity.
Qed.
#[export] Instance dec_Cmp_proper : Proper (deq ==> deq ==> eq) dec_Cmp.
Proof.
  intros a b H c d H'. unfold deq in *.
  rewrite !dec_Cmp_val, H, H'. reflexivity.
Qed.
#[export] Instance dec_IsZero_proper : Proper (deq ==> eq) dec_IsZero.
Proof.
  intros a b H. unfold deq in *. rewrite !dec_IsZero_val, H. reflexivity.
Qed.

Lemma dec_Add_comm a b : deq (dec_Add a b) (dec_Add b a).
Proof. unfold deq. dec_lra. Qed.
Lemma dec_Add_assoc a b c : deq (dec_Add a (dec_Add b c)) (dec_Add (dec_Add a b) c).
Proof. unfold deq. dec_lra. Qed.
Lemma dec_Sub_diag a b : deq a b -> deq (dec_Sub a b) dec_Zero.
Proof. unfold deq. intros. dec_lra. Qed.

Lemma Min_val a b : (dval (dec_Min a b) <= dval a /\ dval (dec_Min a b) <= dval b)%Q.
Proof. split; dec_lra. Qed.
Lemma Min_pos a b : (0 < dval a -> 0 < dval b -> 0 < dval (dec_Min a b))%Q.
Proof. intros. dec_lra. Qed.

(** The sum of the values of a list of decimals. *)
Definition dsum (l : list Dec) : Q := foldr (fun d q => dval d + q)%Q 0%Q l.

Lemma dsum_cons d l : (dsum (d :: l) == dval d + dsum l)%Q.
Proof. reflexivity. Qed.
Lemma dsum_app l1 l2 : (dsum (l1 ++ l2) == dsum l1 + dsum l2)%Q.
Proof.
  induction l1 as [|d l1 IH]; simpl.
  - ring.
  - rewrite IH. ring.
Qed.
Lemma dsum_perm l1 l2 : l1 ≡ₚ l2 -> (dsum l1 == dsum l2)%Q.
Proof.
  induction 1 as [|d l1 l2 _ IH|d e l|l1 l2 l3 _ IH1 _ IH2]; simpl.
  - reflexivity.
  - rewrite IH. reflexivity.
  - ring.
  - rewrite IH1. exact IH2.
Qed.
Lemma dsum_nonneg l : Forall (fun d => 0 <= dval d)%Q l -> (0 <= dsum l)%Q.
Proof. induction 1; simpl; lra. Qed.
End Equiv.

Notation "a ≡d b" := (deq a b) (at level 70, no associativity) : go_scope.
Open Scope go_scope.

Lemma ulp_pos p : 0 <= p -> (0 < ulp p)%Q.
Proof.
  intros. unfold ulp. apply Qinv_lt_0_compat.
  assert (0 < 10 ^ p) by (apply Z.pow_pos_nonneg; lia).
  change 0%Q with (inject_Z 0). rewrite <- Zlt_Qlt. lia.
Qed.

Lemma ulp_coarser p : 0 <= p < DivisionPrecision -> (10 * ulp DivisionPrecision <= ulp p)%Q.
Proof.
  intros Hp. assert (Hc : p ∈ seqZ 0 DivisionPrecision) by (apply elem_of_seqZ; lia).
  vm_compute in Hc. repeat (apply elem_of_cons in Hc as [->|Hc]; [vm_compute; discriminate|]).
  by apply elem_of_nil in Hc.
Qed.

(** ** A concrete implementation: exact rationals *)

Module QDecimal.
Definition scale (p : Z) : positive := Z.to_pos (10 ^ p).

(** [q] times [10^p], rounded half away from zero, over [10^p]. *)
Definition roundAway (q : Q) (p : Z) : Q :=
  let n := Qnum q * Zpos (scale p) in
  let d := Zpos (Qden q) in
  (Z.sgn n * ((2 * Z.abs n + d) / (2 * d))) # scale p.

Definition truncate (q : Q) (p : Z) : Q :=
  if p <? 0 then q else (Z.quot (Qnum q * Zpos (scale p)) (Zpos (Qden q))) # scale p.

Definition div (a b : Q) : option Q :=
  if Qeq_bool b 0 then None else Some (roundAway (a / b) DivisionPrecision).

Definition rem (a b : Q) : option Q :=
  if Qeq_bool b 0 then None
  else Some (a - inject_Z (Z.quot (Qnum (a / b)) (Zpos (Qden (a / b)))) * b)%Q.

Definition cmp (a b : Q) : Z := match (a ?= b)%Q with Lt => -1 | Eq => 0 | Gt => 1 end.

(** One number for the reduced fraction. *)
Definition to_string (q : Q) : string := let r := Qred q in pretty (encode (Qnum r, Qden r)).

Lemma to_string_eq a b : to_string a = to_string b <-> (a == b)%Q.
Proof.
  unfold to_string. split.
  - intros H. apply (inj pretty), (inj encode) in H. injection H as Hn Hd.
    rewrite <- (Qred_correct a), <- (Qred_correct b). destruct (Qred a), (Qred b). simpl in *. by subst.
  - intros H. by rewrite (Qred_complete _ _ H).
Qed.

Definition pkg : DecimalPkg := {|
  Dec := Q;
  dec_Zero := 0%Q;
  dec_NewFromInt := inject_Z;
  dec_MaxFloat32 := inject_Z (34028234663852886 * 10 ^ 22);
  dec_Add := Qplus;
  dec_Sub := Qminus;
  dec_Mul := Qmult;
  dec_Neg := Qopp;
  dec_Div := div;
  dec_Mod := rem;
  dec_Truncate := truncate;
  dec_Round := roundAway;
  dec_Cmp := cmp;
  dec_Equal := Qeq_bool;
  dec_LessThan := fun a b => negb (Qle_bool b a);
  dec_LessThanOrEqual := Qle_bool;
  dec_GreaterThan := fun a b => negb (Qle_bool a b);
  dec_GreaterThanOrEqual := fun a b => Qle_bool b a;
  dec_IsZero := fun a => Qeq_bool a 0;
  dec_IsPositive := fun a => negb (Qle_bool a 0);
  dec_Min := fun a b => if Qle_bool a b then a else b;
  dec_Max := fun a b => if Qle_bool b a then a else b;
  dec_String := to_string;
|}.

Lemma scale_val p : 0 <= p -> Zpos (scale p) = 10 ^ p.
Proof. intros. unfold scale. rewrite Z2Pos.id; [done|]. apply Z.pow_pos_nonneg; lia. Qed.

Lemma make_mult z p : 0 <= p -> (z # scale p == inject_Z z * ulp p)%Q.
Proof.
  intros. rewrite Qmake_Qdiv. unfold ulp, Qdiv. rewrite <- scale_val by done. reflexivity.
Qed.

(** Both roundings, as bounds on the numerators. *)
Lemma le_make z p q : 0 <= p ->
  (z # scale p <= q)%Q <-> z * Zpos (Qden q) <= Qnum q * 10 ^ p.
Proof. intros. unfold Qle. simpl. rewrite scale_val by done. done. Qed.
Lemma ge_make z p q : 0 <= p ->
  (q <= z # scale p)%Q <-> Qnum q * 10 ^ p <= z * Zpos (Qden q).
Proof. intros. unfold Qle. simpl. rewrite scale_val by done. done. Qed.

Lemma half_ulp p : 0 <= p -> ((1 # 2) * ulp p == 1 # (2 * scale p))%Q.
Proof.
  intros. unfold ulp. rewrite <- scale_val by done.
  unfold Qeq. simpl. lia.
Qed.

Lemma sub_make_bound z p q b : 0 <= p ->
  (Qabs ((z # scale p) - q) <= b # (2 * scale p))%Q <->
  2 * Z.abs (z * Zpos (Qden q) - Qnum q * 10 ^ p) <= b * Zpos (Qden q).
Proof.
  intros Hp. destruct q as [n d]. unfold Qabs, Qle, Qminus, Qplus, Qopp. simpl.
  rewrite !Pos2Z.inj_mul. rewrite scale_val by done.
  assert (0 < 10 ^ p) by (apply Z.pow_pos_nonneg; lia).
  replace (z * Zpos d + - n * 10 ^ p) with (z * Zpos d - n * 10 ^ p) by lia.
  split; intros.
  - apply Z.mul_le_mono_pos_r with (p := 10 ^ p); [done|]. lia.
  - transitivity (10 ^ p * (2 * Z.abs (z * Zpos d - n * 10 ^ p))); [lia|].
    transitivity (10 ^ p * (b * Zpos d)); [|lia].
    apply Z.mul_le_mono_nonneg_l; lia.
Qed.

Lemma roundAway_bound q p : 0 <= p ->
  (Qabs (roundAway q p - q) <= (1 # 2) * ulp p)%Q.
Proof.
  intros Hp. rewrite half_ulp by done. unfold roundAway.
  apply sub_make_bound; [done|]. rewrite scale_val by done.
  set (n := Qnum q * 10 ^ p). set (d := Zpos (Qden q)).
  assert (0 < d) by (unfold d; lia).
  pose proof (Z_div_mod_eq_full (2 * Z.abs n + d) (2 * d)) as Hdiv.
  pose proof (Z.mod_pos_bound (2 * Z.abs n + d) (2 * d) ltac:(lia)) as Hmod.
  set (k := (2 * Z.abs n + d) / (2 * d)) in *.
  destruct (Z.lt_trichotomy n 0) as [Hn|[Hn|Hn]].
  - replace (Z.abs n) with (- n) in * by lia. rewrite (Z.sgn_neg n) by done. nia.
  - rewrite Hn. simpl. lia.
  - replace (Z.abs n) with n in * by lia. rewrite (Z.sgn_pos n) by done. nia.
Qed.

Lemma div_bound a b q : div a b = Some q ->
  (Qabs (q * b - a) <= (1 # 2) * ulp DivisionPrecision * Qabs b)%Q.
Proof.
  unfold div. destruct (Qeq_bool b 0) eqn:Hb; [discriminate|]. intros [= <-].
  apply Qeq_bool_false in Hb.
  assert (E : (roundAway (a / b) DivisionPrecision * b - a
               == (roundAway (a / b) DivisionPrecision - a / b) * b)%Q) by (field; exact Hb).
  rewrite E, Qabs_Qmult. apply Qmult_le_compat_r.
  - by apply roundAway_bound.
  - apply Qabs_nonneg.
Qed.

Lemma truncate_pos q p : 0 <= p -> (0 <= q)%Q ->
  (0 <= truncate q p /\ truncate q p <= q /\ q - truncate q p < ulp p)%Q.
Proof.
  intros Hp Hq. unfold truncate. destruct (Z.ltb_spec p 0) as [?|_]; [lia|].
  rewrite scale_val by done.
  assert (Hn : 0 <= Qnum q) by (unfold Qle in Hq; simpl in Hq; lia).
  assert (Hs : 0 < 10 ^ p) by (apply Z.pow_pos_nonneg; lia).
  rewrite Z.quot_div_nonneg by nia.
  set (d := Zpos (Qden q)). assert (0 < d) by (unfold d; lia).
  pose proof (Z_div_mod_eq_full (Qnum q * 10 ^ p) d).
  pose proof (Z.mod_pos_bound (Qnum q * 10 ^ p) d ltac:(lia)).
  split; [|split].
  - apply ge_make; [done|]. simpl. apply Z.mul_nonneg_nonneg; [|lia].
    apply Z.div_pos; nia.
  - apply le_make; [done|]. fold d. nia.
  - destruct q as [n d']. unfold Qlt, Qminus, Qplus, Qopp, ulp, Qinv. simpl in *.
    rewrite <- (scale_val p) in * by done. simpl. subst d. nia.
Qed.

Lemma truncate_opp q p : truncate (- q) p = (- truncate q p)%Q.
Proof.
  unfold truncate. destruct (p <? 0); [done|]. destruct q as [n d].
  unfold Qopp. simpl. f_equal. rewrite Z.mul_opp_l. apply Z.quot_opp_l. lia.
Qed.

Lemma rem_spec a b m : rem a b = Some m ->
  exists q, (a == inject_Z q * b + m)%Q /\ (Qabs m < Qabs b)%Q.
Proof.
  unfold rem. destruct (Qeq_bool b 0) eqn:Hb; [discriminate|].
  apply Qeq_bool_false in Hb.
  set (k := Z.quot (Qnum (a / b)) (Zpos (Qden (a / b)))). intros Hm.
  assert (m = a - inject_Z k * b)%Q as -> by congruence. clear Hm.
  exists k. split; [generalize (inject_Z k); intros; ring|].
  assert (E : (a - inject_Z k * b == (a / b - inject_Z k) * b)%Q) by (generalize (inject_Z k); intros; field; exact Hb).
  rewrite E, Qabs_Qmult. rewrite <- (Qmult_1_l (Qabs b)) at 2.
  apply Qmult_lt_compat_r.
  - destruct (Qlt_le_dec 0 (Qabs b)) as [|Hle]; [done|]. exfalso. apply Hb.
    pose proof (Qabs_nonneg b). destruct (Qlt_le_dec b 0).
    + rewrite Qabs_neg in * by lra. lra.
    + rewrite Qabs_pos in * by lra. lra.
  - subst k. destruct (a / b)%Q as [n d]. simpl.
    unfold Qabs, Qlt, Qminus, Qplus, Qopp. simpl.
    pose proof (Z.quot_rem' n (Zpos d)). pose proof (Z.rem_bound_abs n (Zpos d) ltac:(lia)).
    lia.
Qed.
Definition val (d : @Dec pkg) : Q := d.

Lemma Qeq_bool_None {A} (x : A) b : (if Qeq_bool b 0 then None else Some x) = None <-> (b == 0)%Q.
Proof.
  destruct (Qeq_bool b 0) eqn:E.
  - apply Qeq_bool_iff in E. done.
  - apply Qeq_bool_false in E. split; [discriminate|contradiction].
Qed.

#[refine] Definition laws : DecimalLaws pkg := {| dval := val |}.
Proof.
  all: unfold val; simpl; try reflexivity.
  - unfold Qle. simpl. lia.
  - intros. apply Qeq_bool_None.
  - intros. by apply div_bound.
  - intros. apply Qeq_bool_None.
  - intros. by apply rem_spec.
  - intros d p Hp. unfold truncate. destruct (Z.ltb_spec p 0); [lia|].
    eexists. by apply make_mult.
  - intros. by apply truncate_pos.
  - intros d p Hp Hd. destruct (truncate_pos (- d) p Hp) as (H1 & H2 & H3); [lra|].
    rewrite truncate_opp in *. lra.
  - intros d p Hp. unfold roundAway. eexists. by apply make_mult.
  - intros. by apply roundAway_bound.
  - intros a b. destruct (Qle_bool a b) eqn:E.
    + apply Qle_bool_iff in E. auto.
    + apply Qle_bool_false in E. right. split; [done|lra].
  - intros a b. destruct (Qle_bool b a) eqn:E.
    + apply Qle_bool_iff in E. auto.
    + apply Qle_bool_false in E. right. split; [done|lra].
  - apply to_string_eq.
Defined.
End QDecimal.
