(* ===== verification/TreeMap.v ===== *)
(** The interface of [github.com/emirpasic/gods/maps/treemap], the ordered map
    both order books keep their queues in.

    The package is a parameter: [TreeMapPkg] lists the operations the code
    calls, [TreeMapLaws] what it relies on, stated through the sequence of
    entries [tm_elems] that an in-order traversal visits.  The iterator is
    [tm_Next t pos]: the entry after the key [pos] it stands on ([None] before
    the first), looked up in the tree as it is now.  That covers the one way
    the code changes a tree under an iterator, which is to remove the key the
    iterator stands on.  [SortedList] is a concrete implementation. *)
From Stdlib Require Import Sorted.
From S2P Require Import Prelude.
Open Scope Z_scope.

Class TreeMapPkg := {
  TreeMap : Type -> Type -> Type;
  tm_NewWith : forall {K V}, (K -> K -> Z) -> TreeMap K V;
  tm_Put : forall {K V}, TreeMap K V -> K -> V -> TreeMap K V;
  tm_Remove : forall {K V}, TreeMap K V -> K -> TreeMap K V;
  tm_Get : forall {K V}, TreeMap K V -> K -> option V;
  tm_Min : forall {K V}, TreeMap K V -> option (K * V);
  tm_Max : forall {K V}, TreeMap K V -> option (K * V);
  tm_Size : forall {K V}, TreeMap K V -> nat;
  tm_Next : forall {K V}, TreeMap K V -> option K -> option (K * V);
}.

(** A comparator orders its keys totally. *)
Record CmpOrder {K} (cmp : K -> K -> Z) : Prop := {
  cmp_refl a : cmp a a = 0;
  cmp_anti a b : cmp a b < 0 <-> 0 < cmp b a;
  cmp_trans a b c : cmp a b <= 0 -> cmp b c <= 0 -> cmp a c <= 0;
}.
Arguments cmp_refl {K cmp} _ _.
Arguments cmp_anti {K cmp} _ _ _.
Arguments cmp_trans {K cmp} _ _ _ _.

(** ** Ordered association lists: what an ordered map promises *)

Section SortedList.
Context {K V : Type} (cmp : K -> K -> Z).
Implicit Types (l : list (K * V)) (k : K) (v : V).

Fixpoint sl_put k v l : list (K * V) :=
  match l with
  | [] => [(k, v)]
  | (k', v') :: l' =>
      if cmp k k' <? 0 then (k, v) :: l
      else if cmp k k' =? 0 then (k, v) :: l'
      else (k', v') :: sl_put k v l'
  end.

Fixpoint sl_remove k l : list (K * V) :=
  match l with
  | [] => []
  | (k', v') :: l' => if cmp k k' =? 0 then l' else (k', v') :: sl_remove k l'
  end.

Fixpoint sl_get k l : option V :=
  match l with
  | [] => None
  | (k', v') :: l' => if cmp k k' =? 0 then Some v' else sl_get k l'
  end.

(** The first entry behind the position. *)
Fixpoint sl_next (pos : option K) l : option (K * V) :=
  match l with
  | [] => None
  | (k', v') :: l' =>
      match pos with
      | None => Some (k', v')
      | Some p => if 0 <? cmp k' p then Some (k', v') else sl_next pos l'
      end
  end.

Definition sl_lt (a b : K * V) : Prop := cmp a.1 b.1 < 0.
Definition sl_sorted l : Prop := StronglySorted sl_lt l.

Context (C : CmpOrder cmp).

Lemma cmp_lt_trans a b c : cmp a b < 0 -> cmp b c <= 0 -> cmp a c < 0.
Proof.
  intros H1 H2. destruct (Z.lt_ge_cases (cmp a c) 0) as [|H3]; [done|].
  exfalso. pose proof (cmp_anti C a c). pose proof (cmp_anti C c a).
  assert (cmp c b <= 0) by (apply (cmp_trans C c a b); lia).
  pose proof (cmp_anti C b a). pose proof (cmp_anti C a b). pose proof (cmp_anti C b c).
  assert (cmp b a <= 0) by (apply (cmp_trans C b c a); lia). lia.
Qed.
Lemma cmp_le_lt_trans a b c : cmp a b <= 0 -> cmp b c < 0 -> cmp a c < 0.
Proof.
  intros H1 H2. destruct (Z.lt_ge_cases (cmp a c) 0) as [|H3]; [done|].
  exfalso. pose proof (cmp_anti C a c). pose proof (cmp_anti C c a).
  assert (cmp c b <= 0) by (apply (cmp_trans C c a b); lia).
  pose proof (cmp_anti C b c). pose proof (cmp_anti C c b). lia.
Qed.
Lemma cmp_eq_sym a b : cmp a b = 0 -> cmp b a = 0.
Proof. pose proof (cmp_anti C a b). pose proof (cmp_anti C b a). lia. Qed.
Lemma cmp_gt a b : 0 < cmp a b <-> cmp b a < 0.
Proof. pose proof (cmp_anti C b a). lia. Qed.

Lemma sl_sorted_cons a l : sl_sorted (a :: l) <-> sl_sorted l /\ Forall (sl_lt a) l.
Proof.
  split.
  - intros H. by apply StronglySorted_inv in H.
  - intros [H1 H2]. by constructor.
Qed.

Lemma sl_lt_head k v a l :
  cmp k a.1 < 0 -> sl_sorted (a :: l) -> Forall (sl_lt (k, v)) (a :: l).
Proof.
  intros Hk [_ Hl]%sl_sorted_cons. constructor; [done|].
  eapply Forall_impl; [exact Hl|]. intros b Hb. unfold sl_lt in *. simpl.
  eapply cmp_lt_trans; [exact Hk|lia].
Qed.

Lemma sl_put_Forall k v (Q : K * V -> Prop) l :
  Q (k, v) -> Forall Q l -> Forall Q (sl_put k v l).
Proof.
  intros Hk. induction 1 as [|[k' v'] l Hx Hl IH]; simpl.
  - by repeat constructor.
  - repeat case_bool; repeat constructor; done.
Qed.

Lemma sl_put_sorted k v l : sl_sorted l -> sl_sorted (sl_put k v l).
Proof.
  induction l as [|[k' v'] l IH]; intros Hs; simpl.
  - apply sl_sorted_cons. split; [constructor|done].
  - repeat case_bool.
    + apply sl_sorted_cons. split; [done|]. apply sl_lt_head; [simpl; lia|done].
    + apply sl_sorted_cons in Hs as [Hs Hf]. apply sl_sorted_cons. split; [done|].
      eapply Forall_impl; [exact Hf|]. intros b Hb. unfold sl_lt in *. simpl in *.
      eapply cmp_le_lt_trans; [|exact Hb]. lia.
    + apply sl_sorted_cons in Hs as [Hs Hf]. apply sl_sorted_cons. split; [auto|].
      apply sl_put_Forall; [|done]. unfold sl_lt. simpl.
      pose proof (cmp_anti C k k'). pose proof (cmp_anti C k' k). lia.
Qed.

Lemma sl_remove_Forall k (Q : K * V -> Prop) l : Forall Q l -> Forall Q (sl_remove k l).
Proof.
  induction 1 as [|[k' v'] l Hx Hl IH]; simpl; [done|].
  case_bool; [done|by constructor].
Qed.

Lemma sl_remove_sorted k l : sl_sorted l -> sl_sorted (sl_remove k l).
Proof.
  induction l as [|[k' v'] l IH]; intros Hs; simpl; [done|].
  apply sl_sorted_cons in Hs as [Hs Hf]. case_bool; [done|].
  apply sl_sorted_cons. split; [auto|]. by apply sl_remove_Forall.
Qed.

(** Putting a key that no entry carries adds one entry. *)
Lemma sl_put_perm k v l :
  Forall (fun e => cmp k e.1 <> 0) l -> sl_put k v l ≡ₚ (k, v) :: l.
Proof.
  induction 1 as [|[k' v'] l Hx Hl IH]; simpl; [done|]. simpl in Hx.
  repeat case_bool; [done|lia|]. rewrite IH. apply Permutation_swap.
Qed.

Lemma sl_sorted_neq a b l : sl_sorted (a :: l) -> b ∈ l -> cmp a.1 b.1 < 0.
Proof. intros [_ H]%sl_sorted_cons Hb. rewrite Forall_forall in H. by apply H. Qed.

Lemma elem_sl_remove k l e :
  sl_sorted l -> e ∈ sl_remove k l <-> e ∈ l /\ cmp k e.1 <> 0.
Proof.
  induction l as [|[k' v'] l IH]; intros Hs; simpl.
  { split; [intros H|intros [H _]]; inversion H. }
  assert (Hlt : forall b, b ∈ l -> cmp k' b.1 < 0).
  { intros b Hb. exact (sl_sorted_neq (k', v') b l Hs Hb). }
  apply sl_sorted_cons in Hs as [Hs _]. destruct (Z.eqb_spec (cmp k k') 0) as [E|E].
  - rewrite elem_of_cons. split.
    + intros He. split; [auto|]. intros E'. specialize (Hlt e He).
      pose proof (cmp_le_lt_trans k k' e.1). lia.
    + intros [[->|He] H]; done.
  - rewrite !elem_of_cons, IH by done. split.
    + intros [->|[? ?]]; auto.
    + intros [[->|?] ?]; auto.
Qed.

Lemma elem_sl_put k v l e :
  sl_sorted l -> e ∈ sl_put k v l <-> e = (k, v) \/ e ∈ l /\ cmp k e.1 <> 0.
Proof.
  induction l as [|[k' v'] l IH]; intros Hs; simpl.
  { rewrite list_elem_of_singleton. split; [auto|]. intros [?|[H _]]; [done|inversion H]. }
  assert (Hlt : forall b, b ∈ l -> cmp k' b.1 < 0).
  { intros b Hb. exact (sl_sorted_neq (k', v') b l Hs Hb). }
  apply sl_sorted_cons in Hs as [Hs _]. destruct (Z.ltb_spec (cmp k k') 0) as [Hk|Hk].
  - rewrite !elem_of_cons. split; [|tauto]. intros [->|[->|Hin]]; [auto|right; split; [auto|simpl; lia]|].
    right. split; [auto|]. pose proof (cmp_lt_trans k k' e.1). pose proof (Hlt e Hin). lia.
  - destruct (Z.eqb_spec (cmp k k') 0) as [E|E].
    + rewrite !elem_of_cons. split.
      * intros [->|Hin]; [auto|]. right. split; [auto|]. specialize (Hlt e Hin).
        pose proof (cmp_le_lt_trans k k' e.1). lia.
      * intros [->|[[->|Hin] H]]; [auto|done|auto].
    + rewrite !elem_of_cons, IH by done. split.
      * intros [->|[->|[? ?]]]; [right; split; [auto|exact E]|auto|auto].
      * intros [->|[[->|?] ?]]; auto.
Qed.

Lemma sl_get_Some k v l :
  sl_sorted l -> sl_get k l = Some v <-> exists k', (k', v) ∈ l /\ cmp k k' = 0.
Proof.
  induction l as [|[k' v'] l IH]; intros Hs; simpl.
  { split; [discriminate|intros (k' & H & _); inversion H]. }
  assert (Hlt : forall b, b ∈ l -> cmp k' b.1 < 0).
  { intros b Hb. exact (sl_sorted_neq (k', v') b l Hs Hb). }
  apply sl_sorted_cons in Hs as [Hs _]. destruct (Z.eqb_spec (cmp k k') 0) as [E|E].
  - split.
    + intros [= ->]. exists k'. set_solver.
    + intros (k'' & [[= -> ->]|Hin]%elem_of_cons & H); [done|].
      specialize (Hlt _ Hin). simpl in Hlt.
      pose proof (cmp_le_lt_trans k k' k''). lia.
  - rewrite IH by done. split.
    + intros (k'' & ? & ?). exists k''. set_solver.
    + intros (k'' & [[= -> ->]|Hin]%elem_of_cons & H); [done|eauto].
Qed.

Lemma sl_get_None k l :
  sl_get k l = None <-> Forall (fun e => cmp k e.1 <> 0) l.
Proof.
  induction l as [|[k' v'] l IH]; simpl; [done|].
  rewrite Forall_cons. destruct (Z.eqb_spec (cmp k k') 0) as [E|E]; simpl.
  - split; [discriminate|]. intros [? _]. done.
  - rewrite IH. tauto.
Qed.

Lemma sl_remove_mid l1 k v l2 :
  sl_sorted (l1 ++ (k, v) :: l2) -> sl_remove k (l1 ++ (k, v) :: l2) = l1 ++ l2.
Proof.
  induction l1 as [|[k' v'] l1 IH]; intros Hs; simpl.
  - by rewrite (cmp_refl C).
  - assert (Hlt : cmp k' k < 0).
    { apply (sl_sorted_neq (k', v') (k, v) (l1 ++ (k, v) :: l2)); [done|]. set_solver. }
    destruct (Z.eqb_spec (cmp k k') 0) as [E|E].
    { apply cmp_eq_sym in E. lia. }
    f_equal. apply IH. simpl in Hs. by apply sl_sorted_cons in Hs as [? _].
Qed.

(** *** The iterator *)

Lemma sl_next_None l : sl_next None l = head l.
Proof. destruct l as [|[k v] l]; done. Qed.

Lemma sl_next_app p l1 l2 :
  Forall (fun e => cmp e.1 p <= 0) l1 -> Forall (fun e => cmp p e.1 < 0) l2 ->
  sl_next (Some p) (l1 ++ l2) = head l2.
Proof.
  intros H1 H2. induction H1 as [|[k v] l1 Hk _ IH]; simpl.
  - destruct H2 as [|[k v] l2 Hk _]; simpl in *; [done|].
    apply cmp_gt in Hk. destruct (Z.ltb_spec 0 (cmp k p)); [done|lia].
  - simpl in Hk. destruct (Z.ltb_spec 0 (cmp k p)); [lia|]. exact IH.
Qed.

End SortedList.

(** ** The laws *)

Class TreeMapLaws (T : TreeMapPkg) := {
  tm_cmp : forall {K V}, TreeMap K V -> K -> K -> Z;
  tm_elems : forall {K V}, TreeMap K V -> list (K * V);
  tm_cmp_NewWith K V (cmp : K -> K -> Z) : tm_cmp (V:=V) (tm_NewWith cmp) = cmp;
  tm_elems_NewWith K V (cmp : K -> K -> Z) : tm_elems (V:=V) (tm_NewWith cmp) = [];
  tm_cmp_Put K V (t : TreeMap K V) k v : tm_cmp (tm_Put t k v) = tm_cmp t;
  tm_cmp_Remove K V (t : TreeMap K V) k : tm_cmp (tm_Remove t k) = tm_cmp t;
  tm_Put_elems K V (t : TreeMap K V) k v :
    CmpOrder (tm_cmp t) -> sl_sorted (tm_cmp t) (tm_elems t) ->
    tm_elems (tm_Put t k v) = sl_put (tm_cmp t) k v (tm_elems t);
  tm_Remove_elems K V (t : TreeMap K V) k :
    CmpOrder (tm_cmp t) -> sl_sorted (tm_cmp t) (tm_elems t) ->
    tm_elems (tm_Remove t k) = sl_remove (tm_cmp t) k (tm_elems t);
  tm_Get_elems K V (t : TreeMap K V) k :
    CmpOrder (tm_cmp t) -> sl_sorted (tm_cmp t) (tm_elems t) ->
    tm_Get t k = sl_get (tm_cmp t) k (tm_elems t);
  tm_Min_elems K V (t : TreeMap K V) : tm_Min t = head (tm_elems t);
  tm_Max_elems K V (t : TreeMap K V) : tm_Max t = last (tm_elems t);
  tm_Size_elems K V (t : TreeMap K V) : tm_Size t = length (tm_elems t);
  tm_Next_elems K V (t : TreeMap K V) pos :
    CmpOrder (tm_cmp t) -> sl_sorted (tm_cmp t) (tm_elems t) ->
    tm_Next t pos = sl_next (tm_cmp t) pos (tm_elems t);
}.

(** [tm_repr cmp t l]: the tree [t] orders its keys with [cmp] and holds the
    entries [l].  The lemmas below replay each operation on [l]. *)
Record tm_repr `{TreeMapLaws} {K V} (cmp : K -> K -> Z) (t : TreeMap K V) (l : list (K * V)) : Prop := {
  tr_cmp : tm_cmp t = cmp;
  tr_elems : tm_elems t = l;
  tr_sorted : sl_sorted cmp l;
}.

Section Repr.
Context `{L : TreeMapLaws} {K V : Type} (cmp : K -> K -> Z) (C : CmpOrder cmp).
Implicit Types (t : TreeMap K V) (l : list (K * V)).

Lemma tm_repr_New : tm_repr (V:=V) cmp (tm_NewWith cmp) [].
Proof. split; [apply tm_cmp_NewWith|apply tm_elems_NewWith|constructor]. Qed.

Lemma tm_repr_Put t l k v :
  tm_repr cmp t l -> tm_repr cmp (tm_Put t k v) (sl_put cmp k v l).
Proof.
  intros [<- <- Hs]. split.
  - apply tm_cmp_Put.
  - by apply tm_Put_elems.
  - by apply sl_put_sorted.
Qed.
Lemma tm_repr_Remove t l k :
  tm_repr cmp t l -> tm_repr cmp (tm_Remove t k) (sl_remove cmp k l).
Proof.
  intros [<- <- Hs]. split.
  - apply tm_cmp_Remove.
  - by apply tm_Remove_elems.
  - by apply sl_remove_sorted.
Qed.
Lemma tm_repr_Get t l k : tm_repr cmp t l -> tm_Get t k = sl_get cmp k l.
Proof. intros [<- <- Hs]. by apply tm_Get_elems. Qed.
Lemma tm_repr_Min t l : tm_repr cmp t l -> tm_Min t = head l.
Proof. intros [_ <- _]. apply tm_Min_elems. Qed.
Lemma tm_repr_Max t l : tm_repr cmp t l -> tm_Max t = last l.
Proof. intros [_ <- _]. apply tm_Max_elems. Qed.
Lemma tm_repr_Size t l : tm_repr cmp t l -> tm_Size t = length l.
Proof. intros [_ <- _]. apply tm_Size_elems. Qed.
Lemma tm_repr_Next t l pos : tm_repr cmp t l -> tm_Next t pos = sl_next cmp pos l.
Proof. intros [<- <- Hs]. by apply tm_Next_elems. Qed.
End Repr.

(** ** A concrete implementation: the ordered association list itself *)

Module SortedList.
Record map (K V : Type) := Map { m_cmp : K -> K -> Z; m_list : list (K * V) }.
Arguments Map {K V}. Arguments m_cmp {K V}. Arguments m_list {K V}.

Definition pkg : TreeMapPkg := {|
  TreeMap := map;
  tm_NewWith K V cmp := Map cmp [];
  tm_Put K V t k v := Map (m_cmp t) (sl_put (m_cmp t) k v (m_list t));
  tm_Remove K V t k := Map (m_cmp t) (sl_remove (m_cmp t) k (m_list t));
  tm_Get K V t k := sl_get (m_cmp t) k (m_list t);
  tm_Min K V t := head (m_list t);
  tm_Max K V t := last (m_list t);
  tm_Size K V t := length (m_list t);
  tm_Next K V t pos := sl_next (m_cmp t) pos (m_list t);
|}.

Definition laws : TreeMapLaws pkg.
Proof. refine {| tm_cmp := @m_cmp : forall K V, @TreeMap pkg K V -> _;
                 tm_elems := @m_list : forall K V, @TreeMap pkg K V -> _ |}; done. Defined.
End SortedList.
