(* ===== verification/Models.v ===== *)
(** The data of the exchange: [src/models/models.go], the table sharding of
    [src/models/mysql/order_store.go] and the helpers of [src/utils/utils.go].

    Go's string enums stay strings, because unvalidated strings travel through
    the code; the constants are the ones the code compares with. *)
From S2P Require Import Prelude Decimal.
From Stdlib Require Import QArith Lqa.
From stdpp Require Import list.
Open Scope string_scope.
Open Scope list_scope.
Open Scope Z_scope.

(** ** Enums *)

Definition Side := string.
Definition OrderType := string.
Definition OrderStatus := string.
Definition TimeInForceType := string.
Definition BillType := string.
Definition DoneReason := string.
(** [time.Time], as nanoseconds since the Unix epoch. *)
Definition Instant := Z.

Definition OrderTypeLimit : OrderType := "limit".
Definition OrderTypeMarket : OrderType := "market".
Definition GoodTillCanceled : TimeInForceType := "GTC".
Definition ImmediateOrCancel : TimeInForceType := "IOC".
Definition GoodTillCrossing : TimeInForceType := "GTX".
Definition FillOrKill : TimeInForceType := "FOK".
Definition SideBuy : Side := "buy".
Definition SideSell : Side := "sell".
Definition OrderStatusNew : OrderStatus := "new".
Definition OrderStatusOpen : OrderStatus := "open".
Definition OrderStatusCancelling : OrderStatus := "cancelling".
Definition OrderStatusCancelled : OrderStatus := "cancelled".
Definition OrderStatusPartial : OrderStatus := "partial".
Definition OrderStatusFilled : OrderStatus := "filled".
Definition BillTypeTrade : BillType := "trade".
Definition DoneReasonFilled : DoneReason := "filled".
Definition DoneReasonCancelled : DoneReason := "cancelled".

(** [TableOrderSplitCount] of [src/models/const.go]. *)
Definition TableOrderSplitCount : Z := 128.

Notation "a =s? b" := (String.eqb a b) (at level 70) : go_scope.

Definition NewSideFromString (s : string) : outcome string Side :=
  if (s =s? SideBuy) || (s =s? SideSell) then Ok s
  else Err ("invalid side: " +:+ s).

Definition Opposite (s : Side) : Side := if s =s? SideBuy then SideSell else SideBuy.

Definition NewOrderStatusFromString (s : string) : outcome string OrderStatus :=
  if (s =s? OrderStatusNew) || (s =s? OrderStatusOpen) || (s =s? OrderStatusCancelling)
     || (s =s? OrderStatusCancelled) || (s =s? OrderStatusPartial) || (s =s? OrderStatusFilled)
  then Ok s
  else Err ("invalid status: " +:+ s).

Definition NewTimeInForceTypeFromString (s : string) : outcome string TimeInForceType :=
  if (s =s? GoodTillCanceled) || (s =s? ImmediateOrCancel)
     || (s =s? GoodTillCrossing) || (s =s? FillOrKill)
  then Ok s
  else Err ("invalid timeInForce: " +:+ s).

(** A side the rest of the code knows. *)
Definition valid_side (s : Side) : Prop := s = SideBuy \/ s = SideSell.
#[export] Instance valid_side_dec s : Decision (valid_side s).
Proof. unfold valid_side. apply _. Defined.

(** ** Records *)

Section Records.
Context {P : DecimalPkg}.

Record Account := {
  acc_Id : Z;
  acc_CreatedAt : Instant;
  acc_UpdatedAt : Instant;
  acc_UserId : Z;
  acc_Currency : string;
  acc_Hold : Dec;
  acc_Available : Dec;
}.

Record Bill := {
  bill_Id : Z;
  bill_CreatedAt : Instant;
  bill_UpdatedAt : Instant;
  bill_UserId : Z;
  bill_Currency : string;
  bill_Available : Dec;
  bill_Hold : Dec;
  bill_Type : BillType;
  bill_Settled : bool;
  bill_Notes : string;
}.

Record Product := {
  prod_Id : string;
  prod_CreatedAt : Instant;
  prod_UpdatedAt : Instant;
  prod_BaseCurrency : string;
  prod_QuoteCurrency : string;
  prod_BaseMinSize : Dec;
  prod_BaseMaxSize : Dec;
  prod_QuoteMinSize : Dec;
  prod_QuoteMaxSize : Dec;
  prod_BaseScale : Z;
  prod_QuoteScale : Z;
  prod_QuoteIncrement : Dec;
}.

Record Order := {
  ord_Id : Z;
  ord_CreatedAt : Instant;
  ord_UpdatedAt : Instant;
  ord_ProductId : string;
  ord_UserId : Z;
  ord_ClientOid : string;
  ord_Size : Dec;
  ord_Funds : Dec;
  ord_FilledSize : Dec;
  ord_ExecutedValue : Dec;
  ord_Price : Dec;
  ord_FillFees : Dec;
  ord_Type : OrderType;
  ord_Side : Side;
  ord_TimeInForce : TimeInForceType;
  ord_TakerFeeRatio : Dec;
  ord_MakerFeeRatio : Dec;
  ord_Status : OrderStatus;
  ord_Settled : bool;
}.

Record Fill := {
  fill_Id : Z;
  fill_CreatedAt : Instant;
  fill_UpdatedAt : Instant;
  fill_TradeSeq : Z;
  fill_OrderId : Z;
  fill_MessageSeq : Z;
  fill_ProductId : string;
  fill_Size : Dec;
  fill_Price : Dec;
  fill_Funds : Dec;
  fill_Fee : Dec;
  fill_Liquidity : string;
  fill_Settled : bool;
  fill_Side : Side;
  fill_Done : bool;
  fill_DoneReason : DoneReason;
  fill_LogOffset : Z;
  fill_LogSeq : Z;
}.

Record Trade := {
  trade_Id : Z;
  trade_CreatedAt : Instant;
  trade_UpdatedAt : Instant;
  trade_ProductId : string;
  trade_TradeSeq : Z;
  trade_TakerOrderId : Z;
  trade_TakerUserId : Z;
  trade_MakerOrderId : Z;
  trade_MakerUserId : Z;
  trade_Price : Dec;
  trade_Size : Dec;
  trade_Side : Side;
  trade_Time : Instant;
  trade_LogOffset : Z;
  trade_LogSeq : Z;
}.

Record Tick := {
  tick_Id : Z;
  tick_CreatedAt : Instant;
  tick_UpdatedAt : Instant;
  tick_ProductId : string;
  tick_Granularity : Z;
  tick_Time : Z;
  tick_Open : Dec;
  tick_High : Dec;
  tick_Low : Dec;
  tick_Close : Dec;
  tick_Volume : Dec;
  tick_QuoteVolume : Dec;
  tick_LogOffset : Z;
  tick_LogSeq : Z;
}.

Record FeeRate := {
  fr_Id : Z;
  fr_UserLevel : string;
  fr_TakerFeeRatio : Dec;
  fr_MakerFeeRatio : Dec;
  fr_CreatedAt : Instant;
  fr_UpdatedAt : Instant;
}.
End Records.

(** ** Sharding of the order tables *)

Definition GetTableIndexByUserId (userId : Z) : Z := userId mod TableOrderSplitCount.
Definition GetTableIndexByOrderId (orderId : Z) : Z :=
  Z.shiftr orderId 12 mod TableOrderSplitCount.

Lemma GetTableIndexByOrderId_range id : 0 <= GetTableIndexByOrderId id < 128.
Proof. apply Z.mod_pos_bound. done. Qed.

(** ** Helpers of [src/utils/utils.go] *)

Section Utils.
Context {P : DecimalPkg}.
Definition DecimalAscComparator (a b : Dec) : Z := dec_Cmp a b.
Definition DecimalDescComparator (a b : Dec) : Z := dec_Cmp b a.
End Utils.

(** Go's [/] truncates toward zero. *)
Definition StartPosOfTime (unixTime granularity : Z) : Z :=
  Z.quot unixTime (granularity * 60) * (granularity * 60).

Definition MinInt (a b : Z) : Z := if a <=? b then a else b.
