(* ===== verification/Bootstrap.v ===== *)
(** Starting the processes: the loops of [src/matching/bootstrap.go],
    [src/worker/bootstrap.go] and [src/pushing/bootstrap.go].

    Each polls the table of products every five seconds and starts what belongs
    to a product it has not seen.  [ps_started] are the goroutines' owners in
    the order in which they are started, by kind and product.  A database that
    does not answer stops the process. *)
From S2P Require Import Prelude Decimal Models.
From stdpp Require Import gmap list.
Open Scope string_scope.
Open Scope list_scope.
Open Scope Z_scope.

Section Bootstrap.
Context {P : DecimalPkg}.

Record starter := {
  (** [productsSupported] *)
  ps_supported : gset string;
  ps_started : list (string * string);
}.

Definition newStarter : starter := {| ps_supported := ∅; ps_started := [] |}.

(** The body of the loop over the products, with what it starts. *)
Definition startProduct (kinds : list string) (s : starter) (product : Product) : starter :=
  if decide (prod_Id product ∈ ps_supported s) then s
  else {| ps_supported := {[prod_Id product]} ∪ ps_supported s;
          ps_started := ps_started s ++ ((fun k => (k, prod_Id product)) <$> kinds) |}.

(** A pass of the outer loop: what the database answers, or no answer. *)
Definition poll (kinds : list string) (s : starter) (products : option (list Product)) : outcome noerr starter :=
  match products with
  | None => Panic
  | Some products => mret (foldl (startProduct kinds) s products)
  end.

Fixpoint polls (kinds : list string) (s : starter) (answers : list (option (list Product))) : outcome noerr starter :=
  match answers with
  | [] => mret s
  | a :: answers => s ← poll kinds s a; polls kinds s answers
  end.

Definition engineKinds : list string := ["engine"].
Definition makerKinds : list string := ["tickMaker"; "fillMaker"; "tradeMaker"].
Definition streamKinds : list string := ["tickerStream"; "matchStream"; "orderBookStream"].
Definition StartEngine := polls engineKinds newStarter.
Definition StartMatchingLogMaker := polls makerKinds newStarter.
Definition StartServer := polls streamKinds newStarter.

(** ** Each product's goroutines are started once *)

(** What is started belongs to the products seen, and is started once. *)
Record started_ok (kinds : list string) (s : starter) : Prop := {
  so_once : NoDup (ps_started s);
  so_supported k id : (k, id) ∈ ps_started s <-> k ∈ kinds /\ id ∈ ps_supported s;
}.

Lemma startProduct_ok kinds s product : NoDup kinds -> started_ok kinds s ->
  started_ok kinds (startProduct kinds s product) /\
  ps_supported (startProduct kinds s product) = {[prod_Id product]} ∪ ps_supported s.
Proof.
  intros Hk [Hd Hs]. unfold startProduct. case_decide as Hin; [split; [done|set_solver]|]. split; [|done]. split; cbn.
  - apply NoDup_app. split; [done|]. split; [|apply NoDup_fmap_2; [by intros ?? [= ->]|done]].
    intros [k id] H1 (k' & [= <- ->] & _)%list_elem_of_fmap. apply Hs in H1 as [_ H1]. done.
  - intros k id. rewrite elem_of_app, list_elem_of_fmap, Hs. split.
    + intros [[? ?]|(k' & [= -> ->] & ?)]; set_solver.
    + intros [Hk' [->%elem_of_singleton|?]%elem_of_union]; [right; by exists k|by left].
Qed.

Lemma startAll_ok kinds products : forall s, NoDup kinds -> started_ok kinds s ->
  started_ok kinds (foldl (startProduct kinds) s products) /\
  ps_supported (foldl (startProduct kinds) s products) = list_to_set (prod_Id <$> products) ∪ ps_supported s.
Proof.
  induction products as [|product products IH]; intros s Hk Hs; cbn; [split; [done|set_solver]|].
  destruct (startProduct_ok kinds s product Hk Hs) as [Hs' E]. destruct (IH _ Hk Hs') as [H ->]. split; [done|].
  rewrite E. set_solver.
Qed.

(** Whatever products are added between the polls, every product a poll has
    seen has each of its goroutines started exactly once: no two engines work
    one order topic, and no two makers write the rows of one log topic. *)
Lemma polls_start_once kinds answers s : NoDup kinds -> polls kinds newStarter answers = Ok s ->
  NoDup (ps_started s) /\
  forall k id, (k, id) ∈ ps_started s <-> k ∈ kinds /\ exists products, Some products ∈ answers /\ id ∈ prod_Id <$> products.
Proof.
  intros Hk. assert (H0 : started_ok kinds newStarter) by (split; [constructor|]; intros k id; cbn; set_solver).
  enough (H : forall answers s0, started_ok kinds s0 -> polls kinds s0 answers = Ok s -> started_ok kinds s /\
    forall id, id ∈ ps_supported s <-> id ∈ ps_supported s0 \/ exists products, Some products ∈ answers /\ id ∈ prod_Id <$> products).
  { intros Hrun. destruct (H answers _ H0 Hrun) as [[Hd Hs] Hsup]. split; [done|]. intros k id. rewrite Hs, Hsup. set_solver. }
  clear answers. induction answers as [|a answers IH]; intros s0 Hs0 Hrun.
  - injection Hrun as <-. split; [done|]. set_solver.
  - cbn in Hrun. apply bind_Ok in Hrun as (s1 & H1 & Hrun). destruct a as [products|]; [|discriminate]. injection H1 as <-.
    destruct (startAll_ok kinds products s0 Hk Hs0) as [Hs1 E]. destruct (IH _ Hs1 Hrun) as [Hok Hsup]. split; [done|].
    intros id. rewrite Hsup, E, elem_of_union, elem_of_list_to_set. split.
    + intros [[?|?]|(ps & ? & ?)]; [right; exists products; set_solver|by left|right; exists ps; set_solver].
    + intros [?|(ps & Hin & ?)]; [by left; right|]. apply elem_of_cons in Hin as [[= ->]|Hin]; [by left; left|]. right. by exists ps.
Qed.
End Bootstrap.
