(* ===== verification/Window.v ===== *)
(** The sliding de-duplication window: [src/matching/window.go].

    A bitmap of [Cap] bits records which ids of [[Min, Max)] have been put; bit
    [i mod Cap] stands for the id [i].  Putting an id beyond [Max] slides the
    window.  [put_refines] below relates the code to the abstract window, a
    lower bound and a set of seen ids. *)
From S2P Require Import Prelude.
Open Scope Z_scope.

(** ** Bitmaps *)

(** A [[]byte]; each element is an 8-bit value. *)
Abbreviation Bitmap := (list Z).

Definition tA : list Z := [1; 2; 4; 8; 16; 32; 64; 128].
Definition tB : list Z := [254; 253; 251; 247; 239; 223; 191; 127].

Definition dataOrCopy (d : list Z) (c : bool) : list Z := if c then take (length d) d else d.

Definition NewSlice (l : Z) : list Z :=
  let remainder := l mod 8 in
  let remainder := if remainder =? 0 then remainder else 1 in
  replicate (Z.to_nat (l / 8 + remainder)) 0.

Definition Get {E} (m : list Z) (i : Z) : outcome E bool :=
  b ← deref (m !! Z.to_nat (i / 8));
  t ← deref (tA !! Z.to_nat (i mod 8));
  mret (negb (Z.land b t =? 0)).

Definition Set_ {E} (m : list Z) (i : Z) (v : bool) : outcome E (list Z) :=
  let index := Z.to_nat (i / 8) in
  let bit := Z.to_nat (i mod 8) in
  if v then
    b ← deref (m !! index); t ← deref (tA !! bit); mret (<[index := Z.lor b t]> m)
  else
    b ← deref (m !! index); t ← deref (tB !! bit); mret (<[index := Z.land b t]> m).

Definition GetBit {E} (b : Z) (i : Z) : outcome E bool :=
  t ← deref (tA !! Z.to_nat i); mret (negb (Z.land b t =? 0)).

Definition SetBit {E} (b : Z) (i : Z) (v : bool) : outcome E Z :=
  if v then t ← deref (tA !! Z.to_nat i); mret (Z.lor b t)
  else t ← deref (tB !! Z.to_nat i); mret (Z.land b t).

Definition Len (m : list Z) : Z := Z.of_nat (length m) * 8.

#[global] Arguments Get : simpl never.
#[global] Arguments Set_ : simpl never.

(** ** The window *)

Record Window := {
  w_Min : Z;
  w_Max : Z;
  w_Cap : Z;
  w_Bitmap : Bitmap;
}.

Inductive windowError :=
| expired (val min max : Z)
| existed (val : Z).

Definition newWindow (min max : Z) : Window := {|
  w_Min := min;
  w_Max := max;
  w_Cap := u64 (max - min);
  w_Bitmap := NewSlice (u64 (max - min));
|}.

(** [x % y] panics for [y = 0]. *)
Definition umod {E} (x y : Z) : outcome E Z := if y =? 0 then Panic else Ok (x mod y).

(** [for i := w.Min; i < w.Min+rangeDelta; i++ { w.Bitmap.Set(i%w.Cap, false) }] *)
Fixpoint clearBits {E} (fuel : nat) (bm : Bitmap) (cap i stop : Z) : outcome E Bitmap :=
  if i <? stop then
    match fuel with
    | O => Diverge
    | S fuel =>
        j ← umod i cap;
        bm ← Set_ bm j false;
        clearBits fuel bm cap (u64 (i + 1)) stop
    end
  else Ok bm.

Definition put (w : Window) (val : Z) : outcome windowError Window :=
  if val <? w_Min w then Err (expired val (w_Min w) (w_Max w))
  else if w_Max w <=? val then
    let delta := u64 (u64 (val - w_Max w) + 1) in
    let rangeDelta := if w_Cap w <? delta then w_Cap w else delta in
    bm ← clearBits (Z.to_nat rangeDelta) (w_Bitmap w) (w_Cap w) (w_Min w) (u64 (w_Min w + rangeDelta));
    j ← umod val (w_Cap w);
    bm ← Set_ bm j true;
    mret {| w_Min := u64 (w_Min w + delta); w_Max := u64 (w_Max w + delta);
            w_Cap := w_Cap w; w_Bitmap := bm |}
  else
    j ← umod val (w_Cap w);
    b ← Get (w_Bitmap w) j;
    if (b : bool) then Err (existed val)
    else
      bm ← Set_ (w_Bitmap w) j true;
      mret {| w_Min := w_Min w; w_Max := w_Max w; w_Cap := w_Cap w; w_Bitmap := bm |}.

Definition contains {E} (w : Window) (val : Z) : outcome E bool :=
  if (val <? w_Min w) || (w_Max w <=? val) then mret false
  else j ← umod val (w_Cap w); Get (w_Bitmap w) j.

#[global] Arguments umod : simpl never.
#[global] Arguments put : simpl never.

(** ** Bits *)

Definition bm_bit (m : Bitmap) (i : Z) : bool :=
  match m !! Z.to_nat (i / 8) with Some b => Z.testbit b (i mod 8) | None => false end.

Definition in_bitmap (m : Bitmap) (i : Z) : Prop := 0 <= i < Len m.

Lemma low_bit_cases k : 0 <= k < 8 ->
  k = 0 \/ k = 1 \/ k = 2 \/ k = 3 \/ k = 4 \/ k = 5 \/ k = 6 \/ k = 7.
Proof. lia. Qed.

(** [tA] holds the single bits, [tB] their complements. *)
Lemma tA_spec k : 0 <= k < 8 -> tA !! Z.to_nat k = Some (2 ^ k).
Proof. intros H. destruct (low_bit_cases k H) as [->|[->|[->|[->|[->|[->|[->| ->]]]]]]]; done. Qed.
Lemma tB_spec k : 0 <= k < 8 -> tB !! Z.to_nat k = Some (255 - 2 ^ k).
Proof. intros H. destruct (low_bit_cases k H) as [->|[->|[->|[->|[->|[->|[->| ->]]]]]]]; done. Qed.

Lemma testbit_tB j k : 0 <= j < 8 -> 0 <= k < 8 -> Z.testbit (255 - 2 ^ k) j = negb (j =? k).
Proof.
  intros Hj Hk.
  destruct (low_bit_cases k Hk) as [->|[->|[->|[->|[->|[->|[->| ->]]]]]]];
  destruct (low_bit_cases j Hj) as [->|[->|[->|[->|[->|[->|[->| ->]]]]]]]; done.
Qed.

Lemma land_pow2_zero b k : 0 <= k -> (Z.land b (2 ^ k) =? 0) = negb (Z.testbit b k).
Proof.
  intros Hk. destruct (Z.testbit b k) eqn:E; simpl.
  - apply Z.eqb_neq. intros H. apply (f_equal (fun z => Z.testbit z k)) in H.
    rewrite Z.land_spec, E, Z.pow2_bits_true, Z.bits_0 in H by lia. done.
  - apply Z.eqb_eq. apply Z.bits_inj'. intros n Hn.
    rewrite Z.land_spec, Z.bits_0, Z.pow2_bits_eqb by lia.
    destruct (Z.eqb_spec k n) as [<-|]; [by rewrite E|apply andb_false_r].
Qed.

Lemma in_bitmap_lookup m i : in_bitmap m i -> exists b, m !! Z.to_nat (i / 8) = Some b.
Proof.
  unfold in_bitmap, Len. intros. apply lookup_lt_is_Some.
  Z.to_euclidean_division_equations. lia.
Qed.

Lemma bit_index_inj i j : 0 <= i -> 0 <= j -> i / 8 = j / 8 -> i mod 8 = j mod 8 -> i = j.
Proof. intros. pose proof (Z.div_mod i 8). pose proof (Z.div_mod j 8). lia. Qed.

Lemma Get_spec {E} m i : in_bitmap m i -> Get (E:=E) m i = Ok (bm_bit m i).
Proof.
  intros Hi. destruct (in_bitmap_lookup m i Hi) as [b Hb].
  unfold Get, bm_bit. rewrite Hb. go_red.
  pose proof (Z.mod_pos_bound i 8 ltac:(lia)).
  rewrite tA_spec by done. go_red. rewrite land_pow2_zero by lia. by rewrite negb_involutive.
Qed.

Lemma Set_spec {E} m i v : in_bitmap m i ->
  exists m', Set_ (E:=E) m i v = Ok m' /\ length m' = length m /\
    forall j, 0 <= j -> bm_bit m' j = if j =? i then v else bm_bit m j.
Proof.
  intros Hi. destruct (in_bitmap_lookup m i Hi) as [b Hb].
  pose proof (Z.mod_pos_bound i 8 ltac:(lia)) as Hk.
  assert (Hlen : (Z.to_nat (i / 8) < length m)%nat) by (by apply lookup_lt_Some in Hb).
  unfold Set_. rewrite Hb. go_red. rewrite tA_spec, tB_spec by done. go_red.
  exists (<[Z.to_nat (i / 8) := if v then Z.lor b (2 ^ (i mod 8)) else Z.land b (255 - 2 ^ (i mod 8))]> m).
  split; [by destruct v|]. split; [by rewrite length_insert|].
  intros j Hj. unfold bm_bit. unfold in_bitmap in Hi.
  pose proof (Z.mod_pos_bound j 8 ltac:(lia)) as Hkj.
  destruct (decide (Z.to_nat (i / 8) = Z.to_nat (j / 8))) as [Eq|Ne].
  - pose proof (Z.div_pos i 8). pose proof (Z.div_pos j 8).
    assert (i / 8 = j / 8) by lia. rewrite <- Eq, list_lookup_insert_eq by done.
    destruct (Z.eqb_spec j i) as [->|Hji].
    + destruct v.
      * rewrite Z.lor_spec, Z.pow2_bits_true by lia. apply orb_true_r.
      * rewrite Z.land_spec, testbit_tB, Z.eqb_refl by lia. apply andb_false_r.
    + assert (j mod 8 <> i mod 8) by (intros ?; apply Hji; apply bit_index_inj; lia).
      rewrite Hb. destruct v.
      * rewrite Z.lor_spec, Z.pow2_bits_eqb by lia.
        destruct (Z.eqb_spec (i mod 8) (j mod 8)); [lia|apply orb_false_r].
      * rewrite Z.land_spec, testbit_tB by lia.
        destruct (Z.eqb_spec (j mod 8) (i mod 8)); [lia|apply andb_true_r].
  - rewrite list_lookup_insert_ne by done.
    destruct (Z.eqb_spec j i) as [->|]; [done|done].
Qed.

Lemma bm_bit_New l i : bm_bit (NewSlice l) i = false.
Proof.
  unfold bm_bit, NewSlice. destruct (replicate _ _ !! _) eqn:E; [|done].
  apply lookup_replicate in E as [-> _]. apply Z.bits_0.
Qed.

(** ** The invariant and the abstract window *)

(** No id is the largest [uint64]: [Max] stays below [2^64]. *)
Definition window_id (v : Z) : Prop := 0 <= v < u64_size - 1.

Record window_wf (w : Window) : Prop := {
  wf_min : 0 <= w_Min w;
  wf_max : w_Max w = w_Min w + w_Cap w;
  wf_top : w_Max w < u64_size;
  wf_cap : 0 < w_Cap w;
  wf_bits : w_Cap w <= Len (w_Bitmap w);
}.

(** The ids a window remembers. *)
Definition seen (w : Window) (v : Z) : Prop :=
  w_Min w <= v < w_Max w /\ bm_bit (w_Bitmap w) (v mod w_Cap w) = true.

(** The ids [put] refuses. *)
Definition refused (w : Window) (v : Z) : Prop := v < w_Min w \/ seen w v.

Lemma mod_window_inj c m a b :
  0 < c -> m <= a < m + c -> m <= b < m + c -> a mod c = b mod c -> a = b.
Proof.
  intros Hc Ha Hb H.
  pose proof (Z.div_mod a c). pose proof (Z.div_mod b c).
  assert (a / c = b / c) by nia. nia.
Qed.

Lemma mod_in_bitmap w v : window_wf w -> in_bitmap (w_Bitmap w) (v mod w_Cap w).
Proof.
  intros [_ _ _ Hc Hb]. unfold in_bitmap.
  pose proof (Z.mod_pos_bound v (w_Cap w) Hc). lia.
Qed.

Lemma umod_spec {E} x y : 0 < y -> umod (E:=E) x y = Ok (x mod y).
Proof. intros. unfold umod. destruct (Z.eqb_spec y 0); [lia|done]. Qed.

Lemma newWindow_wf min max : 0 <= min -> min < max -> max < u64_size -> window_wf (newWindow min max).
Proof.
  intros. unfold newWindow. rewrite u64_id by (unfold is_u64; lia). split; simpl; try lia.
  unfold Len, NewSlice. rewrite length_replicate.
  destruct (Z.eqb_spec ((max - min) mod 8) 0); Z.to_euclidean_division_equations; lia.
Qed.

Lemma newWindow_seen min max v : ~ seen (newWindow min max) v.
Proof. intros [_ H]. simpl in H. by rewrite bm_bit_New in H. Qed.

(** The loop that clears the bits the window slides past: it ends within its
    fuel and clears exactly the residues of the ids it runs over. *)
Lemma clearBits_spec {E} cap stop : 0 < cap -> stop < u64_size -> forall fuel bm i,
  0 <= i -> cap <= Len bm -> stop - i <= Z.of_nat fuel ->
  exists bm', clearBits (E:=E) fuel bm cap i stop = Ok bm' /\ length bm' = length bm /\
    forall j, 0 <= j -> bm_bit bm' j = true <->
      bm_bit bm j = true /\ forall x, i <= x < stop -> x mod cap <> j.
Proof.
  intros Hc Hstop. induction fuel as [|fuel IH]; intros bm i Hi Hb Hf; simpl.
  - destruct (Z.ltb_spec i stop); [lia|]. exists bm. split; [done|]. split; [done|].
    intros j Hj. split; [|tauto]. intros H1. split; [done|]. intros x Hx. lia.
  - destruct (Z.ltb_spec i stop) as [Hlt|Hge].
    + rewrite umod_spec by done. go_red.
      pose proof (Z.mod_pos_bound i cap Hc).
      destruct (Set_spec (E:=E) bm (i mod cap) false) as (bm1 & -> & Hl1 & Hs1).
      { unfold in_bitmap. lia. }
      go_red. rewrite u64_id by (unfold is_u64; lia).
      destruct (IH bm1 (i + 1)) as (bm2 & -> & Hl2 & Hs2); [lia|unfold Len in *; lia|lia|].
      exists bm2. split; [done|]. split; [lia|].
      intros j Hj. rewrite Hs2, Hs1 by done.
      destruct (Z.eqb_spec j (i mod cap)) as [->|Hji].
      * split; [intros [? _]; done|]. intros [_ Hx]. exfalso. by apply (Hx i); [lia|].
      * split; intros [? Hx]; (split; [done|]); intros x Hx'.
        -- destruct (decide (x = i)) as [->|]; [congruence|]. apply Hx. lia.
        -- apply Hx. lia.
    + exists bm. split; [done|]. split; [done|].
      intros j Hj. split; [|tauto]. intros H1. split; [done|]. intros x Hx. lia.
Qed.

(** Sliding: after the loop, an id of the new window is marked exactly when it
    was seen before. *)
Lemma slide_bits w v delta r u :
  window_wf w -> w_Max w <= v -> delta = v - w_Max w + 1 ->
  r = (if w_Cap w <? delta then w_Cap w else delta) ->
  v + 1 - w_Cap w <= u < v ->
  (bm_bit (w_Bitmap w) (u mod w_Cap w) = true /\
     forall x, w_Min w <= x < w_Min w + r -> x mod w_Cap w <> u mod w_Cap w)
  <-> seen w u.
Proof.
  intros [Hmin Hmax Htop Hc Hb] Hv -> -> Hu. unfold seen.
  destruct (Z.lt_ge_cases u (w_Max w)) as [Hlt|Hge].
  - split; [intros [? _]; split; [lia|done]|]. intros [_ ?]. split; [done|].
    intros x Hx E. apply (mod_window_inj (w_Cap w) (w_Min w)) in E; [|lia| |lia].
    + subst x. destruct (Z.ltb_spec (w_Cap w) (v - w_Max w + 1)); lia.
    + destruct (Z.ltb_spec (w_Cap w) (v - w_Max w + 1)); lia.
  - split; [intros [_ Hx]|lia]. exfalso.
    apply (Hx (w_Min w + (u - w_Min w) mod w_Cap w)).
    + pose proof (Z.mod_pos_bound (u - w_Min w) (w_Cap w) Hc).
      destruct (Z.ltb_spec (w_Cap w) (v - w_Max w + 1)); [lia|]. split; [lia|].
      replace (u - w_Min w) with (u - w_Max w + 1 * w_Cap w) in * by lia.
      rewrite Z.mod_add, Z.mod_small by lia. lia.
    + rewrite Zplus_mod_idemp_r. f_equal. lia.
Qed.

Lemma put_fresh w v : window_wf w -> window_id v -> ~ refused w v ->
  exists w', put w v = Ok w' /\ window_wf w' /\ w_Cap w' = w_Cap w /\
    w_Max w' = Z.max (w_Max w) (v + 1) /\
    forall u, seen w' u <-> (u = v \/ seen w u) /\ w_Min w' <= u.
Proof.
  intros W Hv Hr. pose proof W as [Hmin Hmax Htop Hc Hb]. unfold window_id in Hv. unfold put.
  assert (w_Min w <= v) by (destruct (Z.lt_ge_cases v (w_Min w)); [exfalso; apply Hr; by left|done]).
  destruct (Z.ltb_spec v (w_Min w)); [lia|].
  pose proof (mod_in_bitmap w v W) as Hin.
  destruct (Z.leb_spec (w_Max w) v) as [Hslide|Hin_win].
  - rewrite (u64_id (v - w_Max w)), (u64_id (v - w_Max w + 1)) by (unfold is_u64; lia).
    set (delta := v - w_Max w + 1). set (r := if w_Cap w <? delta then w_Cap w else delta).
    assert (Hrle : 0 <= r <= w_Cap w /\ r <= delta).
    { unfold r, delta. destruct (Z.ltb_spec (w_Cap w) (v - w_Max w + 1)); lia. }
    rewrite (u64_id (w_Min w + r)) by (unfold is_u64; lia).
    destruct (clearBits_spec (E:=windowError) (w_Cap w) (w_Min w + r) Hc ltac:(lia)
                (Z.to_nat r) (w_Bitmap w) (w_Min w)) as (bm1 & -> & Hl1 & Hs1); [lia|lia|lia|].
    go_red. rewrite umod_spec by done. go_red.
    destruct (Set_spec (E:=windowError) bm1 (v mod w_Cap w) true) as (bm2 & -> & Hl2 & Hs2).
    { unfold in_bitmap, Len in *. by rewrite Hl1. }
    go_red. eexists. split; [done|].
    rewrite !u64_id by (unfold is_u64, delta; lia). simpl.
    split; [split; simpl; unfold Len, delta in *; lia|]. split; [done|]. split; [unfold delta; lia|].
    intros u. unfold seen at 1. simpl.
    destruct (decide (u = v)) as [->|Hne].
    + rewrite Hs2 by apply Z.mod_pos_bound, Hc. rewrite Z.eqb_refl. unfold delta. intuition lia.
    + pose proof (Z.mod_pos_bound u (w_Cap w) Hc).
      pose proof (slide_bits w v delta r u W Hslide eq_refl eq_refl) as Hsl.
      rewrite Hs2 by lia. destruct (Z.eqb_spec (u mod w_Cap w) (v mod w_Cap w)) as [E|E].
      * split; [|intros [[?|[? _]] ?]; [done|unfold delta in *; lia]].
        intros [Hu _]. exfalso. apply Hne.
        apply (mod_window_inj (w_Cap w) (v + 1 - w_Cap w)); unfold delta in *; [lia|lia|lia|done].
      * rewrite Hs1 by lia. split.
        -- intros [Hu Hbit]. split; [|lia]. right. apply Hsl; [unfold delta in *; lia|done].
        -- intros [[?|Hs] Hge]; [done|]. assert (u < w_Max w) by (destruct Hs; lia).
           split; [unfold delta in *; lia|]. apply Hsl; [unfold delta in *; lia|done].
  - rewrite umod_spec by done. go_red. rewrite Get_spec by done. go_red.
    destruct (bm_bit (w_Bitmap w) (v mod w_Cap w)) eqn:Hbit.
    { exfalso. apply Hr. right. split; [lia|done]. }
    destruct (Set_spec (E:=windowError) (w_Bitmap w) (v mod w_Cap w) true Hin) as (bm2 & -> & Hl2 & Hs2).
    go_red. eexists. split; [done|]. simpl.
    split; [split; simpl; unfold Len in *; lia|]. split; [done|]. split; [lia|].
    intros u. unfold seen. simpl. pose proof (Z.mod_pos_bound u (w_Cap w) Hc).
    rewrite Hs2 by lia. destruct (Z.eqb_spec (u mod w_Cap w) (v mod w_Cap w)) as [E|E].
    + split.
      * intros [Hu _]. apply (mod_window_inj (w_Cap w) (w_Min w)) in E; [|lia|lia|lia].
        intuition lia.
      * intros [[->|[? _]] ?]; split; lia || done.
    + assert (u <> v) by congruence. intuition lia.
Qed.

Lemma put_refused w v : window_wf w -> window_id v -> refused w v ->
  put w v = Err (if v <? w_Min w then expired v (w_Min w) (w_Max w) else existed v).
Proof.
  intros W Hv Hr. unfold put. destruct (Z.ltb_spec v (w_Min w)); [done|].
  destruct Hr as [?|[Hin Hbit]]; [lia|].
  destruct (Z.leb_spec (w_Max w) v); [lia|].
  rewrite umod_spec by apply W. go_red. rewrite Get_spec by (by apply mod_in_bitmap). go_red.
  by rewrite Hbit.
Qed.

#[export] Instance seen_dec w v : Decision (seen w v).
Proof. unfold seen. apply _. Defined.
#[export] Instance refused_dec w v : Decision (refused w v).
Proof. unfold refused. apply _. Defined.

(** What [put] does to the refused ids: they only grow, and the id put joins
    them.  The order book relies on exactly this. *)
Lemma put_grows w v w' u : window_wf w -> window_id v -> put w v = Ok w' ->
  window_wf w' /\ w_Cap w' = w_Cap w /\ ~ refused w v /\ refused w' v /\
  (refused w u -> refused w' u).
Proof.
  intros W Hv Hput. destruct (decide (refused w v)) as [Hr|Hr].
  { rewrite put_refused in Hput by done. discriminate. }
  destruct (put_fresh w v W Hv Hr) as (w2 & H2 & W2 & Hc2 & Hm2 & Hs2).
  rewrite H2 in Hput. injection Hput as <-. pose proof W2 as [? Hmax2 ? ? ?]. pose proof W as [? Hmax ? ? ?].
  assert (~ v < w_Min w) by (intros ?; apply Hr; by left).
  split; [done|]. split; [done|]. split; [done|]. split.
  - right. apply Hs2. split; [by left|]. lia.
  - intros [Hu|Hu].
    + left. lia.
    + destruct (Z.lt_ge_cases u (w_Min w2)); [by left|]. right. apply Hs2. split; [by right|done].
Qed.

(** ** The abstract window *)

Record AbsWindow := { a_lo : Z; a_cap : Z; a_seen : gset Z }.

Definition aput (a : AbsWindow) (v : Z) : option AbsWindow :=
  if decide (v < a_lo a \/ v ∈ a_seen a) then None
  else
    let lo := Z.max (a_lo a) (v + 1 - a_cap a) in
    Some {| a_lo := lo; a_cap := a_cap a;
            a_seen := filter (fun u => lo <= u) ({[v]} ∪ a_seen a) |}.

Definition win_abs (w : Window) (a : AbsWindow) : Prop :=
  a_lo a = w_Min w /\ a_cap a = w_Cap w /\ forall u, u ∈ a_seen a <-> seen w u.

(** C5: [Window.put] implements the abstract de-duplication window.  On a
    well-formed window and an id below 2^64-1 it never crashes and never runs
    out of the loop bound; it accepts exactly when the abstract window does,
    with the abstract window's next state; a refusal is [expired] below [Min]
    and [existed] inside the window. *)
Theorem put_refines w a v :
  window_wf w -> win_abs w a -> window_id v ->
  match put w v with
  | Ok w' => window_wf w' /\ exists a', aput a v = Some a' /\ win_abs w' a'
  | Err (expired u mn mx) => aput a v = None /\ u = v /\ v < w_Min w /\ mn = w_Min w /\ mx = w_Max w
  | Err (existed u) => aput a v = None /\ u = v /\ w_Min w <= v /\ seen w v
  | Panic | Diverge => False
  end.
Proof.
  intros W (Hlo & Hcap & Hseen) Hv. unfold aput.
  destruct (decide (refused w v)) as [Hr|Hr].
  - rewrite put_refused by done. rewrite decide_True by (rewrite Hlo, Hseen; exact Hr).
    destruct (Z.ltb_spec v (w_Min w)); [auto|]. destruct Hr as [?|?]; [lia|auto].
  - rewrite decide_False by (rewrite Hlo, Hseen; exact Hr).
    destruct (put_fresh w v W Hv Hr) as (w' & -> & W' & Hc' & Hm' & Hs').
    split; [done|]. eexists. split; [done|]. pose proof W as [? ? ? ? ?]. pose proof W' as [? ? ? ? ?].
    assert (Hmin : Z.max (a_lo a) (v + 1 - a_cap a) = w_Min w') by lia.
    split; [|split]; simpl; [done|congruence|].
    intros u. rewrite elem_of_filter, elem_of_union, elem_of_singleton, Hseen, Hs', Hmin. tauto.
Qed.

(** The ids a stream of puts gets accepted, in order. *)
Fixpoint accepted (w : Window) (vs : list Z) : list Z :=
  match vs with
  | [] => []
  | v :: vs =>
      match put w v with
      | Ok w' => v :: accepted w' vs
      | _ => accepted w vs
      end
  end.

Lemma accepted_not_refused vs : forall w u,
  window_wf w -> Forall window_id vs -> u ∈ accepted w vs -> ~ refused w u.
Proof.
  induction vs as [|v vs IH]; intros w u W Hvs; simpl; [by intros ?%elem_of_nil|].
  apply Forall_cons in Hvs as [Hv Hvs].
  destruct (put w v) as [w'| | |] eqn:Hput; [|by apply IH..].
  destruct (put_grows w v w' u W Hv Hput) as (W' & _ & Hn & Hr & Hmono).
  intros [->|Hu]%elem_of_cons; [done|]. intros Hru. by apply (IH w' u W' Hvs Hu), Hmono.
Qed.

(** Whatever ids are put, in whatever order and however often, no id is
    accepted twice: the matching engine applies a redelivered order at most
    once. *)
Theorem accepted_at_most_once w vs :
  window_wf w -> Forall window_id vs -> NoDup (accepted w vs).
Proof.
  revert w. induction vs as [|v vs IH]; intros w W Hvs; simpl; [constructor|].
  apply Forall_cons in Hvs as [Hv Hvs].
  destruct (put w v) as [w'| | |] eqn:Hput; [|by apply IH..].
  destruct (put_grows w v w' v W Hv Hput) as (W' & _ & _ & Hr & _).
  constructor; [|by apply IH]. intros Hin. by apply (accepted_not_refused vs w' v W' Hvs Hin).
Qed.

(** ** Witnesses *)

Definition window_demo : Window := newWindow 0 16.

Lemma window_demo_wf : window_wf window_demo.
Proof. apply newWindow_wf; unfold u64_size; lia. Qed.

Lemma window_id_small v : 0 <= v < 1000 -> window_id v.
Proof. unfold window_id, u64_size. lia. Qed.

Lemma put_refines_witness :
  exists w', put window_demo 20 = Ok w' /\ window_wf w' /\
  exists a', aput {| a_lo := 0; a_cap := 16; a_seen := ∅ |} 20 = Some a' /\ win_abs w' a'.
Proof.
  assert (H : win_abs window_demo {| a_lo := 0; a_cap := 16; a_seen := ∅ |}).
  { split; [reflexivity|]. split; [reflexivity|]. intros u. split; [by intros ?%elem_of_empty|].
    intros H. by apply newWindow_seen in H. }
  pose proof (put_refines window_demo _ 20 window_demo_wf H (window_id_small 20 ltac:(lia))) as Hp.
  eexists. split; [vm_compute; reflexivity|]. exact Hp.
Defined.

Lemma accepted_at_most_once_witness :
  accepted window_demo [3; 20; 3; 20; 6; 4] = [3; 20; 6] /\
  NoDup (accepted window_demo [3; 20; 3; 20; 6; 4]).
Proof.
  split; [vm_compute; reflexivity|].
  apply accepted_at_most_once; [apply window_demo_wf|].
  repeat constructor; apply window_id_small; lia.
Defined.
