(* ===== verification/MatchLog.v ===== *)
(** The orders of the book and the matching log: [BookOrder] of
    [src/matching/order_book.go] and the records of [src/matching/log.go].

    [time.Now()] is an argument, the clock reading the record is stamped with. *)
From S2P Require Import Prelude Decimal Models.
From stdpp Require Import list.
Open Scope string_scope.
Open Scope list_scope.
Open Scope Z_scope.

Definition LogType := string.
Definition LogTypeMatch : LogType := "match".
Definition LogTypeOpen : LogType := "open".
Definition LogTypeDone : LogType := "done".

Section Logs.
Context {P : DecimalPkg}.

Record BookOrder := {
  bo_OrderId : Z;
  bo_UserId : Z;
  bo_Size : Dec;
  bo_Funds : Dec;
  bo_Price : Dec;
  bo_Side : Side;
  bo_Type : OrderType;
  bo_TimeInForce : TimeInForceType;
}.

Definition newBookOrder (order : Order) : BookOrder := {|
  bo_OrderId := ord_Id order;
  bo_UserId := ord_UserId order;
  bo_Size := ord_Size order;
  bo_Funds := ord_Funds order;
  bo_Price := ord_Price order;
  bo_Side := ord_Side order;
  bo_Type := ord_Type order;
  bo_TimeInForce := ord_TimeInForce order;
|}.

(** Assignments to one field, [order.Size = s] and the like. *)
Definition bo_setSize (b : BookOrder) (s : Dec) : BookOrder :=
  {| bo_OrderId := bo_OrderId b; bo_UserId := bo_UserId b; bo_Size := s; bo_Funds := bo_Funds b;
     bo_Price := bo_Price b; bo_Side := bo_Side b; bo_Type := bo_Type b;
     bo_TimeInForce := bo_TimeInForce b |}.
Definition bo_setFunds (b : BookOrder) (f : Dec) : BookOrder :=
  {| bo_OrderId := bo_OrderId b; bo_UserId := bo_UserId b; bo_Size := bo_Size b; bo_Funds := f;
     bo_Price := bo_Price b; bo_Side := bo_Side b; bo_Type := bo_Type b;
     bo_TimeInForce := bo_TimeInForce b |}.
Definition bo_setPrice (b : BookOrder) (p : Dec) : BookOrder :=
  {| bo_OrderId := bo_OrderId b; bo_UserId := bo_UserId b; bo_Size := bo_Size b; bo_Funds := bo_Funds b;
     bo_Price := p; bo_Side := bo_Side b; bo_Type := bo_Type b;
     bo_TimeInForce := bo_TimeInForce b |}.

Record Base := {
  base_Type : LogType;
  base_Sequence : Z;
  base_ProductId : string;
  base_Time : Instant;
}.

Record OpenLog := {
  ol_Base : Base;
  ol_OrderId : Z;
  ol_UserId : Z;
  ol_RemainingSize : Dec;
  ol_Price : Dec;
  ol_Side : Side;
  ol_TimeInForce : TimeInForceType;
}.

Definition newOpenLog (now : Instant) (logSeq : Z) (productId : string) (takerOrder : BookOrder) : OpenLog := {|
  ol_Base := {| base_Type := LogTypeOpen; base_Sequence := logSeq;
                base_ProductId := productId; base_Time := now |};
  ol_OrderId := bo_OrderId takerOrder;
  ol_UserId := bo_UserId takerOrder;
  ol_RemainingSize := bo_Size takerOrder;
  ol_Price := bo_Price takerOrder;
  ol_Side := bo_Side takerOrder;
  ol_TimeInForce := bo_TimeInForce takerOrder;
|}.

Record DoneLog := {
  dl_Base : Base;
  dl_OrderId : Z;
  dl_UserId : Z;
  dl_Price : Dec;
  dl_RemainingSize : Dec;
  dl_Reason : DoneReason;
  dl_Side : Side;
  dl_TimeInForce : TimeInForceType;
}.

Definition newDoneLog (now : Instant) (logSeq : Z) (productId : string) (order : BookOrder)
    (remainingSize : Dec) (reason : DoneReason) : DoneLog := {|
  dl_Base := {| base_Type := LogTypeDone; base_Sequence := logSeq;
                base_ProductId := productId; base_Time := now |};
  dl_OrderId := bo_OrderId order;
  dl_UserId := bo_UserId order;
  dl_Price := bo_Price order;
  dl_RemainingSize := remainingSize;
  dl_Reason := reason;
  dl_Side := bo_Side order;
  dl_TimeInForce := bo_TimeInForce order;
|}.

Record MatchLog := {
  ml_Base : Base;
  ml_TradeSeq : Z;
  ml_TakerOrderId : Z;
  ml_MakerOrderId : Z;
  ml_TakerUserId : Z;
  ml_MakerUserId : Z;
  ml_Side : Side;
  ml_Price : Dec;
  ml_Size : Dec;
  ml_TakerTimeInForce : TimeInForceType;
  ml_MakerTimeInForce : TimeInForceType;
}.

Definition newMatchLog (now : Instant) (logSeq : Z) (productId : string) (tradeSeq : Z)
    (takerOrder makerOrder : BookOrder) (price size : Dec) : MatchLog := {|
  ml_Base := {| base_Type := LogTypeMatch; base_Sequence := logSeq;
                base_ProductId := productId; base_Time := now |};
  ml_TradeSeq := tradeSeq;
  ml_TakerOrderId := bo_OrderId takerOrder;
  ml_MakerOrderId := bo_OrderId makerOrder;
  ml_TakerUserId := bo_UserId takerOrder;
  ml_MakerUserId := bo_UserId makerOrder;
  ml_Side := bo_Side makerOrder;
  ml_Price := price;
  ml_Size := size;
  ml_TakerTimeInForce := bo_TimeInForce takerOrder;
  ml_MakerTimeInForce := bo_TimeInForce makerOrder;
|}.

(** The [Log] interface and its three implementations that are ever built. *)
Inductive Log :=
| LOpen (l : OpenLog)
| LMatch (l : MatchLog)
| LDone (l : DoneLog).

Definition log_Base (l : Log) : Base :=
  match l with LOpen l => ol_Base l | LMatch l => ml_Base l | LDone l => dl_Base l end.
Definition GetSeq (l : Log) : Z := base_Sequence (log_Base l).
End Logs.
