(* ===== verification/OrderBook.v ===== *)
(** The matching order book: [src/matching/order_book.go].

    Definitions only.  The book is the record [orderBook]; Go's pointers to it
    are state passing.  A [*BookOrder] of a depth is reachable from that
    depth's map alone, so [decrSize] returns the object it changed beside the
    depth, for the callers that still hold the pointer.  [log.Fatal], [panic],
    a nil dereference and a division by zero are [Panic].  The loops carry a
    bound; [Diverge] is the exhausted bound, which [Matching.v] rules out. *)
From S2P Require Import Prelude Decimal TreeMap Models Window MatchLog.
From stdpp Require Import list.
Open Scope string_scope.
Open Scope list_scope.
Open Scope Z_scope.

Definition orderIdWindowCap : Z := 10000.

Section OrderBook.
Context {P : DecimalPkg} {T : TreeMapPkg}.
(** The clock reading that stamps the log with the given sequence number. *)
Context (now : Z -> Instant).

Record priceOrderIdKey := {
  key_price : Dec;
  key_orderId : Z;
}.

Definition priceOrderIdKeyAscComparator (a b : priceOrderIdKey) : Z :=
  let x := dec_Cmp (key_price a) (key_price b) in
  if negb (x =? 0) then x
  else if key_orderId a <? key_orderId b then -1
  else if key_orderId b <? key_orderId a then 1
  else 0.

Definition priceOrderIdKeyDescComparator (a b : priceOrderIdKey) : Z :=
  let x := dec_Cmp (key_price a) (key_price b) in
  if negb (x =? 0) then - x
  else if key_orderId a <? key_orderId b then -1
  else if key_orderId b <? key_orderId a then 1
  else 0.

(** *** depth *)

Record depth := {
  d_orders : gmap Z BookOrder;
  d_queue : TreeMap priceOrderIdKey Z;
}.

Definition depth_add (d : depth) (order : BookOrder) : depth := {|
  d_orders := <[bo_OrderId order := order]> (d_orders d);
  d_queue := tm_Put (d_queue d)
               {| key_price := bo_Price order; key_orderId := bo_OrderId order |}
               (bo_OrderId order);
|}.

Inductive bookError :=
| orderNotFound (orderId : Z)
| sizeLessThan (orderId : Z) (have want : Dec).

Definition decrSize (d : depth) (orderId : Z) (size : Dec) : outcome bookError (depth * BookOrder) :=
  match d_orders d !! orderId with
  | None => Err (orderNotFound orderId)
  | Some order =>
      if dec_LessThan (bo_Size order) size then Err (sizeLessThan orderId (bo_Size order) size)
      else
        let order := bo_setSize order (dec_Sub (bo_Size order) size) in
        if dec_IsZero (bo_Size order) then
          Ok ({| d_orders := delete orderId (d_orders d);
                 d_queue := tm_Remove (d_queue d)
                              {| key_price := bo_Price order; key_orderId := bo_OrderId order |} |},
              order)
        else
          Ok ({| d_orders := <[orderId := order]> (d_orders d); d_queue := d_queue d |}, order)
  end.

(** *** orderBook *)

Record orderBook := {
  ob_product : Product;
  ob_depths : gmap string depth;
  ob_tradeSeq : Z;
  ob_logSeq : Z;
  ob_orderIdWindows : list Window;
}.

Definition ob_setDepth (o : orderBook) (side : Side) (d : depth) : orderBook :=
  {| ob_product := ob_product o; ob_depths := <[side := d]> (ob_depths o);
     ob_tradeSeq := ob_tradeSeq o; ob_logSeq := ob_logSeq o;
     ob_orderIdWindows := ob_orderIdWindows o |}.

Definition ob_setWindows (o : orderBook) (ws : list Window) : orderBook :=
  {| ob_product := ob_product o; ob_depths := ob_depths o;
     ob_tradeSeq := ob_tradeSeq o; ob_logSeq := ob_logSeq o; ob_orderIdWindows := ws |}.

Definition freshWindows : list Window :=
  replicate (Z.to_nat TableOrderSplitCount) (newWindow 0 orderIdWindowCap).

Definition NewOrderBook (product : Product) : orderBook :=
  let asks := {| d_queue := tm_NewWith priceOrderIdKeyAscComparator; d_orders := ∅ |} in
  let bids := {| d_queue := tm_NewWith priceOrderIdKeyDescComparator; d_orders := ∅ |} in
  {| ob_product := product;
     ob_depths := <[SideBuy := bids]> (<[SideSell := asks]> ∅);
     ob_tradeSeq := 0; ob_logSeq := 0;
     ob_orderIdWindows := freshWindows |}.

(** [int64] counters. *)
Definition nextLogSeq (o : orderBook) : Z * orderBook :=
  let n := i64 (ob_logSeq o + 1) in
  (n, {| ob_product := ob_product o; ob_depths := ob_depths o;
         ob_tradeSeq := ob_tradeSeq o; ob_logSeq := n;
         ob_orderIdWindows := ob_orderIdWindows o |}).
Definition nextTradeSeq (o : orderBook) : Z * orderBook :=
  let n := i64 (ob_tradeSeq o + 1) in
  (n, {| ob_product := ob_product o; ob_depths := ob_depths o;
         ob_tradeSeq := n; ob_logSeq := ob_logSeq o;
         ob_orderIdWindows := ob_orderIdWindows o |}).

(** *** Matching *)

Definition prepareTakerOrder (takerOrder : BookOrder) : BookOrder :=
  if bo_Type takerOrder =s? OrderTypeMarket then
    if bo_Side takerOrder =s? SideBuy then bo_setPrice takerOrder dec_MaxFloat32
    else bo_setPrice takerOrder dec_Zero
  else takerOrder.

Definition pricesCross (takerSide : Side) (takerPrice makerPrice : Dec) : bool :=
  if takerSide =s? SideBuy then dec_GreaterThanOrEqual takerPrice makerPrice
  else dec_LessThanOrEqual takerPrice makerPrice.

(** The two kinds of takers the code tells apart. *)
Definition sizedTaker (t : BookOrder) : bool :=
  (bo_Type t =s? OrderTypeLimit) || ((bo_Type t =s? OrderTypeMarket) && (bo_Side t =s? SideSell)).
Definition fundedTaker (t : BookOrder) : bool :=
  (bo_Type t =s? OrderTypeMarket) && (bo_Side t =s? SideBuy).

(** Returns the changed taker, the size, the funds consumed and whether the
    taker is exhausted. *)
Definition calcTradeSize {E} (takerOrder makerOrder : BookOrder) (product : Product)
    : outcome E (BookOrder * Dec * Dec * bool) :=
  if sizedTaker takerOrder then
    if dec_IsZero (bo_Size takerOrder) then Ok (takerOrder, dec_Zero, dec_Zero, true)
    else
      let size := dec_Min (bo_Size takerOrder) (bo_Size makerOrder) in
      let takerOrder := bo_setSize takerOrder (dec_Sub (bo_Size takerOrder) size) in
      Ok (takerOrder, size, dec_Zero, dec_IsZero (bo_Size takerOrder))
  else if fundedTaker takerOrder then
    if dec_IsZero (bo_Funds takerOrder) then Ok (takerOrder, dec_Zero, dec_Zero, true)
    else
      quotient ← deref (dec_Div (bo_Funds takerOrder) (bo_Price makerOrder));
      let takerSize := dec_Truncate quotient (prod_BaseScale product) in
      if dec_IsZero takerSize then Ok (takerOrder, dec_Zero, dec_Zero, true)
      else
        let size := dec_Min takerSize (bo_Size makerOrder) in
        let fundsConsumed := dec_Mul size (bo_Price makerOrder) in
        let takerOrder := bo_setFunds takerOrder (dec_Sub (bo_Funds takerOrder) fundsConsumed) in
        Ok (takerOrder, size, fundsConsumed, dec_IsZero (bo_Funds takerOrder))
  else Panic.

(** "next iteration would see zero Size/Funds" *)
Definition takerSpent (t : BookOrder) : bool :=
  if sizedTaker t then dec_IsZero (bo_Size t)
  else if fundedTaker t then dec_IsZero (bo_Funds t)
  else false.

Definition IsOrderWillNotMatch (o : orderBook) (order : Order) : outcome noerr bool :=
  let takerOrder := prepareTakerOrder (newBookOrder order) in
  makerDepth ← deref (ob_depths o !! Opposite (bo_Side takerOrder));
  if bo_Side takerOrder =s? SideBuy then
    match tm_Min (d_queue makerDepth) with
    | None => mret true
    | Some (_, v) =>
        makerOrder ← deref (d_orders makerDepth !! v);
        mret (negb (pricesCross (bo_Side takerOrder) (bo_Price takerOrder) (bo_Price makerOrder)))
    end
  else
    match tm_Max (d_queue makerDepth) with
    | None => mret true
    | Some (_, v) =>
        makerOrder ← deref (d_orders makerDepth !! v);
        mret (negb (pricesCross (bo_Side takerOrder) (bo_Price takerOrder) (bo_Price makerOrder)))
    end.

(** The loop of [IsOrderWillFullMatch]: the taker it ends with. *)
Fixpoint fullMatchLoop (fuel : nat) (makerDepth : depth) (product : Product)
    (takerOrder : BookOrder) (pos : option priceOrderIdKey) : outcome noerr BookOrder :=
  match fuel with
  | O => Diverge
  | S fuel =>
      match tm_Next (d_queue makerDepth) pos with
      | None => Ok takerOrder
      | Some (k, orderId) =>
          makerOrder ← deref (d_orders makerDepth !! orderId);
          if negb (pricesCross (bo_Side takerOrder) (bo_Price takerOrder) (bo_Price makerOrder))
          then Ok takerOrder
          else
            '(takerOrder, size, _, _) ← calcTradeSize takerOrder makerOrder product;
            if dec_IsZero size then Ok takerOrder
            else if takerSpent takerOrder then Ok takerOrder
            else fullMatchLoop fuel makerDepth product takerOrder (Some k)
      end
  end.

Definition IsOrderWillFullMatch (o : orderBook) (order : Order) : outcome noerr bool :=
  let takerOrder := prepareTakerOrder (newBookOrder order) in
  makerDepth ← deref (ob_depths o !! Opposite (bo_Side takerOrder));
  takerOrder ← fullMatchLoop (S (tm_Size (d_queue makerDepth))) makerDepth (ob_product o) takerOrder None;
  if (bo_Type takerOrder =s? OrderTypeLimit) && dec_GreaterThan (bo_Size takerOrder) dec_Zero
  then mret false else mret true.

(** The guard against a resubmitted order. *)
Definition dedupPut (o : orderBook) (orderId : Z) : outcome windowError orderBook :=
  let idx := Z.to_nat (GetTableIndexByOrderId orderId) in
  w ← deref (ob_orderIdWindows o !! idx);
  w ← put w orderId;
  mret (ob_setWindows o (<[idx := w]> (ob_orderIdWindows o))).

(** One pass through the body of [ApplyOrder]'s loop for the maker [orderId].
    The boolean tells whether the loop goes on. *)
Definition matchStep (o : orderBook) (takerOrder : BookOrder) (orderId : Z)
    : outcome noerr (bool * orderBook * BookOrder * list Log) :=
  let opp := Opposite (bo_Side takerOrder) in
  makerDepth ← deref (ob_depths o !! opp);
  makerOrder ← deref (d_orders makerDepth !! orderId);
  if negb (pricesCross (bo_Side takerOrder) (bo_Price takerOrder) (bo_Price makerOrder))
  then mret (false, o, takerOrder, [])
  else
    '(takerOrder, size, _, _) ← calcTradeSize takerOrder makerOrder (ob_product o);
    if dec_IsZero size then mret (false, o, takerOrder, [])
    else
      '(makerDepth, makerOrder) ← fatalErr (decrSize makerDepth (bo_OrderId makerOrder) size);
      let o := ob_setDepth o opp makerDepth in
      let '(logSeq, o) := nextLogSeq o in
      let '(tradeSeq, o) := nextTradeSeq o in
      let matchLog := newMatchLog (now logSeq) logSeq (prod_Id (ob_product o)) tradeSeq
                        takerOrder makerOrder (bo_Price makerOrder) size in
      let '(o, logs) :=
        if dec_IsZero (bo_Size makerOrder) then
          let '(logSeq, o) := nextLogSeq o in
          (o, [LMatch matchLog;
               LDone (newDoneLog (now logSeq) logSeq (prod_Id (ob_product o)) makerOrder
                        (bo_Size makerOrder) DoneReasonFilled)])
        else (o, [LMatch matchLog]) in
      mret (negb (takerSpent takerOrder), o, takerOrder, logs).

Fixpoint matchLoop (fuel : nat) (o : orderBook) (takerOrder : BookOrder)
    (pos : option priceOrderIdKey) : outcome noerr (orderBook * BookOrder * list Log) :=
  match fuel with
  | O => Diverge
  | S fuel =>
      makerDepth ← deref (ob_depths o !! Opposite (bo_Side takerOrder));
      match tm_Next (d_queue makerDepth) pos with
      | None => mret (o, takerOrder, [])
      | Some (k, orderId) =>
          '(continue, o, takerOrder, logs) ← matchStep o takerOrder orderId;
          if (continue : bool) then
            '(o, takerOrder, logs') ← matchLoop fuel o takerOrder (Some k);
            mret (o, takerOrder, logs ++ logs')
          else mret (o, takerOrder, logs)
      end
  end.

(** The order, the remaining size and the reason of the taker's done log. *)
Definition takerDone (takerOrder : BookOrder) : BookOrder * Dec * DoneReason :=
  if bo_Type takerOrder =s? OrderTypeMarket then
    let takerOrder := bo_setPrice takerOrder dec_Zero in
    (takerOrder, dec_Zero,
     if ((bo_Side takerOrder =s? SideSell) && dec_GreaterThan (bo_Size takerOrder) dec_Zero)
        || ((bo_Side takerOrder =s? SideBuy) && dec_GreaterThan (bo_Funds takerOrder) dec_Zero)
     then DoneReasonCancelled else DoneReasonFilled)
  else (takerOrder, bo_Size takerOrder, DoneReasonFilled).

(** "If taker has an uncompleted size, put taker in orderBook" *)
Definition takerRests (takerOrder : BookOrder) : bool :=
  (bo_Type takerOrder =s? OrderTypeLimit) && dec_GreaterThan (bo_Size takerOrder) dec_Zero.

(** What happens to the taker after the loop. *)
Definition finishTaker (o : orderBook) (takerOrder : BookOrder) : outcome noerr (orderBook * list Log) :=
  if takerRests takerOrder then
    d ← deref (ob_depths o !! bo_Side takerOrder);
    let o := ob_setDepth o (bo_Side takerOrder) (depth_add d takerOrder) in
    let '(logSeq, o) := nextLogSeq o in
    mret (o, [LOpen (newOpenLog (now logSeq) logSeq (prod_Id (ob_product o)) takerOrder)])
  else
    let '(takerOrder, remainingSize, reason) := takerDone takerOrder in
    let '(logSeq, o) := nextLogSeq o in
    mret (o, [LDone (newDoneLog (now logSeq) logSeq (prod_Id (ob_product o)) takerOrder remainingSize reason)]).

Definition ApplyOrder (o : orderBook) (order : Order) : outcome noerr (orderBook * list Log) :=
  match dedupPut o (ord_Id order) with
  | Err _ => Ok (o, [])
  | Panic => Panic
  | Diverge => Diverge
  | Ok o =>
      let takerOrder := prepareTakerOrder (newBookOrder order) in
      makerDepth ← deref (ob_depths o !! Opposite (bo_Side takerOrder));
      '(o, takerOrder, logs) ← matchLoop (S (tm_Size (d_queue makerDepth))) o takerOrder None;
      '(o, logs') ← finishTaker o takerOrder;
      mret (o, logs ++ logs')
  end.

Definition CancelOrder (o : orderBook) (order : Order) : outcome noerr (orderBook * list Log) :=
  o ← ignoreErr o (dedupPut o (ord_Id order));
  d ← deref (ob_depths o !! ord_Side order);
  match d_orders d !! ord_Id order with
  | None => mret (o, [])
  | Some bookOrder =>
      let remainingSize := bo_Size bookOrder in
      '(d, bookOrder) ← fatalErr (decrSize d (ord_Id order) (bo_Size bookOrder));
      let o := ob_setDepth o (ord_Side order) d in
      let '(logSeq, o) := nextLogSeq o in
      mret (o, [LDone (newDoneLog (now logSeq) logSeq (prod_Id (ob_product o)) bookOrder
                         remainingSize DoneReasonCancelled)])
  end.

Definition NullifyOrder (o : orderBook) (order : Order) : outcome noerr (orderBook * list Log) :=
  o ← ignoreErr o (dedupPut o (ord_Id order));
  let bookOrder := newBookOrder order in
  let '(logSeq, o) := nextLogSeq o in
  mret (o, [LDone (newDoneLog (now logSeq) logSeq (prod_Id (ob_product o)) bookOrder
                     (ord_Size order) DoneReasonCancelled)]).

(** *** Snapshots *)

Record orderBookSnapshot := {
  snap_ProductId : string;
  snap_Orders : list BookOrder;
  snap_TradeSeq : Z;
  snap_LogSeq : Z;
  snap_OrderIdWindows : list Window;
}.

(** Go visits a map in an unspecified order: [visit] permutes the values of
    each map.  The windows are the book's own objects, not copies;
    [Engine.v] models that sharing. *)
Definition Snapshot (visit : list BookOrder -> list BookOrder) (o : orderBook)
    : outcome noerr orderBookSnapshot :=
  asks ← deref (ob_depths o !! SideSell);
  bids ← deref (ob_depths o !! SideBuy);
  mret {|
    snap_ProductId := "";
    snap_Orders := visit (map_to_list (d_orders asks)).*2 ++ visit (map_to_list (d_orders bids)).*2;
    snap_LogSeq := ob_logSeq o;
    snap_TradeSeq := ob_tradeSeq o;
    snap_OrderIdWindows := ob_orderIdWindows o;
  |}.

Fixpoint restoreOrders (o : orderBook) (orders : list BookOrder) : outcome noerr orderBook :=
  match orders with
  | [] => Ok o
  | order :: orders =>
      d ← deref (ob_depths o !! bo_Side order);
      restoreOrders (ob_setDepth o (bo_Side order) (depth_add d order)) orders
  end.

Definition Restore (o : orderBook) (snapshot : orderBookSnapshot) : outcome noerr orderBook :=
  let windows := snap_OrderIdWindows snapshot in
  let windows := if negb (Z.of_nat (length windows) =? TableOrderSplitCount) then freshWindows else windows in
  restoreOrders {| ob_product := ob_product o; ob_depths := ob_depths o;
                   ob_tradeSeq := snap_TradeSeq snapshot; ob_logSeq := snap_LogSeq snapshot;
                   ob_orderIdWindows := windows |}
    (snap_Orders snapshot).
End OrderBook.
