(* ===== verification/DepthInv.v ===== *)
(** One side of the book as a list of resting orders in matching priority.

    [depth_repr cmp side d l] relates a [depth], its map of orders and its
    queue, to the list [l].  The lemmas replay [depth_add] and [decrSize] on
    the list; the later files never look inside a [depth] again. *)
From S2P Require Import Prelude Decimal TreeMap Models Window MatchLog OrderBook.
From Stdlib Require Import QArith Lqa.
From stdpp Require Import list.
Open Scope string_scope.
Open Scope list_scope.
Open Scope Z_scope.

Section Depth.
Context {P : DecimalPkg} {L : DecimalLaws P} {T : TreeMapPkg} {TL : TreeMapLaws T}.
Implicit Types (d : depth) (l : list BookOrder).

(** ** The two priority orders *)

(** Earlier ids first among equal prices. *)
Lemma asc_neg a b :
  priceOrderIdKeyAscComparator a b < 0 <->
  (dval (key_price a) < dval (key_price b))%Q \/
  (dval (key_price a) == dval (key_price b))%Q /\ key_orderId a < key_orderId b.
Proof.
  unfold priceOrderIdKeyAscComparator.
  pose proof (Cmp_neg (key_price a) (key_price b)).
  pose proof (Cmp_zero (key_price a) (key_price b)) as Hz.
  destruct (Z.eqb_spec (dec_Cmp (key_price a) (key_price b)) 0) as [E|E]; simpl.
  - apply Hz in E.
    destruct (Z.ltb_spec (key_orderId a) (key_orderId b));
      [|destruct (Z.ltb_spec (key_orderId b) (key_orderId a))].
    + split; [by right|lia].
    + split; [lia|]. intros [?|[? ?]]; [lra|lia].
    + split; [lia|]. intros [?|[? ?]]; [lra|lia].
  - split; [tauto|]. intros [?|[? ?]]; [tauto|]. tauto.
Qed.
Lemma asc_pos a b :
  0 < priceOrderIdKeyAscComparator a b <-> priceOrderIdKeyAscComparator b a < 0.
Proof.
  rewrite asc_neg. unfold priceOrderIdKeyAscComparator.
  pose proof (Cmp_pos (key_price a) (key_price b)).
  pose proof (Cmp_zero (key_price a) (key_price b)) as Hz.
  destruct (Z.eqb_spec (dec_Cmp (key_price a) (key_price b)) 0) as [E|E]; simpl.
  - apply Hz in E.
    destruct (Z.ltb_spec (key_orderId a) (key_orderId b));
      [|destruct (Z.ltb_spec (key_orderId b) (key_orderId a))].
    + split; [lia|]. intros [?|[? ?]]; [lra|lia].
    + split; [|lia]. intros _. right. split; [lra|done].
    + split; [lia|]. intros [?|[? ?]]; [lra|lia].
  - split; [tauto|]. intros [?|[? ?]]; [tauto|].
    exfalso. apply E, Hz. lra.
Qed.

(** The descending order is the ascending one on negated prices. *)
Definition negKey (k : priceOrderIdKey) : priceOrderIdKey :=
  {| key_price := dec_Neg (key_price k); key_orderId := key_orderId k |}.

Lemma desc_asc a b :
  priceOrderIdKeyDescComparator a b = priceOrderIdKeyAscComparator (negKey a) (negKey b).
Proof.
  unfold priceOrderIdKeyDescComparator, priceOrderIdKeyAscComparator. simpl.
  assert (dec_Cmp (dec_Neg (key_price a)) (dec_Neg (key_price b)) = - dec_Cmp (key_price a) (key_price b)) as ->.
  { rewrite !dec_Cmp_val.
    destruct (Qcompare_spec (dval (key_price a)) (dval (key_price b))),
      (Qcompare_spec (dval (dec_Neg (key_price a))) (dval (dec_Neg (key_price b)))); try done; dec_lra. }
  destruct (Z.eqb_spec (dec_Cmp (key_price a) (key_price b)) 0) as [->|?]; [done|].
  destruct (Z.eqb_spec (- dec_Cmp (key_price a) (key_price b)) 0); [lia|done].
Qed.

Lemma asc_order : CmpOrder priceOrderIdKeyAscComparator.
Proof.
  split.
  - intros a. pose proof (asc_neg a a). pose proof (asc_pos a a).
    destruct (Z.lt_trichotomy (priceOrderIdKeyAscComparator a a) 0) as [?|[?|?]]; [|done|].
    + assert (priceOrderIdKeyAscComparator a a < 0) as [?|[? ?]]%H by done; [lra|lia].
    + assert (priceOrderIdKeyAscComparator a a < 0) as [?|[? ?]]%H by tauto; [lra|lia].
  - intros a b. by rewrite asc_pos.
  - intros a b c H1 H2. apply Z.nlt_ge. rewrite asc_pos, asc_neg.
    apply Z.nlt_ge in H1, H2. rewrite asc_pos, asc_neg in H1, H2. intros H3.
    destruct (Qlt_le_dec (dval (key_price b)) (dval (key_price a))); [tauto|].
    destruct (Qlt_le_dec (dval (key_price c)) (dval (key_price b))); [tauto|].
    destruct H3 as [?|[? ?]]; [lra|].
    destruct (Z.lt_ge_cases (key_orderId b) (key_orderId a)); [apply H1; right; split; [lra|done]|].
    apply H2. right. split; [lra|lia].
Qed.
Lemma desc_order : CmpOrder priceOrderIdKeyDescComparator.
Proof.
  split; intros *; rewrite !desc_asc; apply asc_order.
Qed.

Lemma asc_le a b : priceOrderIdKeyAscComparator a b < 0 -> (dval (key_price a) <= dval (key_price b))%Q.
Proof. intros [?|[? ?]]%asc_neg; lra. Qed.
Lemma desc_le a b : priceOrderIdKeyDescComparator a b < 0 -> (dval (key_price b) <= dval (key_price a))%Q.
Proof. rewrite desc_asc. intros H%asc_le. simpl in H. dec_lra. Qed.

(** Distinct ids never compare equal. *)
Lemma asc_zero_id a b : priceOrderIdKeyAscComparator a b = 0 -> key_orderId a = key_orderId b.
Proof.
  intros H. pose proof (asc_neg a b) as H1. pose proof (asc_neg b a) as H2. pose proof (asc_pos a b).
  destruct (Z.lt_trichotomy (key_orderId a) (key_orderId b)) as [?|[?|?]]; [exfalso|done|exfalso].
  - destruct (Qlt_le_dec (dval (key_price b)) (dval (key_price a))).
    + assert (priceOrderIdKeyAscComparator b a < 0) by tauto. lia.
    + destruct (Qlt_le_dec (dval (key_price a)) (dval (key_price b))).
      * assert (priceOrderIdKeyAscComparator a b < 0) by tauto. lia.
      * assert (priceOrderIdKeyAscComparator a b < 0) by (apply H1; right; split; [lra|done]). lia.
  - destruct (Qlt_le_dec (dval (key_price a)) (dval (key_price b))).
    + assert (priceOrderIdKeyAscComparator a b < 0) by tauto. lia.
    + destruct (Qlt_le_dec (dval (key_price b)) (dval (key_price a))).
      * assert (priceOrderIdKeyAscComparator b a < 0) by tauto. lia.
      * assert (priceOrderIdKeyAscComparator b a < 0) by (apply H2; right; split; [lra|done]). lia.
Qed.
Lemma desc_zero_id a b : priceOrderIdKeyDescComparator a b = 0 -> key_orderId a = key_orderId b.
Proof. rewrite desc_asc. intros H%asc_zero_id. exact H. Qed.

(** ** A depth as a list *)

Definition keyOf (b : BookOrder) : priceOrderIdKey :=
  {| key_price := bo_Price b; key_orderId := bo_OrderId b |}.
Definition entry (b : BookOrder) : priceOrderIdKey * Z := (keyOf b, bo_OrderId b).

(** An order the book keeps. *)
Definition resting (side : Side) (b : BookOrder) : Prop :=
  bo_Side b = side /\ bo_Type b = OrderTypeLimit /\
  (0 < dval (bo_Size b))%Q /\ (0 < dval (bo_Price b))%Q.

Section Repr.
Context (cmp : priceOrderIdKey -> priceOrderIdKey -> Z).
Context (C : CmpOrder cmp) (Cid : forall a b, cmp a b = 0 -> key_orderId a = key_orderId b).
Context (side : Side).

Record depth_repr (d : depth) (l : list BookOrder) : Prop := {
  dr_queue : tm_repr cmp (d_queue d) (entry <$> l);
  dr_orders : forall id b, d_orders d !! id = Some b <-> b ∈ l /\ bo_OrderId b = id;
  dr_resting : Forall (resting side) l;
}.

Fixpoint rest_insert (b : BookOrder) (l : list BookOrder) : list BookOrder :=
  match l with
  | [] => [b]
  | b' :: l' => if cmp (keyOf b) (keyOf b') <? 0 then b :: l else b' :: rest_insert b l'
  end.

Definition priority (a b : BookOrder) : Prop := cmp (keyOf a) (keyOf b) < 0.

Lemma entries_sorted l : sl_sorted cmp (entry <$> l) <-> StronglySorted priority l.
Proof.
  induction l as [|b l IH]; simpl.
  - split; constructor.
  - rewrite sl_sorted_cons, IH, Forall_fmap. split.
    + intros [? ?]. by constructor.
    + intros H. apply StronglySorted_inv in H. exact H.
Qed.

Lemma depth_sorted d l : depth_repr d l -> StronglySorted priority l.
Proof. intros R. apply entries_sorted, (dr_queue _ _ R). Qed.

Lemma depth_ids d l : depth_repr d l -> NoDup (bo_OrderId <$> l).
Proof.
  intros R. pose proof (depth_sorted d l R) as Hs. pose proof (dr_orders _ _ R) as Ho.
  assert (Huniq : forall b1 b2, b1 ∈ l -> b2 ∈ l -> bo_OrderId b1 = bo_OrderId b2 -> b1 = b2).
  { intros b1 b2 H1 H2 E. pose proof (proj2 (Ho _ b1) (conj H1 eq_refl)) as E1.
    pose proof (proj2 (Ho _ b2) (conj H2 eq_refl)) as E2. rewrite E, E2 in E1. congruence. }
  clear R Ho. induction l as [|b l IH]; simpl; [constructor|].
  apply StronglySorted_inv in Hs as [Hs Hf]. constructor.
  - intros (b' & E & Hin)%list_elem_of_fmap.
    assert (b' = b) as -> by (apply Huniq; [set_solver|set_solver|done]).
    rewrite Forall_forall in Hf. specialize (Hf _ Hin). unfold priority in Hf.
    rewrite (cmp_refl C) in Hf. lia.
  - apply IH; [done|]. intros. apply Huniq; set_solver.
Qed.

Lemma rest_insert_perm b l : rest_insert b l ≡ₚ b :: l.
Proof.
  induction l as [|b' l IH]; simpl; [done|]. case_bool; [done|].
  rewrite IH. apply Permutation_swap.
Qed.

Lemma rest_insert_entries b l :
  (forall b', b' ∈ l -> bo_OrderId b' <> bo_OrderId b) ->
  entry <$> rest_insert b l = sl_put cmp (keyOf b) (bo_OrderId b) (entry <$> l).
Proof.
  induction l as [|b' l IH]; intros Hne; simpl; [done|].
  destruct (Z.ltb_spec (cmp (keyOf b) (keyOf b')) 0); [done|].
  destruct (Z.eqb_spec (cmp (keyOf b) (keyOf b')) 0) as [E|E].
  - apply Cid in E. simpl in E. exfalso. apply (Hne b'); [set_solver|done].
  - simpl. f_equal. apply IH. intros. apply Hne. set_solver.
Qed.

Lemma depth_add_repr d l b :
  depth_repr d l -> resting side b -> (forall b', b' ∈ l -> bo_OrderId b' <> bo_OrderId b) ->
  depth_repr (depth_add d b) (rest_insert b l).
Proof.
  intros [Hq Ho Hr] Hb Hne. split; simpl.
  - rewrite rest_insert_entries by done. by apply tm_repr_Put.
  - intros id b'. rewrite rest_insert_perm, elem_of_cons.
    destruct (decide (bo_OrderId b = id)) as [<-|Hid].
    + rewrite lookup_insert_eq. split.
      * intros [= ->]. auto.
      * intros [[->|Hin] E]; [done|]. exfalso. by apply (Hne b').
    + rewrite lookup_insert_ne, Ho by done. split; [tauto|].
      intros [[->|?] ?]; [done|tauto].
  - rewrite rest_insert_perm. by constructor.
Qed.

Lemma depth_lookup d l b : depth_repr d l -> b ∈ l -> d_orders d !! bo_OrderId b = Some b.
Proof. intros R Hb. by apply (dr_orders _ _ R). Qed.

Lemma depth_lookup_None d l id :
  depth_repr d l -> d_orders d !! id = None <-> forall b, b ∈ l -> bo_OrderId b <> id.
Proof.
  intros R. split.
  - intros H b Hb E. assert (d_orders d !! id = Some b) by (by apply (dr_orders _ _ R)). congruence.
  - intros H. destruct (d_orders d !! id) as [b|] eqn:E; [|done].
    apply (dr_orders _ _ R) in E as [? ?]. exfalso. by apply (H b).
Qed.

(** What [decrSize] leaves of the maker. *)
Definition keepIfOpen (m : BookOrder) : list BookOrder :=
  if dec_IsZero (bo_Size m) then [] else [m].

Lemma decrSize_repr d l1 m l2 size :
  depth_repr d (l1 ++ m :: l2) -> (dval size <= dval (bo_Size m))%Q ->
  let m' := bo_setSize m (dec_Sub (bo_Size m) size) in
  exists d', decrSize d (bo_OrderId m) size = Ok (d', m') /\
             depth_repr d' (l1 ++ keepIfOpen m' ++ l2).
Proof.
  intros R Hle m'. pose proof (depth_ids _ _ R) as Hids. pose proof R as [Hq Ho Hr].
  assert (Hm : resting side m) by (rewrite Forall_forall in Hr; apply Hr; set_solver).
  rewrite fmap_app in Hids. simpl in Hids. apply NoDup_app in Hids as (Hn1 & Hn12 & Hn2).
  apply NoDup_cons in Hn2 as [Hmn2 Hn2].
  assert (Hne : forall b, b ∈ l1 ++ l2 -> bo_OrderId b <> bo_OrderId m).
  { intros b [Hb|Hb]%elem_of_app E.
    - apply (Hn12 (bo_OrderId m)); [rewrite <- E; by apply list_elem_of_fmap_2|set_solver].
    - apply Hmn2. rewrite <- E. by apply list_elem_of_fmap_2. }
  unfold decrSize. rewrite (depth_lookup _ _ m R) by set_solver.
  destruct (dec_LessThan (bo_Size m) size) eqn:E1; [exfalso; dec_lra|].
  fold m'. unfold keepIfOpen. destruct (dec_IsZero (bo_Size m')) eqn:E2; eexists; (split; [done|]).
  - split; simpl.
    + rewrite fmap_app in *. simpl in Hq.
      rewrite <- (sl_remove_mid cmp C _ (keyOf m) (bo_OrderId m)) by apply Hq.
      by apply tm_repr_Remove.
    + intros id b. destruct (decide (id = bo_OrderId m)) as [->|Hid].
      * rewrite lookup_delete_eq. split; [done|]. intros [Hb E]. exfalso. by apply (Hne b).
      * rewrite lookup_delete_ne, Ho by done. split; intros [Hb E]; (split; [|done]).
        -- apply elem_of_app in Hb as [?|[->|?]%elem_of_cons]; [set_solver|done|set_solver].
        -- set_solver.
    + apply Forall_app in Hr as [? Hr]. apply Forall_cons in Hr as [? ?]. by apply Forall_app.
  - split; simpl.
    + rewrite fmap_app in *. exact Hq.
    + intros id b. destruct (decide (id = bo_OrderId m)) as [->|Hid].
      * rewrite lookup_insert_eq. split.
        -- intros [= <-]. split; [set_solver|done].
        -- intros [Hb E]. apply elem_of_app in Hb as [?|[->|?]%elem_of_cons]; [|done|];
             exfalso; apply (Hne b); set_solver.
      * rewrite lookup_insert_ne, Ho by done. split; intros [Hb E]; (split; [|done]).
        -- apply elem_of_app in Hb as [?|[->|?]%elem_of_cons]; [set_solver|done|set_solver].
        -- apply elem_of_app in Hb as [?|[->|?]%elem_of_cons]; [set_solver|done|set_solver].
    + apply Forall_app in Hr as [? Hr]. apply Forall_cons in Hr as [? ?].
      apply Forall_app. split; [done|]. constructor; [|done].
      destruct Hm as (? & ? & ? & ?). unfold resting, m' in *. simpl in *.
      repeat split; try done. dec_prop. dec_laws. lra.
Qed.
End Repr.
End Depth.
