(* ===== verification/Matching.v ===== *)
(** Price-time priority matching: the loop of [ApplyOrder] refines matching a
    taker against a list of resting orders.

    [matchList] is the abstract matcher; [matchLoop_refines] shows that the
    loop over the queue, with its iterator, its removals under the iterator and
    its bound, computes exactly it, and [fullMatchLoop_refines] that the dry run
    of [IsOrderWillFullMatch] ends with the same taker. *)
From S2P Require Import Prelude Decimal TreeMap Models Window MatchLog OrderBook DepthInv.
From Stdlib Require Import QArith Lqa.
From stdpp Require Import list.
Open Scope string_scope.
Open Scope list_scope.
Open Scope Z_scope.

(** ** The abstract matcher *)

(** The maker after a trade, with the size traded. *)
Abbreviation fillOf := (BookOrder * Dec)%type.

Section MatchList.
Context {P : DecimalPkg}.

(** Match [taker] against [makers] in order: the fills, the taker left over
    and the makers left over. *)
Fixpoint matchList (product : Product) (taker : BookOrder) (makers : list BookOrder)
    : outcome noerr (list fillOf * BookOrder * list BookOrder) :=
  match makers with
  | [] => Ok ([], taker, [])
  | m :: ms =>
      if negb (pricesCross (bo_Side taker) (bo_Price taker) (bo_Price m))
      then Ok ([], taker, m :: ms)
      else
        '(taker, size, _, _) ← calcTradeSize taker m product;
        if dec_IsZero size then Ok ([], taker, m :: ms)
        else
          let m := bo_setSize m (dec_Sub (bo_Size m) size) in
          if takerSpent taker then Ok ([(m, size)], taker, keepIfOpen m ++ ms)
          else
            '(fills, taker, ms) ← matchList product taker ms;
            Ok ((m, size) :: fills, taker, keepIfOpen m ++ ms)
  end.

(** The logs the fills leave, numbered on from [seq] and [tseq]. *)
Fixpoint fillLogs (now : Z -> Instant) (pid : string) (taker : BookOrder) (seq tseq : Z)
    (fills : list fillOf) : list Log * Z * Z :=
  match fills with
  | [] => ([], seq, tseq)
  | (m, size) :: fills =>
      let s1 := i64 (seq + 1) in
      let t1 := i64 (tseq + 1) in
      let matchLog := LMatch (newMatchLog (now s1) s1 pid t1 taker m (bo_Price m) size) in
      if dec_IsZero (bo_Size m) then
        let s2 := i64 (s1 + 1) in
        let doneLog := LDone (newDoneLog (now s2) s2 pid m (bo_Size m) DoneReasonFilled) in
        let '(logs, seq, tseq) := fillLogs now pid taker s2 t1 fills in
        (matchLog :: doneLog :: logs, seq, tseq)
      else
        let '(logs, seq, tseq) := fillLogs now pid taker s1 t1 fills in
        (matchLog :: logs, seq, tseq)
  end.
End MatchList.

(** ** The taker during matching *)

Section Taker.
Context {P : DecimalPkg} {L : DecimalLaws P}.
Implicit Types (t m : BookOrder).

(** The takers the engine can be given: sized or funded ones. *)
Definition takerKind t : Prop := sizedTaker t = true \/ fundedTaker t = true.

(** What matching never changes of the taker. *)
Definition sameTaker t t' : Prop :=
  bo_OrderId t' = bo_OrderId t /\ bo_UserId t' = bo_UserId t /\ bo_Price t' = bo_Price t /\
  bo_Side t' = bo_Side t /\ bo_Type t' = bo_Type t /\ bo_TimeInForce t' = bo_TimeInForce t.

#[export] Instance sameTaker_preorder : PreOrder sameTaker.
Proof.
  split.
  - intros t. repeat split.
  - intros a b c (?&?&?&?&?&?) (?&?&?&?&?&?). repeat split; congruence.
Qed.

Lemma sameTaker_kind t t' : sameTaker t t' ->
  sizedTaker t' = sizedTaker t /\ fundedTaker t' = fundedTaker t.
Proof. intros (?&?&?&Hs&Ht&?). unfold sizedTaker, fundedTaker. by rewrite Hs, Ht. Qed.

Lemma kind_exclusive t : sizedTaker t = true -> fundedTaker t = false.
Proof.
  unfold sizedTaker, fundedTaker.
  destruct (String.eqb_spec (bo_Type t) OrderTypeLimit) as [->|?]; [done|].
  destruct (bo_Type t =s? OrderTypeMarket); [|done]. simpl.
  destruct (String.eqb_spec (bo_Side t) SideSell) as [->|?]; done.
Qed.

Lemma takerKind_same t t' : sameTaker t t' -> takerKind t -> takerKind t'.
Proof. intros [Hs Hf]%sameTaker_kind. unfold takerKind. by rewrite Hs, Hf. Qed.

(** *** One trade *)

(** [calcTradeSize] on a taker of a known kind and a maker with a price: it
    returns, never with more than the maker has, and changes only the
    taker's size or funds. *)
Lemma calcTradeSize_ok {E} t m product :
  takerKind t -> (0 < dval (bo_Price m))%Q ->
  exists t' size consumed ex, calcTradeSize (E:=E) t m product = Ok (t', size, consumed, ex) /\
    sameTaker t t' /\ ((dval size == 0)%Q \/ (dval size <= dval (bo_Size m))%Q).
Proof.
  intros Hk Hp. unfold calcTradeSize.
  destruct (sizedTaker t) eqn:Hs.
  { destruct (dec_IsZero (bo_Size t)); repeat eexists; try reflexivity.
    - left. dec_lra.
    - right. apply Min_val. }
  destruct Hk as [?|Hf]; [congruence|]. rewrite Hf.
  destruct (dec_IsZero (bo_Funds t)); [repeat eexists; left; dec_lra|].
  destruct (dec_Div (bo_Funds t) (bo_Price m)) as [q|] eqn:Hd; [|apply dec_Div_None in Hd; lra].
  go_red. destruct (dec_IsZero (dec_Truncate q (prod_BaseScale product)));
    repeat eexists; [left; dec_lra|right; apply Min_val].
Qed.

Lemma matchList_total product ms : forall t,
  takerKind t -> Forall (fun m => 0 < dval (bo_Price m))%Q ms ->
  exists fills t' ms', matchList product t ms = Ok (fills, t', ms') /\ sameTaker t t'.
Proof.
  induction ms as [|m ms IH]; intros t Hk Hp; simpl.
  { repeat eexists. }
  apply Forall_cons in Hp as [Hm Hp]. case_bool; [repeat eexists|].
  destruct (calcTradeSize_ok (E:=noerr) t m product Hk Hm) as (t' & size & c & ex & -> & Hsame & _).
  go_red. destruct (dec_IsZero size); [by repeat eexists; apply Hsame|].
  destruct (takerSpent t'); [by repeat eexists; apply Hsame|].
  destruct (IH t') as (fills & t2 & ms' & -> & Hsame2); [by eapply takerKind_same|done|].
  go_red. do 3 eexists. split; [done|]. by etransitivity.
Qed.
End Taker.

(** ** The loop over the queue *)

Section Loop.
Context {P : DecimalPkg} {L : DecimalLaws P} {T : TreeMapPkg} {TL : TreeMapLaws T}.
Context (now : Z -> Instant).
Context (cmp : priceOrderIdKey -> priceOrderIdKey -> Z) (C : CmpOrder cmp).
Context (Cid : forall a b, cmp a b = 0 -> key_orderId a = key_orderId b).
Implicit Types (kept todo : list BookOrder).

(** The iterator stands behind [kept] and before [todo]. *)
Definition at_pos (pos : option priceOrderIdKey) kept todo : Prop :=
  match pos with
  | None => kept = []
  | Some p => Forall (fun b => cmp (keyOf b) p <= 0) kept /\ Forall (fun b => cmp p (keyOf b) < 0) todo
  end.

Lemma next_at_pos side d pos kept todo :
  depth_repr cmp side d (kept ++ todo) -> at_pos pos kept todo ->
  tm_Next (d_queue d) pos = entry <$> head todo.
Proof.
  intros R Hpos. rewrite (tm_repr_Next cmp C _ _ _ (dr_queue _ _ _ _ R)).
  assert (Hhead : head (entry <$> todo) = entry <$> head todo) by (by destruct todo).
  destruct pos as [p|]; simpl in Hpos.
  - destruct Hpos as [H1 H2]. rewrite fmap_app, sl_next_app; [done|done| |].
    + by rewrite Forall_fmap.
    + by rewrite Forall_fmap.
  - subst kept. by rewrite sl_next_None.
Qed.

(** After a visit of [m], whether or not it stays in the queue. *)
Lemma at_pos_step side d kept m todo kept' :
  depth_repr cmp side d (kept ++ m :: todo) ->
  (forall b, b ∈ kept' -> keyOf b = keyOf m) ->
  at_pos (Some (keyOf m)) (kept ++ kept') todo.
Proof.
  intros R Hk'. pose proof (depth_sorted cmp side d _ R) as Hs.
  apply StronglySorted_app in Hs as (Hcross & _ & Hs).
  apply StronglySorted_inv in Hs as [_ Hm]. split; [|exact Hm].
  apply Forall_app. split; apply Forall_forall.
  - intros b Hb. specialize (Hcross b m Hb ltac:(set_solver)). unfold priority in Hcross. lia.
  - intros b Hb. rewrite (Hk' b Hb), (cmp_refl C). lia.
Qed.

Lemma keepIfOpen_key m s b : b ∈ keepIfOpen (bo_setSize m s) -> keyOf b = keyOf m.
Proof.
  unfold keepIfOpen. destruct (dec_IsZero _); [by intros ?%elem_of_nil|].
  by intros ->%list_elem_of_singleton.
Qed.

(** The dry run ends with the abstract matcher's taker. *)
Lemma fullMatchLoop_refines side d product todo : forall fuel kept t pos fills t' rest,
  depth_repr cmp side d (kept ++ todo) -> at_pos pos kept todo ->
  (length todo < fuel)%nat ->
  matchList product t todo = Ok (fills, t', rest) ->
  fullMatchLoop fuel d product t pos = Ok t'.
Proof.
  induction todo as [|m todo IH]; intros fuel kept t pos fills t' rest R Hpos Hf Hm;
    (destruct fuel as [|fuel]; [simpl in Hf; lia|]); simpl;
    rewrite (next_at_pos side d pos _ _ R Hpos); simpl in *; [congruence|].
  rewrite (depth_lookup cmp side d _ m R) by set_solver. go_red.
  destruct (negb (pricesCross _ _ _)); [congruence|].
  destruct (calcTradeSize t m product) as [[[[t1 size] c] ex]| | |]; go_red; try discriminate.
  cbn [mbind outcome_bind] in Hm.
  destruct (dec_IsZero size); [congruence|]. destruct (takerSpent t1); [congruence|].
  destruct (matchList product t1 todo) as [[[fs t2] ms2]| | |] eqn:Hrec; try discriminate.
  injection Hm as <- <- <-.
  apply (IH fuel (kept ++ [m]) t1 (Some (keyOf m)) fs t2 ms2); [|eapply at_pos_step; [exact R|]|lia|done].
  - by rewrite <- app_assoc.
  - by intros b ->%list_elem_of_singleton.
Qed.

(** The book after matching: the makers' depth and the counters changed. *)
Definition ob_after (o : orderBook) (opp : Side) (d : depth) (seq tseq : Z) : orderBook :=
  {| ob_product := ob_product o; ob_depths := <[opp := d]> (ob_depths o);
     ob_tradeSeq := tseq; ob_logSeq := seq; ob_orderIdWindows := ob_orderIdWindows o |}.

Lemma ob_after_id o opp d :
  ob_depths o !! opp = Some d -> ob_after o opp d (ob_logSeq o) (ob_tradeSeq o) = o.
Proof. intros H. destruct o. unfold ob_after. simpl in *. by rewrite insert_id. Qed.

Lemma newMatchLog_same t t' n s pid ts m p z :
  sameTaker t t' -> newMatchLog n s pid ts t' m p z = newMatchLog n s pid ts t m p z.
Proof. intros (H1&H2&_&_&_&H3). unfold newMatchLog. by rewrite H1, H2, H3. Qed.

Lemma fillLogs_same t t' pid fills : forall seq tseq,
  sameTaker t t' -> fillLogs now pid t' seq tseq fills = fillLogs now pid t seq tseq fills.
Proof.
  induction fills as [|[m size] fills IH]; intros seq tseq H; simpl; [done|].
  rewrite !IH by done. by rewrite (newMatchLog_same t t') by done.
Qed.

Lemma fillLogs_cons t pid f fills seq tseq :
  fillLogs now pid t seq tseq (f :: fills) =
  let '(l1, s1, t1) := fillLogs now pid t seq tseq [f] in
  let '(l2, s2, t2) := fillLogs now pid t s1 t1 fills in (l1 ++ l2, s2, t2).
Proof.
  destruct f as [m size]. cbn [fillLogs].
  destruct (dec_IsZero (bo_Size m)); destruct (fillLogs now pid t _ _ fills) as [[? ?] ?]; done.
Qed.

Lemma matchStep_stop o t m d kept todo side :
  side = Opposite (bo_Side t) -> ob_depths o !! side = Some d ->
  depth_repr cmp side d (kept ++ m :: todo) ->
  pricesCross (bo_Side t) (bo_Price t) (bo_Price m) = false ->
  matchStep now o t (bo_OrderId m) = Ok (false, o, t, []).
Proof.
  intros -> Hd R Hc. unfold matchStep. rewrite Hd. go_red.
  rewrite (depth_lookup cmp _ d _ m R) by set_solver. go_red. by rewrite Hc.
Qed.

Lemma matchStep_trade o t m d kept todo side t1 size c ex :
  side = Opposite (bo_Side t) -> ob_depths o !! side = Some d ->
  depth_repr cmp side d (kept ++ m :: todo) ->
  pricesCross (bo_Side t) (bo_Price t) (bo_Price m) = true -> sameTaker t t1 ->
  calcTradeSize (E:=noerr) t m (ob_product o) = Ok (t1, size, c, ex) ->
  dec_IsZero size = false -> (dval size <= dval (bo_Size m))%Q ->
  let m' := bo_setSize m (dec_Sub (bo_Size m) size) in
  let '(logs, seq, tseq) := fillLogs now (prod_Id (ob_product o)) t (ob_logSeq o) (ob_tradeSeq o) [(m', size)] in
  exists d', matchStep now o t (bo_OrderId m) =
    Ok (negb (takerSpent t1), ob_after o side d' seq tseq, t1, logs) /\
    depth_repr cmp side d' (kept ++ keepIfOpen m' ++ todo).
Proof.
  intros -> Hd R Hc Hsame Hcalc Hz Hle m'.
  destruct (decrSize_repr cmp C Cid _ d kept m todo size R Hle) as (d' & Hdecr & R').
  fold m' in Hdecr, R'. cbn [fillLogs]. destruct (dec_IsZero (bo_Size m')) eqn:Hm'.
  all: exists d'; split; [|exact R'].
  all: unfold matchStep; rewrite Hd; go_red.
  all: rewrite (depth_lookup cmp _ d _ m R) by set_solver; go_red.
  all: rewrite Hc; cbn [negb]; rewrite Hcalc; go_red; rewrite Hz, Hdecr; go_red.
  all: unfold nextLogSeq, nextTradeSeq; simpl ob_logSeq; simpl ob_tradeSeq; simpl ob_product.
  all: rewrite Hm'; cbn [negb]; by rewrite (newMatchLog_same t t1).
Qed.

Lemma matchLoop_refines todo : forall fuel kept o t pos d side fills t' rest,
  side = Opposite (bo_Side t) -> ob_depths o !! side = Some d ->
  depth_repr cmp side d (kept ++ todo) -> at_pos pos kept todo -> takerKind t ->
  (length todo < fuel)%nat ->
  matchList (ob_product o) t todo = Ok (fills, t', rest) ->
  let '(logs, seq, tseq) := fillLogs now (prod_Id (ob_product o)) t (ob_logSeq o) (ob_tradeSeq o) fills in
  exists d', matchLoop now fuel o t pos = Ok (ob_after o side d' seq tseq, t', logs) /\
             depth_repr cmp side d' (kept ++ rest).
Proof.
  induction todo as [|m todo IH]; intros fuel kept o t pos d side fills t' rest Hside Hd R Hpos Hk Hf Hm;
    (destruct fuel as [|fuel]; [simpl in Hf; lia|]); simpl in Hm.
  { injection Hm as <- <- <-. simpl. exists d. split; [|done]. rewrite <- Hside, Hd. go_red.
    rewrite (next_at_pos side d pos _ _ R Hpos). simpl. by rewrite ob_after_id. }
  assert (Hunf : matchLoop now (S fuel) o t pos =
    '(continue, o, takerOrder, logs) ← matchStep now o t (bo_OrderId m);
    if (continue : bool) then
      '(o, takerOrder, logs') ← matchLoop now fuel o takerOrder (Some (keyOf m));
      mret (o, takerOrder, logs ++ logs')
    else mret (o, takerOrder, logs)).
  { simpl. rewrite <- Hside, Hd. go_red. by rewrite (next_at_pos side d pos _ _ R Hpos). }
  rewrite Hunf. clear Hunf.
  destruct (pricesCross (bo_Side t) (bo_Price t) (bo_Price m)) eqn:Hc; simpl in Hm.
  2:{ injection Hm as <- <- <-. simpl. exists d. split; [|done].
      rewrite (matchStep_stop o t m d kept todo side) by done. go_red. by rewrite ob_after_id. }
  assert (Hmr : resting side m).
  { pose proof (dr_resting _ _ _ _ R) as Hr. rewrite Forall_forall in Hr. apply Hr. set_solver. }
  destruct (calcTradeSize_ok (E:=noerr) t m (ob_product o) Hk) as (t1 & size & c & ex & Hcalc & Hsame & Hle);
    [apply Hmr|]. rewrite Hcalc in Hm. cbn [mbind outcome_bind] in Hm.
  destruct (dec_IsZero size) eqn:Hz.
  { injection Hm as <- <- <-. simpl. exists d. split; [|done]. unfold matchStep. rewrite <- Hside, Hd. go_red.
    rewrite (depth_lookup cmp _ d _ m R) by set_solver. go_red. rewrite Hc. cbn [negb].
    rewrite Hcalc. go_red. rewrite Hz. go_red. by rewrite ob_after_id. }
  destruct Hle as [?|Hle]; [exfalso; dec_lra|].
  pose proof (matchStep_trade o t m d kept todo side t1 size c ex Hside Hd R Hc Hsame Hcalc Hz Hle) as Hstep.
  cbv zeta in Hstep. remember (bo_setSize m (dec_Sub (bo_Size m) size)) as m' eqn:Em'.
  destruct (fillLogs now (prod_Id (ob_product o)) t (ob_logSeq o) (ob_tradeSeq o) [(m', size)])
    as [[l1 s1] ts1] eqn:Hl1.
  destruct Hstep as (d1 & Hstep & R1). rewrite Hstep. go_red. clear Hstep.
  destruct (takerSpent t1).
  { injection Hm as <- <- <-. rewrite Hl1. exists d1. by split. }
  destruct (matchList (ob_product o) t1 todo) as [[[fs t2] ms2]| | |] eqn:Hrec; try discriminate.
  injection Hm as <- <- <-. rewrite fillLogs_cons, Hl1. cbn [negb].
  specialize (IH fuel (kept ++ keepIfOpen m') (ob_after o side d1 s1 ts1) t1 (Some (keyOf m)) d1 side fs t2 ms2).
  simpl in IH. rewrite (fillLogs_same t t1) in IH by done.
  destruct (fillLogs now (prod_Id (ob_product o)) t s1 ts1 fs) as [[l2 s2] ts2].
  destruct IH as (d2 & -> & R2).
  - destruct Hsame as (_&_&_&->&_). done.
  - by rewrite lookup_insert_eq.
  - by rewrite <- app_assoc.
  - eapply at_pos_step; [exact R|]. intros b. rewrite Em'. apply keepIfOpen_key.
  - by eapply takerKind_same.
  - simpl in Hf. lia.
  - done.
  - go_red. exists d2. unfold ob_after. simpl. rewrite insert_insert_eq. split; [done|].
    by rewrite app_assoc.
Qed.
End Loop.
