(* ===== verification/Book.v ===== *)
(** The order book refines two priority lists.

    [book_repr o a] relates the book [o] to the abstract book [a], the bids and
    the asks as lists of resting orders, and carries the invariant that ties
    the book to the de-duplication windows: the id of every resting order is
    refused by its window, so no order enters the book under an id it already
    holds.  [ApplyOrder_repr], [CancelOrder_repr] and [NullifyOrder_repr] show
    that the operations implement [absApply], [absCancel] and [absNullify]. *)
From S2P Require Import Prelude Decimal TreeMap Models Window MatchLog OrderBook DepthInv Matching.
From Stdlib Require Import QArith Lqa.
From stdpp Require Import list.
Open Scope string_scope.
Open Scope list_scope.
Open Scope Z_scope.

(** ** The abstract book *)

Section Abs.
Context {P : DecimalPkg}.

Record AbsBook := { ab_bids : list BookOrder; ab_asks : list BookOrder }.

Definition ab_get (a : AbsBook) (s : Side) : list BookOrder :=
  if s =s? SideBuy then ab_bids a else ab_asks a.
Definition ab_set (a : AbsBook) (s : Side) (l : list BookOrder) : AbsBook :=
  if s =s? SideBuy then {| ab_bids := l; ab_asks := ab_asks a |}
  else {| ab_bids := ab_bids a; ab_asks := l |}.
Definition ab_empty : AbsBook := {| ab_bids := []; ab_asks := [] |}.

(** The comparator of the queue a side rests in. *)
Definition cmpOf (s : Side) : priceOrderIdKey -> priceOrderIdKey -> Z :=
  if s =s? SideBuy then priceOrderIdKeyDescComparator else priceOrderIdKeyAscComparator.

(** The log that ends [ApplyOrder]. *)
Definition finishLog (now : Z -> Instant) (pid : string) (seq : Z) (t : BookOrder) : Log :=
  if takerRests t then LOpen (newOpenLog (now seq) seq pid t)
  else
    let '(t, remaining, reason) := takerDone t in
    LDone (newDoneLog (now seq) seq pid t remaining reason).

(** A taker against the abstract book: the book, the logs, the counters. *)
Definition absApply (now : Z -> Instant) (product : Product) (a : AbsBook) (seq tseq : Z) (t : BookOrder)
    : outcome noerr (AbsBook * list Log * Z * Z) :=
  let opp := Opposite (bo_Side t) in
  '(fills, t', rest) ← matchList product t (ab_get a opp);
  let a := ab_set a opp rest in
  let '(logs, seq, tseq) := fillLogs now (prod_Id product) t seq tseq fills in
  let seq := i64 (seq + 1) in
  let a := if takerRests t' then ab_set a (bo_Side t') (rest_insert (cmpOf (bo_Side t')) t' (ab_get a (bo_Side t')))
           else a in
  mret (a, logs ++ [finishLog now (prod_Id product) seq t'], seq, tseq).

Definition ab_remove (a : AbsBook) (s : Side) (id : Z) : AbsBook :=
  ab_set a s (filter (fun b => bo_OrderId b <> id) (ab_get a s)).
Definition ab_find (a : AbsBook) (s : Side) (id : Z) : option BookOrder :=
  head (filter (fun b => bo_OrderId b = id) (ab_get a s)).
End Abs.

Lemma valid_Opposite s : valid_side (Opposite s).
Proof. unfold Opposite, valid_side. destruct (s =s? SideBuy); auto. Qed.

Lemma Opposite_ne s : valid_side s -> Opposite s <> s.
Proof. intros [->| ->]; done. Qed.

Section AbsLemmas.
Context {P : DecimalPkg}.

Lemma ab_get_set_eq a s l : ab_get (ab_set a s l) s = l.
Proof. unfold ab_get, ab_set. by destruct (s =s? SideBuy). Qed.
Lemma ab_get_set_ne a s s' l : valid_side s -> valid_side s' -> s <> s' -> ab_get (ab_set a s l) s' = ab_get a s'.
Proof. intros [->| ->] [->| ->] H; done. Qed.
Lemma ab_set_get a s : ab_set a s (ab_get a s) = a.
Proof. destruct a. unfold ab_get, ab_set. by destruct (s =s? SideBuy). Qed.

(** All orders of the book, seen from one side. *)
Lemma ab_all_perm a s : valid_side s ->
  ab_bids a ++ ab_asks a ≡ₚ ab_get a s ++ ab_get a (Opposite s).
Proof. intros [->| ->]; simpl; [done|]. apply Permutation_app_comm. Qed.
End AbsLemmas.

Section CmpOf.
Context {P : DecimalPkg} {L : DecimalLaws P}.
Lemma cmpOf_order s : CmpOrder (cmpOf s).
Proof. unfold cmpOf. destruct (s =s? SideBuy); [apply desc_order|apply asc_order]. Qed.
Lemma cmpOf_id s a b : cmpOf s a b = 0 -> key_orderId a = key_orderId b.
Proof. unfold cmpOf. destruct (s =s? SideBuy); [apply desc_zero_id|apply asc_zero_id]. Qed.
End CmpOf.

(** ** The invariant *)

Section Inv.
Context {P : DecimalPkg} {L : DecimalLaws P} {T : TreeMapPkg} {TL : TreeMapLaws T}.
Implicit Types (o : orderBook) (a : AbsBook).

(** The window of an id refuses it. *)
Definition ws_refused (ws : list Window) (id : Z) : Prop :=
  match ws !! Z.to_nat (GetTableIndexByOrderId id) with
  | Some w => refused w id
  | None => False
  end.
#[export] Instance ws_refused_dec ws id : Decision (ws_refused ws id).
Proof. unfold ws_refused. destruct (ws !! _); apply _. Defined.

(** The windows after a put, whether or not it was refused. *)
Definition ws_after (ws : list Window) (id : Z) : list Window :=
  match ws !! Z.to_nat (GetTableIndexByOrderId id) with
  | Some w => match put w id with Ok w => <[Z.to_nat (GetTableIndexByOrderId id) := w]> ws | _ => ws end
  | None => ws
  end.

Definition ws_wf (ws : list Window) : Prop :=
  Z.of_nat (length ws) = TableOrderSplitCount /\ Forall window_wf ws.

Definition ab_ids a : list Z := bo_OrderId <$> (ab_bids a ++ ab_asks a).

Record book_repr o a : Prop := {
  br_side s : valid_side s ->
    exists d, ob_depths o !! s = Some d /\ depth_repr (cmpOf s) s d (ab_get a s);
  br_other s : ~ valid_side s -> ob_depths o !! s = None;
  br_windows : ws_wf (ob_orderIdWindows o);
  br_ids : NoDup (ab_ids a);
  br_dedup : Forall (fun id => window_id id /\ ws_refused (ob_orderIdWindows o) id) (ab_ids a);
}.

(** *** The windows *)

Lemma ws_lookup ws id : ws_wf ws ->
  exists w, ws !! Z.to_nat (GetTableIndexByOrderId id) = Some w /\ window_wf w.
Proof.
  intros [Hlen Hwf]. pose proof (GetTableIndexByOrderId_range id).
  destruct (lookup_lt_is_Some_2 ws (Z.to_nat (GetTableIndexByOrderId id))) as [w Hw].
  { unfold TableOrderSplitCount in Hlen. lia. }
  exists w. split; [done|]. rewrite Forall_lookup in Hwf. by eapply Hwf.
Qed.

Lemma dedupPut_refused o id :
  ws_wf (ob_orderIdWindows o) -> window_id id -> ws_refused (ob_orderIdWindows o) id ->
  exists e, dedupPut o id = Err e.
Proof.
  intros W Hid Hr. unfold dedupPut, ws_refused in *.
  destruct (ws_lookup _ id W) as (w & Hw & Wf). rewrite Hw in *. go_red.
  rewrite put_refused by done. by eexists.
Qed.

Lemma dedupPut_fresh o id :
  ws_wf (ob_orderIdWindows o) -> window_id id -> ~ ws_refused (ob_orderIdWindows o) id ->
  let ws := ws_after (ob_orderIdWindows o) id in
  dedupPut o id = Ok (ob_setWindows o ws) /\ ws_wf ws /\ ws_refused ws id /\
    forall id', ws_refused (ob_orderIdWindows o) id' -> ws_refused ws id'.
Proof.
  intros W Hid Hr. unfold dedupPut, ws_refused, ws_after in *.
  destruct (ws_lookup _ id W) as (w & Hw & Wf). rewrite Hw in *. go_red.
  destruct (put_fresh w id Wf Hid Hr) as (w' & Hput & _). rewrite Hput. go_red.
  destruct (put_grows w id w' id Wf Hid Hput) as (Wf' & _ & _ & Hself & _).
  pose proof (lookup_lt_Some _ _ _ Hw) as Hlt.
  split; [done|]. split; [|split].
  - destruct W as [Hlen Hwf]. split; [by rewrite length_insert|]. by apply Forall_insert.
  - by rewrite list_lookup_insert_eq.
  - intros id'. destruct (decide (Z.to_nat (GetTableIndexByOrderId id) = Z.to_nat (GetTableIndexByOrderId id'))) as [<-|?].
    + rewrite list_lookup_insert_eq, Hw by done. by apply (put_grows w id w' id' Wf Hid Hput).
    + by rewrite list_lookup_insert_ne.
Qed.

Lemma ws_after_refused ws id : ws_wf ws -> window_id id -> ws_refused ws id -> ws_after ws id = ws.
Proof.
  intros W Hid Hr. unfold ws_refused, ws_after in *.
  destruct (ws_lookup _ id W) as (w & Hw & Wf). rewrite Hw in *. by rewrite put_refused.
Qed.

(** Whatever the put says, the windows stay in order and refuse the id after. *)
Lemma dedupPut_ignored {E} o id :
  ws_wf (ob_orderIdWindows o) -> window_id id ->
  let ws := ws_after (ob_orderIdWindows o) id in
  ignoreErr (E':=E) o (dedupPut o id) = Ok (ob_setWindows o ws) /\ ws_wf ws /\ ws_refused ws id /\
    forall id', ws_refused (ob_orderIdWindows o) id' -> ws_refused ws id'.
Proof.
  intros W Hid. destruct (decide (ws_refused (ob_orderIdWindows o) id)) as [Hr|Hr].
  - destruct (dedupPut_refused o id W Hid Hr) as [e ->]. cbv zeta. rewrite ws_after_refused by done.
    split; [by destruct o|]. auto.
  - by destruct (dedupPut_fresh o id W Hid Hr) as (-> & ?).
Qed.

Lemma freshWindows_wf : ws_wf freshWindows.
Proof.
  split; [done|]. apply Forall_replicate. apply newWindow_wf; unfold orderIdWindowCap, u64_size; lia.
Qed.

(** *** The invariant of the operations' parts *)

Lemma book_repr_windows o a ws :
  book_repr o a -> ws_wf ws ->
  (forall id, ws_refused (ob_orderIdWindows o) id -> ws_refused ws id) ->
  book_repr (ob_setWindows o ws) a.
Proof.
  intros [Hs Ho Hw Hi Hd] W Hmono. split; try done.
  eapply Forall_impl; [exact Hd|]. intros id [? ?]. simpl. auto.
Qed.

Lemma empty_depth_repr cmp side : depth_repr cmp side {| d_orders := ∅; d_queue := tm_NewWith cmp |} [].
Proof.
  constructor; simpl; [apply tm_repr_New| |constructor].
  intros id b. split; [by rewrite lookup_empty|]. by intros [?%elem_of_nil _].
Qed.

Lemma NewOrderBook_repr product : book_repr (NewOrderBook product) ab_empty.
Proof.
  constructor; simpl.
  - intros s [->| ->]; (eexists; split; [reflexivity|apply empty_depth_repr]).
  - intros s Hs. rewrite !lookup_insert_ne; [done| |]; intros <-; apply Hs; [by right|by left].
  - apply freshWindows_wf.
  - constructor.
  - constructor.
Qed.

Lemma book_depth o a s : book_repr o a -> valid_side s ->
  exists d, ob_depths o !! s = Some d /\ depth_repr (cmpOf s) s d (ab_get a s).
Proof. intros R. apply (br_side o a R). Qed.

(** Replacing one side's depth by one whose ids are refused already. *)
Lemma book_repr_set o a s d l seq tseq :
  book_repr o a -> valid_side s -> depth_repr (cmpOf s) s d l ->
  NoDup (ab_ids (ab_set a s l)) ->
  Forall (fun id => window_id id /\ ws_refused (ob_orderIdWindows o) id) (ab_ids (ab_set a s l)) ->
  book_repr (ob_after o s d seq tseq) (ab_set a s l).
Proof.
  intros [Hs Ho Hw Hi Hd] Hv R Hn Hf. constructor; simpl; try done.
  - intros s' Hv'. destruct (decide (s = s')) as [<-|Hne].
    + exists d. by rewrite lookup_insert_eq, ab_get_set_eq.
    + rewrite lookup_insert_ne, ab_get_set_ne by done. by apply Hs.
  - intros s' Hv'. rewrite lookup_insert_ne; [by apply Ho|]. intros <-. done.
Qed.

Lemma ab_ids_perm a s : valid_side s ->
  ab_ids a ≡ₚ (bo_OrderId <$> ab_get a s) ++ (bo_OrderId <$> ab_get a (Opposite s)).
Proof. intros Hv. unfold ab_ids. rewrite (ab_all_perm a s Hv). by rewrite fmap_app. Qed.

Lemma ab_ids_set a s l : valid_side s ->
  ab_ids (ab_set a s l) ≡ₚ (bo_OrderId <$> l) ++ (bo_OrderId <$> ab_get a (Opposite s)).
Proof.
  intros Hv. rewrite (ab_ids_perm _ s Hv), ab_get_set_eq.
  rewrite ab_get_set_ne; [done|done|apply valid_Opposite|]. by apply not_eq_sym, Opposite_ne.
Qed.

(** Shrinking one side, by matching or cancelling. *)
Lemma book_repr_shrink o a s d l seq tseq :
  book_repr o a -> valid_side s -> depth_repr (cmpOf s) s d l ->
  (bo_OrderId <$> l) `sublist_of` (bo_OrderId <$> ab_get a s) ->
  book_repr (ob_after o s d seq tseq) (ab_set a s l).
Proof.
  intros R Hv Rd Hsub. pose proof R as [_ _ _ Hi Hd].
  rewrite (ab_ids_perm a s Hv) in Hi, Hd.
  assert (Hsub' : (bo_OrderId <$> l) ++ (bo_OrderId <$> ab_get a (Opposite s)) `sublist_of`
                  (bo_OrderId <$> ab_get a s) ++ (bo_OrderId <$> ab_get a (Opposite s)))
    by (by apply sublist_app).
  apply book_repr_set; try done; rewrite (ab_ids_set a s l Hv).
  - by eapply sublist_NoDup.
  - by eapply Forall_sublist.
Qed.

(** Adding an order under a new id the windows refuse. *)
Lemma book_repr_add o a s d b seq tseq :
  book_repr o a -> valid_side s -> ob_depths o !! s = Some d -> resting s b ->
  window_id (bo_OrderId b) -> ws_refused (ob_orderIdWindows o) (bo_OrderId b) ->
  bo_OrderId b ∉ ab_ids a ->
  book_repr (ob_after o s (depth_add d b) seq tseq) (ab_set a s (rest_insert (cmpOf s) b (ab_get a s))).
Proof.
  intros R Hv Hd Hb Hid Hr Hnew. destruct (book_depth o a s R Hv) as (d' & Hd' & Rd).
  rewrite Hd in Hd'. injection Hd' as <-. pose proof R as [_ _ _ Hi Hf].
  rewrite (ab_ids_perm a s Hv) in Hi, Hf, Hnew.
  assert (Hp : ab_ids (ab_set a s (rest_insert (cmpOf s) b (ab_get a s))) ≡ₚ
               bo_OrderId b :: (bo_OrderId <$> ab_get a s) ++ (bo_OrderId <$> ab_get a (Opposite s))).
  { rewrite (ab_ids_set a s _ Hv), rest_insert_perm. done. }
  apply book_repr_set; try done.
  - apply depth_add_repr; [apply cmpOf_order|apply cmpOf_id|done|done|].
    intros b' Hin E. apply Hnew, elem_of_app. left. rewrite <- E. by apply list_elem_of_fmap_2.
  - rewrite Hp. by constructor.
  - rewrite Hp. by constructor.
Qed.
End Inv.

(** ** The operations *)

Section Ops.
Context {P : DecimalPkg} {L : DecimalLaws P} {T : TreeMapPkg} {TL : TreeMapLaws T}.
Context (now : Z -> Instant).
Implicit Types (o : orderBook) (a : AbsBook).

(** What the book relies on in the orders it is given. *)
Record order_ok (order : Order) : Prop := {
  ok_id : window_id (ord_Id order);
  ok_side : valid_side (ord_Side order);
  ok_kind : ord_Type order = OrderTypeLimit /\ (0 < dval (ord_Price order))%Q
            \/ ord_Type order = OrderTypeMarket;
}.

Definition takerOf (order : Order) : BookOrder := prepareTakerOrder (newBookOrder order).

Lemma takerOf_fields order :
  bo_OrderId (takerOf order) = ord_Id order /\ bo_Side (takerOf order) = ord_Side order /\
  bo_Type (takerOf order) = ord_Type order /\ bo_Size (takerOf order) = ord_Size order /\
  bo_Funds (takerOf order) = ord_Funds order /\ bo_UserId (takerOf order) = ord_UserId order /\
  bo_TimeInForce (takerOf order) = ord_TimeInForce order /\
  (ord_Type order = OrderTypeLimit -> bo_Price (takerOf order) = ord_Price order).
Proof.
  unfold takerOf, prepareTakerOrder. simpl.
  destruct (String.eqb_spec (ord_Type order) OrderTypeMarket) as [E|?];
    [destruct (ord_Side order =s? SideBuy)|]; repeat split; try done; simpl; rewrite E; done.
Qed.

Lemma takerOf_kind order : order_ok order -> takerKind (takerOf order).
Proof.
  intros [_ Hs Hk]. destruct (takerOf_fields order) as (_ & E1 & E2 & _).
  unfold takerKind, sizedTaker, fundedTaker. rewrite E1, E2.
  destruct Hk as [[-> _]| ->]; [by left|]. destruct Hs as [->| ->]; [by right|by left].
Qed.

Lemma matchList_rest product ms : forall t fills t' rest,
  matchList product t ms = Ok (fills, t', rest) ->
  (bo_OrderId <$> rest) `sublist_of` (bo_OrderId <$> ms).
Proof.
  assert (Hk : forall m s, (bo_OrderId <$> keepIfOpen (bo_setSize m s)) `sublist_of` [bo_OrderId m]).
  { intros m s. unfold keepIfOpen. destruct (dec_IsZero _); [apply sublist_nil_l|reflexivity]. }
  induction ms as [|m ms IH]; intros t fills t' rest H; simpl in H; [by go_simpl|].
  case_bool; [by injection H as <- <- <-|].
  apply bind_Ok in H as ([[[t1 size] c] ex] & _ & H).
  destruct (dec_IsZero size); [by injection H as <- <- <-|].
  destruct (takerSpent t1).
  - injection H as <- <- <-. rewrite fmap_app. by apply (sublist_app _ [_]).
  - apply bind_Ok in H as ([[fs t2] ms2] & Hrec & H). injection H as <- <- <-.
    rewrite fmap_app. apply (sublist_app _ [_]); [done|]. by eapply IH.
Qed.

Lemma resting_prices side l :
  Forall (resting side) l -> Forall (fun m => 0 < dval (bo_Price m))%Q l.
Proof. intros H. eapply Forall_impl; [exact H|]. by intros m (_&_&_&?). Qed.

(** The loop, on a whole book. *)
Lemma match_repr o a t :
  book_repr o a -> valid_side (bo_Side t) -> takerKind t ->
  let opp := Opposite (bo_Side t) in
  exists d fills t' rest d',
    ob_depths o !! opp = Some d /\
    matchList (ob_product o) t (ab_get a opp) = Ok (fills, t', rest) /\ sameTaker t t' /\
    let '(logs, seq, tseq) := fillLogs now (prod_Id (ob_product o)) t (ob_logSeq o) (ob_tradeSeq o) fills in
    matchLoop now (S (tm_Size (d_queue d))) o t None = Ok (ob_after o opp d' seq tseq, t', logs) /\
    book_repr (ob_after o opp d' seq tseq) (ab_set a opp rest).
Proof.
  intros R Hs Hk opp. destruct (book_depth o a opp R (valid_Opposite _)) as (d & Hd & Rd).
  destruct (matchList_total (ob_product o) (ab_get a opp) t Hk) as (fills & t' & rest & Hm & Hsame).
  { eapply resting_prices, (dr_resting _ _ _ _ Rd). }
  pose proof (matchLoop_refines now (cmpOf opp) (cmpOf_order opp) (cmpOf_id opp) (ab_get a opp)
    (S (tm_Size (d_queue d))) [] o t None d opp fills t' rest eq_refl Hd Rd eq_refl Hk) as Href.
  rewrite (tm_repr_Size (cmpOf opp) _ _ (dr_queue _ _ _ _ Rd)), length_fmap in Href at 1.
  specialize (Href ltac:(lia) Hm).
  destruct (fillLogs _ _ _ _ _ _) as [[logs seq] tseq] eqn:Hl.
  destruct Href as (d' & Hloop & Rd'). exists d, fills, t', rest, d'. rewrite Hl. do 4 (split; [done|]).
  apply book_repr_shrink; [done|apply valid_Opposite|done|].
  by eapply matchList_rest.
Qed.

Lemma takerRests_resting order t' : order_ok order -> sameTaker (takerOf order) t' ->
  takerRests t' = true -> resting (ord_Side order) t'.
Proof.
  intros Hok (_&_&Ep&Es&Et&_) Hr. destruct (takerOf_fields order) as (_&Es'&Et'&_&_&_&_&Ep').
  unfold takerRests in Hr. apply andb_true_iff in Hr as [Hlim%String.eqb_eq Hsz].
  assert (Hl : ord_Type order = OrderTypeLimit) by congruence.
  destruct (ok_kind _ Hok) as [[_ Hp]|Hm]; [|by rewrite Hl in Hm].
  split; [congruence|]. split; [done|]. split; [dec_lra|]. rewrite Ep, Ep' by done. done.
Qed.

Lemma ApplyOrder_refused o a order :
  book_repr o a -> order_ok order -> ws_refused (ob_orderIdWindows o) (ord_Id order) ->
  ApplyOrder now o order = Ok (o, []).
Proof.
  intros R Hok Hr. unfold ApplyOrder.
  destruct (dedupPut_refused o (ord_Id order) (br_windows _ _ R) (ok_id _ Hok) Hr) as [e ->]. done.
Qed.

(** [finishTaker] on the book the loop left. *)
Lemma finishTaker_repr o a order t' :
  book_repr o a -> order_ok order -> sameTaker (takerOf order) t' ->
  ws_refused (ob_orderIdWindows o) (ord_Id order) -> ord_Id order ∉ ab_ids a ->
  exists o', finishTaker now o t' = Ok (o', [finishLog now (prod_Id (ob_product o)) (i64 (ob_logSeq o + 1)) t']) /\
    book_repr o' (if takerRests t'
                  then ab_set a (bo_Side t') (rest_insert (cmpOf (bo_Side t')) t' (ab_get a (bo_Side t')))
                  else a) /\
    ob_logSeq o' = i64 (ob_logSeq o + 1) /\ ob_tradeSeq o' = ob_tradeSeq o /\
    ob_product o' = ob_product o /\ ob_orderIdWindows o' = ob_orderIdWindows o.
Proof.
  intros R Hok Hsame Hr Hnew. unfold finishTaker, finishLog.
  destruct (takerRests t') eqn:Hrest.
  - pose proof (takerRests_resting order t' Hok Hsame Hrest) as Hres.
    pose proof Hres as (Hside & _). pose proof Hsame as (Eid & _).
    destruct (takerOf_fields order) as (Eid' & _). rewrite Eid' in Eid.
    destruct (book_depth o a (bo_Side t') R) as (d & Hd & Rd); [rewrite Hside; apply Hok|].
    rewrite Hd. go_red. unfold nextLogSeq. cbn [ob_logSeq ob_setDepth ob_product ob_tradeSeq ob_depths ob_orderIdWindows].
    eexists. split; [done|]. split; [|done].
    apply (book_repr_add o a (bo_Side t') d t' (i64 (ob_logSeq o + 1)) (ob_tradeSeq o)); try done.
    + rewrite Hside. apply Hok.
    + rewrite Hside. done.
    + rewrite Eid. apply Hok.
    + by rewrite Eid.
    + by rewrite Eid.
  - destruct (takerDone t') as [[t2 rem] reason]. unfold nextLogSeq.
    eexists. split; [done|]. split; [|done].
    destruct R. constructor; done.
Qed.

Lemma ApplyOrder_repr o a order :
  book_repr o a -> order_ok order -> ~ ws_refused (ob_orderIdWindows o) (ord_Id order) ->
  exists o' a' logs, ApplyOrder now o order = Ok (o', logs) /\
    absApply now (ob_product o) a (ob_logSeq o) (ob_tradeSeq o) (takerOf order)
      = Ok (a', logs, ob_logSeq o', ob_tradeSeq o') /\
    book_repr o' a' /\ ob_product o' = ob_product o /\
    ob_orderIdWindows o' = ws_after (ob_orderIdWindows o) (ord_Id order) /\
    ws_refused (ob_orderIdWindows o') (ord_Id order) /\
    (forall id, ws_refused (ob_orderIdWindows o) id -> ws_refused (ob_orderIdWindows o') id).
Proof.
  intros R Hok Hnr. unfold ApplyOrder, absApply.
  destruct (dedupPut_fresh o (ord_Id order) (br_windows _ _ R) (ok_id _ Hok) Hnr) as (-> & Wf & Hself & Hmono). set (ws := ws_after _ _) in *.
  fold (takerOf order). destruct (takerOf_fields order) as (Eid & Eside & _).
  pose proof (book_repr_windows o a ws R Wf Hmono) as R1.
  destruct (match_repr (ob_setWindows o ws) a (takerOf order) R1) as (d & fills & t' & rest & d' & Hd & Hm & Hsame & H).
  { rewrite Eside. apply Hok. }
  { by apply takerOf_kind. }
  change (ob_product (ob_setWindows o ws)) with (ob_product o) in *.
  change (ob_logSeq (ob_setWindows o ws)) with (ob_logSeq o) in *.
  change (ob_tradeSeq (ob_setWindows o ws)) with (ob_tradeSeq o) in *.
  rewrite Hd, Hm. go_red.
  destruct (fillLogs _ _ _ _ _ _) as [[logs seq] tseq]. destruct H as [Hloop R2]. rewrite Hloop. go_red.
  destruct (finishTaker_repr _ _ order t' R2 Hok Hsame) as (o' & Hfin & R3 & Es & Et & Epr & Ew).
  { done. }
  { assert (Hsub : ord_Id order ∈ ab_ids (ab_set a (Opposite (bo_Side (takerOf order))) rest) -> ord_Id order ∈ ab_ids a).
    { rewrite (ab_ids_set a _ _ (valid_Opposite _)), (ab_ids_perm a (Opposite (bo_Side (takerOf order))) (valid_Opposite _)), !elem_of_app.
      intros [Hin|?]; [left|by right]. eapply elem_of_sublist; [exact Hin|]. by eapply matchList_rest. }
    intros Hin%Hsub. pose proof (br_dedup _ _ R) as Hdd. rewrite Forall_forall in Hdd.
    by destruct (Hdd _ Hin). }
  cbn [ob_logSeq ob_after ob_product ob_setWindows ob_tradeSeq ob_orderIdWindows] in *.
  rewrite Hfin. go_red. do 3 eexists. split; [done|]. rewrite Es, Et, Epr, Ew.
  split; [done|]. by split; [exact R3|].
Qed.

(** *** Cancelling *)

Lemma ab_remove_split a s b l1 l2 :
  NoDup (bo_OrderId <$> ab_get a s) -> ab_get a s = l1 ++ b :: l2 ->
  ab_remove a s (bo_OrderId b) = ab_set a s (l1 ++ l2) /\ ab_find a s (bo_OrderId b) = Some b.
Proof.
  intros Hn E. unfold ab_remove, ab_find. rewrite E in *.
  rewrite fmap_app in Hn. simpl in Hn. apply NoDup_app in Hn as (_ & H12 & [H2 _]%NoDup_cons).
  assert (H1 : forall x, x ∈ l1 -> bo_OrderId x <> bo_OrderId b).
  { intros x Hx Ex. apply (H12 (bo_OrderId b)); [|set_solver]. rewrite <- Ex. by apply list_elem_of_fmap_2. }
  assert (H2' : forall x, x ∈ l2 -> bo_OrderId x <> bo_OrderId b).
  { intros x Hx Ex. apply H2. rewrite <- Ex. by apply list_elem_of_fmap_2. }
  split.
  - rewrite filter_app, filter_cons_False, !filter_id by naive_solver. done.
  - rewrite filter_app, filter_cons_True by done.
    rewrite (filter_none _ l1) by done. done.
Qed.

Lemma ab_find_None a s id : ab_find a s id = None <-> forall b, b ∈ ab_get a s -> bo_OrderId b <> id.
Proof.
  unfold ab_find. generalize (ab_get a s). intros l. split.
  - intros H b Hb E. assert (b ∈ filter (fun b => bo_OrderId b = id) l) as Hin by (by apply list_elem_of_filter).
    destruct (filter _ l); [by apply elem_of_nil in Hin|done].
  - intros H. by rewrite filter_none.
Qed.

Lemma ab_find_elem a s id b : ab_find a s id = Some b -> b ∈ ab_get a s /\ bo_OrderId b = id.
Proof.
  unfold ab_find. intros H. assert (b ∈ filter (fun b => bo_OrderId b = id) (ab_get a s)) as Hin.
  { destruct (filter _ _); [done|]. injection H as ->. set_solver. }
  apply list_elem_of_filter in Hin. tauto.
Qed.

Definition absCancel (pid : string) a (seq : Z) (order : Order) : AbsBook * list Log * Z :=
  match ab_find a (ord_Side order) (ord_Id order) with
  | None => (a, [], seq)
  | Some b =>
      let seq := i64 (seq + 1) in
      (ab_remove a (ord_Side order) (ord_Id order),
       [LDone (newDoneLog (now seq) seq pid b (bo_Size b) DoneReasonCancelled)], seq)
  end.

Lemma CancelOrder_repr o a order :
  book_repr o a -> window_id (ord_Id order) -> valid_side (ord_Side order) ->
  exists o' a' logs, CancelOrder now o order = Ok (o', logs) /\
    absCancel (prod_Id (ob_product o)) a (ob_logSeq o) order = (a', logs, ob_logSeq o') /\
    book_repr o' a' /\ ob_product o' = ob_product o /\ ob_tradeSeq o' = ob_tradeSeq o /\
    ob_orderIdWindows o' = ws_after (ob_orderIdWindows o) (ord_Id order) /\
    ws_refused (ob_orderIdWindows o') (ord_Id order) /\
    (forall id, ws_refused (ob_orderIdWindows o) id -> ws_refused (ob_orderIdWindows o') id).
Proof.
  intros R Hid Hs. unfold CancelOrder, absCancel.
  destruct (dedupPut_ignored (E:=noerr) o (ord_Id order) (br_windows _ _ R) Hid) as (-> & Wf & Hself & Hmono). set (ws := ws_after _ _) in *.
  go_red. pose proof (book_repr_windows o a ws R Wf Hmono) as R1.
  destruct (book_depth _ _ (ord_Side order) R1 Hs) as (d & Hd & Rd). rewrite Hd. go_red.
  destruct (d_orders d !! ord_Id order) as [b|] eqn:Hb.
  - apply (dr_orders _ _ _ _ Rd) in Hb as [Hin Eb]. apply list_elem_of_split in Hin as (l1 & l2 & El).
    pose proof Rd as Rd'. rewrite El in Rd'.
    destruct (decrSize_repr _ (cmpOf_order _) (cmpOf_id _) _ d l1 b l2 (bo_Size b) Rd') as (d' & Hdecr & Rd2).
    { apply Qle_refl. }
    rewrite <- Eb, Hdecr. go_red. unfold nextLogSeq.
    destruct (ab_remove_split a (ord_Side order) b l1 l2 (depth_ids _ (cmpOf_order _) (cmpOf_id _) _ _ _ Rd) El) as [Erm Efind].
    rewrite Efind. do 3 eexists. split; [done|]. split; [done|]. split; [|by rewrite Eb].
    rewrite Erm. unfold keepIfOpen in Rd2.
    assert (dec_IsZero (bo_Size (bo_setSize b (dec_Sub (bo_Size b) (bo_Size b)))) = true) as Hz.
    { apply IsZero_true. simpl. dec_lra. }
    rewrite Hz in Rd2. simpl in Rd2.
    apply (book_repr_shrink _ a (ord_Side order) d' (l1 ++ l2) (i64 (ob_logSeq o + 1)) (ob_tradeSeq o) R1 Hs Rd2).
    rewrite El, !fmap_app. apply sublist_app; [done|]. simpl. by apply sublist_cons.
  - rewrite (proj2 (ab_find_None a (ord_Side order) (ord_Id order))).
    + do 3 eexists. split; [done|]. done.
    + by apply (depth_lookup_None _ _ _ _ _ Rd).
Qed.

(** *** Nullifying *)

Lemma NullifyOrder_repr o a order :
  book_repr o a -> window_id (ord_Id order) ->
  exists o', NullifyOrder now o order =
      Ok (o', [LDone (newDoneLog (now (i64 (ob_logSeq o + 1))) (i64 (ob_logSeq o + 1)) (prod_Id (ob_product o))
                        (newBookOrder order) (ord_Size order) DoneReasonCancelled)]) /\
    book_repr o' a /\ ob_logSeq o' = i64 (ob_logSeq o + 1) /\
    ob_product o' = ob_product o /\ ob_tradeSeq o' = ob_tradeSeq o /\
    ob_orderIdWindows o' = ws_after (ob_orderIdWindows o) (ord_Id order) /\
    ws_refused (ob_orderIdWindows o') (ord_Id order) /\
    (forall id, ws_refused (ob_orderIdWindows o) id -> ws_refused (ob_orderIdWindows o') id).
Proof.
  intros R Hid. unfold NullifyOrder.
  destruct (dedupPut_ignored (E:=noerr) o (ord_Id order) (br_windows _ _ R) Hid) as (-> & Wf & Hself & Hmono). set (ws := ws_after _ _) in *.
  go_red. unfold nextLogSeq. eexists. split; [done|]. split; [|done].
  pose proof (book_repr_windows o a ws R Wf Hmono) as []. constructor; done.
Qed.
End Ops.
