(* ===== verification/Trading.v ===== *)
(** What matching promises: the lemmas behind the theorems on the book.

    [matches] is [matchList] as an inductive relation, for makers that rest in
    a book; every property of matching is an induction on it.  A taker trades
    against a prefix of the makers in their priority order ([matches_prefix]),
    each trade is at the maker's price and within the taker's limit
    ([matches_prices]), the sizes and funds add up ([matches_sizes],
    [matches_funds], [matches_makers]), and a taker with something left has met
    no maker it still crosses ([matches_uncrossed]). *)
From S2P Require Import Prelude Decimal TreeMap Models Window MatchLog OrderBook DepthInv Matching Book.
From Stdlib Require Import QArith Qabs Lqa.
From stdpp Require Import list.
Open Scope string_scope.
Open Scope list_scope.
Open Scope Z_scope.

Section Matches.
Context {P : DecimalPkg} {L : DecimalLaws P} {T : TreeMapPkg} {TL : TreeMapLaws T}.
Context (product : Product).
Implicit Types (t m : BookOrder) (ms : list BookOrder) (fills : list fillOf).

(** The maker after trading [size]. *)
Definition decr m (size : Dec) : BookOrder := bo_setSize m (dec_Sub (bo_Size m) size).

(** [t] trades [size] with [m] and becomes [t']. *)
Record trades t m t' size : Prop := {
  tr_cross : pricesCross (bo_Side t) (bo_Price t) (bo_Price m) = true;
  tr_nonzero : ~ (dval size == 0)%Q;
  tr_le : (dval size <= dval (bo_Size m))%Q;
  tr_same : sameTaker t t';
  tr_sized : sizedTaker t = true -> size = dec_Min (bo_Size t) (bo_Size m) /\
    t' = bo_setSize t (dec_Sub (bo_Size t) size);
  tr_funded : fundedTaker t = true -> exists q, dec_Div (bo_Funds t) (bo_Price m) = Some q /\
    size = dec_Min (dec_Truncate q (prod_BaseScale product)) (bo_Size m) /\
    t' = bo_setFunds t (dec_Sub (bo_Funds t) (dec_Mul size (bo_Price m)));
}.

(** Why [t] trades no further. *)
Definition stuck t ms : Prop :=
  match ms with
  | [] => True
  | m :: _ =>
      pricesCross (bo_Side t) (bo_Price t) (bo_Price m) = false \/
      sizedTaker t = true /\ (dval (bo_Size t) == 0)%Q \/
      fundedTaker t = true
  end.

Inductive matches : BookOrder -> list BookOrder -> list fillOf -> BookOrder -> list BookOrder -> Prop :=
| matches_stop t ms : stuck t ms -> matches t ms [] t ms
| matches_last t m ms t' size :
    trades t m t' size -> takerSpent t' = true ->
    matches t (m :: ms) [(decr m size, size)] t' (keepIfOpen (decr m size) ++ ms)
| matches_step t m ms t1 size fills t' rest :
    trades t m t1 size -> takerSpent t1 = false -> matches t1 ms fills t' rest ->
    matches t (m :: ms) ((decr m size, size) :: fills) t' (keepIfOpen (decr m size) ++ rest).

Lemma calcTradeSize_cases {E} t m t1 size c ex :
  takerKind t -> (0 < dval (bo_Size m))%Q ->
  pricesCross (bo_Side t) (bo_Price t) (bo_Price m) = true ->
  calcTradeSize (E:=E) t m product = Ok (t1, size, c, ex) ->
  if dec_IsZero size then t1 = t /\ (sizedTaker t = true /\ (dval (bo_Size t) == 0)%Q \/ fundedTaker t = true)
  else trades t m t1 size.
Proof.
  intros Hk Hm Hc. unfold calcTradeSize. destruct (sizedTaker t) eqn:Hs.
  - pose proof (kind_exclusive t Hs) as Hf. destruct (dec_IsZero (bo_Size t)) eqn:Hz.
    + intros [= <- <- <- <-]. rewrite (proj2 (IsZero_true _) dval_Zero). split; [done|]. left. split; [done|dec_lra].
    + intros [= <- <- <- <-]. destruct (dec_IsZero (dec_Min _ _)) eqn:Hz'; [exfalso; dec_lra|].
      split; try done; [dec_lra|apply Min_val|by rewrite Hf].
  - destruct Hk as [?|Hf]; [congruence|]. rewrite Hf. destruct (dec_IsZero (bo_Funds t)).
    { intros [= <- <- <- <-]. rewrite (proj2 (IsZero_true _) dval_Zero). auto. }
    destruct (dec_Div (bo_Funds t) (bo_Price m)) as [q|] eqn:Hq; [|done]. go_red.
    destruct (dec_IsZero (dec_Truncate q (prod_BaseScale product))) eqn:Hz.
    { intros [= <- <- <- <-]. rewrite (proj2 (IsZero_true _) dval_Zero). auto. }
    intros [= <- <- <- <-]. destruct (dec_IsZero (dec_Min _ _)) eqn:Hz'; [exfalso; dec_lra|].
    split; try done; [dec_lra|apply Min_val|congruence|]. intros _. by exists q.
Qed.

Lemma matchList_matches side ms : forall t fills t' rest,
  takerKind t -> Forall (resting side) ms ->
  matchList product t ms = Ok (fills, t', rest) -> matches t ms fills t' rest.
Proof.
  induction ms as [|m ms IH]; intros t fills t' rest Hk Hr H; simpl in H.
  { injection H as <- <- <-. by constructor. }
  apply Forall_cons in Hr as [(_&_&Hsz&Hp) Hr].
  destruct (pricesCross _ _ _) eqn:Hc; simpl in H.
  2:{ injection H as <- <- <-. constructor. by left. }
  destruct (calcTradeSize t m product) as [[[[t1 size] c] ex]| | |] eqn:Hcalc; try done.
  cbn [mbind outcome_bind] in H. pose proof (calcTradeSize_cases t m t1 size c ex Hk Hsz Hc Hcalc) as Htr.
  destruct (dec_IsZero size).
  { injection H as <- <- <-. destruct Htr as [-> ?]. constructor. by right. }
  destruct (takerSpent t1) eqn:Hsp.
  { injection H as <- <- <-. by constructor. }
  destruct (matchList product t1 ms) as [[[fs t2] ms2]| | |] eqn:Hrec; try done. injection H as <- <- <-.
  econstructor; [done|done|]. apply IH; [|done|done].
  eapply takerKind_same; [apply Htr|done].
Qed.

(** ** Properties *)

Lemma matches_same t ms fills t' rest : matches t ms fills t' rest -> sameTaker t t'.
Proof.
  induction 1 as [t ms _|t m ms t' size Htr _|t m ms t1 size fills t' rest Htr _ _ IH];
    [reflexivity|apply Htr|]. etransitivity; [apply Htr|exact IH].
Qed.

Lemma matches_cross_all t ms fills t' rest : matches t ms fills t' rest ->
  Forall (fun f => pricesCross (bo_Side t) (bo_Price t) (bo_Price f.1) = true /\ ~ (dval f.2 == 0)%Q) fills.
Proof.
  induction 1 as [t ms _|t m ms t' size Htr _|t m ms t1 size fills t' rest Htr _ _ IH].
  - constructor.
  - repeat constructor; apply Htr.
  - constructor; [split; apply Htr|]. destruct (tr_same _ _ _ _ Htr) as (_&_&Ep&Es&_).
    rewrite Ep, Es in IH. done.
Qed.

(** The fills are on a prefix of the makers, in order. *)
Lemma matches_prefix t ms fills t' rest : matches t ms fills t' rest ->
  exists pre post, ms = pre ++ post /\
    Forall2 (fun m f => f.1 = decr m f.2 /\ (dval f.2 <= dval (bo_Size m))%Q) pre fills /\
    rest = (f ← fills; keepIfOpen f.1) ++ post.
Proof.
  induction 1 as [t ms _|t m ms t' size Htr _|t m ms t1 size fills t' rest Htr _ _ IH].
  - exists [], ms. split; [done|]. split; [constructor|done].
  - exists [m], ms. split; [done|]. split; [|simpl; by rewrite app_nil_r].
    constructor; [|constructor]. split; [done|apply Htr].
  - destruct IH as (pre & post & -> & Hf & ->). exists (m :: pre), post.
    split; [done|]. split; [|simpl; by rewrite app_assoc].
    constructor; [|done]. split; [done|apply Htr].
Qed.

(** *** Sized takers *)

Lemma sized_same t t' : sameTaker t t' -> sizedTaker t = true -> sizedTaker t' = true.
Proof. intros [-> _]%sameTaker_kind. done. Qed.

Lemma matches_sizes t ms fills t' rest : matches t ms fills t' rest -> sizedTaker t = true ->
  (dval (bo_Size t) == dsum fills.*2 + dval (bo_Size t'))%Q.
Proof.
  induction 1 as [t ms _|t m ms t' size Htr _|t m ms t1 size fills t' rest Htr _ _ IH]; intros Hs; simpl.
  - lra.
  - destruct (tr_sized _ _ _ _ Htr Hs) as [_ ->]. simpl. dec_laws. lra.
  - assert (sizedTaker t1 = true) as Hs1 by (eapply sized_same; [apply Htr|done]).
    rewrite <- Qplus_assoc, <- IH by done. destruct (tr_sized _ _ _ _ Htr Hs) as [_ ->]. simpl. dec_laws. lra.
Qed.

Lemma spent_sized t : sizedTaker t = true -> takerSpent t = dec_IsZero (bo_Size t).
Proof. intros H. unfold takerSpent. by rewrite H. Qed.

(** What a sized taker of positive size leaves: positive fills, every maker
    but the last one filled, and a maker left open only by a taker that is
    exhausted. *)
Lemma matches_sized t ms fills t' rest : matches t ms fills t' rest ->
  sizedTaker t = true -> (0 <= dval (bo_Size t))%Q -> Forall (fun m => 0 < dval (bo_Size m))%Q ms ->
  Forall (fun f => 0 < dval f.2)%Q fills /\ (0 <= dval (bo_Size t'))%Q /\
  ((0 < dval (bo_Size t'))%Q -> Forall (fun f => dval (bo_Size f.1) == 0)%Q fills) /\
  (forall init f, fills = init ++ [f] -> Forall (fun f => dval (bo_Size f.1) == 0)%Q init).
Proof.
  assert (Hmin : forall t m t1 size, trades t m t1 size -> sizedTaker t = true ->
    (0 <= dval (bo_Size t))%Q -> (0 < dval (bo_Size m))%Q ->
    (0 < dval size)%Q /\ (0 <= dval (bo_Size t1))%Q /\
    ((0 < dval (bo_Size t1))%Q -> (dval (bo_Size (decr m size)) == 0)%Q)).
  { intros t0 m t1 size Htr Hs Ht Hm. pose proof (tr_nonzero _ _ _ _ Htr).
    destruct (tr_sized _ _ _ _ Htr Hs) as [E ->]. unfold decr. simpl.
    destruct (dec_Min_val (bo_Size t0) (bo_Size m)) as [[E' ?]|[E' ?]]; rewrite E' in E; subst size;
      repeat split; intros; dec_lra. }
  induction 1 as [t ms _|t m ms t' size Htr _|t m ms t1 size fills t' rest Htr Hsp _ IH];
    intros Hs Ht Hms.
  - repeat split; try done. intros init f E. by destruct init.
  - apply Forall_cons in Hms as [Hm _]. destruct (Hmin _ _ _ _ Htr Hs Ht Hm) as (?&?&Hfull). repeat split.
    + by repeat constructor.
    + done.
    + intros Hp. repeat constructor. by apply Hfull.
    + intros [|f0 init] f E; [done|]. by destruct init.
  - apply Forall_cons in Hms as [Hm Hms]. destruct (Hmin _ _ _ _ Htr Hs Ht Hm) as (?&H1&Hfull).
    assert (sizedTaker t1 = true) as Hs1 by (eapply sized_same; [apply Htr|done]).
    rewrite spent_sized in Hsp by done.
    destruct (IH Hs1 H1 Hms) as (Hpos & Hnn & Hopen & Hinit).
    assert (Hz : (dval (bo_Size (decr m size)) == 0)%Q) by (apply Hfull; dec_lra).
    repeat split; try done.
    + by constructor.
    + intros Hp. constructor; [done|]. by apply Hopen.
    + intros [|f0 init] f E; [constructor|]. injection E as <- E. constructor; [done|]. by eapply Hinit.
Qed.

(** A taker with something left crosses no maker that is left. *)
Lemma matches_uncrossed t ms fills t' rest : matches t ms fills t' rest ->
  sizedTaker t = true -> (0 < dval (bo_Size t'))%Q -> Forall (fun m => 0 < dval (bo_Size m))%Q ms ->
  exists pre, ms = pre ++ rest /\
    match rest with [] => True | m :: _ => pricesCross (bo_Side t) (bo_Price t) (bo_Price m) = false end.
Proof.
  induction 1 as [t ms Hst|t m ms t' size Htr Hsp|t m ms t1 size fills t' rest Htr Hsp _ IH];
    intros Hs Hpos Hms.
  - exists []. split; [done|]. destruct ms as [|m ms]; [done|]. destruct Hst as [?|[[_ ?]|Hf]]; [done|lra|].
    rewrite (kind_exclusive t Hs) in Hf. done.
  - exfalso. assert (sizedTaker t' = true) as Hs1 by (eapply sized_same; [apply Htr|done]).
    rewrite spent_sized in Hsp by done. dec_lra.
  - apply Forall_cons in Hms as [Hm Hms].
    assert (sizedTaker t1 = true) as Hs1 by (eapply sized_same; [apply Htr|done]).
    rewrite spent_sized in Hsp by done. destruct (IH Hs1 Hpos Hms) as (pre & -> & Hhead).
    destruct (tr_same _ _ _ _ Htr) as (_&_&Ep&Es&_). rewrite Ep, Es in Hhead.
    exists (m :: pre). unfold keepIfOpen.
    assert (dec_IsZero (bo_Size (decr m size)) = true) as ->; [|done].
    apply IsZero_true. unfold decr. simpl. destruct (tr_sized _ _ _ _ Htr Hs) as [E Et].
    rewrite Et in Hsp. simpl in Hsp.
    destruct (dec_Min_val (bo_Size t) (bo_Size m)) as [[E' ?]|[E' ?]]; rewrite E' in E; subst size; dec_lra.
Qed.

(** *** Makers *)

(** The makers' total shrinks by what is traded. *)
Lemma keepIfOpen_sum m : (dsum (bo_Size <$> keepIfOpen m) == dval (bo_Size m))%Q.
Proof. unfold keepIfOpen. destruct (dec_IsZero (bo_Size m)) eqn:E; simpl; dec_lra. Qed.

Lemma matches_makers t ms fills t' rest : matches t ms fills t' rest ->
  (dsum (bo_Size <$> ms) == dsum fills.*2 + dsum (bo_Size <$> rest))%Q.
Proof.
  induction 1 as [t ms _|t m ms t' size Htr _|t m ms t1 size fills t' rest Htr _ _ IH].
  - simpl. lra.
  - rewrite fmap_app, dsum_app, keepIfOpen_sum, !fmap_cons, !dsum_cons. unfold decr. simpl. dec_laws. lra.
  - rewrite fmap_app, dsum_app, keepIfOpen_sum, !fmap_cons, !dsum_cons, IH. unfold decr. simpl. dec_laws. lra.
Qed.

Lemma matches_rest_nonneg t ms fills t' rest side y : matches t ms fills t' rest ->
  Forall (resting side) ms -> y ∈ rest -> (0 <= dval (bo_Size y))%Q.
Proof.
  intros (pre & post & -> & Hf & ->)%matches_prefix [Hpre Hpost]%Forall_app [Hy|Hy]%elem_of_app.
  - apply list_elem_of_bind in Hy as (f & Hy & Hin).
    apply list_elem_of_lookup in Hin as [i Hi]. destruct (Forall2_lookup_r _ _ _ _ _ Hf Hi) as (m & _ & E & Hle).
    unfold keepIfOpen in Hy. rewrite E in Hy. case_bool; [by apply elem_of_nil in Hy|].
    apply list_elem_of_singleton in Hy as ->. unfold decr. simpl. dec_laws. lra.
  - rewrite Forall_forall in Hpost. destruct (Hpost y Hy) as (_&_&?&_). lra.
Qed.

(** *** Market buys *)

Definition cost (f : fillOf) : Dec := dec_Mul f.2 (bo_Price f.1).

Lemma matches_funds t ms fills t' rest : matches t ms fills t' rest -> fundedTaker t = true ->
  (dval (bo_Funds t) == dsum (cost <$> fills) + dval (bo_Funds t'))%Q.
Proof.
  induction 1 as [t ms _|t m ms t' size Htr _|t m ms t1 size fills t' rest Htr _ _ IH]; intros Hf; simpl.
  - lra.
  - destruct (tr_funded _ _ _ _ Htr Hf) as (q & _ & _ & ->). unfold cost. simpl. dec_laws. lra.
  - assert (fundedTaker t1 = true) as Hf1.
    { destruct (sameTaker_kind t t1) as [_ ->]; [apply Htr|done]. }
    rewrite <- Qplus_assoc, <- IH by done. destruct (tr_funded _ _ _ _ Htr Hf) as (q & _ & _ & ->).
    unfold cost. simpl. dec_laws. lra.
Qed.

(** The division rounds, so a market buy may spend a little more than its
    funds: at most half a unit of the last digit [Div] keeps, at the price of
    the trade.  After that it trades no more. *)
#[local] Abbreviation u := (ulp DivisionPrecision).

Lemma trunc_zero q bs : 0 <= bs < DivisionPrecision ->
  (- u <= dval q)%Q -> (dval q <= u)%Q -> (dval (dec_Truncate q bs) == 0)%Q.
Proof.
  intros Hbs Hlo Hhi. pose proof (ulp_coarser bs Hbs) as Hulp.
  pose proof (ulp_pos DivisionPrecision ltac:(done)) as Hu.
  destruct (dval_Truncate_mult q bs) as [z Hz]; [lia|].
  assert (- u <= dval (dec_Truncate q bs) <= u)%Q as [H1 H2].
  { destruct (Qlt_le_dec (dval q) 0) as [Hq|Hq].
    - destruct (dval_Truncate_neg q bs) as (?&?&_); [lia|lra|]. lra.
    - destruct (dval_Truncate_pos q bs) as (?&?&_); [lia|lra|]. lra. }
  rewrite Hz in *. assert (z = 0) as ->; [|apply Qmult_0_l].
  destruct (Z.lt_trichotomy z 0) as [Hn|[?|Hp]]; [exfalso|done|exfalso].
  - assert (inject_Z z <= -1)%Q by (change (-1)%Q with (inject_Z (-1)); rewrite <- Zle_Qle; lia).
    assert (inject_Z z * ulp bs <= -1 * ulp bs)%Q by (apply Qmult_le_compat_r; lra). lra.
  - assert (1 <= inject_Z z)%Q by (change 1%Q with (inject_Z 1); rewrite <- Zle_Qle; lia).
    assert (1 * ulp bs <= inject_Z z * ulp bs)%Q by (apply Qmult_le_compat_r; lra). lra.
Qed.

Lemma div_bounds a b q : dec_Div a b = Some q -> (0 < dval b)%Q ->
  (dval a - (1 # 2) * u * dval b <= dval q * dval b <= dval a + (1 # 2) * u * dval b)%Q.
Proof.
  intros H%dval_Div Hb. rewrite (Qabs_pos (dval b)) in H by lra.
  apply Qabs_Qle_condition in H as [? ?]. lra.
Qed.

Lemma trade_funds t m t1 size : trades t m t1 size -> fundedTaker t = true ->
  0 <= prod_BaseScale product < DivisionPrecision -> (0 < dval (bo_Price m))%Q ->
  (0 <= dval (bo_Funds t))%Q ->
  (- ((1 # 2) * u * dval (bo_Price m)) <= dval (bo_Funds t1))%Q.
Proof.
  intros Htr Hf Hbs Hp Hfunds. destruct (tr_funded _ _ _ _ Htr Hf) as (q & Hq & Esz & ->). simpl.
  apply div_bounds in Hq; [|done]. pose proof (ulp_pos DivisionPrecision ltac:(done)) as Hu.
  pose proof (Min_val (dec_Truncate q (prod_BaseScale product)) (bo_Size m)) as [Hle _].
  rewrite <- Esz in Hle. dec_laws. rewrite H, H0. destruct (Qlt_le_dec (dval q) 0) as [Hneg|Hpos].
  - destruct (dval_Truncate_neg q (prod_BaseScale product)) as (?&_&_); [lia|lra|]. nra.
  - destruct (dval_Truncate_pos q (prod_BaseScale product)) as (_&?&_); [lia|lra|]. nra.
Qed.

Lemma overspent_stuck t m t1 size p : trades t m t1 size -> fundedTaker t = true ->
  0 <= prod_BaseScale product < DivisionPrecision -> (0 < dval (bo_Size m))%Q ->
  (0 < p)%Q -> (p <= dval (bo_Price m))%Q -> (- ((1 # 2) * u * p) <= dval (bo_Funds t))%Q ->
  (0 <= dval (bo_Funds t))%Q.
Proof.
  intros Htr Hf Hbs Hsz Hp Hpm Hlo. destruct (Qlt_le_dec (dval (bo_Funds t)) 0) as [Hneg|]; [exfalso|done].
  destruct (tr_funded _ _ _ _ Htr Hf) as (q & Hq & Esz & _).
  apply div_bounds in Hq; [|lra]. pose proof (ulp_pos DivisionPrecision ltac:(done)) as Hu.
  assert (dval (dec_Truncate q (prod_BaseScale product)) == 0)%Q as Hz.
  { apply trunc_zero; [done| |].
    - apply Qnot_lt_le. intros H. assert (dval q * dval (bo_Price m) < - u * dval (bo_Price m))%Q by nra. nra.
    - apply Qnot_lt_le. intros H. assert (u * dval (bo_Price m) < dval q * dval (bo_Price m))%Q by nra. nra. }
  apply (tr_nonzero _ _ _ _ Htr). destruct (dec_Min_val (dec_Truncate q (prod_BaseScale product)) (bo_Size m))
    as [[E ?]|[E ?]]; rewrite E in Esz; subst size; [done|lra].
Qed.

Lemma matches_overspend t ms fills t' rest : matches t ms fills t' rest -> fundedTaker t = true ->
  0 <= prod_BaseScale product < DivisionPrecision ->
  forall pmin pmax, (0 < pmin)%Q -> (pmin <= pmax)%Q -> (- ((1 # 2) * u * pmin) <= dval (bo_Funds t))%Q ->
  StronglySorted (fun a b => dval (bo_Price a) <= dval (bo_Price b))%Q ms ->
  Forall (fun m => pmin <= dval (bo_Price m) /\ dval (bo_Price m) <= pmax /\ 0 < dval (bo_Size m))%Q ms ->
  (- ((1 # 2) * u * pmax) <= dval (bo_Funds t'))%Q.
Proof.
  pose proof (ulp_pos DivisionPrecision ltac:(done)) as Hu.
  induction 1 as [t ms _|t m ms t' size Htr _|t m ms t1 size fills t' rest Htr _ _ IH];
    intros Hf Hbs pmin pmax Hpos Hle Hfunds Hs Hms.
  - nra.
  - apply Forall_cons in Hms as [(?&?&?) _].
    assert (0 <= dval (bo_Funds t))%Q by (eapply (overspent_stuck t m _ _ pmin); [exact Htr|done..]).
    assert (- ((1 # 2) * u * dval (bo_Price m)) <= dval (bo_Funds t'))%Q by (eapply trade_funds; [exact Htr|done|done|lra|done]).
    nra.
  - apply Forall_cons in Hms as [(?&?&?) Hms].
    assert (0 <= dval (bo_Funds t))%Q by (eapply (overspent_stuck t m _ _ pmin); [exact Htr|done..]).
    apply StronglySorted_inv in Hs as [Hs Hm]. apply (IH ltac:(destruct (sameTaker_kind t t1) as [_ ->]; [apply Htr|done])
      Hbs (dval (bo_Price m)) pmax); [lra|done| |done|].
    + eapply trade_funds; [exact Htr|done|done|lra|done].
    + rewrite Forall_forall in *. intros b Hb. destruct (Hms b Hb) as (?&?&?). split; [by apply Hm|done].
Qed.
End Matches.
