(* ===== verification/LogReader.v ===== *)
(** Reading the matching log: [src/matching/kafka_log_reader.go] and the
    observer interface of [src/matching/api.go].

    [LogObserver] is the interface the makers, the candle maker and the push
    streams implement; [readerStep] is one pass of [KafkaLogReader.Run].  The
    log topic holds each log at least once (a restarted engine writes again
    what it had written before its snapshot); [reader_exactly_once] shows that
    every observer still sees each log once and in order. *)
From S2P Require Import Prelude Decimal Models MatchLog OrderBook.
From stdpp Require Import list.
Open Scope string_scope.
Open Scope list_scope.
Open Scope Z_scope.

(** [type LogObserver interface]: the callbacks, on an observer's state. *)
Class LogObserver {P : DecimalPkg} (S : Type) := {
  OnOpenLog : OpenLog -> Z -> S -> outcome noerr S;
  OnMatchLog : MatchLog -> Z -> S -> outcome noerr S;
  OnDoneLog : DoneLog -> Z -> S -> outcome noerr S;
}.

Section Reader.
Context {P : DecimalPkg} {S : Type} {O : LogObserver S}.

(** A message of the log topic. *)
Record logMessage := { lm_Offset : Z; lm_Log : Log }.
Definition lm_Seq (m : logMessage) : Z := GetSeq (lm_Log m).

Record readerState := { rd_lastSeq : Z; rd_observer : S }.

(** [switch base.Type]: the callback of a log. *)
Definition deliver (m : logMessage) (s : S) : outcome noerr S :=
  match lm_Log m with
  | LOpen l => OnOpenLog l (lm_Offset m) s
  | LMatch l => OnMatchLog l (lm_Offset m) s
  | LDone l => OnDoneLog l (lm_Offset m) s
  end.

Definition readerStep (st : readerState) (m : logMessage) : outcome noerr readerState :=
  if lm_Seq m <=? rd_lastSeq st then mret st
  else if (0 <? rd_lastSeq st) && negb (lm_Seq m =? i64 (rd_lastSeq st + 1)) then Panic
  else s ← deliver m (rd_observer st); mret {| rd_lastSeq := lm_Seq m; rd_observer := s |}.

Fixpoint readerLoop (st : readerState) (ms : list logMessage) : outcome noerr readerState :=
  match ms with
  | [] => mret st
  | m :: ms => st ← readerStep st m; readerLoop st ms
  end.

(** [Run] on the messages that the topic holds so far. *)
Definition Run (seq offset : Z) (topic : list logMessage) (s : S) : outcome noerr readerState :=
  readerLoop {| rd_lastSeq := seq; rd_observer := s |} (filter (fun m => offset <= lm_Offset m) topic).

(** ** Exactly once *)

(** A topic written at least once: no log is ahead of what came before. *)
Fixpoint gap_free (last : Z) (ms : list logMessage) : Prop :=
  match ms with
  | [] => True
  | m :: ms => lm_Seq m <= last + 1 /\ gap_free (Z.max last (lm_Seq m)) ms
  end.

(** The first message of each number after [last]. *)
Fixpoint freshLogs (last : Z) (ms : list logMessage) : list logMessage :=
  match ms with
  | [] => []
  | m :: ms => if lm_Seq m <=? last then freshLogs last ms else m :: freshLogs (lm_Seq m) ms
  end.

Fixpoint deliverAll (ms : list logMessage) (s : S) : outcome noerr S :=
  match ms with
  | [] => mret s
  | m :: ms => s ← deliver m s; deliverAll ms s
  end.

Lemma freshLogs_seqs ms : forall last, gap_free last ms ->
  lm_Seq <$> freshLogs last ms = seqZ (last + 1) (Z.of_nat (length (freshLogs last ms))).
Proof.
  induction ms as [|m ms IH]; intros last H; simpl; [done|]. destruct H as [Hm H].
  destruct (Z.leb_spec (lm_Seq m) last) as [Hle|Hgt].
  - apply IH. by replace (Z.max last (lm_Seq m)) with last in H by lia.
  - replace (Z.max last (lm_Seq m)) with (lm_Seq m) in H by lia.
    assert (Heq : lm_Seq m = last + 1) by lia. rewrite fmap_cons, IH by done. cbn [length].
    rewrite (seqZ_cons (last + 1)) by lia. f_equal; [done|].
    replace (Z.succ (last + 1)) with (lm_Seq m + 1) by lia.
    by replace (Z.pred (Z.of_nat (Datatypes.S (length (freshLogs (lm_Seq m) ms)))))
      with (Z.of_nat (length (freshLogs (lm_Seq m) ms))) by lia.
Qed.

Lemma freshLogs_sublist ms : forall last, freshLogs last ms `sublist_of` ms.
Proof.
  induction ms as [|m ms IH]; intros last; simpl; [done|].
  case_bool; [by apply sublist_cons|by apply sublist_skip].
Qed.

(** Every message is one that was delivered or a repetition. *)
Lemma freshLogs_complete ms : forall last m, gap_free last ms -> m ∈ ms -> last < lm_Seq m ->
  exists m', m' ∈ freshLogs last ms /\ lm_Seq m' = lm_Seq m.
Proof.
  induction ms as [|x ms IH]; intros last m Hg Hm Hlt; [by apply elem_of_nil in Hm|].
  destruct Hg as [Hx Hg]. simpl. destruct (Z.leb_spec (lm_Seq x) last) as [Hle|Hgt].
  - replace (Z.max last (lm_Seq x)) with last in Hg by lia.
    apply elem_of_cons in Hm as [->|Hm]; [lia|]. by apply IH.
  - replace (Z.max last (lm_Seq x)) with (lm_Seq x) in Hg by lia.
    apply elem_of_cons in Hm as [->|Hm]; [exists x; set_solver|].
    destruct (decide (lm_Seq m <= lm_Seq x)) as [Hle|Hgt'].
    + exists x. split; [set_solver|lia].
    + destruct (IH (lm_Seq x) m Hg Hm) as (m' & ? & ?); [lia|]. exists m'. set_solver.
Qed.

Lemma readerLoop_deliverAll ms : forall last s,
  gap_free last ms -> Forall (fun m => is_i64 (lm_Seq m)) ms ->
  rd_observer <$> readerLoop {| rd_lastSeq := last; rd_observer := s |} ms = deliverAll (freshLogs last ms) s.
Proof.
  induction ms as [|m ms IH]; intros last s Hg Hi; [done|].
  destruct Hg as [Hm Hg]. apply Forall_cons in Hi as [Hmi Hi]. simpl. unfold readerStep. cbn [rd_lastSeq rd_observer].
  destruct (Z.leb_spec (lm_Seq m) last) as [Hle|Hgt].
  - go_red. apply IH; [|done]. by replace (Z.max last (lm_Seq m)) with last in Hg by lia.
  - replace (Z.max last (lm_Seq m)) with (lm_Seq m) in Hg by lia.
    assert (Heq : last + 1 = lm_Seq m) by lia. rewrite Heq, i64_id, Z.eqb_refl, andb_false_r by done.
    cbn [deliverAll]. destruct (deliver m s) as [s'| | |]; [|done..]. go_red. by apply IH.
Qed.
End Reader.
Arguments readerState : clear implicits.

(** Whatever an observer does with its logs, reading a topic that was
    written at least once does it for each log exactly once: the run is the
    delivery of the first message of every number after the starting one, in
    order and without a gap, and every later message repeats one of these. *)
Theorem reader_exactly_once {P : DecimalPkg} {S : Type} {O : LogObserver S} (seq offset : Z) (topic : list logMessage) (s : S) :
  gap_free seq (filter (fun m => offset <= lm_Offset m) topic) -> Forall (fun m => is_i64 (lm_Seq m)) topic ->
  let ms := filter (fun m => offset <= lm_Offset m) topic in
  rd_observer <$> Run seq offset topic s = deliverAll (freshLogs seq ms) s /\
  lm_Seq <$> freshLogs seq ms = seqZ (seq + 1) (Z.of_nat (length (freshLogs seq ms))) /\
  freshLogs seq ms `sublist_of` topic /\
  (forall m, m ∈ ms -> seq < lm_Seq m -> exists m', m' ∈ freshLogs seq ms /\ lm_Seq m' = lm_Seq m).
Proof.
  intros Hg Hi ms. assert (Hi' : Forall (fun m => is_i64 (lm_Seq m)) ms).
  { apply Forall_forall. intros m [_ Hm]%list_elem_of_filter. rewrite Forall_forall in Hi. by apply Hi. }
  split; [by apply readerLoop_deliverAll|]. split; [by apply freshLogs_seqs|].
  split; [|intros; by apply freshLogs_complete].
  etransitivity; [apply freshLogs_sublist|apply sublist_filter].
Qed.

(** A reader that has read something stops the process at a log that is
    ahead, before it delivers it. *)
Theorem reader_gap_crashes {P : DecimalPkg} {S : Type} {O : LogObserver S} (st : readerState S) (m : logMessage) :
  0 < rd_lastSeq st < i64_half - 1 -> rd_lastSeq st + 1 < lm_Seq m -> readerStep st m = Panic.
Proof.
  intros H1 H2. unfold readerStep. destruct (Z.leb_spec (lm_Seq m) (rd_lastSeq st)); [lia|].
  rewrite i64_id by (unfold is_i64; lia).
  destruct (Z.ltb_spec 0 (rd_lastSeq st)); [|lia]. destruct (Z.eqb_spec (lm_Seq m) (rd_lastSeq st + 1)); [lia|done].
Qed.
