(* ===== verification/Ledger.v ===== *)
(** The database: the tables of [src/ddl.sql] and [src/ddl_order.sql] and the
    statements of [src/models/mysql/*.go].

    A table is the list of its rows; auto-increment keys grow, so the list of
    such a table is in key order.  A statement is a function on [Db]; a
    transaction is one atomic function ([Settlement.v]), because the rows it
    works on are locked first.  A row that is not found is [None] where the code
    maps [gorm.ErrRecordNotFound] to [nil].  The columns are [decimal(32,16)]:
    what a written value becomes is the parameter [column], which rounds to 16
    decimal places and refuses what is out of range ([ColumnLaws]); an
    [INSERT IGNORE] takes the nearest value of the range instead ([clamp]). *)
From S2P Require Import Prelude Decimal Models.
From Stdlib Require Import QArith Qabs Lqa.
From stdpp Require Import list sorting.
Open Scope string_scope.
Open Scope list_scope.
Open Scope Z_scope.

(** The scale of the [decimal(32,16)] columns. *)
Definition columnScale : Z := 16.

Class Column {P : DecimalPkg} := {
  column : Dec -> option Dec;
  clamp : Dec -> Dec;
}.

(** A value the columns hold exactly. *)
Definition exact16 `{DecimalLaws} (d : Dec) : Prop := exists z, (dval d == inject_Z z * ulp columnScale)%Q.

Class ColumnLaws {P : DecimalPkg} (L : DecimalLaws P) (C : Column) := {
  column_round d c : column d = Some c -> exact16 c /\ (Qabs (dval c - dval d) <= (1 # 2) * ulp columnScale)%Q;
  clamp_column d c : column d = Some c -> clamp d = c;
  clamp_exact d : exact16 (clamp d);
}.

Inductive dbError :=
| DuplicateKey
| OutOfRange
| AppError (msg : string).

(** A value as an [INSERT] or [UPDATE] stores it. *)
Definition store {P : DecimalPkg} {C : Column} (d : Dec) : outcome dbError Dec :=
  match column d with Some c => Ok c | None => Err OutOfRange end.

Section Ledger.
Context {P : DecimalPkg} {C : Column}.
(** The clock reading a statement stamps its rows with. *)
Context (now : Instant).

(** Order tables are [g_order_0] to [g_order_127]. *)
Record Db := {
  g_account : list Account;
  g_bill : list Bill;
  g_fill : list Fill;
  g_order : Z -> list Order;
  g_product : list Product;
  g_trade : list Trade;
  g_tick : list Tick;
  g_fee_rate : list FeeRate;
  next_account : Z;
  next_bill : Z;
  next_fill : Z;
  next_trade : Z;
  next_tick : Z;
}.

Definition db_setAccounts (db : Db) l next : Db :=
  {| g_account := l; g_bill := g_bill db; g_fill := g_fill db; g_order := g_order db; g_product := g_product db;
     g_trade := g_trade db; g_tick := g_tick db; g_fee_rate := g_fee_rate db; next_account := next;
     next_bill := next_bill db; next_fill := next_fill db; next_trade := next_trade db; next_tick := next_tick db |}.
Definition db_setBills (db : Db) l next : Db :=
  {| g_account := g_account db; g_bill := l; g_fill := g_fill db; g_order := g_order db; g_product := g_product db;
     g_trade := g_trade db; g_tick := g_tick db; g_fee_rate := g_fee_rate db; next_account := next_account db;
     next_bill := next; next_fill := next_fill db; next_trade := next_trade db; next_tick := next_tick db |}.
Definition db_setFills (db : Db) l next : Db :=
  {| g_account := g_account db; g_bill := g_bill db; g_fill := l; g_order := g_order db; g_product := g_product db;
     g_trade := g_trade db; g_tick := g_tick db; g_fee_rate := g_fee_rate db; next_account := next_account db;
     next_bill := next_bill db; next_fill := next; next_trade := next_trade db; next_tick := next_tick db |}.
Definition db_setOrders (db : Db) t : Db :=
  {| g_account := g_account db; g_bill := g_bill db; g_fill := g_fill db; g_order := t; g_product := g_product db;
     g_trade := g_trade db; g_tick := g_tick db; g_fee_rate := g_fee_rate db; next_account := next_account db;
     next_bill := next_bill db; next_fill := next_fill db; next_trade := next_trade db; next_tick := next_tick db |}.
Definition db_setTrades (db : Db) l next : Db :=
  {| g_account := g_account db; g_bill := g_bill db; g_fill := g_fill db; g_order := g_order db; g_product := g_product db;
     g_trade := l; g_tick := g_tick db; g_fee_rate := g_fee_rate db; next_account := next_account db;
     next_bill := next_bill db; next_fill := next_fill db; next_trade := next; next_tick := next_tick db |}.
Definition db_setTicks (db : Db) l next : Db :=
  {| g_account := g_account db; g_bill := g_bill db; g_fill := g_fill db; g_order := g_order db; g_product := g_product db;
     g_trade := g_trade db; g_tick := l; g_fee_rate := g_fee_rate db; next_account := next_account db;
     next_bill := next_bill db; next_fill := next_fill db; next_trade := next_trade db; next_tick := next |}.

(** ** Accounts *)

Definition ofAccount (userId : Z) (currency : string) (a : Account) : Prop :=
  acc_UserId a = userId /\ acc_Currency a = currency.

Definition GetAccount (db : Db) (userId : Z) (currency : string) : option Account :=
  head (filter (ofAccount userId currency) (g_account db)).
Definition GetAccountForUpdate (db : Db) (userId : Z) (currency : string) : option Account :=
  head (filter (ofAccount userId currency) (g_account db)).
Definition GetAccountsByUserId (db : Db) (userId : Z) : list Account :=
  filter (fun a => acc_UserId a = userId) (g_account db).

(** The row as it is written. *)
Definition accountRow (id : Z) (created updated : Instant) (a : Account) : outcome dbError Account :=
  hold ← store (acc_Hold a);
  available ← store (acc_Available a);
  mret {|
    acc_Id := id; acc_CreatedAt := created; acc_UpdatedAt := updated; acc_UserId := acc_UserId a;
    acc_Currency := acc_Currency a; acc_Hold := hold; acc_Available := available |}.

Definition AddAccount (db : Db) (a : Account) : outcome dbError Db :=
  match GetAccount db (acc_UserId a) (acc_Currency a) with
  | Some _ => Err DuplicateKey
  | None =>
      row ← accountRow (next_account db) now now a;
      mret (db_setAccounts db (g_account db ++ [row]) (next_account db + 1))
  end.

Definition UpdateAccount (db : Db) (a : Account) : outcome dbError Db :=
  row ← accountRow (acc_Id a) (acc_CreatedAt a) now a;
  mret (db_setAccounts db (map (fun r => if acc_Id r =? acc_Id a then row else r) (g_account db)) (next_account db)).

(** ** Bills *)

Definition GetUnsettledBillsByUserId (db : Db) (userId : Z) (currency : string) : list Bill :=
  take 100 (filter (fun b => bill_Settled b = false /\ bill_UserId b = userId /\ bill_Currency b = currency) (g_bill db)).
Definition GetUnsettledBills (db : Db) : list Bill :=
  take 100 (filter (fun b => bill_Settled b = false) (g_bill db)).

Definition billRow (id : Z) (created updated : Instant) (b : Bill) : outcome dbError Bill :=
  available ← store (bill_Available b);
  hold ← store (bill_Hold b);
  mret {|
    bill_Id := id; bill_CreatedAt := created; bill_UpdatedAt := updated; bill_UserId := bill_UserId b;
    bill_Currency := bill_Currency b; bill_Available := available; bill_Hold := hold;
    bill_Type := bill_Type b; bill_Settled := bill_Settled b; bill_Notes := bill_Notes b |}.

Fixpoint AddBills (db : Db) (bills : list Bill) : outcome dbError Db :=
  match bills with
  | [] => Ok db
  | b :: bills =>
      row ← billRow (next_bill db) now 0 b;
      AddBills (db_setBills db (g_bill db ++ [row]) (next_bill db + 1)) bills
  end.

Definition UpdateBill (db : Db) (b : Bill) : outcome dbError Db :=
  row ← billRow (bill_Id b) (bill_CreatedAt b) now b;
  mret (db_setBills db (map (fun r => if bill_Id r =? bill_Id b then row else r) (g_bill db)) (next_bill db)).

(** ** Fills *)

Definition GetLastFillByProductId (db : Db) (productId : string) : option Fill :=
  last (filter (fun f => fill_ProductId f = productId) (g_fill db)).
Definition GetUnsettledFillsByOrderId (db : Db) (orderId : Z) : list Fill :=
  take 100 (filter (fun f => fill_Settled f = false /\ fill_OrderId f = orderId) (g_fill db)).
Definition GetUnsettledFills (db : Db) (count : Z) : list Fill :=
  take (Z.to_nat count) (filter (fun f => fill_Settled f = false) (g_fill db)).

Definition fillRow (id : Z) (created updated : Instant) (size price funds fee : Dec) (f : Fill) : Fill := {|
  fill_Id := id; fill_CreatedAt := created; fill_UpdatedAt := updated; fill_TradeSeq := fill_TradeSeq f;
  fill_OrderId := fill_OrderId f; fill_MessageSeq := fill_MessageSeq f; fill_ProductId := fill_ProductId f;
  fill_Size := size; fill_Price := price; fill_Funds := funds; fill_Fee := fee; fill_Liquidity := fill_Liquidity f; fill_Settled := fill_Settled f;
  fill_Side := fill_Side f; fill_Done := fill_Done f; fill_DoneReason := fill_DoneReason f;
  fill_LogOffset := fill_LogOffset f; fill_LogSeq := fill_LogSeq f |}.

(** [Save] of gorm sets [updated_at]. *)
Definition UpdateFill (db : Db) (f : Fill) : outcome dbError Db :=
  size ← store (fill_Size f);
  price ← store (fill_Price f);
  funds ← store (fill_Funds f);
  fee ← store (fill_Fee f);
  let row := fillRow (fill_Id f) (fill_CreatedAt f) now size price funds fee f in
  mret (db_setFills db (map (fun r => if fill_Id r =? fill_Id f then row else r) (g_fill db)) (next_fill db)).

(** [INSERT IGNORE]: a row whose [(order_id, message_seq)] is taken is dropped. *)
Definition sameFillKey (f r : Fill) : Prop :=
  fill_OrderId r = fill_OrderId f /\ fill_MessageSeq r = fill_MessageSeq f.
#[export] Instance sameFillKey_dec f r : Decision (sameFillKey f r).
Proof. unfold sameFillKey. apply _. Defined.

Fixpoint AddFills (db : Db) (fills : list Fill) : outcome dbError Db :=
  match fills with
  | [] => Ok db
  | f :: fills =>
      if decide (Exists (sameFillKey f) (g_fill db)) then AddFills db fills
      else
        let row := fillRow (next_fill db) now 0 (clamp (fill_Size f)) (clamp (fill_Price f)) (clamp (fill_Funds f))
                     (clamp (fill_Fee f)) f in
        AddFills (db_setFills db (g_fill db ++ [row]) (next_fill db + 1)) fills
  end.

(** ** Orders *)

Definition GetOrderById (db : Db) (orderId : Z) : option Order :=
  head (filter (fun o => ord_Id o = orderId) (g_order db (GetTableIndexByOrderId orderId))).
Definition GetOrderByIdForUpdate (db : Db) (orderId : Z) : option Order :=
  head (filter (fun o => ord_Id o = orderId) (g_order db (GetTableIndexByOrderId orderId))).
Definition GetOrderByClientOid (db : Db) (userId : Z) (clientOid : string) : option Order :=
  head (filter (fun o => ord_UserId o = userId /\ ord_ClientOid o = clientOid) (g_order db (GetTableIndexByUserId userId))).

Definition idDesc (o o' : Order) : Prop := ord_Id o' <= ord_Id o.
#[export] Instance idDesc_dec o o' : Decision (idDesc o o').
Proof. unfold idDesc. apply _. Defined.

Definition GetOrdersByUserId (db : Db) (userId : Z) (statuses : list OrderStatus) (side : option Side)
    (productId : string) (beforeId afterId limit : Z) : list Order :=
  let rows := filter (fun o => ord_UserId o = userId) (g_order db (GetTableIndexByUserId userId)) in
  let rows := if (length statuses =? 0)%nat then rows else filter (fun o => ord_Status o ∈ statuses) rows in
  let rows := if (String.length productId =? 0)%nat then rows else filter (fun o => ord_ProductId o = productId) rows in
  let rows := match side with None => rows | Some s => filter (fun o => ord_Side o = s) rows end in
  let rows := if 0 <? beforeId then filter (fun o => beforeId < ord_Id o) rows else rows in
  let rows := if 0 <? afterId then filter (fun o => ord_Id o < afterId) rows else rows in
  let limit := if limit <=? 0 then 100 else limit in
  take (Z.to_nat limit) (merge_sort idDesc rows).

Definition orderRow (created updated : Instant) (o : Order) : outcome dbError Order :=
  size ← store (ord_Size o);
  funds ← store (ord_Funds o);
  filledSize ← store (ord_FilledSize o);
  executedValue ← store (ord_ExecutedValue o);
  price ← store (ord_Price o);
  fillFees ← store (ord_FillFees o);
  takerFeeRatio ← store (ord_TakerFeeRatio o);
  makerFeeRatio ← store (ord_MakerFeeRatio o);
  mret {|
    ord_Id := ord_Id o; ord_CreatedAt := created; ord_UpdatedAt := updated; ord_ProductId := ord_ProductId o;
    ord_UserId := ord_UserId o; ord_ClientOid := ord_ClientOid o; ord_Size := size; ord_Funds := funds;
    ord_FilledSize := filledSize; ord_ExecutedValue := executedValue; ord_Price := price; ord_FillFees := fillFees;
    ord_Type := ord_Type o; ord_Side := ord_Side o; ord_TimeInForce := ord_TimeInForce o;
    ord_TakerFeeRatio := takerFeeRatio; ord_MakerFeeRatio := makerFeeRatio; ord_Status := ord_Status o;
    ord_Settled := ord_Settled o |}.

Definition setTable (db : Db) (i : Z) (rows : list Order) : Db :=
  db_setOrders db (fun j => if j =? i then rows else g_order db j).

Definition AddOrder (db : Db) (o : Order) : outcome dbError Db :=
  let i := GetTableIndexByUserId (ord_UserId o) in
  if decide (ord_Id o ∈ ord_Id <$> g_order db i) then Err DuplicateKey
  else
    row ← orderRow now now o;
    mret (setTable db i (g_order db i ++ [row])).

Definition UpdateOrder (db : Db) (o : Order) : outcome dbError Db :=
  let i := GetTableIndexByUserId (ord_UserId o) in
  row ← orderRow (ord_CreatedAt o) now o;
  mret (setTable db i (map (fun r => if ord_Id r =? ord_Id o then row else r) (g_order db i))).

Definition ord_setStatus (o : Order) (status : OrderStatus) (updated : Instant) : Order := {|
  ord_Id := ord_Id o; ord_CreatedAt := ord_CreatedAt o; ord_UpdatedAt := updated; ord_ProductId := ord_ProductId o;
  ord_UserId := ord_UserId o; ord_ClientOid := ord_ClientOid o; ord_Size := ord_Size o; ord_Funds := ord_Funds o;
  ord_FilledSize := ord_FilledSize o; ord_ExecutedValue := ord_ExecutedValue o; ord_Price := ord_Price o;
  ord_FillFees := ord_FillFees o; ord_Type := ord_Type o; ord_Side := ord_Side o; ord_TimeInForce := ord_TimeInForce o;
  ord_TakerFeeRatio := ord_TakerFeeRatio o; ord_MakerFeeRatio := ord_MakerFeeRatio o; ord_Status := status;
  ord_Settled := ord_Settled o |}.

(** Returns whether a row was affected. *)
Definition UpdateOrderStatus (db : Db) (orderId : Z) (oldStatus newStatus : OrderStatus) : outcome dbError (bool * Db) :=
  let i := GetTableIndexByOrderId orderId in
  let hit (o : Order) := (ord_Id o =? orderId) && (ord_Status o =s? oldStatus) in
  Ok (existsb hit (g_order db i),
      setTable db i (map (fun o => if hit o then ord_setStatus o newStatus now else o) (g_order db i))).

(** ** Products and fee rates *)

Definition GetProductById (db : Db) (id : string) : option Product :=
  head (filter (fun p => prod_Id p = id) (g_product db)).
Definition GetProducts (db : Db) : list Product := g_product db.
Definition GetFeeRateByUserLevel (db : Db) (userLevel : string) : option FeeRate :=
  head (filter (fun r => fr_UserLevel r = userLevel) (g_fee_rate db)).

(** ** Trades *)

Definition GetLastTradeByProductId (db : Db) (productId : string) : option Trade :=
  last (filter (fun t => trade_ProductId t = productId) (g_trade db)).
Definition GetTradesByProductId (db : Db) (productId : string) (count : Z) : list Trade :=
  take (Z.to_nat count) (rev (filter (fun t => trade_ProductId t = productId) (g_trade db))).

(** [AddTrades] and [AddFills] are [INSERT IGNORE]. *)
Definition tradeRow (id : Z) (t : Trade) : Trade := {|
  trade_Id := id; trade_CreatedAt := now; trade_UpdatedAt := 0; trade_ProductId := trade_ProductId t;
  trade_TradeSeq := trade_TradeSeq t; trade_TakerOrderId := trade_TakerOrderId t;
  trade_TakerUserId := trade_TakerUserId t; trade_MakerOrderId := trade_MakerOrderId t;
  trade_MakerUserId := trade_MakerUserId t; trade_Price := clamp (trade_Price t); trade_Size := clamp (trade_Size t);
  trade_Side := trade_Side t; trade_Time := trade_Time t; trade_LogOffset := trade_LogOffset t;
  trade_LogSeq := trade_LogSeq t |}.

(** [g_trade] has no unique key but its id, so nothing is ignored. *)
Fixpoint AddTrades (db : Db) (trades : list Trade) : outcome dbError Db :=
  match trades with
  | [] => Ok db
  | t :: trades => AddTrades (db_setTrades db (g_trade db ++ [tradeRow (next_trade db) t]) (next_trade db + 1)) trades
  end.

(** ** Candles *)

Definition timeDesc (t t' : Tick) : Prop := tick_Time t' <= tick_Time t.
#[export] Instance timeDesc_dec t t' : Decision (timeDesc t t').
Proof. unfold timeDesc. apply _. Defined.

Definition ofTick (productId : string) (granularity : Z) (t : Tick) : Prop :=
  tick_ProductId t = productId /\ tick_Granularity t = granularity.
#[export] Instance ofTick_dec p g t : Decision (ofTick p g t).
Proof. unfold ofTick. apply _. Defined.

Definition GetTicksByProductId (db : Db) (productId : string) (granularity beforeTime afterTime limit : Z) : list Tick :=
  let rows := filter (ofTick productId granularity) (g_tick db) in
  let rows := if 0 <? beforeTime then filter (fun t => beforeTime < tick_Time t) rows else rows in
  let rows := if 0 <? afterTime then filter (fun t => tick_Time t < afterTime) rows else rows in
  let limit := if limit <=? 0 then 100 else limit in
  take (Z.to_nat limit) (merge_sort timeDesc rows).

Definition GetLastTickByProductId (db : Db) (productId : string) (granularity : Z) : option Tick :=
  head (merge_sort timeDesc (filter (ofTick productId granularity) (g_tick db))).

Definition sameTickKey (t r : Tick) : Prop :=
  tick_ProductId r = tick_ProductId t /\ tick_Granularity r = tick_Granularity t /\ tick_Time r = tick_Time t.
#[export] Instance sameTickKey_dec t r : Decision (sameTickKey t r).
Proof. unfold sameTickKey. apply _. Defined.

Definition tickRow (id : Z) (t : Tick) : outcome dbError Tick :=
  open ← store (tick_Open t);
  high ← store (tick_High t);
  low ← store (tick_Low t);
  close ← store (tick_Close t);
  volume ← store (tick_Volume t);
  quoteVolume ← store (tick_QuoteVolume t);
  mret {|
    tick_Id := id; tick_CreatedAt := now; tick_UpdatedAt := 0; tick_ProductId := tick_ProductId t;
    tick_Granularity := tick_Granularity t; tick_Time := tick_Time t; tick_Open := open; tick_High := high;
    tick_Low := low; tick_Close := close; tick_Volume := volume; tick_QuoteVolume := quoteVolume;
    tick_LogOffset := tick_LogOffset t; tick_LogSeq := tick_LogSeq t |}.

(** What an [ON DUPLICATE KEY UPDATE] leaves of a row: its id and update time. *)
Definition tick_overwrite (r row : Tick) : Tick := {|
  tick_Id := tick_Id r; tick_CreatedAt := tick_CreatedAt row; tick_UpdatedAt := tick_UpdatedAt r;
  tick_ProductId := tick_ProductId row; tick_Granularity := tick_Granularity row; tick_Time := tick_Time row;
  tick_Open := tick_Open row; tick_High := tick_High row; tick_Low := tick_Low row; tick_Close := tick_Close row;
  tick_Volume := tick_Volume row; tick_QuoteVolume := tick_QuoteVolume row; tick_LogOffset := tick_LogOffset row;
  tick_LogSeq := tick_LogSeq row |}.

(** [ON DUPLICATE KEY UPDATE]: the row of the key is overwritten. *)
Definition AddOrUpdateTick (db : Db) (t : Tick) : outcome dbError Db :=
  row ← tickRow (next_tick db) t;
  if decide (Exists (sameTickKey t) (g_tick db)) then
    mret (db_setTicks db (map (fun r => if decide (sameTickKey t r) then tick_overwrite r row else r) (g_tick db))
            (next_tick db))
  else mret (db_setTicks db (g_tick db ++ [row]) (next_tick db + 1)).

(** The batches of 500 are one statement each, row after row. *)
Fixpoint AddTicks (db : Db) (ticks : list Tick) : outcome dbError Db :=
  match ticks with
  | [] => Ok db
  | t :: ticks => db ← AddOrUpdateTick db t; AddTicks db ticks
  end.
End Ledger.
