(* ===== verification/Users.v ===== *)
(** Users and their tokens: [src/service/user_service.go],
    [src/models/mysql/user_store.go] and [src/models/mysql/config_store.go].

    The password hash (bcrypt) and the signed token (JSON web tokens) are
    packages that are not in the repository: [BcryptPkg] and [JwtPkg] list the
    calls, [BcryptLaws] and [JwtLaws] the documented behaviour the code relies
    on.  A salt is an argument of the hash.  The user id goes through a JSON
    number, which Go reads back as a [float64]: [float64] is that conversion.
    The reads of these two tables are always answered. *)
From S2P Require Import Prelude Decimal Models Ledger.
From stdpp Require Import list.
Open Scope string_scope.
Open Scope list_scope.
Open Scope Z_scope.

(** ** The packages *)

Class BcryptPkg := {
  GenerateFromPassword : string -> string -> option string;
  CompareHashAndPassword : string -> string -> bool;
}.
Class BcryptLaws (B : BcryptPkg) := {
  (** [ErrPasswordTooLong] is the only error at the default cost. *)
  generate_error salt password : GenerateFromPassword salt password = None <-> (72 < String.length password)%nat;
  generate_compare salt password hash :
    GenerateFromPassword salt password = Some hash -> CompareHashAndPassword hash password = true;
}.

(** [uint64(float64(u))] of a number below 2^64: 53 bits, rounded half to even. *)
Definition float64 (u : Z) : Z :=
  let e := Z.log2 u - 52 in
  if e <=? 0 then u
  else
    let q := u / 2 ^ e in
    let r := u mod 2 ^ e in
    let up := (2 ^ (e - 1) <? r) || ((r =? 2 ^ (e - 1)) && Z.odd q) in
    (if up : bool then q + 1 else q) * 2 ^ e.

Lemma float64_exact u : 0 <= u < 2 ^ 53 -> float64 u = u.
Proof.
  intros Hu. unfold float64. destruct (Z.leb_spec (Z.log2 u - 52) 0) as [|H]; [done|].
  destruct (Z.eq_dec u 0) as [->|]; [done|]. assert (Z.log2 u < 53) by (apply Z.log2_lt_pow2; lia). lia.
Qed.

(** A claim of a token: a JSON number, of which the code uses the integer part,
    or something else. *)
Inductive claimValue := CNumber (v : Z) | COther.

Class JwtPkg := {
  (** The claims [userId] and [exp], signed with a secret. *)
  SignedString : Z -> Z -> string -> string;
  (** [jwt.Parse] at a clock reading: an error text, or the claim [userId] of a valid token. *)
  JwtParse : string -> string -> Instant -> outcome string (option claimValue);
}.
Class JwtLaws (J : JwtPkg) := {
  parse_signed userId exp secret now : now < exp * 10 ^ 9 ->
    JwtParse secret (SignedString userId exp secret) now = Ok (Some (CNumber (float64 userId)));
  parse_expired userId exp secret now : exp * 10 ^ 9 <= now ->
    exists e, JwtParse secret (SignedString userId exp secret) now = Err e;
  parse_total secret token now : JwtParse secret token now <> Panic /\ JwtParse secret token now <> Diverge;
  signed_nonempty userId exp secret : SignedString userId exp secret <> "";
}.

(** ** The tables *)

Record User := {
  user_Id : Z;
  user_CreatedAt : Instant;
  user_UpdatedAt : Instant;
  user_UserId : string;
  user_Email : string;
  user_PasswordHash : string;
  user_UserLevel : string;
}.

Record Config := {
  config_Id : Z;
  config_CreatedAt : Instant;
  config_UpdatedAt : Instant;
  config_Key : string;
  config_Value : string;
}.

(** [g_user]: the key [idx_email] keeps the emails apart. *)
Record UserDb := { g_user : list User; next_user : Z; g_config : list Config }.

Definition store_GetUserByEmail (t : UserDb) (email : string) : option User :=
  head (filter (fun u => user_Email u = email) (g_user t)).
Definition store_GetUserById (t : UserDb) (id : Z) : option User :=
  head (filter (fun u => user_Id u = id) (g_user t)).

Definition AddUser (now : Instant) (t : UserDb) (u : User) : outcome dbError (User * UserDb) :=
  if decide (user_Email u ∈ user_Email <$> g_user t) then Err DuplicateKey
  else
    let row := {| user_Id := next_user t; user_CreatedAt := now; user_UpdatedAt := now; user_UserId := user_UserId u;
                  user_Email := user_Email u; user_PasswordHash := user_PasswordHash u;
                  user_UserLevel := user_UserLevel u |} in
    Ok (row, {| g_user := g_user t ++ [row]; next_user := next_user t + 1; g_config := g_config t |}).

Definition UpdateUser (now : Instant) (t : UserDb) (u : User) : UserDb :=
  let row := {| user_Id := user_Id u; user_CreatedAt := user_CreatedAt u; user_UpdatedAt := now;
                user_UserId := user_UserId u; user_Email := user_Email u; user_PasswordHash := user_PasswordHash u;
                user_UserLevel := user_UserLevel u |} in
  {| g_user := map (fun r => if user_Id r =? user_Id u then row else r) (g_user t); next_user := next_user t;
     g_config := g_config t |}.

Definition store_GetConfigs (t : UserDb) : list Config := g_config t.

(** ** user_service.go *)

Section Users.
Context {B : BcryptPkg} {J : JwtPkg} (JwtSecret : string).

Definition hashPassword (salt password : string) : outcome dbError string := deref (GenerateFromPassword salt password).
Definition checkPassword (password hash : string) : bool := CompareHashAndPassword hash password.

Definition GetUserByEmail (t : UserDb) (email : string) : option User := store_GetUserByEmail t email.
Definition GetUserById (t : UserDb) (id : Z) : option User := store_GetUserById t id.

Definition CreateUser (now : Instant) (salt : string) (t : UserDb) (email password : string)
    : outcome dbError (User * UserDb) :=
  if (String.length password <? 6)%nat then Err (AppError "password must be of minimum 6 characters length")
  else
    match GetUserByEmail t email with
    | Some _ => Err (AppError "email address is already registered")
    | None =>
        hash ← hashPassword salt password;
        AddUser now t {| user_Id := 0; user_CreatedAt := 0; user_UpdatedAt := 0; user_UserId := ""; user_Email := email;
                         user_PasswordHash := hash; user_UserLevel := "v1" |}
    end.

(** The seconds a token is good for. *)
Definition tokenLife : Z := 7 * 24 * 3600.

Definition RefreshAccessToken (now : Instant) (t : UserDb) (email password : string) : outcome dbError string :=
  match GetUserByEmail t email with
  | None => Err (AppError "email not found or password error")
  | Some user =>
      if negb (checkPassword password (user_PasswordHash user)) then Err (AppError "email not found or password error")
      else Ok (SignedString (user_Id user) (now / 10 ^ 9 + tokenLife) JwtSecret)
  end.

Definition CheckToken (now : Instant) (t : UserDb) (tokenStr : string) : outcome dbError (option User) :=
  match JwtParse JwtSecret tokenStr now with
  | Err e => Err (AppError e)
  | Ok None => Err (AppError "bad token")
  | Ok (Some (CNumber v)) => Ok (GetUserById t (u64 v))
  | Ok (Some COther) => Err (AppError "bad token")
  | Panic => Panic
  | Diverge => Diverge
  end.

Definition user_setHash (u : User) (hash : string) : User := {|
  user_Id := user_Id u; user_CreatedAt := user_CreatedAt u; user_UpdatedAt := user_UpdatedAt u;
  user_UserId := user_UserId u; user_Email := user_Email u; user_PasswordHash := hash; user_UserLevel := user_UserLevel u |}.

Definition ChangePassword (now : Instant) (salt : string) (t : UserDb) (email newPassword : string)
    : outcome dbError UserDb :=
  match GetUserByEmail t email with
  | None => Err (AppError "user not found")
  | Some user =>
      hash ← hashPassword salt newPassword;
      Ok (UpdateUser now t (user_setHash user hash))
  end.

Definition GetUserByPassword (t : UserDb) (email password : string) : outcome dbError User :=
  match GetUserByEmail t email with
  | None => Err (AppError "user not found or password incorrect")
  | Some user =>
      if negb (checkPassword password (user_PasswordHash user)) then Err (AppError "user not found or password incorrect")
      else Ok user
  end.
End Users.

(** ** Well-formed tables *)

Record users_wf (t : UserDb) : Prop := {
  users_ids : NoDup (user_Id <$> g_user t);
  users_next : Forall (fun u => 0 < user_Id u < next_user t) (g_user t);
  users_emails : NoDup (user_Email <$> g_user t);
  users_first : 0 < next_user t;
}.
