(* ===== verification/Views.v ===== *)
(** The requests and views of the REST server: [src/rest/vo.go].

    What is not in the repository is in [RestPkg]: parsing a decimal and a uuid,
    the text of a database error and the time format. *)
From S2P Require Import Prelude Strconv Decimal Models Ledger Users.
From Stdlib Require Import QArith.
From stdpp Require Import list.
Open Scope string_scope.
Open Scope list_scope.
Open Scope Z_scope.

Class RestPkg {P : DecimalPkg} := {
  (** [decimal.NewFromString]: the number, or the error's text. *)
  NewFromString : string -> outcome string Dec;
  (** [uuid.Parse]: the error's text, if it is one. *)
  uuid_Parse : string -> option string;
  (** [Time.Format(time.RFC3339)] *)
  FormatRFC3339 : Instant -> string;
  dec_IntPart : Dec -> Z;
  (** [err.Error()] of what the database answers. *)
  dbErrorText : dbError -> string;
}.
Class RestLaws {P : DecimalPkg} (L : DecimalLaws P) (R : RestPkg) := {
  NewFromString_total s : NewFromString s <> Panic /\ NewFromString s <> Diverge;
  IntPart_val d z : is_i64 z -> (dval d == inject_Z z)%Q -> dec_IntPart d = z;
  AppError_text msg : dbErrorText (AppError msg) = msg;
}.

Record messageVo := { Message : string }.
(** [newMessageVo(errors.New(text))] *)
Definition newMessageVo (error : string) : messageVo := {| Message := error |}.

Record AccountVo := {
  av_Id : string;
  av_Currency : string;
  av_CurrencyIcon : string;
  av_Available : string;
  av_Hold : string;
}.

Record placeOrderRequest := {
  po_ClientOid : string;
  po_ProductId : string;
  po_Size : string;
  po_Funds : string;
  po_Price : string;
  po_Side : string;
  po_Type : string;
  po_TimeInForce : string;
}.

Record orderVo := {
  ov_Id : string;
  ov_Price : string;
  ov_Size : string;
  ov_Funds : string;
  ov_ProductId : string;
  ov_Side : string;
  ov_Type : string;
  ov_CreatedAt : string;
  ov_FillFees : string;
  ov_FilledSize : string;
  ov_ExecutedValue : string;
  ov_Status : string;
  ov_Settled : bool;
}.

Record ProductVo := {
  pv_Id : string;
  pv_BaseCurrency : string;
  pv_QuoteCurrency : string;
  pv_BaseMinSize : string;
  pv_BaseMaxSize : string;
  pv_QuoteIncrement : string;
  pv_BaseScale : Z;
  pv_QuoteScale : Z;
}.

Record tradeVo := {
  tv_Time : string;
  tv_Id : string;
  tv_TradeSeq : string;
  tv_Price : string;
  tv_Size : string;
  tv_Side : string;
}.

Record SignUpRequest := { su_Email : string; su_Password : string }.
Record changePasswordRequest := { cp_OldPassword : string; cp_NewPassword : string }.

Record userVo := {
  uv_Id : string;
  uv_Email : string;
  uv_Name : string;
  uv_ProfilePhoto : string;
  uv_IsBand : bool;
  uv_CreatedAt : string;
}.

Record walletAddressVo := { wa_Address : string }.

Record networkVo := {
  nv_Status : string;
  nv_Hash : string;
  nv_Amount : string;
  nv_FeeAmount : string;
  nv_FeeCurrency : string;
  nv_Confirmations : Z;
  nv_ResourceUrl : string;
}.

Record transactionVo := {
  xv_Id : string;
  xv_Currency : string;
  xv_Amount : string;
  xv_Type : string;
  xv_Status : string;
  xv_Price : string;
  xv_NativeCurrency : string;
  xv_NativeAmount : string;
  xv_Description : string;
  xv_CreatedAt : string;
  xv_UpdatedAt : string;
  xv_FromAddress : string;
  xv_ToAddress : string;
  xv_Network : networkVo;
}.

Section Views.
Context {P : DecimalPkg} {R : RestPkg}.

Definition newTransactionVo (now : Instant) : transactionVo := {|
  xv_Id := "1"; xv_Currency := "BTC"; xv_Amount := "0.1"; xv_Type := "send"; xv_Status := "pending"; xv_Price := "8000";
  xv_NativeCurrency := "USD"; xv_NativeAmount := "8000"; xv_Description := "withdraw btc";
  xv_CreatedAt := FormatRFC3339 now; xv_UpdatedAt := FormatRFC3339 now; xv_FromAddress := "0x3A3E32423AE323242";
  xv_ToAddress := "0x4B3E32423AE323242";
  xv_Network := {| nv_Status := "confirmed"; nv_Hash := "0x23423AA3232"; nv_Amount := "0.1"; nv_FeeAmount := "0.1";
                   nv_FeeCurrency := "BTC"; nv_Confirmations := 0; nv_ResourceUrl := "" |} |}.

Definition newTradeVo (trade : Trade) : tradeVo := {|
  tv_Time := FormatRFC3339 (trade_Time trade); tv_Id := U64ToA (trade_Id trade);
  tv_TradeSeq := I64ToA (trade_TradeSeq trade); tv_Price := dec_String (trade_Price trade);
  tv_Size := dec_String (trade_Size trade); tv_Side := trade_Side trade |}.

Definition newProductVo (product : Product) : ProductVo := {|
  pv_Id := prod_Id product; pv_BaseCurrency := prod_BaseCurrency product; pv_QuoteCurrency := prod_QuoteCurrency product;
  pv_BaseMinSize := dec_String (prod_BaseMinSize product); pv_BaseMaxSize := dec_String (prod_BaseMaxSize product);
  pv_QuoteIncrement := dec_String (prod_QuoteIncrement product); pv_BaseScale := prod_BaseScale product;
  pv_QuoteScale := prod_QuoteScale product |}.

Definition newOrderVo (order : Order) : orderVo := {|
  ov_Id := U64ToA (ord_Id order); ov_Price := dec_String (ord_Price order); ov_Size := dec_String (ord_Size order);
  ov_Funds := dec_String (ord_ExecutedValue order); ov_ProductId := ord_ProductId order; ov_Side := ord_Side order;
  ov_Type := ord_Type order; ov_CreatedAt := FormatRFC3339 (ord_CreatedAt order);
  ov_FillFees := dec_String (ord_FillFees order); ov_FilledSize := dec_String (ord_FilledSize order);
  ov_ExecutedValue := dec_String (ord_ExecutedValue order); ov_Status := ord_Status order;
  ov_Settled := ord_Settled order |}.

Definition newAccountVo (account : Account) : AccountVo := {|
  av_Id := U64ToA (acc_Id account); av_Currency := acc_Currency account;
  av_CurrencyIcon := "https://oooooo.oss-cn-hangzhou.aliyuncs.com/coin/" +:+ ToLower (acc_Currency account) +:+ ".png";
  av_Available := dec_String (acc_Available account); av_Hold := dec_String (acc_Hold account) |}.
End Views.
