(* ===== verification/Settlement.v ===== *)
(** Accounts and orders: [src/service/account_service.go] and
    [src/service/order_service.go].

    Each function of the service that opens a transaction is one function on
    the database.  [Ok] is a committed transaction; an [Err], or a return
    without a commit, is rolled back by the deferred [Rollback], so such a
    branch gives back the database it was given.  [log.Fatalf] is [Panic]. *)
From S2P Require Import Prelude Decimal Models Ledger.
From Stdlib Require Import QArith Lqa.
From stdpp Require Import list pretty.
Open Scope string_scope.
Open Scope list_scope.
Open Scope Z_scope.

Section Settlement.
Context {P : DecimalPkg} {C : Column} (now : Instant).

(** *** account_service.go *)

Definition newBill (userId : Z) (currency : string) (available hold : Dec) (type : BillType) (settled : bool)
    (notes : string) : Bill := {|
  bill_Id := 0; bill_CreatedAt := 0; bill_UpdatedAt := 0; bill_UserId := userId; bill_Currency := currency;
  bill_Available := available; bill_Hold := hold; bill_Type := type; bill_Settled := settled; bill_Notes := notes |}.

Definition bill_settle (b : Bill) : Bill := {|
  bill_Id := bill_Id b; bill_CreatedAt := bill_CreatedAt b; bill_UpdatedAt := bill_UpdatedAt b;
  bill_UserId := bill_UserId b; bill_Currency := bill_Currency b; bill_Available := bill_Available b;
  bill_Hold := bill_Hold b; bill_Type := bill_Type b; bill_Settled := true; bill_Notes := bill_Notes b |}.

Definition acc_set (a : Account) (available hold : Dec) : Account := {|
  acc_Id := acc_Id a; acc_CreatedAt := acc_CreatedAt a; acc_UpdatedAt := acc_UpdatedAt a; acc_UserId := acc_UserId a;
  acc_Currency := acc_Currency a; acc_Hold := hold; acc_Available := available |}.

Definition emptyAccount (userId : Z) (currency : string) : Account := {|
  acc_Id := 0; acc_CreatedAt := 0; acc_UpdatedAt := 0; acc_UserId := userId; acc_Currency := currency;
  acc_Hold := dec_Zero; acc_Available := dec_Zero |}.

(** The loop over the unsettled bills: both sums and the database. *)
Fixpoint settleBills (db : Db) (bills : list Bill) (availableSum holdSum : Dec) : outcome dbError (Dec * Dec * Db) :=
  match bills with
  | [] => Ok (availableSum, holdSum, db)
  | b :: bills =>
      let availableSum := dec_Add availableSum (bill_Available b) in
      let holdSum := dec_Add holdSum (bill_Hold b) in
      db ← UpdateBill now db (bill_settle b);
      settleBills db bills availableSum holdSum
  end.

Definition ExecuteBill (db : Db) (userId : Z) (currency : string) : outcome dbError Db :=
  '(account, tx) ← match GetAccountForUpdate db userId currency with
                   | Some account => mret (account, db)
                   | None =>
                       tx ← AddAccount now db (emptyAccount userId currency);
                       account ← deref (GetAccountForUpdate tx userId currency);
                       mret (account, tx)
                   end;
  let bills := GetUnsettledBillsByUserId tx userId currency in
  if (length bills =? 0)%nat then mret db
  else
    '(availableSum, holdSum, tx) ← settleBills tx bills dec_Zero dec_Zero;
    let account := acc_set account (dec_Add (acc_Available account) availableSum) (dec_Add (acc_Hold account) holdSum) in
    UpdateAccount now tx account.

Definition HoldBalance (db : Db) (userId : Z) (currency : string) (size : Dec) (billType : BillType) : outcome dbError Db :=
  if dec_LessThanOrEqual size dec_Zero then Err (AppError "size less than 0")
  else
    match GetAccountForUpdate db userId currency with
    | None => Err (AppError "no enough")
    | Some account =>
        if negb (dec_GreaterThanOrEqual (acc_Available account) size)
        then Err (AppError ("no enough " +:+ currency +:+ " : request=" +:+ dec_String size))
        else
          let account := acc_set account (dec_Sub (acc_Available account) size) (dec_Add (acc_Hold account) size) in
          db ← AddBills now db [newBill userId currency (dec_Neg size) size billType true ""];
          UpdateAccount now db account
    end.

Definition HasEnoughBalance (db : Db) (userId : Z) (currency : string) (size : Dec) : bool :=
  match GetAccount db userId currency with
  | None => false
  | Some account => dec_GreaterThanOrEqual (acc_Available account) size
  end.

Definition AddDelayBill (db : Db) (userId : Z) (currency : string) (available hold : Dec) (billType : BillType)
    (notes : string) : outcome dbError Db :=
  AddBills now db [newBill userId currency available hold billType false notes].

(** *** order_service.go *)

(** The snowflake generator of a node, third-party code. *)
Context (generate : Z -> Z).

(** Index of the node of [GetTableNodeByUserId]. *)
Definition GetTableNodeByUserId (userId : Z) : Z := userId mod TableOrderSplitCount.

(** A fee ratio outside [0, 1). *)
Definition badRatio (r : Dec) : bool :=
  dec_LessThan r dec_Zero || dec_GreaterThanOrEqual r (dec_NewFromInt 1).

(** The switch on the order's type: the size, price and funds it is placed with. *)
Definition normalizeOrder (product : Product) (orderType : OrderType) (side : Side) (size price funds : Dec)
    : outcome dbError (Dec * Dec * Dec) :=
  if orderType =s? OrderTypeLimit then
    let size := dec_Round size (prod_BaseScale product) in
    if dec_LessThan size (prod_BaseMinSize product) then Err (AppError ("size " +:+ dec_String size +:+ " less than base min size " +:+ dec_String (prod_BaseMinSize product)))
    else
      let price := dec_Round price (prod_QuoteScale product) in
      offGrid ← (if dec_IsPositive (prod_QuoteIncrement product)
                 then m ← deref (dec_Mod price (prod_QuoteIncrement product)); mret (negb (dec_IsZero m))
                 else mret false);
      if offGrid : bool then Err (AppError "price must be a multiple of quote_increment")
      else if dec_LessThanOrEqual price dec_Zero then Err (AppError ("price " +:+ dec_String price +:+ " must be positive for limit orders"))
      else Ok (size, price, dec_Mul size price)
  else if orderType =s? OrderTypeMarket then
    if side =s? SideBuy then
      let funds := dec_Round funds (prod_QuoteScale product) in
      if dec_LessThan funds (prod_QuoteMinSize product) then Err (AppError ("funds " +:+ dec_String funds +:+ " less than quote min size " +:+ dec_String (prod_QuoteMinSize product)))
      else Ok (dec_Zero, dec_Zero, funds)
    else
      let size := dec_Round size (prod_BaseScale product) in
      if dec_LessThan size (prod_BaseMinSize product) then Err (AppError ("size " +:+ dec_String size +:+ " less than base min size " +:+ dec_String (prod_BaseMinSize product)))
      else Ok (size, dec_Zero, dec_Zero)
  else Err (AppError "unknown order type").

Definition newOrder (id userId : Z) (clientOid productId : string) (orderType : OrderType) (timeInForce : TimeInForceType)
    (side : Side) (size price funds : Dec) (feeRate : FeeRate) : Order := {|
  ord_Id := id; ord_CreatedAt := 0; ord_UpdatedAt := 0; ord_ProductId := productId; ord_UserId := userId;
  ord_ClientOid := clientOid; ord_Size := size; ord_Funds := funds; ord_FilledSize := dec_Zero;
  ord_ExecutedValue := dec_Zero; ord_Price := price; ord_FillFees := dec_Zero; ord_Type := orderType; ord_Side := side;
  ord_TimeInForce := timeInForce; ord_TakerFeeRatio := fr_TakerFeeRatio feeRate;
  ord_MakerFeeRatio := fr_MakerFeeRatio feeRate; ord_Status := OrderStatusNew; ord_Settled := false |}.

(** The currency and the amount [PlaceOrder] holds. *)
Definition holdOf (product : Product) (side : Side) (size funds : Dec) : string * Dec :=
  if side =s? SideBuy then (prod_QuoteCurrency product, funds) else (prod_BaseCurrency product, size).

Definition PlaceOrder (db : Db) (userId : Z) (userLevel clientOid productId : string) (orderType : OrderType)
    (timeInForce : TimeInForceType) (side : Side) (size price funds : Dec) : outcome dbError (Order * Db) :=
  match GetProductById db productId with
  | None => Err (AppError ("product not found: " +:+ productId))
  | Some product =>
      match GetFeeRateByUserLevel db userLevel with
      | None => Err (AppError ("feeRate not found: " +:+ userLevel))
      | Some feeRate =>
          if badRatio (fr_MakerFeeRatio feeRate) then Err (AppError "invalid feeRate.MakerFeeRatio")
          else if badRatio (fr_TakerFeeRatio feeRate) then Err (AppError "invalid feeRate.TakerFeeRatio")
          else
            '(size, price, funds) ← normalizeOrder product orderType side size price funds;
            let '(holdCurrency, holdSize) := holdOf product side size funds in
            db ← HoldBalance db userId holdCurrency holdSize BillTypeTrade;
            let id := u64 (generate (GetTableNodeByUserId userId)) in
            let order := newOrder id userId clientOid (prod_Id product) orderType timeInForce side size price funds feeRate in
            if negb (GetTableIndexByOrderId id =? GetTableIndexByUserId userId) then Panic
            else
              db ← AddOrder now db order;
              mret (order, db)
      end
  end.

(** An order that is completed. *)
Definition completed (status : OrderStatus) : bool :=
  (status =s? OrderStatusFilled) || (status =s? OrderStatusCancelled) || (status =s? OrderStatusPartial).

(** Assignments to an order and to a fill. *)
Definition ord_addFill (o : Order) (filledSize executedValue fillFees : Dec) : Order := {|
  ord_Id := ord_Id o; ord_CreatedAt := ord_CreatedAt o; ord_UpdatedAt := ord_UpdatedAt o; ord_ProductId := ord_ProductId o;
  ord_UserId := ord_UserId o; ord_ClientOid := ord_ClientOid o; ord_Size := ord_Size o; ord_Funds := ord_Funds o;
  ord_FilledSize := filledSize; ord_ExecutedValue := executedValue; ord_Price := ord_Price o; ord_FillFees := fillFees;
  ord_Type := ord_Type o; ord_Side := ord_Side o; ord_TimeInForce := ord_TimeInForce o;
  ord_TakerFeeRatio := ord_TakerFeeRatio o; ord_MakerFeeRatio := ord_MakerFeeRatio o; ord_Status := ord_Status o;
  ord_Settled := ord_Settled o |}.

Definition fill_settle (f : Fill) (fee : Dec) : Fill := {|
  fill_Id := fill_Id f; fill_CreatedAt := fill_CreatedAt f; fill_UpdatedAt := fill_UpdatedAt f;
  fill_TradeSeq := fill_TradeSeq f; fill_OrderId := fill_OrderId f; fill_MessageSeq := fill_MessageSeq f;
  fill_ProductId := fill_ProductId f; fill_Size := fill_Size f; fill_Price := fill_Price f; fill_Funds := fill_Funds f;
  fill_Fee := fee; fill_Liquidity := fill_Liquidity f; fill_Settled := true; fill_Side := fill_Side f;
  fill_Done := fill_Done f; fill_DoneReason := fill_DoneReason f; fill_LogOffset := fill_LogOffset f;
  fill_LogSeq := fill_LogSeq f |}.

(** [switch fill.Liquidity]: the fee on an amount. *)
Definition fillFee (order : Order) (fill : Fill) (amount : Dec) : outcome dbError Dec :=
  if fill_Liquidity fill =s? "T" then Ok (dec_Mul amount (ord_TakerFeeRatio order))
  else if fill_Liquidity fill =s? "M" then Ok (dec_Mul amount (ord_MakerFeeRatio order))
  else Err (AppError ("invalid fill liquidity value: " +:+ fill_Liquidity fill)).

Definition fillNotes (fill : Fill) : string := pretty (fill_OrderId fill) +:+ "-" +:+ pretty (fill_Id fill).

(** The branch of a trade. *)
Definition settleTrade (product : Product) (order : Order) (fill : Fill) (db : Db) : outcome dbError (Order * Fill * Db) :=
  let notes := fillNotes fill in
  let executedValue := dec_Mul (fill_Size fill) (fill_Price fill) in
  let newValue := dec_Add (ord_ExecutedValue order) executedValue in
  let newSize := dec_Add (ord_FilledSize order) (fill_Size fill) in
  if ord_Side order =s? SideBuy then
    fee ← fillFee order fill (fill_Size fill);
    db ← AddDelayBill db (ord_UserId order) (prod_BaseCurrency product) (dec_Sub (fill_Size fill) fee) dec_Zero
           BillTypeTrade notes;
    db ← AddDelayBill db (ord_UserId order) (prod_QuoteCurrency product) dec_Zero (dec_Neg executedValue)
           BillTypeTrade notes;
    db ← (if dec_GreaterThan fee dec_Zero
          then AddDelayBill db 0 (prod_BaseCurrency product) fee dec_Zero BillTypeTrade notes else mret db);
    mret (ord_addFill order newSize newValue (dec_Add (ord_FillFees order) fee), fill_settle fill fee, db)
  else
    fee ← fillFee order fill executedValue;
    db ← AddDelayBill db (ord_UserId order) (prod_BaseCurrency product) dec_Zero (dec_Neg (fill_Size fill))
           BillTypeTrade notes;
    db ← AddDelayBill db (ord_UserId order) (prod_QuoteCurrency product) (dec_Sub executedValue fee) dec_Zero
           BillTypeTrade notes;
    db ← (if dec_GreaterThan fee dec_Zero
          then AddDelayBill db 0 (prod_QuoteCurrency product) fee dec_Zero BillTypeTrade notes else mret db);
    mret (ord_addFill order newSize newValue (dec_Add (ord_FillFees order) fee), fill_settle fill fee, db).

(** The status [fill.DoneReason] leads to. *)
Definition doneStatus (order : Order) (fill : Fill) : outcome dbError OrderStatus :=
  if fill_DoneReason fill =s? DoneReasonCancelled then
    Ok (if dec_Equal (ord_FilledSize order) dec_Zero then OrderStatusCancelled else OrderStatusPartial)
  else if fill_DoneReason fill =s? DoneReasonFilled then Ok OrderStatusFilled
  else Panic.

(** The branch of a done fill: what is left of the hold is released. *)
Definition settleDone (product : Product) (order : Order) (fill : Fill) (db : Db) : outcome dbError (Order * Fill * Db) :=
  let notes := fillNotes fill in
  status ← doneStatus order fill;
  let order := ord_setStatus order status (ord_UpdatedAt order) in
  let '(currency, remaining) :=
    if ord_Side order =s? SideBuy
    then (prod_QuoteCurrency product, dec_Sub (ord_Funds order) (ord_ExecutedValue order))
    else (prod_BaseCurrency product, dec_Sub (ord_Size order) (ord_FilledSize order)) in
  db ← (if dec_GreaterThan remaining dec_Zero
        then AddDelayBill db (ord_UserId order) currency remaining (dec_Neg remaining) BillTypeTrade notes else mret db);
  mret (order, fill_settle fill (fill_Fee fill), db).

(** The loop over the fills; [break] leaves the rest as they are. *)
Fixpoint settleFills (product : Product) (order : Order) (fills : list Fill) (db : Db)
    : outcome dbError (Order * list Fill * Db) :=
  match fills with
  | [] => Ok (order, [], db)
  | fill :: fills =>
      if fill_Done fill then
        '(order, fill, db) ← settleDone product order fill db;
        mret (order, fill :: fills, db)
      else
        '(order, fill, db) ← settleTrade product order fill db;
        '(order, fills, db) ← settleFills product order fills db;
        mret (order, fill :: fills, db)
  end.

Fixpoint updateFills (db : Db) (fills : list Fill) : outcome dbError Db :=
  match fills with
  | [] => Ok db
  | fill :: fills => db ← UpdateFill now db fill; updateFills db fills
  end.

Definition ExecuteFill (db : Db) (orderId : Z) : outcome dbError Db :=
  match GetOrderByIdForUpdate db orderId with
  | None => Err (AppError ("order not found: " +:+ pretty orderId))
  | Some order =>
      if completed (ord_Status order) then Err (AppError ("order status invalid: " +:+ pretty orderId +:+ " " +:+ ord_Status order))
      else
        match GetProductById db (ord_ProductId order) with
        | None => Err (AppError ("product not found: " +:+ ord_ProductId order))
        | Some product =>
            let fills := GetUnsettledFillsByOrderId db orderId in
            if (length fills =? 0)%nat then mret db
            else
              '(order, fills, tx) ← settleFills product order fills db;
              tx ← UpdateOrder now tx order;
              updateFills tx fills
        end
  end.
End Settlement.
