(* ===== verification/Rest.v ===== *)
(** The REST server: the handlers of [src/rest/*_controller.go], the token check
    of [src/rest/auth.go] and the routes of [src/rest/server.go].

    A handler is a function of what gin hands it ([Ctx]: parameters, query, the
    current user), of what the process reads around it ([Env]: the clock, the id
    generator, whether Kafka takes a message, the error of a database that does
    not answer) and of the [World] of the shared services, and gives a response
    and a new world.  [Panic] is a panic of the handler, which gin turns into a
    bare status 500.  A body that does not bind is [Err] with the error's text;
    a nil slice, which is written as [null], is the empty list. *)
From S2P Require Import Prelude Strconv Decimal Models Ledger Settlement Users Views.
From Stdlib Require Import QArith.
From stdpp Require Import list.
From Stdlib Require Import Ascii.
Open Scope string_scope.
Open Scope list_scope.
Open Scope Z_scope.

Definition StatusOK : Z := 200.
Definition StatusBadRequest : Z := 400.
Definition StatusUnauthorized : Z := 401.
Definition StatusForbidden : Z := 403.
Definition StatusNotFound : Z := 404.
Definition StatusInternalServerError : Z := 500.

(** The topic of [matching/kafka_order_reader.go] that [getWriter] writes to. *)
Definition TopicOrderPrefix : string := "matching_order_".
Definition orderTopic (productId : string) : string := TopicOrderPrefix +:+ productId.

(** One row of a candle answer: time, low, high, open, close, volume. *)
Record candleVo `{DecimalPkg} := {
  cv_Time : Dec;
  cv_Low : Dec;
  cv_High : Dec;
  cv_Open : Dec;
  cv_Close : Dec;
  cv_Volume : Dec;
}.

Section Rest.
Context {P : DecimalPkg} {C : Column} {R : RestPkg} {B : BcryptPkg} {J : JwtPkg} (JwtSecret : string).

Record World := {
  w_db : Db;
  w_users : UserDb;
  (** The order topics, by name. *)
  w_topics : gmap string (list Order);
}.
Definition w_setDb (w : World) db : World := {| w_db := db; w_users := w_users w; w_topics := w_topics w |}.
Definition w_setUsers (w : World) t : World := {| w_db := w_db w; w_users := t; w_topics := w_topics w |}.
Definition w_setTopics (w : World) t : World := {| w_db := w_db w; w_users := w_users w; w_topics := t |}.
Definition topicOf (w : World) (topic : string) : list Order := default [] (w_topics w !! topic).

Record Env := {
  env_now : Instant;
  (** The snowflake generator. *)
  env_generate : Z -> Z;
  env_salt : string;
  (** Whether Kafka takes a message. *)
  env_accepts : Order -> bool;
  (** The error of a database that does not answer the handler's reads. *)
  env_readError : option string;
  (** The clock readings of a loop, in seconds. *)
  env_clock : nat -> Z;
}.

Record Ctx := {
  ctx_Param : string -> string;
  ctx_Query : string -> string;
  ctx_QueryArray : string -> list string;
  ctx_user : option User;
}.

Inductive body :=
(** Nothing is written. *)
| JEmpty
(** [null] *)
| JNull
| JMessage (m : messageVo)
| JOrder (o : orderVo)
| JOrders (l : list orderVo)
| JProducts (l : list ProductVo)
| JTrades (l : list tradeVo)
| JCandles (l : list candleVo)
| JAccounts (l : list AccountVo)
| JConfigs (m : gmap string string)
| JToken (token : string)
| JUser (u : userVo)
| JAddress (a : walletAddressVo)
| JTransactions (l : list transactionVo)
| JTransaction (t : transactionVo).

Record response := {
  resp_status : Z;
  resp_headers : list (string * string);
  (** [SetCookie("accessToken", value, maxAge, ...)] *)
  resp_cookie : option (string * Z);
  resp_body : body;
}.

Definition JSON (status : Z) (b : body) : response :=
  {| resp_status := status; resp_headers := []; resp_cookie := None; resp_body := b |}.
Definition message (status : Z) (text : string) : response := JSON status (JMessage (newMessageVo text)).

(** A read of the service that the database may not answer. *)
Definition read {A} (env : Env) (x : A) : outcome dbError A :=
  match env_readError env with Some e => Err (AppError e) | None => Ok x end.

(** [if err != nil { ctx.JSON(status, newMessageVo(err)); return }] *)
Definition orFail {A} (status : Z) (w : World) (m : outcome dbError A) (k : A -> outcome noerr (response * World))
    : outcome noerr (response * World) :=
  match m with
  | Ok a => k a
  | Err e => Ok (message status (dbErrorText e), w)
  | Panic => Panic
  | Diverge => Diverge
  end.

(** The same for a failed parse of the request, whose error is a text. *)
Definition orReject {A} (w : World) (prefix : string) (m : outcome string A) (k : A -> outcome noerr (response * World))
    : outcome noerr (response * World) :=
  match m with
  | Ok a => k a
  | Err e => Ok (message StatusBadRequest (prefix +:+ e), w)
  | Panic => Panic
  | Diverge => Diverge
  end.

(** *** auth.go *)

Definition GetCurrentUser (ctx : Ctx) : option User := ctx_user ctx.
(** [GetCurrentUser(ctx).Id] and the like. *)
Definition currentUser (ctx : Ctx) : outcome noerr User := deref (GetCurrentUser ctx).

Definition withUser (ctx : Ctx) (u : User) : Ctx := {|
  ctx_Param := ctx_Param ctx; ctx_Query := ctx_Query ctx; ctx_QueryArray := ctx_QueryArray ctx; ctx_user := Some u |}.

(** The middleware of the private routes: [cookie] is the cookie [accessToken],
    [next] the rest of the chain. *)
Definition rest_checkToken (env : Env) (cookie : option string) (ctx : Ctx) (w : World)
    (next : Ctx -> outcome noerr (response * World)) : outcome noerr (response * World) :=
  let token := default "" cookie in
  if (String.length token =? 0)%nat then Ok (message StatusForbidden "token not found", w)
  else
    orFail StatusInternalServerError w (CheckToken JwtSecret (env_now env) (w_users w) token) (fun user =>
      match user with
      | None => Ok (message StatusForbidden "bad token", w)
      | Some u => next (withUser ctx u)
      end).

(** *** order_controller.go *)

Definition submitOrder (env : Env) (order : Order) (w : World) : World :=
  if env_accepts env order then
    let topic := orderTopic (ord_ProductId order) in
    w_setTopics w (<[topic := topicOf w topic ++ [order]]> (w_topics w))
  else w.

Definition orDefault (s d : string) : string := if (String.length s =? 0)%nat then d else s.

Definition rest_PlaceOrder (env : Env) (ctx : Ctx) (bound : outcome string placeOrderRequest) (w : World)
    : outcome noerr (response * World) :=
  orReject w "" bound (fun req =>
    let side := orDefault (po_Side req) SideBuy in
    let orderType := orDefault (po_Type req) OrderTypeLimit in
    let timeInForce := orDefault (po_TimeInForce req) GoodTillCanceled in
    let oid := if (String.length (po_ClientOid req) =? 0)%nat then None else uuid_Parse (po_ClientOid req) in
    orReject w "invalid client_oid: " (match oid with Some e => Err e | None => Ok tt end) (fun _ =>
    orReject w "invalid size: " (NewFromString (po_Size req)) (fun size =>
    orReject w "invalid price: " (NewFromString (po_Price req)) (fun price =>
    orReject w "invalid funds: " (NewFromString (po_Funds req)) (fun funds =>
    user ← currentUser ctx;
    orFail StatusInternalServerError w
      (PlaceOrder (env_now env) (env_generate env) (w_db w) (user_Id user) (user_UserLevel user) (po_ClientOid req)
         (po_ProductId req) orderType timeInForce side size price funds) (fun '(order, db) =>
    mret (JSON StatusOK (JOrder (newOrderVo order)), submitOrder env order (w_setDb w db)))))))).

Definition ord_cancelling (o : Order) : Order := ord_setStatus o OrderStatusCancelling (ord_UpdatedAt o).

(** The statuses [CancelOrder] accepts. *)
Definition cancellable (status : OrderStatus) : bool :=
  (status =s? OrderStatusNew) || (status =s? OrderStatusOpen) || (status =s? OrderStatusPartial).

(** From the error check on: [found] is what the database answered. *)
Definition cancelFound (env : Env) (ctx : Ctx) (w : World) (found : outcome dbError (option Order))
    : outcome noerr (response * World) :=
  orFail StatusInternalServerError w found (fun order =>
    match order with
    | None => mret (message StatusNotFound "order not found", w)
    | Some order =>
        user ← currentUser ctx;
        if negb (ord_UserId order =? user_Id user) then mret (message StatusNotFound "order not found", w)
        else if negb (cancellable (ord_Status order)) then mret (message StatusBadRequest "order cannot be cancelled", w)
        else mret (JSON StatusOK JNull, submitOrder env (ord_cancelling order) w)
    end).

Definition rest_CancelOrder (env : Env) (ctx : Ctx) (w : World) : outcome noerr (response * World) :=
  let rawOrderId := ctx_Param ctx "orderId" in
  if HasPrefix rawOrderId "client:" then
    clientOid ← deref (indexed (Split rawOrderId ":"%char) 1);
    user ← currentUser ctx;
    cancelFound env ctx w (read env (GetOrderByClientOid (w_db w) (user_Id user) clientOid))
  else
    match AToUint64 rawOrderId with
    | (_, Some _) => mret (message StatusBadRequest "invalid order id", w)
    | (orderId, None) => cancelFound env ctx w (read env (GetOrderById (w_db w) orderId))
    end.

(** [side], parsed when the query has one. *)
Definition querySide (rawSide : string) : outcome string (option Side) :=
  if (String.length rawSide =? 0)%nat then Ok None else s ← NewSideFromString rawSide; mret (Some s).

Definition rest_CancelOrders (env : Env) (ctx : Ctx) (w : World) : outcome noerr (response * World) :=
  let productId := ctx_Query ctx "productId" in
  orReject w "" (querySide (ctx_Query ctx "side")) (fun side =>
    user ← currentUser ctx;
    orFail StatusInternalServerError w
      (read env (GetOrdersByUserId (w_db w) (user_Id user) [OrderStatusOpen; OrderStatusNew] side productId 0 0 10000))
      (fun orders =>
        mret (JSON StatusOK JNull, foldl (fun w order => submitOrder env (ord_cancelling order) w) w orders))).

Fixpoint parseStatuses (values : list string) : outcome string (list OrderStatus) :=
  match values with
  | [] => Ok []
  | v :: values => s ← NewOrderStatusFromString v; rest ← parseStatuses values; mret (s :: rest)
  end.

(** [strconv.ParseInt(text, 10, 64)] with the error dropped. *)
Definition queryInt (text : string) : Z := (ParseInt text).1.

Definition pageHeaders (newBefore newAfter : string) : list (string * string) :=
  [("gbe-before", newBefore); ("gbe-after", newAfter)].

Definition rest_GetOrders (env : Env) (ctx : Ctx) (w : World) : outcome noerr (response * World) :=
  let productId := ctx_Query ctx "productId" in
  orReject w "" (querySide (ctx_Query ctx "side")) (fun side =>
  orReject w "" (parseStatuses (ctx_QueryArray ctx "status")) (fun statuses =>
    let before := queryInt (ctx_Query ctx "before") in
    let after := queryInt (ctx_Query ctx "after") in
    let limit := queryInt (ctx_Query ctx "limit") in
    let limit := if (limit <=? 0) || (100 <? limit) then 100 else limit in
    user ← currentUser ctx;
    orFail StatusInternalServerError w
      (read env (GetOrdersByUserId (w_db w) (user_Id user) statuses side productId before after limit)) (fun orders =>
      let newBefore := match head orders with Some o => ord_Id o | None => 0 end in
      let newAfter := match last orders with Some o => ord_Id o | None => 0 end in
      mret ({| resp_status := StatusOK; resp_headers := pageHeaders (U64ToA newBefore) (U64ToA newAfter);
               resp_cookie := None; resp_body := JOrders (newOrderVo <$> orders) |}, w)))).

(** *** product_controller.go *)

Definition rest_GetProducts (env : Env) (w : World) : outcome noerr (response * World) :=
  orFail StatusInternalServerError w (read env (GetProducts (w_db w))) (fun products =>
    mret (JSON StatusOK (JProducts (newProductVo <$> products)), w)).

(** The error is dropped: a database that does not answer gives no trades. *)
Definition rest_GetProductTrades (env : Env) (ctx : Ctx) (w : World) : outcome noerr (response * World) :=
  let productId := ctx_Param ctx "productId" in
  let trades := match read env (GetTradesByProductId (w_db w) productId 50) with Ok l => l | _ => [] end in
  mret (JSON StatusOK (JTrades (newTradeVo <$> trades)), w).

Definition validGranularities : list Z := [1; 3; 5; 15; 30; 60; 120; 240; 360; 720; 1440].

(** The candle that stands for a period without trades. *)
Definition flatTick (granularity time : Z) (lastTick : Tick) : Tick := {|
  tick_Id := 0; tick_CreatedAt := 0; tick_UpdatedAt := 0; tick_ProductId := ""; tick_Granularity := granularity;
  tick_Time := time; tick_Open := tick_Close lastTick; tick_High := tick_Close lastTick;
  tick_Low := tick_Close lastTick; tick_Close := tick_Close lastTick; tick_Volume := dec_NewFromInt 0;
  tick_QuoteVolume := dec_Zero; tick_LogOffset := 0; tick_LogSeq := 0 |}.

(** The loop that fills the gaps up to the clock: [i] counts its readings. *)
Fixpoint amendLoop (fuel : nat) (clock : nat -> Z) (ticksMap : gmap Z Tick) (granularity : Z) (i : nat) (tickTime : Z)
    (lastTick : Tick) : outcome noerr (list Tick) :=
  match fuel with
  | O => Diverge
  | S fuel =>
      if clock i <? tickTime then Ok []
      else
        let '(tick, lastTick) := match ticksMap !! tickTime with
                                 | Some tick => (tick, tick)
                                 | None => (flatTick granularity tickTime lastTick, lastTick)
                                 end in
        rest ← amendLoop fuel clock ticksMap granularity (S i) (i64 (tickTime + granularity)) lastTick;
        mret (tick :: rest)
  end.

Definition candleRow (tick : Tick) : candleVo := {|
  cv_Time := dec_NewFromInt (tick_Time tick); cv_Low := tick_Low tick; cv_High := tick_High tick;
  cv_Open := tick_Open tick; cv_Close := tick_Close tick; cv_Volume := tick_Volume tick |}.

Definition ticksByTime (ticks : list Tick) : gmap Z Tick := foldl (fun m tick => <[tick_Time tick := tick]> m) ∅ ticks.

(** [if len(ticks) > 0 { ... }]: the rows of the answer. *)
Definition amendTicks (fuel : nat) (clock : nat -> Z) (granularity limit : Z) (ticks : list Tick)
    : outcome noerr (list candleVo) :=
  match last ticks with
  | None => Ok []
  | Some oldest =>
      amended ← amendLoop fuel clock (ticksByTime ticks) granularity 0 (tick_Time oldest) oldest;
      mret (candleRow <$> take (Z.to_nat limit) (rev amended))
  end.

Definition rest_GetProductCandles (fuel : nat) (env : Env) (ctx : Ctx) (w : World) : outcome noerr (response * World) :=
  let productId := ctx_Param ctx "productId" in
  let granularity := queryInt (ctx_Query ctx "granularity") in
  if negb (bool_decide (granularity ∈ validGranularities)) then
    mret (message StatusBadRequest "invalid granularity, must be one of: 1,3,5,15,30,60,120,240,360,720,1440", w)
  else
    let before := queryInt (ctx_Query ctx "before") in
    let after := queryInt (ctx_Query ctx "after") in
    let limit := queryInt (ctx_Query ctx "limit") in
    let limit := if (limit <=? 0) || (1000 <? limit) then 1000 else limit in
    orFail StatusInternalServerError w
      (read env (GetTicksByProductId (w_db w) productId (granularity / 60) before after limit)) (fun ticks =>
      tickVos ← amendTicks fuel (env_clock env) granularity limit ticks;
      let newBefore := match head tickVos with Some v => dec_IntPart (cv_Time v) | None => 0 end in
      let newAfter := match last tickVos with Some v => dec_IntPart (cv_Time v) | None => 0 end in
      mret ({| resp_status := StatusOK; resp_headers := pageHeaders (I64ToA newBefore) (I64ToA newAfter);
               resp_cookie := None; resp_body := JCandles tickVos |}, w)).

(** *** account_controller.go *)

Fixpoint accountViews (db : Db) (userId : Z) (currencies : list string) : list AccountVo :=
  match currencies with
  | [] => []
  | c :: currencies =>
      match GetAccount db userId c with
      | None => accountViews db userId currencies
      | Some a => newAccountVo a :: accountViews db userId currencies
      end
  end.

Definition rest_GetAccounts (env : Env) (ctx : Ctx) (w : World) : outcome noerr (response * World) :=
  let currencies := ctx_QueryArray ctx "currency" in
  user ← currentUser ctx;
  orFail StatusInternalServerError w
    (read env (if (length currencies =? 0)%nat then newAccountVo <$> GetAccountsByUserId (w_db w) (user_Id user)
               else accountViews (w_db w) (user_Id user) currencies)) (fun accountVos =>
    mret (JSON StatusOK (JAccounts accountVos), w)).

(** *** conf_controller.go and wallet_controller.go *)

Definition rest_GetConfigs (env : Env) (w : World) : outcome noerr (response * World) :=
  orFail StatusInternalServerError w (read env (store_GetConfigs (w_users w))) (fun configs =>
    mret (JSON StatusOK (JConfigs (foldl (fun m c => <[config_Key c := config_Value c]> m) ∅ configs)), w)).

Definition GetWalletAddress (w : World) : outcome noerr (response * World) :=
  mret (JSON StatusOK (JAddress {| wa_Address := "Coming Soon" |}), w).

Definition GetWalletTransactions (env : Env) (ctx : Ctx) (w : World) : outcome noerr (response * World) :=
  mret (JSON StatusOK (JTransactions (if ctx_Param ctx "currency" =s? "BTC" then [newTransactionVo (env_now env)] else [])), w).

Definition Withdrawal (w : World) : outcome noerr (response * World) :=
  mret (JSON StatusOK (JTransaction {|
    xv_Id := "1"; xv_Currency := "BTC"; xv_Amount := "0.1"; xv_Type := ""; xv_Status := ""; xv_Price := "";
    xv_NativeCurrency := ""; xv_NativeAmount := ""; xv_Description := ""; xv_CreatedAt := ""; xv_UpdatedAt := "";
    xv_FromAddress := ""; xv_ToAddress := "";
    xv_Network := {| nv_Status := ""; nv_Hash := ""; nv_Amount := ""; nv_FeeAmount := ""; nv_FeeCurrency := "";
                     nv_Confirmations := 0; nv_ResourceUrl := "" |} |}), w).

(** *** user_controller.go *)

Definition SignUp (env : Env) (bound : outcome string SignUpRequest) (w : World) : outcome noerr (response * World) :=
  orReject w "" bound (fun request =>
    orFail StatusBadRequest w
      (CreateUser (env_now env) (env_salt env) (w_users w) (su_Email request) (su_Password request)) (fun '(_, t) =>
      mret (JSON StatusOK JNull, w_setUsers w t))).

Definition SignIn (env : Env) (bound : outcome string SignUpRequest) (w : World) : outcome noerr (response * World) :=
  orReject w "" bound (fun request =>
    orFail StatusBadRequest w
      (RefreshAccessToken JwtSecret (env_now env) (w_users w) (su_Email request) (su_Password request)) (fun token =>
      mret ({| resp_status := StatusOK; resp_headers := []; resp_cookie := Some (token, 7 * 24 * 60 * 60);
               resp_body := JToken token |}, w))).

Definition GetToken (env : Env) (bound : outcome string SignUpRequest) (w : World) : outcome noerr (response * World) :=
  orReject w "" bound (fun request =>
    orFail StatusBadRequest w
      (RefreshAccessToken JwtSecret (env_now env) (w_users w) (su_Email request) (su_Password request)) (fun token =>
      mret (JSON StatusOK (JToken token), w))).

Definition rest_ChangePassword (env : Env) (ctx : Ctx) (bound : outcome string changePasswordRequest) (w : World)
    : outcome noerr (response * World) :=
  orReject w "" bound (fun req =>
    user ← currentUser ctx;
    orFail StatusBadRequest w (GetUserByPassword (w_users w) (user_Email user) (cp_OldPassword req)) (fun _ =>
    orFail StatusInternalServerError w
      (ChangePassword (env_now env) (env_salt env) (w_users w) (user_Email user) (cp_NewPassword req)) (fun t =>
      mret (JSON StatusOK JNull, w_setUsers w t)))).

Definition SignOut (w : World) : outcome noerr (response * World) :=
  mret ({| resp_status := StatusOK; resp_headers := []; resp_cookie := Some ("", -1); resp_body := JNull |}, w).

Definition GetUsersSelf (ctx : Ctx) (w : World) : outcome noerr (response * World) :=
  match GetCurrentUser ctx with
  | None => mret (JSON StatusUnauthorized JEmpty, w)
  | Some user =>
      mret (JSON StatusOK (JUser {|
        uv_Id := user_Email user; uv_Email := user_Email user; uv_Name := user_Email user;
        uv_ProfilePhoto := "https://cdn.onlinewebfonts.com/svg/img_139247.png"; uv_IsBand := false;
        uv_CreatedAt := FormatRFC3339 (user_CreatedAt user) |}), w)
  end.

(** *** server.go *)

(** A request that matches a route, with its body where the handler binds one. *)
Inductive route :=
| GET_configs
| POST_users (bound : outcome string SignUpRequest)
| POST_users_accessToken (bound : outcome string SignUpRequest)
| POST_users_token (bound : outcome string SignUpRequest)
| GET_products
| GET_product_trades
| GET_product_book
| GET_product_candles (fuel : nat)
| GET_orders
| POST_orders (bound : outcome string placeOrderRequest)
| DELETE_order
| DELETE_orders
| GET_accounts
| GET_users_self
| POST_users_password (bound : outcome string changePasswordRequest)
| DELETE_users_accessToken
| GET_wallet_address
| GET_wallet_transactions
| POST_wallet_withdrawal.

(** The handlers outside and inside the private group. *)
Definition publicRoute (r : route) : bool :=
  match r with
  | GET_configs | POST_users _ | POST_users_accessToken _ | POST_users_token _ | GET_products | GET_product_trades
  | GET_product_book | GET_product_candles _ => true
  | _ => false
  end.

Definition handle (env : Env) (r : route) (ctx : Ctx) (w : World) : outcome noerr (response * World) :=
  match r with
  | GET_configs => rest_GetConfigs env w
  | POST_users bound => SignUp env bound w
  | POST_users_accessToken bound => SignIn env bound w
  | POST_users_token bound => GetToken env bound w
  | GET_products => rest_GetProducts env w
  | GET_product_trades => rest_GetProductTrades env ctx w
  | GET_product_book => mret (JSON StatusOK JEmpty, w)
  | GET_product_candles fuel => rest_GetProductCandles fuel env ctx w
  | GET_orders => rest_GetOrders env ctx w
  | POST_orders bound => rest_PlaceOrder env ctx bound w
  | DELETE_order => rest_CancelOrder env ctx w
  | DELETE_orders => rest_CancelOrders env ctx w
  | GET_accounts => rest_GetAccounts env ctx w
  | GET_users_self => GetUsersSelf ctx w
  | POST_users_password bound => rest_ChangePassword env ctx bound w
  | DELETE_users_accessToken => SignOut w
  | GET_wallet_address => GetWalletAddress w
  | GET_wallet_transactions => GetWalletTransactions env ctx w
  | POST_wallet_withdrawal => Withdrawal w
  end.

(** A new request's context has no keys yet. *)
Definition noUser (ctx : Ctx) : Ctx := {|
  ctx_Param := ctx_Param ctx; ctx_Query := ctx_Query ctx; ctx_QueryArray := ctx_QueryArray ctx; ctx_user := None |}.

Definition serve (env : Env) (r : route) (cookie : option string) (ctx : Ctx) (w : World)
    : outcome noerr (response * World) :=
  if publicRoute r then handle env r (noUser ctx) w
  else rest_checkToken env cookie (noUser ctx) w (fun ctx => handle env r ctx w).
End Rest.
