(* ===== verification/Binlog.v ===== *)
(** The binlog stream: [src/models/binlog_stream.go].

    The stream reads the changes MySQL writes to its binary log and passes the
    rows on to Redis: orders, accounts and trades on the topics the push server
    listens to, fills and bills on the lists the executors work off.  [parseRow]
    fills a struct by reflection: a field is the column whose name is the
    field's in snake case.

    [cell] is what the canal package decodes a column to and [RowsEvent] the part
    of its event the code reads.  A [Reflect] instance is what the package
    [reflect] tells of a struct: its fields with their types' names, and its
    values as a list.  What goes to Redis is the struct itself: its JSON is left
    out. *)
From S2P Require Import Prelude Strconv Decimal Models Views.
From stdpp Require Import list.
Open Scope string_scope.
Open Scope list_scope.
Open Scope Z_scope.

(** ** Rows *)

Inductive goInt := Int | Uint | Int64 | Uint64 | Int32 | Uint32 | Int16 | Uint16 | Int8 | Uint8.

(** An [interface{}] of a row. *)
Inductive cell :=
| CNil
| CInt (t : goInt) (v : Z)
| CString (s : string)
| CTime (t : Instant)
| CBytes (s : string).

Record RowsEvent := {
  ev_Table : string;
  ev_Columns : list string;
  ev_Action : string;
  ev_Rows : list (list cell);
}.

(** A type switch with a conversion in each case: what is no integer panics. *)
Definition IntegerInterfaceToInt64 (i : cell) : outcome noerr Z :=
  match i with
  | CInt (Int | Uint | Int64 | Uint64 | Int32 | Uint32 | Int16 | Uint16 | Int8 | Uint8) v => Ok (i64 v)
  | _ => Panic
  end.
Definition IntegerInterfaceToUint64 (i : cell) : outcome noerr Z :=
  match i with
  | CInt (Int | Uint | Int64 | Uint64 | Int32 | Uint32 | Int16 | Uint16 | Int8 | Uint8) v => Ok (u64 v)
  | _ => Panic
  end.

(** [rowVal.(string)] and [rowVal.(time.Time)] *)
Definition asString (c : cell) : outcome noerr string := match c with CString s => Ok s | _ => Panic end.
Definition asTime (c : cell) : outcome noerr Instant := match c with CTime t => Ok t | _ => Panic end.

Fixpoint columnFrom (id : Z) (columns : list string) (name : string) : Z :=
  match columns with
  | [] => -1
  | value :: columns => if value =s? name then id else columnFrom (id + 1) columns name
  end.
Definition getColumnIndexByName (e : RowsEvent) (name : string) : Z := columnFrom 0 (ev_Columns e) name.

(** ** Structs *)

Section Binlog.
Context {P : DecimalPkg} {R : RestPkg}.

(** A field by its kind.  The rows have no integers but of 64 bits. *)
Inductive value :=
| VInt (n : Z)
| VUint (n : Z)
| VString (s : string)
| VBool (b : bool)
| VTime (t : Instant)
| VDecimal (d : Dec).

(** [f.SetInt] and the like panic on a field of another kind. *)
Definition SetInt (f : value) (n : Z) : outcome noerr value := match f with VInt _ => Ok (VInt n) | _ => Panic end.
Definition SetUint (f : value) (n : Z) : outcome noerr value := match f with VUint _ => Ok (VUint n) | _ => Panic end.
Definition SetString (f : value) (s : string) : outcome noerr value := match f with VString _ => Ok (VString s) | _ => Panic end.
Definition SetBool (f : value) (b : bool) : outcome noerr value := match f with VBool _ => Ok (VBool b) | _ => Panic end.
Definition SetTime (f : value) (t : Instant) : outcome noerr value := match f with VTime _ => Ok (VTime t) | _ => Panic end.
Definition SetDecimal (f : value) (d : Dec) : outcome noerr value := match f with VDecimal _ => Ok (VDecimal d) | _ => Panic end.

(** [d, _ := decimal.NewFromString(s)]: zero if it is none. *)
Definition decimalOf (s : string) : Dec := getOk dec_Zero (NewFromString s).

(** A pass of the loop of [parseRow] once the column is found: the switch on the
    name of the field's type. *)
Definition setField (typeName : string) (f : value) (rowVal : cell) : outcome noerr value :=
  match rowVal with
  | CNil => mret f
  | _ =>
      if bool_decide (typeName ∈ ["int64"; "int32"; "int16"; "int8"; "int"]) then
        n ← IntegerInterfaceToInt64 rowVal; SetInt f n
      else if bool_decide (typeName ∈ ["uint64"; "uint32"; "uint16"; "uint8"; "uint"]) then
        n ← IntegerInterfaceToUint64 rowVal; SetUint f n
      else if typeName =s? "string" then s ← asString rowVal; SetString f s
      else if typeName =s? "bool" then v ← IntegerInterfaceToInt64 rowVal; SetBool f (negb (v =? 0))
      else if typeName =s? "Time" then t ← asTime rowVal; SetTime f t
      else if typeName =s? "Decimal" then s ← asString rowVal; SetDecimal f (decimalOf s)
      else s ← asString rowVal; SetString f s
  end.

(** A pass of the loop: a missing column is logged and skipped. *)
Definition parseField (e : RowsEvent) (row : list cell) (name typeName : string) (f : value) : outcome noerr value :=
  let colIdx := getColumnIndexByName e (SnakeCase name) in
  if colIdx <? 0 then mret f
  else if Z.of_nat (length row) <=? colIdx then mret f
  else rowVal ← deref (indexed row colIdx); setField typeName f rowVal.

Fixpoint parseFields (e : RowsEvent) (row : list cell) (fields : list (string * string)) (vs : list value)
    : outcome noerr (list value) :=
  match fields, vs with
  | (name, typeName) :: fields, f :: vs =>
      f ← parseField e row name typeName f; rest ← parseFields e row fields vs; mret (f :: rest)
  | _, _ => mret []
  end.

(** The zero value of a type. *)
Definition zeroValue (typeName : string) : value :=
  if typeName =s? "int64" then VInt 0
  else if typeName =s? "uint64" then VUint 0
  else if typeName =s? "bool" then VBool false
  else if typeName =s? "Time" then VTime 0
  else if typeName =s? "Decimal" then VDecimal dec_Zero
  else VString "".

Class Reflect (A : Type) := {
  (** [t.Field(i).Name] and [f.Type().Name()] *)
  structFields : list (string * string);
  toValues : A -> list value;
  ofValues : list value -> option A;
}.

(** [var v A; s.parseRow(e, row, &v)] *)
Definition parseRow {A} `{!Reflect A} (e : RowsEvent) (row : list cell) : outcome noerr A :=
  vs ← parseFields e row (structFields (A := A)) ((fun f => zeroValue f.2) <$> structFields (A := A));
  deref (ofValues vs).

(** *** The structs of the rows *)

#[export] Instance Order_reflect : Reflect Order := {|
  structFields := [("Id", "uint64"); ("CreatedAt", "Time"); ("UpdatedAt", "Time"); ("ProductId", "string");
    ("UserId", "uint64"); ("ClientOid", "string"); ("Size", "Decimal"); ("Funds", "Decimal"); ("FilledSize", "Decimal");
    ("ExecutedValue", "Decimal"); ("Price", "Decimal"); ("FillFees", "Decimal"); ("Type", "OrderType"); ("Side", "Side");
    ("TimeInForce", "TimeInForceType"); ("TakerFeeRatio", "Decimal"); ("MakerFeeRatio", "Decimal"); ("Status", "OrderStatus");
    ("Settled", "bool")];
  toValues o := [VUint (ord_Id o); VTime (ord_CreatedAt o); VTime (ord_UpdatedAt o); VString (ord_ProductId o);
    VUint (ord_UserId o); VString (ord_ClientOid o); VDecimal (ord_Size o); VDecimal (ord_Funds o); VDecimal (ord_FilledSize o);
    VDecimal (ord_ExecutedValue o); VDecimal (ord_Price o); VDecimal (ord_FillFees o); VString (ord_Type o);
    VString (ord_Side o); VString (ord_TimeInForce o); VDecimal (ord_TakerFeeRatio o); VDecimal (ord_MakerFeeRatio o);
    VString (ord_Status o); VBool (ord_Settled o)];
  ofValues vs :=
    match vs with
    | [VUint id; VTime created; VTime updated; VString product; VUint user; VString oid; VDecimal size; VDecimal funds;
       VDecimal filled; VDecimal executed; VDecimal price; VDecimal fees; VString type; VString side; VString tif;
       VDecimal taker; VDecimal maker; VString status; VBool settled] =>
        Some {| ord_Id := id; ord_CreatedAt := created; ord_UpdatedAt := updated; ord_ProductId := product;
                ord_UserId := user; ord_ClientOid := oid; ord_Size := size; ord_Funds := funds; ord_FilledSize := filled;
                ord_ExecutedValue := executed; ord_Price := price; ord_FillFees := fees; ord_Type := type; ord_Side := side;
                ord_TimeInForce := tif; ord_TakerFeeRatio := taker; ord_MakerFeeRatio := maker; ord_Status := status;
                ord_Settled := settled |}
    | _ => None
    end;
|}.

#[export] Instance Account_reflect : Reflect Account := {|
  structFields := [("Id", "uint64"); ("CreatedAt", "Time"); ("UpdatedAt", "Time"); ("UserId", "uint64"); ("Currency", "string");
    ("Hold", "Decimal"); ("Available", "Decimal")];
  toValues a := [VUint (acc_Id a); VTime (acc_CreatedAt a); VTime (acc_UpdatedAt a); VUint (acc_UserId a);
    VString (acc_Currency a); VDecimal (acc_Hold a); VDecimal (acc_Available a)];
  ofValues vs :=
    match vs with
    | [VUint id; VTime created; VTime updated; VUint user; VString currency; VDecimal hold; VDecimal available] =>
        Some {| acc_Id := id; acc_CreatedAt := created; acc_UpdatedAt := updated; acc_UserId := user;
                acc_Currency := currency; acc_Hold := hold; acc_Available := available |}
    | _ => None
    end;
|}.

#[export] Instance Trade_reflect : Reflect Trade := {|
  structFields := [("Id", "uint64"); ("CreatedAt", "Time"); ("UpdatedAt", "Time"); ("ProductId", "string"); ("TradeSeq", "int64");
    ("TakerOrderId", "uint64"); ("TakerUserId", "uint64"); ("MakerOrderId", "uint64"); ("MakerUserId", "uint64");
    ("Price", "Decimal"); ("Size", "Decimal"); ("Side", "Side"); ("Time", "Time"); ("LogOffset", "int64"); ("LogSeq", "int64")];
  toValues t := [VUint (trade_Id t); VTime (trade_CreatedAt t); VTime (trade_UpdatedAt t); VString (trade_ProductId t);
    VInt (trade_TradeSeq t); VUint (trade_TakerOrderId t); VUint (trade_TakerUserId t); VUint (trade_MakerOrderId t);
    VUint (trade_MakerUserId t); VDecimal (trade_Price t); VDecimal (trade_Size t); VString (trade_Side t);
    VTime (trade_Time t); VInt (trade_LogOffset t); VInt (trade_LogSeq t)];
  ofValues vs :=
    match vs with
    | [VUint id; VTime created; VTime updated; VString product; VInt seq; VUint takerOrder; VUint takerUser;
       VUint makerOrder; VUint makerUser; VDecimal price; VDecimal size; VString side; VTime time; VInt offset; VInt logSeq] =>
        Some {| trade_Id := id; trade_CreatedAt := created; trade_UpdatedAt := updated; trade_ProductId := product;
                trade_TradeSeq := seq; trade_TakerOrderId := takerOrder; trade_TakerUserId := takerUser;
                trade_MakerOrderId := makerOrder; trade_MakerUserId := makerUser; trade_Price := price; trade_Size := size;
                trade_Side := side; trade_Time := time; trade_LogOffset := offset; trade_LogSeq := logSeq |}
    | _ => None
    end;
|}.

#[export] Instance Fill_reflect : Reflect Fill := {|
  structFields := [("Id", "uint64"); ("CreatedAt", "Time"); ("UpdatedAt", "Time"); ("TradeSeq", "int64"); ("OrderId", "uint64");
    ("MessageSeq", "int64"); ("ProductId", "string"); ("Size", "Decimal"); ("Price", "Decimal"); ("Funds", "Decimal");
    ("Fee", "Decimal"); ("Liquidity", "string"); ("Settled", "bool"); ("Side", "Side"); ("Done", "bool");
    ("DoneReason", "DoneReason"); ("LogOffset", "int64"); ("LogSeq", "int64")];
  toValues f := [VUint (fill_Id f); VTime (fill_CreatedAt f); VTime (fill_UpdatedAt f); VInt (fill_TradeSeq f);
    VUint (fill_OrderId f); VInt (fill_MessageSeq f); VString (fill_ProductId f); VDecimal (fill_Size f);
    VDecimal (fill_Price f); VDecimal (fill_Funds f); VDecimal (fill_Fee f); VString (fill_Liquidity f);
    VBool (fill_Settled f); VString (fill_Side f); VBool (fill_Done f); VString (fill_DoneReason f);
    VInt (fill_LogOffset f); VInt (fill_LogSeq f)];
  ofValues vs :=
    match vs with
    | [VUint id; VTime created; VTime updated; VInt seq; VUint order; VInt message; VString product; VDecimal size;
       VDecimal price; VDecimal funds; VDecimal fee; VString liquidity; VBool settled; VString side; VBool done;
       VString reason; VInt offset; VInt logSeq] =>
        Some {| fill_Id := id; fill_CreatedAt := created; fill_UpdatedAt := updated; fill_TradeSeq := seq;
                fill_OrderId := order; fill_MessageSeq := message; fill_ProductId := product; fill_Size := size;
                fill_Price := price; fill_Funds := funds; fill_Fee := fee; fill_Liquidity := liquidity;
                fill_Settled := settled; fill_Side := side; fill_Done := done; fill_DoneReason := reason;
                fill_LogOffset := offset; fill_LogSeq := logSeq |}
    | _ => None
    end;
|}.

#[export] Instance Bill_reflect : Reflect Bill := {|
  structFields := [("Id", "uint64"); ("CreatedAt", "Time"); ("UpdatedAt", "Time"); ("UserId", "uint64"); ("Currency", "string");
    ("Available", "Decimal"); ("Hold", "Decimal"); ("Type", "BillType"); ("Settled", "bool"); ("Notes", "string")];
  toValues b := [VUint (bill_Id b); VTime (bill_CreatedAt b); VTime (bill_UpdatedAt b); VUint (bill_UserId b);
    VString (bill_Currency b); VDecimal (bill_Available b); VDecimal (bill_Hold b); VString (bill_Type b);
    VBool (bill_Settled b); VString (bill_Notes b)];
  ofValues vs :=
    match vs with
    | [VUint id; VTime created; VTime updated; VUint user; VString currency; VDecimal available; VDecimal hold;
       VString type; VBool settled; VString notes] =>
        Some {| bill_Id := id; bill_CreatedAt := created; bill_UpdatedAt := updated; bill_UserId := user;
                bill_Currency := currency; bill_Available := available; bill_Hold := hold; bill_Type := type;
                bill_Settled := settled; bill_Notes := notes |}
    | _ => None
    end;
|}.

(** ** OnRow *)

(** The topics of [const.go]. *)
Definition TopicOrder : string := "g_order".
Definition TopicAccount : string := "g_account".
Definition TopicTrade : string := "g_trade".
Definition TopicFill : string := "g_fill".
Definition TopicBill : string := "g_bill".

Inductive redisValue :=
| ROrder (o : Order)
| RAccount (a : Account)
| RTrade (t : Trade)
| RFill (f : Fill)
| RBill (b : Bill).

(** A message to the subscribers of a topic, or at the head of a list. *)
Inductive redisOp :=
| Publish (topic : string) (v : redisValue)
| LPush (list : string) (v : redisValue).

(** A case of [OnRow]: the row [n] of the event, parsed and passed on. *)
Definition pushRow {A} `{!Reflect A} (e : RowsEvent) (n : Z) (op : A -> redisOp) : outcome noerr (option redisOp) :=
  row ← deref (indexed (ev_Rows e) n); v ← parseRow e row; mret (Some (op v)).

(** An update has the row before and the row after it. *)
Definition newRow (e : RowsEvent) : Z := if ev_Action e =s? "update" then 1 else 0.

(** What [OnRow] sends to Redis; it only logs that Redis did not take it. *)
Definition OnRow (e : RowsEvent) : outcome noerr (option redisOp) :=
  let deleted := ev_Action e =s? "delete" in
  let updated := ev_Action e =s? "update" in
  if HasPrefix (ev_Table e) "g_order" then
    if deleted then mret None else pushRow e (newRow e) (fun v => Publish TopicOrder (ROrder v))
  else if ev_Table e =s? "g_account" then pushRow e (newRow e) (fun v => Publish TopicAccount (RAccount v))
  else if ev_Table e =s? "g_trade" then
    if deleted then mret None else pushRow e (newRow e) (fun v => Publish TopicTrade (RTrade v))
  else if ev_Table e =s? "g_fill" then
    if deleted || updated then mret None else pushRow e 0 (fun v => LPush TopicFill (RFill v))
  else if ev_Table e =s? "g_bill" then
    if deleted || updated then mret None else pushRow e 0 (fun v => LPush TopicBill (RBill v))
  else mret None.
End Binlog.

(** ** The schema: the columns of [src/ddl.sql] and [src/ddl_order.sql] *)

Definition accountColumns : list string := ["id"; "created_at"; "updated_at"; "user_id"; "currency"; "hold"; "available"].
Definition billColumns : list string :=
  ["id"; "created_at"; "updated_at"; "user_id"; "currency"; "available"; "hold"; "type"; "settled"; "notes"].
Definition fillColumns : list string :=
  ["id"; "created_at"; "updated_at"; "trade_seq"; "order_id"; "product_id"; "size"; "price"; "funds"; "fee"; "liquidity"; "settled";
   "side"; "done"; "done_reason"; "message_seq"; "log_offset"; "log_seq"].
Definition tradeColumns : list string :=
  ["id"; "created_at"; "updated_at"; "product_id"; "trade_seq"; "taker_order_id"; "taker_user_id"; "maker_order_id"; "maker_user_id";
   "price"; "size"; "side"; "time"; "log_offset"; "log_seq"].
Definition orderColumns : list string :=
  ["id"; "created_at"; "updated_at"; "product_id"; "user_id"; "size"; "funds"; "filled_size"; "executed_value"; "price"; "fill_fees";
   "type"; "side"; "time_in_force"; "taker_fee_ratio"; "maker_fee_ratio"; "status"; "settled"; "client_oid"].
