(* ===== verification/LedgerInv.v ===== *)
(** The books of the database: its well-formedness, the sums the accounting
    theorems speak of, and what each statement of [Ledger.v] does to them. *)
From S2P Require Import Prelude Decimal Models Ledger Settlement.
From Stdlib Require Import QArith Qabs Qminmax Lqa.
From stdpp Require Import list.
Open Scope list_scope.
Open Scope Z_scope.

(** ** Sums over rows *)

Section Sums.
Context {A : Type}.

Definition sumOf (f : A -> Q) (l : list A) : Q := foldr (fun a q => f a + q)%Q 0%Q l.

Lemma sumOf_cons f a l : sumOf f (a :: l) = (f a + sumOf f l)%Q.
Proof. reflexivity. Qed.

Lemma sumOf_app f l1 l2 : (sumOf f (l1 ++ l2) == sumOf f l1 + sumOf f l2)%Q.
Proof.
  induction l1 as [|a l1 IH]; simpl.
  - ring.
  - rewrite IH. ring.
Qed.

Lemma sumOf_ext f g l : (forall a, a ∈ l -> f a == g a)%Q -> (sumOf f l == sumOf g l)%Q.
Proof.
  induction l as [|a l IH]; intros H; simpl; [reflexivity|].
  rewrite (H a), IH; [reflexivity| |]; set_solver.
Qed.

Lemma sumOf_zero f l : (forall a, a ∈ l -> f a == 0)%Q -> (sumOf f l == 0)%Q.
Proof.
  induction l as [|a l IH]; intros H; simpl; [reflexivity|].
  rewrite (H a), IH; [reflexivity| |]; set_solver.
Qed.

(** What an update by key does to the rows and to their sum. *)
Context (key : A -> Z).
Definition replace (row : A) (l : list A) : list A := map (fun r => if key r =? key row then row else r) l.

Lemma replace_cons row r l : replace row (r :: l) = (if key r =? key row then row else r) :: replace row l.
Proof. reflexivity. Qed.

Lemma replace_keys row l : key <$> replace row l = key <$> l.
Proof.
  unfold replace. rewrite <- list_fmap_compose. apply list_fmap_ext. intros _ r _. cbn.
  destruct (Z.eqb_spec (key r) (key row)); congruence.
Qed.

Lemma replace_notin row l : key row ∉ key <$> l -> replace row l = l.
Proof.
  induction l as [|r l IH]; intros H; [done|]. rewrite fmap_cons, not_elem_of_cons in H. rewrite replace_cons.
  destruct (Z.eqb_spec (key r) (key row)); [naive_solver|]. f_equal. apply IH. naive_solver.
Qed.

Lemma sumOf_replace f b row l : NoDup (key <$> l) -> b ∈ l -> key row = key b ->
  (sumOf f (replace row l) == sumOf f l - f b + f row)%Q.
Proof.
  induction l as [|r l IH]; intros Hd Hb Hk; [by apply elem_of_nil in Hb|].
  apply NoDup_cons in Hd as [Hr Hd]. rewrite replace_cons, !sumOf_cons.
  destruct (Z.eqb_spec (key r) (key row)) as [He|He].
  - assert (b = r) as ->.
    { apply elem_of_cons in Hb as [->|Hb]; [done|]. destruct Hr. rewrite He, Hk. by apply list_elem_of_fmap_2. }
    rewrite replace_notin by (by rewrite <- He). ring.
  - apply elem_of_cons in Hb as [->|Hb]; [by rewrite Hk in He|].
    rewrite IH by done. ring.
Qed.

(** Columns the new row shares with the row it replaces keep their values. *)
Lemma replace_fmap {B} (g : A -> B) b row l : NoDup (key <$> l) -> b ∈ l -> key row = key b -> g row = g b ->
  g <$> replace row l = g <$> l.
Proof.
  intros Hd Hb Hk Hg. apply list_elem_of_split in Hb as (l1 & l2 & ->).
  rewrite fmap_app, fmap_cons in Hd. apply NoDup_app in Hd as (_ & Hd1 & Hd2). apply NoDup_cons in Hd2 as [Hd2 _].
  assert (H1 : key row ∉ key <$> l1) by (rewrite Hk; intros Hin; apply (Hd1 _ Hin); left).
  assert (H2 : key row ∉ key <$> l2) by (by rewrite Hk).
  unfold replace. rewrite map_app. cbn. fold (replace row l1) (replace row l2).
  rewrite !replace_notin by done. rewrite Hk, Z.eqb_refl, !fmap_app, !fmap_cons, Hg. done.
Qed.

Lemma replace_elem row l r : r ∈ replace row l -> r = row \/ r ∈ l.
Proof.
  intros Hr. apply list_elem_of_fmap in Hr as (x & -> & Hx). destruct (key x =? key row); eauto.
Qed.

Lemma replace_Forall (Pr : A -> Prop) row l : Forall Pr l -> Pr row -> Forall Pr (replace row l).
Proof.
  rewrite !Forall_forall. intros Hl Hrow r Hr. apply replace_elem in Hr as [->|Hr]; auto.
Qed.

Lemma replace_keeps row l r : r ∈ l -> key r <> key row -> r ∈ replace row l.
Proof.
  intros Hr Hk. apply list_elem_of_fmap. exists r. split; [|done]. by rewrite (proj2 (Z.eqb_neq _ _)).
Qed.

(** Looking a key up after an update. *)
Lemma query_replace row l : key row ∈ key <$> l -> head (filter (fun r => key r = key row) (replace row l)) = Some row.
Proof.
  induction l as [|r l IH]; intros H; [by apply elem_of_nil in H|]. rewrite replace_cons.
  destruct (Z.eqb_spec (key r) (key row)) as [He|He].
  - by rewrite filter_cons_True.
  - rewrite filter_cons_False by done. apply IH. rewrite fmap_cons in H. apply elem_of_cons in H as [H|H]; [congruence|done].
Qed.

Lemma query_replace_other row l k : k <> key row -> filter (fun r => key r = k) (replace row l) = filter (fun r => key r = k) l.
Proof.
  intros Hk. induction l as [|r l IH]; [done|]. rewrite replace_cons, !filter_cons, IH.
  destruct (Z.eqb_spec (key r) (key row)) as [He|He]; [|done]. by rewrite !decide_False by congruence.
Qed.
End Sums.

Lemma query_Some {A} (Pr : A -> Prop) `{!forall x, Decision (Pr x)} l a :
  head (filter Pr l) = Some a -> a ∈ l /\ Pr a.
Proof.
  intros Hh. assert (Ha : a ∈ filter Pr l) by (destruct (filter Pr l); simplify_eq/=; left).
  apply list_elem_of_filter in Ha. tauto.
Qed.

Lemma query_None {A} (Pr : A -> Prop) `{!forall x, Decision (Pr x)} l :
  head (filter Pr l) = None -> forall a, a ∈ l -> ~ Pr a.
Proof.
  intros Hh a Ha HP. assert (Hf : a ∈ filter Pr l) by (by apply list_elem_of_filter).
  destruct (filter Pr l); [by apply elem_of_nil in Hf|done].
Qed.

(** A fresh key keeps the keys of a table apart. *)
Lemma fresh_key {A} (key : A -> Z) l row n : NoDup (key <$> l) -> Forall (fun r => key r < n) l -> key row = n ->
  NoDup (key <$> l ++ [row]) /\ Forall (fun r => key r < n + 1) (l ++ [row]).
Proof.
  intros Hd Hf Hk. rewrite fmap_app. split.
  - apply NoDup_app. split; [done|]. split; [|apply NoDup_singleton].
    intros x Hx Hin. apply list_elem_of_fmap in Hx as (r & -> & Hr).
    rewrite Forall_forall in Hf. specialize (Hf r Hr). apply list_elem_of_singleton in Hin. cbn in Hin. lia.
  - apply Forall_app. split; [|by constructor; [lia|]].
    eapply Forall_impl; [exact Hf|]. cbn. lia.
Qed.

(** ** Values of the columns *)

Section Exact.
Context {P : DecimalPkg} {L : DecimalLaws P} {C : Column} {CL : ColumnLaws L C}.

Lemma exact16_proper a b : a ≡d b -> exact16 a -> exact16 b.
Proof. intros H [z Hz]. exists z. unfold deq in H. rewrite <- H. exact Hz. Qed.
Lemma exact16_Zero : exact16 dec_Zero.
Proof. exists 0. rewrite dval_Zero. ring. Qed.
Lemma exact16_Add a b : exact16 a -> exact16 b -> exact16 (dec_Add a b).
Proof. intros [x Hx] [y Hy]. exists (x + y). rewrite dval_Add, Hx, Hy, inject_Z_plus. ring. Qed.
Lemma exact16_Neg a : exact16 a -> exact16 (dec_Neg a).
Proof. intros [x Hx]. exists (- x). rewrite dval_Neg, Hx, inject_Z_opp. ring. Qed.
Lemma exact16_Sub a b : exact16 a -> exact16 b -> exact16 (dec_Sub a b).
Proof. intros [x Hx] [y Hy]. exists (x - y). rewrite dval_Sub, Hx, Hy. unfold Z.sub. rewrite inject_Z_plus, inject_Z_opp. ring. Qed.

Lemma ulp_split p q : 0 <= p -> 0 <= q -> (ulp p == inject_Z (10 ^ q) * ulp (p + q))%Q.
Proof.
  intros Hp Hq. unfold ulp. rewrite Z.pow_add_r by done. rewrite inject_Z_mult.
  assert (Hn : forall n, 0 <= n -> ~ (inject_Z (10 ^ n) == 0)%Q).
  { intros n Hn. assert (0 < 10 ^ n) by (apply Z.pow_pos_nonneg; lia).
    change 0%Q with (inject_Z 0). rewrite inject_Z_injective. lia. }
  field. split; apply Hn; done.
Qed.

Lemma ulp_mul p q : 0 <= p -> 0 <= q -> (ulp p * ulp q == ulp (p + q))%Q.
Proof. intros Hp Hq. unfold ulp. rewrite Z.pow_add_r, inject_Z_mult by done. symmetry. apply Qinv_mult_distr. Qed.

Lemma exact16_scale d p z : 0 <= p <= columnScale -> (dval d == inject_Z z * ulp p)%Q -> exact16 d.
Proof.
  intros Hp Hd. exists (z * 10 ^ (columnScale - p)). rewrite Hd, (ulp_split p (columnScale - p)) by lia.
  replace (p + (columnScale - p)) with columnScale by lia. rewrite inject_Z_mult. ring.
Qed.

Lemma exact16_Round d p : 0 <= p <= columnScale -> exact16 (dec_Round d p).
Proof. intros Hp. destruct (dval_Round_mult d p) as [z Hz]; [lia|]. by eapply exact16_scale. Qed.

Lemma exact16_Mul_Round a b p q : 0 <= p -> 0 <= q -> p + q <= columnScale ->
  exact16 (dec_Mul (dec_Round a p) (dec_Round b q)).
Proof.
  intros Hp Hq Hs. destruct (dval_Round_mult a p) as [x Hx]; [lia|]. destruct (dval_Round_mult b q) as [y Hy]; [lia|].
  apply (exact16_scale _ (p + q) (x * y)); [lia|].
  rewrite dval_Mul, Hx, Hy, <- ulp_mul, inject_Z_mult by lia. ring.
Qed.

(** Two values of the columns less than a unit apart are equal. *)
Lemma exact16_close a b : exact16 a -> exact16 b -> (Qabs (dval a - dval b) <= (1 # 2) * ulp columnScale)%Q -> a ≡d b.
Proof.
  intros [x Hx] [y Hy] H. pose proof (ulp_pos columnScale ltac:(done)) as Hu. apply Qabs_Qle_condition in H as [Hl Hh].
  rewrite Hx, Hy in Hl, Hh. unfold deq. rewrite Hx, Hy.
  destruct (Z.lt_trichotomy x y) as [Hlt|[->|Hlt]]; [|reflexivity|].
  - assert (Hq : (inject_Z x + 1 <= inject_Z y)%Q).
    { change 1%Q with (inject_Z 1). rewrite <- inject_Z_plus, <- Zle_Qle. lia. } nra.
  - assert (Hq : (inject_Z y + 1 <= inject_Z x)%Q).
    { change 1%Q with (inject_Z 1). rewrite <- inject_Z_plus, <- Zle_Qle. lia. } nra.
Qed.

Lemma store_exact d c : store d = Ok c -> exact16 d -> c ≡d d.
Proof.
  unfold store. destruct (column d) eqn:Hc; intros [= ->] He. apply column_round in Hc as [? ?]. by apply exact16_close.
Qed.
Lemma store_near d c : store d = Ok c -> (Qabs (dval c - dval d) <= (1 # 2) * ulp columnScale)%Q.
Proof. unfold store. case_match; [|done]. intros [= <-]. by apply column_round. Qed.
Lemma store_exact16 d c : store d = Ok c -> exact16 c.
Proof. unfold store. destruct (column d) eqn:Hc; intros [= ->]. by apply column_round in Hc as [? ?]. Qed.
Lemma store_nonneg d c : store d = Ok c -> (0 <= dval d)%Q -> (0 <= dval c)%Q.
Proof.
  unfold store. destruct (column d) eqn:Hc; intros [= ->] Hd. apply column_round in Hc as [[z Hz] Hr].
  pose proof (ulp_pos columnScale ltac:(done)) as Hu. apply Qabs_Qle_condition in Hr as [Hl _]. rewrite Hz in *.
  destruct (Z.le_gt_cases 0 z) as [H0|H0].
  - rewrite Zle_Qle in H0. change (inject_Z 0) with 0%Q in H0. nra.
  - assert (Hq : (inject_Z z <= -1)%Q) by (change (-1)%Q with (inject_Z (-1)); rewrite <- Zle_Qle; lia). nra.
Qed.
Lemma store_le_one d c : store d = Ok c -> (dval d <= 1)%Q -> (dval c <= 1)%Q.
Proof.
  unfold store. destruct (column d) eqn:Hc; intros [= ->] Hd. apply column_round in Hc as [He Hr].
  pose proof (ulp_pos columnScale ltac:(done)) as Hu. apply Qabs_Qle_condition in Hr as [_ Hh].
  destruct (Qlt_le_dec 1 (dval c)) as [H1|]; [|done]. exfalso.
  destruct He as [z Hz].
  assert (H1z : (1 == inject_Z (10 ^ columnScale) * ulp columnScale)%Q) by (vm_compute; reflexivity).
  assert (Hlt : 10 ^ columnScale < z).
  { rewrite Zlt_Qlt. apply (Qmult_lt_r _ _ (ulp columnScale)); [done|]. rewrite <- H1z, <- Hz. done. }
  assert (Hq : (inject_Z (10 ^ columnScale) + 1 <= inject_Z z)%Q).
  { change 1%Q with (inject_Z 1). rewrite <- inject_Z_plus, <- Zle_Qle. lia. } nra.
Qed.
End Exact.

(** ** Well-formed tables *)

Section Books.
Context {P : DecimalPkg} {L : DecimalLaws P} {C : Column} {CL : ColumnLaws L C}.

(** The two columns of an account that bills move money in. *)
Inductive part := Available | Hold.
Definition accPart (p : part) (a : Account) : Dec := match p with Available => acc_Available a | Hold => acc_Hold a end.
Definition billPart (p : part) (b : Bill) : Dec := match p with Available => bill_Available b | Hold => bill_Hold b end.

(** The columns hold a price times a size of the product. *)
Definition product_ok (p : Product) : Prop :=
  0 <= prod_BaseScale p /\ 0 <= prod_QuoteScale p /\ prod_BaseScale p + prod_QuoteScale p <= columnScale.

Definition account_ok (a : Account) : Prop := (forall p, exact16 (accPart p a)) /\ (0 <= dval (acc_Available a))%Q.

Definition bill_ok (b : Bill) : Prop :=
  (forall p, exact16 (billPart p b)) /\ (bill_Settled b = false -> (0 <= dval (bill_Available b))%Q).

Definition ratio_ok (r : Dec) : Prop := (0 <= dval r)%Q /\ (dval r <= 1)%Q.

(** A row of order table [i]. *)
Record order_row_ok (i : Z) (o : Order) : Prop := {
  row_user : GetTableIndexByUserId (ord_UserId o) = i;
  row_id : GetTableIndexByOrderId (ord_Id o) = i;
  row_size : exact16 (ord_Size o);
  row_funds : exact16 (ord_Funds o);
  row_filled : exact16 (ord_FilledSize o);
  row_executed : exact16 (ord_ExecutedValue o);
  row_taker : ratio_ok (ord_TakerFeeRatio o);
  row_maker : ratio_ok (ord_MakerFeeRatio o);
}.

(** A fill the matching engine can have logged: the columns hold it. *)
Record trade_ok (f : Fill) : Prop := {
  trade_size : exact16 (fill_Size f);
  trade_price : exact16 (fill_Price f);
  trade_value : exact16 (dec_Mul (fill_Size f) (fill_Price f));
  trade_size_pos : (0 <= dval (fill_Size f))%Q;
  trade_price_pos : (0 <= dval (fill_Price f))%Q;
}.
Definition fill_ok (f : Fill) : Prop := fill_Done f = false -> trade_ok f.

Record accounts_wf (l : list Account) (n : Z) : Prop := {
  accounts_ids : NoDup (acc_Id <$> l);
  accounts_next : Forall (fun a => acc_Id a < n) l;
  accounts_keys : NoDup ((fun a => (acc_UserId a, acc_Currency a)) <$> l);
  accounts_ok : Forall account_ok l;
}.
Record bills_wf (l : list Bill) (n : Z) : Prop := {
  bills_ids : NoDup (bill_Id <$> l);
  bills_next : Forall (fun b => bill_Id b < n) l;
  bills_ok : Forall bill_ok l;
}.
Record fills_wf (l : list Fill) (n : Z) : Prop := {
  fills_ids : NoDup (fill_Id <$> l);
  fills_next : Forall (fun f => fill_Id f < n) l;
  fills_ok : Forall fill_ok l;
}.
Record orders_wf (t : Z -> list Order) : Prop := {
  orders_ids : forall i, NoDup (ord_Id <$> t i);
  orders_ok : forall i, Forall (order_row_ok i) (t i);
}.
Record db_wf (db : Db) : Prop := {
  wf_accounts : accounts_wf (g_account db) (next_account db);
  wf_bills : bills_wf (g_bill db) (next_bill db);
  wf_fills : fills_wf (g_fill db) (next_fill db);
  wf_orders : orders_wf (g_order db);
  wf_products : Forall product_ok (g_product db);
}.

(** ** What the accounting theorems add up *)

Definition balance (p : part) (u : Z) (c : string) (db : Db) : Q :=
  match GetAccount db u c with Some a => dval (accPart p a) | None => 0%Q end.

Definition billed (p : part) (settled : bool) (u : Z) (c : string) (b : Bill) : Q :=
  if decide (bill_Settled b = settled /\ bill_UserId b = u /\ bill_Currency b = c) then dval (billPart p b) else 0%Q.
Definition settledBills (p : part) (u : Z) (c : string) (db : Db) : Q := sumOf (billed p true u c) (g_bill db).
Definition pendingBills (p : part) (u : Z) (c : string) (db : Db) : Q := sumOf (billed p false u c) (g_bill db).

(** The currency an order holds, the amount it was placed with and what of it is used. *)
Definition holdCurrency (products : list Product) (o : Order) : option string :=
  p ← head (filter (fun p => prod_Id p = ord_ProductId o) products);
  Some (if ord_Side o =s? SideBuy then prod_QuoteCurrency p else prod_BaseCurrency p).
Definition held (o : Order) : Q := dval (if ord_Side o =s? SideBuy then ord_Funds o else ord_Size o).
Definition used (o : Order) : Q := dval (if ord_Side o =s? SideBuy then ord_ExecutedValue o else ord_FilledSize o).
(** A completed order holds nothing; one that used more than it held leaves the difference behind. *)
Definition remainingHold (o : Order) : Q :=
  if completed (ord_Status o) then Qmin 0 (held o - used o) else (held o - used o)%Q.
Definition orderHold (products : list Product) (u : Z) (c : string) (o : Order) : Q :=
  if decide (ord_UserId o = u /\ holdCurrency products o = Some c) then remainingHold o else 0%Q.
Definition openHolds (u : Z) (c : string) (db : Db) : Q :=
  sumOf (orderHold (g_product db) u c) (g_order db (GetTableIndexByUserId u)).

(** A movement of [a] available and [h] held on one account. *)
Definition move (u : Z) (c : string) (a h : Q) (p : part) (u' : Z) (c' : string) : Q :=
  if decide (u = u' /\ c = c') then match p with Available => a | Hold => h end else 0%Q.

(** ** Rows as they are written *)

Lemma billRow_Ok id created updated b row : billRow id created updated b = Ok row ->
  bill_Id row = id /\ bill_UserId row = bill_UserId b /\ bill_Currency row = bill_Currency b
  /\ bill_Settled row = bill_Settled b
  /\ (forall p, exact16 (billPart p row))
  /\ (forall p, exact16 (billPart p b) -> billPart p row ≡d billPart p b)
  /\ ((0 <= dval (bill_Available b))%Q -> (0 <= dval (bill_Available row))%Q).
Proof.
  unfold billRow. intros Hr. go_simpl.
  split_and!; [done..| | |].
  - intros []; by eapply store_exact16.
  - intros []; by apply store_exact.
  - by apply store_nonneg.
Qed.

Lemma billed_row p s u c b id created updated row : billRow id created updated b = Ok row ->
  (forall p, exact16 (billPart p b)) -> (billed p s u c row == billed p s u c b)%Q.
Proof.
  intros Hr He. apply billRow_Ok in Hr as (_ & Hu & Hc & Hs & _ & Heq & _).
  unfold billed. rewrite Hu, Hc, Hs. case_decide; [|reflexivity]. apply Heq, He.
Qed.

Lemma accountRow_Ok id created updated a row : accountRow id created updated a = Ok row ->
  acc_Id row = id /\ acc_UserId row = acc_UserId a /\ acc_Currency row = acc_Currency a
  /\ (forall p, exact16 (accPart p row))
  /\ (forall p, exact16 (accPart p a) -> accPart p row ≡d accPart p a)
  /\ ((0 <= dval (acc_Available a))%Q -> (0 <= dval (acc_Available row))%Q).
Proof.
  unfold accountRow. intros Hr. go_simpl.
  split_and!; [done..| | |].
  - intros []; by eapply store_exact16.
  - intros []; by apply store_exact.
  - by apply store_nonneg.
Qed.
End Books.
