(* ===== verification/Accounting.v ===== *)
(** What the statements and transactions of the services do to the books: every
    one keeps the tables well formed, and the sums of [LedgerInv] move by what
    the transaction is meant to move. *)
From S2P Require Import Prelude Decimal Models Ledger Settlement LedgerInv.
From Stdlib Require Import QArith Qabs Qminmax Lqa.
From stdpp Require Import list.
Open Scope list_scope.
Open Scope Z_scope.

Section Accounting.
Context {P : DecimalPkg} {L : DecimalLaws P} {C : Column} {CL : ColumnLaws L C}.

(** ** Accounts *)

Definition accountOf (p : part) (u : Z) (c : string) (a : Account) : Q :=
  if decide (ofAccount u c a) then dval (accPart p a) else 0%Q.

Lemma balance_sum p u c db : accounts_wf (g_account db) (next_account db) ->
  (balance p u c db == sumOf (accountOf p u c) (g_account db))%Q.
Proof.
  intros Hwf. destruct Hwf as [_ _ Hk _]. unfold balance, GetAccount.
  induction (g_account db) as [|a l IH]; [reflexivity|].
  cbn in Hk. apply NoDup_cons in Hk as [Ha Hk]. rewrite sumOf_cons. unfold accountOf at 1.
  destruct (decide (ofAccount u c a)) as [Hof|Hof].
  - rewrite filter_cons_True by done. cbn. rewrite sumOf_zero; [ring|].
    intros a' Ha'. unfold accountOf. case_decide as Hof'; [|reflexivity]. destruct Ha.
    destruct Hof as [<- <-], Hof' as [<- <-]. by apply (list_elem_of_fmap_2 (fun a => (acc_UserId a, acc_Currency a))).
  - rewrite filter_cons_False by done. rewrite IH by done. ring.
Qed.

Lemma GetAccount_Some db u c a : GetAccount db u c = Some a -> a ∈ g_account db /\ ofAccount u c a.
Proof. apply query_Some. Qed.

(** Writing an account back moves its balance and no other. *)
Lemma UpdateAccount_moves now db a available hold db' u c : db_wf db -> GetAccount db u c = Some a ->
  UpdateAccount now db (acc_set a available hold) = Ok db' ->
  exact16 available -> exact16 hold -> (0 <= dval available)%Q ->
  accounts_wf (g_account db') (next_account db') /\ db' = db_setAccounts db (g_account db') (next_account db') /\
  (forall p u' c', balance p u' c' db'
     == balance p u' c' db + move u c (dval available - dval (acc_Available a)) (dval hold - dval (acc_Hold a)) p u' c')%Q.
Proof.
  intros Hwf Hget Hup Hxa Hxh Hnn. apply GetAccount_Some in Hget as [Hin Hof]. unfold UpdateAccount in Hup. go_simpl.
  apply accountRow_Ok in Hrun as (Hid & Hu & Hc & Hx & Heq & Hp). cbn in Hid, Hu, Hc. rename a0 into row.
  pose proof (wf_accounts db Hwf) as [Hids Hnext Hkeys Hok].
  change (map _ (g_account db)) with (map (fun r => if acc_Id r =? acc_Id a then row else r) (g_account db)).
  rewrite <- Hid. fold (replace acc_Id row (g_account db)).
  assert (Hwf' : accounts_wf (replace acc_Id row (g_account db)) (next_account db)).
  { split.
    - by rewrite replace_keys.
    - apply replace_Forall; [done|]. rewrite Hid. by rewrite Forall_forall in Hnext; apply Hnext.
    - rewrite (replace_fmap _ _ a); [done|done|done|done|]. by rewrite Hu, Hc.
    - apply replace_Forall; [done|]. split; [done|]. by apply Hp. }
  split; [done|]. split; [done|]. intros p u' c'.
  rewrite !balance_sum by done. cbn [g_account db_setAccounts]. rewrite (sumOf_replace _ _ a) by done.
  assert (Hpart : forall p, exact16 (accPart p (acc_set a available hold))) by (by intros []).
  specialize (Heq p (Hpart p)). unfold deq in Heq.
  unfold accountOf, move, ofAccount in *. rewrite Hu, Hc. destruct Hof as [-> ->].
  case_decide; [|ring]. destruct p; cbn in *; rewrite Heq; ring.
Qed.

(** A new account is empty. *)
Lemma AddAccount_empty now db u c db' : db_wf db -> AddAccount now db (emptyAccount u c) = Ok db' ->
  accounts_wf (g_account db') (next_account db') /\ db' = db_setAccounts db (g_account db') (next_account db') /\
  (forall p u' c', balance p u' c' db' == balance p u' c' db)%Q.
Proof.
  intros Hwf Hadd. unfold AddAccount in Hadd. cbn in Hadd.
  destruct (GetAccount db u c) eqn:Hget; [discriminate|]. go_simpl.
  apply accountRow_Ok in Hrun as (Hid & Hu & Hc & Hx & Heq & Hp). cbn in Hid, Hu, Hc. rename a into row.
  pose proof (wf_accounts db Hwf) as [Hids Hnext Hkeys Hok].
  pose proof (query_None _ _ Hget) as Hnone.
  assert (Hwf' : accounts_wf (g_account db ++ [row]) (next_account db + 1)).
  { destruct (fresh_key acc_Id (g_account db) row (next_account db)) as [??]; [done..|]. split; [done|done| |].
    - rewrite fmap_app. apply NoDup_app. split; [done|]. split; [|apply NoDup_singleton].
      intros x Hx' Hin. apply list_elem_of_fmap in Hx' as (a & -> & Ha). apply list_elem_of_singleton in Hin.
      apply (Hnone a Ha). unfold ofAccount. split; congruence.
    - apply Forall_app. split; [done|]. constructor; [|done]. split; [done|]. apply Hp. cbn. rewrite dval_Zero. lra. }
  split; [done|]. split; [done|]. intros p u' c'.
  rewrite !balance_sum by done. cbn [g_account db_setAccounts]. rewrite sumOf_app, sumOf_cons. cbn.
  unfold accountOf. case_decide; [|ring].
  assert (Hz : accPart p row ≡d accPart p (emptyAccount u c)) by (apply Heq; destruct p; apply exact16_Zero).
  unfold deq in Hz. rewrite Hz. destruct p; cbn; rewrite dval_Zero; ring.
Qed.

(** ** Bills *)

Lemma billed_app p s u c l row : (sumOf (billed p s u c) (l ++ [row]) == sumOf (billed p s u c) l + billed p s u c row)%Q.
Proof. rewrite sumOf_app, sumOf_cons. cbn. ring. Qed.

Lemma billed_new p s u c available hold ty settled notes u' c' :
  (billed p s u' c' (newBill u c available hold ty settled notes)
   == if eqb s settled then move u c (dval available) (dval hold) p u' c' else 0)%Q.
Proof.
  unfold billed, move. cbn. destruct (eqb_spec s settled) as [<-|Hne].
  - destruct (decide (u = u' /\ c = c')) as [[-> ->]|Hno].
    + rewrite decide_True by done. destruct p; reflexivity.
    + rewrite decide_False by tauto. reflexivity.
  - rewrite decide_False; [reflexivity|]. intros [-> _]. done.
Qed.

Lemma bill_added l n row : bills_wf l n -> bill_Id row = n -> bill_ok row -> bills_wf (l ++ [row]) (n + 1).
Proof.
  intros [Hi Hn Ho] Hid Hok. destruct (fresh_key bill_Id l row n) as [??]; [done..|].
  split; [done|done|]. apply Forall_app. by split; [|constructor].
Qed.

(** One new bill: the part of the books it is added to moves by the amounts as
    they are stored. *)
Lemma AddBill_stored now db u c available hold ty settled notes db' : bills_wf (g_bill db) (next_bill db) ->
  AddBills now db [newBill u c available hold ty settled notes] = Ok db' -> (settled = false -> (0 <= dval available)%Q) ->
  exists a h, store available = Ok a /\ store hold = Ok h /\
    bills_wf (g_bill db') (next_bill db') /\ db' = db_setBills db (g_bill db') (next_bill db') /\
    (forall p s u' c', sumOf (billed p s u' c') (g_bill db')
       == sumOf (billed p s u' c') (g_bill db) + (if eqb s settled then move u c (dval a) (dval h) p u' c' else 0))%Q.
Proof.
  intros Hwf Hadd Hnn. cbn in Hadd. go_simpl. rename a into row.
  unfold billRow in Hrun. go_simpl. exists a, a0. split; [done|]. split; [done|]. split.
  - apply bill_added; [done..|]. split.
    + intros []; by eapply store_exact16.
    + intros Hf. eapply store_nonneg; [exact Hrun0|]. by apply Hnn.
  - split; [done|]. intros p s u' c'. rewrite billed_app.
    match goal with |- context [billed p s u' c' ?r] => change (billed p s u' c' r) with (billed p s u' c' (newBill u c a a0 ty settled notes)) end.
    rewrite billed_new. reflexivity.
Qed.

Lemma AddBill_moves now db u c available hold ty settled notes db' : bills_wf (g_bill db) (next_bill db) ->
  AddBills now db [newBill u c available hold ty settled notes] = Ok db' ->
  exact16 available -> exact16 hold -> (settled = false -> (0 <= dval available)%Q) ->
  bills_wf (g_bill db') (next_bill db') /\ db' = db_setBills db (g_bill db') (next_bill db') /\
  (forall p s u' c', sumOf (billed p s u' c') (g_bill db')
     == sumOf (billed p s u' c') (g_bill db)
        + (if eqb s settled then move u c (dval available) (dval hold) p u' c' else 0))%Q.
Proof.
  intros Hwf Hadd Hxa Hxh Hnn. eapply AddBill_stored in Hadd as (a & h & Ha & Hh & Hb & Hdb & Hs); [|done|done].
  apply store_exact in Ha, Hh; [|done|done]. unfold deq in Ha, Hh.
  split_and!; [done..|]. intros p s u' c'. rewrite Hs. destruct (eqb s settled); [|reflexivity].
  unfold move. case_decide; [|reflexivity]. destruct p; [rewrite Ha|rewrite Hh]; reflexivity.
Qed.

(** Settling a bill moves its amounts from the pending to the settled bills. *)
Lemma settle_moves now db b db' : bills_wf (g_bill db) (next_bill db) -> b ∈ g_bill db -> bill_Settled b = false ->
  UpdateBill now db (bill_settle b) = Ok db' ->
  bills_wf (g_bill db') (next_bill db') /\ db' = db_setBills db (g_bill db') (next_bill db') /\
  (forall r, r ∈ g_bill db -> bill_Id r <> bill_Id b -> r ∈ g_bill db') /\
  (forall p u c, sumOf (billed p true u c) (g_bill db') == sumOf (billed p true u c) (g_bill db) + billed p false u c b)%Q /\
  (forall p u c, sumOf (billed p false u c) (g_bill db') == sumOf (billed p false u c) (g_bill db) - billed p false u c b)%Q.
Proof.
  intros Hwf Hin Hs Hup. unfold UpdateBill in Hup. go_simpl. rename a into row.
  destruct Hwf as [Hids Hnext Hok].
  assert (Hb : bill_ok b) by (rewrite Forall_forall in Hok; auto).
  assert (Hrow : forall p s u c, (billed p s u c row == billed p s u c (bill_settle b))%Q).
  { intros p s u c. eapply billed_row; [exact Hrun|]. intros []; [apply (proj1 Hb Available)|apply (proj1 Hb Hold)]. }
  apply billRow_Ok in Hrun as (Hid & Hu & Hc & Hs' & He & _ & Hp). cbn in Hid, Hs'.
  rewrite <- Hid. fold (replace bill_Id row (g_bill db)).
  assert (Hnone : forall u c p, (billed p true u c b == 0)%Q).
  { intros u c p. unfold billed. rewrite decide_False; [reflexivity|]. rewrite Hs. intros [? _]. discriminate. }
  assert (Hnone' : forall u c p, (billed p false u c (bill_settle b) == 0)%Q).
  { intros u c p. unfold billed. rewrite decide_False; [reflexivity|]. cbn. intros [? _]. discriminate. }
  assert (Hmove : forall u c p, (billed p true u c (bill_settle b) == billed p false u c b)%Q).
  { intros u c p. unfold billed. cbn. rewrite Hs. destruct (decide (bill_UserId b = u /\ bill_Currency b = c)).
    - rewrite !decide_True by done. destruct p; reflexivity.
    - rewrite !decide_False by tauto. reflexivity. }
  split_and!.
  - split.
    + by rewrite replace_keys.
    + apply replace_Forall; [done|]. rewrite Hid. rewrite Forall_forall in Hnext. by apply Hnext.
    + apply replace_Forall; [done|]. split; [done|]. rewrite Hs'. discriminate.
  - done.
  - intros r Hr Hne. by apply replace_keeps.
  - intros p u c. rewrite (sumOf_replace _ _ b), Hrow, Hnone, Hmove by done. ring.
  - intros p u c. rewrite (sumOf_replace _ _ b), Hrow, Hnone' by done. ring.
Qed.

Lemma settleBills_moves now bills : forall db a h a' h' db',
  bills_wf (g_bill db) (next_bill db) -> Forall (fun b => b ∈ g_bill db /\ bill_Settled b = false) bills ->
  NoDup (bill_Id <$> bills) -> exact16 a -> exact16 h -> (0 <= dval a)%Q ->
  settleBills now db bills a h = Ok (a', h', db') ->
  bills_wf (g_bill db') (next_bill db') /\ db' = db_setBills db (g_bill db') (next_bill db') /\
  exact16 a' /\ exact16 h' /\ (0 <= dval a')%Q /\
  (dval a' == dval a + sumOf (fun b => dval (bill_Available b)) bills)%Q /\
  (dval h' == dval h + sumOf (fun b => dval (bill_Hold b)) bills)%Q /\
  (forall p u c, sumOf (billed p true u c) (g_bill db')
     == sumOf (billed p true u c) (g_bill db) + sumOf (billed p false u c) bills)%Q /\
  (forall p u c, sumOf (billed p false u c) (g_bill db')
     == sumOf (billed p false u c) (g_bill db) - sumOf (billed p false u c) bills)%Q.
Proof.
  induction bills as [|b bills IH]; intros db a h a' h' db' Hwf Hall Hd Hxa Hxh Hnn Hrun.
  - cbn in Hrun. simplify_eq. split_and!; try done; intros; cbn; try ring. by destruct db'.
  - apply Forall_cons in Hall as [[Hin Hs] Hall]. rewrite fmap_cons in Hd. apply NoDup_cons in Hd as [Hb Hd].
    cbn in Hrun. go_step. rename a0 into tx.
    assert (Hok : bill_ok b) by (destruct Hwf as [_ _ Ho]; rewrite Forall_forall in Ho; auto).
    destruct Hok as [Hx Hp]. pose proof (Hx Available) as HxA. pose proof (Hx Hold) as HxH. cbn in HxA, HxH. specialize (Hp Hs).
    destruct (settle_moves _ _ _ _ Hwf Hin Hs Hrun0) as (Hwf' & Hdb & Hkeep & Hset & Hpend).
    apply IH in Hrun as (Hwf2 & Hdb2 & ? & ? & ? & HA & HH & Hset2 & Hpend2).
    + split_and!; try done.
      * rewrite Hdb2, Hdb. done.
      * rewrite HA, sumOf_cons, dval_Add. ring.
      * rewrite HH, sumOf_cons, dval_Add. ring.
      * intros p u c. rewrite Hset2, Hset, sumOf_cons. ring.
      * intros p u c. rewrite Hpend2, Hpend, sumOf_cons. ring.
    + done.
    + rewrite Forall_forall in *. intros r Hr. destruct (Hall r Hr) as [Hr1 Hr2]. split; [|done]. apply Hkeep; [done|].
      intros He. apply Hb. rewrite <- He. by apply list_elem_of_fmap_2.
    + done.
    + by apply exact16_Add.
    + by apply exact16_Add.
    + rewrite dval_Add. lra.
Qed.

(** ** Transactions of the account service *)

(** The tables a transaction on accounts and bills leaves alone. *)
Definition sameOrders (db db' : Db) : Prop :=
  g_order db' = g_order db /\ g_product db' = g_product db /\ g_fill db' = g_fill db /\ next_fill db' = next_fill db.

Lemma db_wf_setBills db db' : db_wf db -> db' = db_setBills db (g_bill db') (next_bill db') ->
  bills_wf (g_bill db') (next_bill db') -> db_wf db'.
Proof. intros [] -> Hb. by split. Qed.

Lemma db_wf_setAccounts db db' : db_wf db -> db' = db_setAccounts db (g_account db') (next_account db') ->
  accounts_wf (g_account db') (next_account db') -> db_wf db'.
Proof. intros [] -> Hb. by split. Qed.

Lemma unsettledBills_of db u c : bills_wf (g_bill db) (next_bill db) ->
  Forall (fun b => b ∈ g_bill db /\ bill_Settled b = false) (GetUnsettledBillsByUserId db u c) /\
  NoDup (bill_Id <$> GetUnsettledBillsByUserId db u c) /\
  Forall (fun b => bill_Settled b = false /\ bill_UserId b = u /\ bill_Currency b = c) (GetUnsettledBillsByUserId db u c).
Proof.
  intros [Hids _ _]. unfold GetUnsettledBillsByUserId.
  set (q := fun b => bill_Settled b = false /\ bill_UserId b = u /\ bill_Currency b = c).
  assert (Hsub : take 100 (filter q (g_bill db)) `sublist_of` g_bill db).
  { etrans; [apply sublist_take|]. apply sublist_filter. }
  assert (Hq : Forall q (take 100 (filter q (g_bill db)))).
  { apply Forall_take, Forall_forall. intros b Hb. by apply list_elem_of_filter in Hb as [? _]. }
  split_and!; [|by eapply sublist_NoDup; [exact Hids|apply fmap_sublist]|done].
  rewrite Forall_forall in *. intros b Hb. split; [by eapply elem_of_sublist|]. by apply Hq.
Qed.

Lemma sumOf_billed_own p u c bills u' c' : Forall (fun b => bill_Settled b = false /\ bill_UserId b = u /\ bill_Currency b = c) bills ->
  (sumOf (billed p false u' c') bills
   == move u c (sumOf (fun b => dval (bill_Available b)) bills) (sumOf (fun b => dval (bill_Hold b)) bills) p u' c')%Q.
Proof.
  induction 1 as [|b bills (Hs & Hu & Hc) _ IH].
  - unfold move. cbn. case_decide; [destruct p|]; reflexivity.
  - rewrite sumOf_cons, IH. unfold billed, move. rewrite Hs, Hu, Hc. destruct (decide (u = u' /\ c = c')) as [Hy|Hy].
    + rewrite decide_True by done. destruct p; reflexivity.
    + rewrite decide_False by tauto. ring.
Qed.

(** [ExecuteBill] turns pending bills of the account into balance. *)
Lemma ExecuteBill_spec now db u c db' : db_wf db -> ExecuteBill now db u c = Ok db' ->
  let bills := GetUnsettledBillsByUserId db u c in
  let moved := move u c (sumOf (fun b => dval (bill_Available b)) bills) (sumOf (fun b => dval (bill_Hold b)) bills) in
  db_wf db' /\ sameOrders db db' /\
  (forall p u' c', balance p u' c' db' == balance p u' c' db + moved p u' c')%Q /\
  (forall p u' c', settledBills p u' c' db' == settledBills p u' c' db + moved p u' c')%Q /\
  (forall p u' c', pendingBills p u' c' db' == pendingBills p u' c' db - moved p u' c')%Q.
Proof.
  intros Hwf Hrun bills moved. unfold ExecuteBill in Hrun. apply bind_Ok in Hrun as ([a tx] & Hacc & Hrun).
  assert (Htx : accounts_wf (g_account tx) (next_account tx) /\ tx = db_setAccounts db (g_account tx) (next_account tx) /\
    (forall p u' c', balance p u' c' tx == balance p u' c' db)%Q /\ GetAccount tx u c = Some a).
  { destruct (GetAccountForUpdate db u c) as [a0|] eqn:Hget.
    - go_simpl. split_and!; [apply (wf_accounts _ Hwf)|by destruct tx|reflexivity|done].
    - go_simpl. apply AddAccount_empty in Hrun0 as (? & ? & ?); [|done]. split_and!; try done. }
  clear Hacc. destruct Htx as (Hawf & Htx & Hbal & Hget).
  assert (Hbills : GetUnsettledBillsByUserId tx u c = bills) by (rewrite Htx; done).
  rewrite Hbills in Hrun.
  destruct (unsettledBills_of db u c (wf_bills _ Hwf)) as (H1 & H2 & H3). fold bills in H1, H2, H3.
  destruct (length bills =? 0)%nat eqn:Hlen.
  - apply Nat.eqb_eq, length_zero_iff_nil in Hlen. go_simpl.
    assert (Hm : forall p u' c', (moved p u' c' == 0)%Q).
    { intros p u' c'. unfold moved. rewrite Hlen. unfold move. cbn. case_decide; [destruct p|]; reflexivity. }
    split_and!; try done; intros p u' c'; rewrite Hm; ring.
  - apply bind_Ok in Hrun as ([[aS hS] tx2] & Hset & Hup).
    assert (Hwt : db_wf tx) by (by eapply db_wf_setAccounts).
    apply settleBills_moves in Hset as (Hb & Htx2 & HxA & HxH & HnA & HA & HH & Hs & Hp);
      [|apply (wf_bills _ Hwt)|rewrite Htx; exact H1|done|apply exact16_Zero|apply exact16_Zero|rewrite dval_Zero; lra].
    assert (Hwt2 : db_wf tx2) by (by eapply db_wf_setBills).
    assert (Hget2 : GetAccount tx2 u c = Some a) by (rewrite Htx2; exact Hget).
    assert (Haok : account_ok a).
    { pose proof (accounts_ok _ _ Hawf) as Hok. rewrite Forall_forall in Hok. apply Hok. by apply GetAccount_Some in Hget as [? _]. }
    destruct Haok as [Hax Han]. pose proof (Hax Available) as HaA. pose proof (Hax Hold) as HaH. cbn in HaA, HaH.
    eapply UpdateAccount_moves in Hup as (Haw & Hdb' & Hmv);
      [|exact Hwt2|exact Hget2|by apply exact16_Add|by apply exact16_Add|rewrite dval_Add; lra].
    assert (Hbl : g_bill db' = g_bill tx2) by (rewrite Hdb'; done).
    assert (Hmoved : forall p u' c', (sumOf (billed p false u' c') bills == moved p u' c')%Q) by (intros; by apply sumOf_billed_own).
    split_and!.
    + by eapply db_wf_setAccounts.
    + rewrite Hdb', Htx2, Htx. done.
    + intros p u' c'. rewrite Hmv.
      assert (Hb2 : (balance p u' c' tx2 == balance p u' c' db)%Q) by (rewrite Htx2, <- Hbal; reflexivity).
      rewrite Hb2. unfold moved, move. case_decide; [|reflexivity]. rewrite dval_Zero in *.
      destruct p; rewrite dval_Add; [rewrite HA|rewrite HH]; ring.
    + intros p u' c'. unfold settledBills. rewrite Hbl, Hs, Hmoved, Htx. reflexivity.
    + intros p u' c'. unfold pendingBills. rewrite Hbl, Hp, Hmoved, Htx. reflexivity.
Qed.

(** [HoldBalance] moves an amount from available to hold and bills it. *)
Lemma HoldBalance_spec now db u c size ty db' : db_wf db -> exact16 size -> HoldBalance now db u c size ty = Ok db' ->
  let moved := move u c (- dval size) (dval size) in
  (0 < dval size)%Q /\ db_wf db' /\ sameOrders db db' /\
  (forall p u' c', balance p u' c' db' == balance p u' c' db + moved p u' c')%Q /\
  (forall p u' c', settledBills p u' c' db' == settledBills p u' c' db + moved p u' c')%Q /\
  (forall p u' c', pendingBills p u' c' db' == pendingBills p u' c' db)%Q.
Proof.
  intros Hwf Hx Hrun moved. unfold HoldBalance in Hrun.
  destruct (dec_LessThanOrEqual size dec_Zero) eqn:Hpos; [discriminate|].
  destruct (GetAccountForUpdate db u c) as [a|] eqn:Hget; [|discriminate].
  destruct (dec_GreaterThanOrEqual (acc_Available a) size) eqn:Hge; cbn in Hrun; [|discriminate].
  apply bind_Ok in Hrun as (tx & Hadd & Hup).
  apply AddBill_moves in Hadd as (Hb & Htx & Hbm); [|apply (wf_bills _ Hwf)|by apply exact16_Neg|done|discriminate].
  assert (Hwt : db_wf tx) by (by eapply db_wf_setBills).
  assert (Hget2 : GetAccount tx u c = Some a) by (rewrite Htx; exact Hget).
  assert (Haok : account_ok a).
  { pose proof (accounts_ok _ _ (wf_accounts _ Hwf)) as Hok. rewrite Forall_forall in Hok. apply Hok.
    by apply GetAccount_Some in Hget as [? _]. }
  destruct Haok as [Hax Han]. pose proof (Hax Available) as HaA. pose proof (Hax Hold) as HaH. cbn in HaA, HaH.
  eapply UpdateAccount_moves in Hup as (Haw & Hdb' & Hmv);
    [|exact Hwt|exact Hget2|by apply exact16_Sub|by apply exact16_Add|dec_prop; rewrite dval_Sub; lra].
  assert (Hbl : g_bill db' = g_bill tx) by (rewrite Hdb'; done).
  split_and!.
  - dec_prop. rewrite dval_Zero in Hpos. done.
  - by eapply db_wf_setAccounts.
  - rewrite Hdb', Htx. done.
  - intros p u' c'. rewrite Hmv.
    assert (Hb2 : (balance p u' c' tx == balance p u' c' db)%Q) by (rewrite Htx; reflexivity).
    rewrite Hb2. unfold moved, move. case_decide; [|reflexivity]. destruct p; [rewrite dval_Sub|rewrite dval_Add]; ring.
  - intros p u' c'. unfold settledBills. rewrite Hbl, Hbm. cbn. unfold moved, move. case_decide; [|reflexivity].
    destruct p; [rewrite dval_Neg|]; reflexivity.
  - intros p u' c'. unfold pendingBills. rewrite Hbl, Hbm. cbn. ring.
Qed.
End Accounting.
