(* ===== verification/OrderInv.v ===== *)
(** Settling the fills of an order ([ExecuteFill]): the bills it writes, the
    order it leaves and the hold it gives back. *)
From S2P Require Import Prelude Decimal Models Ledger Settlement LedgerInv Accounting.
From Stdlib Require Import QArith Qabs Qminmax Lqa.
From stdpp Require Import list.
Open Scope list_scope.
Open Scope Z_scope.

Section OrderInv.
Context {P : DecimalPkg} {L : DecimalLaws P} {C : Column} {CL : ColumnLaws L C}.

(** ** Pending bills *)

(** [db'] is [db] with more unsettled bills, which add up to [d]. *)
Record billsAdded (db db' : Db) (d : part -> Z -> string -> Q) : Prop := {
  added_frame : db' = db_setBills db (g_bill db') (next_bill db');
  added_wf : bills_wf (g_bill db') (next_bill db');
  added_settled : forall p u c, (settledBills p u c db' == settledBills p u c db)%Q;
  added_pending : forall p u c, (pendingBills p u c db' == pendingBills p u c db + d p u c)%Q;
}.

Definition noMove (p : part) (u : Z) (c : string) : Q := 0%Q.
Definition plusMove (d d' : part -> Z -> string -> Q) (p : part) (u : Z) (c : string) : Q := (d p u c + d' p u c)%Q.

Lemma billsAdded_none db : bills_wf (g_bill db) (next_bill db) -> billsAdded db db noMove.
Proof. split; [by destruct db|done|reflexivity|]. intros. unfold noMove. ring. Qed.

Lemma billsAdded_trans db1 db2 db3 d d' : billsAdded db1 db2 d -> billsAdded db2 db3 d' -> billsAdded db1 db3 (plusMove d d').
Proof.
  intros [Hf1 _ Hs1 Hp1] [Hf2 Hw2 Hs2 Hp2]. split; [rewrite Hf2, Hf1; done|done| |].
  - intros. rewrite Hs2. apply Hs1.
  - intros. rewrite Hp2, Hp1. unfold plusMove. ring.
Qed.

Lemma billsAdded_eq db db' d d' : billsAdded db db' d -> (forall p u c, d p u c == d' p u c)%Q -> billsAdded db db' d'.
Proof. intros [Hf Hw Hs Hp] He. split; [done..|]. intros. by rewrite Hp, He. Qed.

Lemma AddDelayBill_added now db u c available hold ty notes db' : bills_wf (g_bill db) (next_bill db) ->
  AddDelayBill now db u c available hold ty notes = Ok db' -> (0 <= dval available)%Q ->
  exists a h, store available = Ok a /\ store hold = Ok h /\ billsAdded db db' (move u c (dval a) (dval h)).
Proof.
  intros Hwf Hadd Hnn. apply AddBill_stored in Hadd as (a & h & Ha & Hh & Hb & Hdb & Hs); [|done|done].
  exists a, h. split_and!; [done..|]. split; [done|done| |]; intros p u' c'.
  - unfold settledBills. rewrite Hs. cbn. ring.
  - unfold pendingBills. rewrite Hs. cbn. reflexivity.
Qed.

Lemma move_eq u c a h a' h' p u' c' : (a == a')%Q -> (h == h')%Q -> (move u c a h p u' c' == move u c a' h' p u' c')%Q.
Proof. intros Ha Hh. unfold move. case_decide; [|reflexivity]. by destruct p. Qed.

Lemma move_zero u c p u' c' : (move u c 0 0 p u' c' == 0)%Q.
Proof. unfold move. case_decide; [|reflexivity]. by destruct p. Qed.

(** An exact amount is billed as it is. *)
Lemma AddDelayBill_exact now db u c available hold ty notes db' : bills_wf (g_bill db) (next_bill db) ->
  AddDelayBill now db u c available hold ty notes = Ok db' -> (0 <= dval available)%Q -> exact16 available -> exact16 hold ->
  billsAdded db db' (move u c (dval available) (dval hold)).
Proof.
  intros Hwf Hadd Hnn Hxa Hxh. apply AddDelayBill_added in Hadd as (a & h & Ha & Hh & Hb); [|done|done].
  eapply billsAdded_eq; [exact Hb|]. intros. apply move_eq; [by apply store_exact in Ha|by apply store_exact in Hh].
Qed.

(** ** One fill *)

(** What an order keeps while it is settled. *)
Record sameOrder (o o' : Order) : Prop := {
  same_id : ord_Id o' = ord_Id o;
  same_product : ord_ProductId o' = ord_ProductId o;
  same_user : ord_UserId o' = ord_UserId o;
  same_side : ord_Side o' = ord_Side o;
  same_size : ord_Size o' = ord_Size o;
  same_funds : ord_Funds o' = ord_Funds o;
  same_taker : ord_TakerFeeRatio o' = ord_TakerFeeRatio o;
  same_maker : ord_MakerFeeRatio o' = ord_MakerFeeRatio o;
}.
Lemma sameOrder_refl o : sameOrder o o.
Proof. by split. Qed.
Lemma sameOrder_trans o1 o2 o3 : sameOrder o1 o2 -> sameOrder o2 o3 -> sameOrder o1 o3.
Proof. intros [] []. split; congruence. Qed.

Lemma order_row_ok_same i o o' : sameOrder o o' -> exact16 (ord_FilledSize o') -> exact16 (ord_ExecutedValue o') ->
  order_row_ok i o -> order_row_ok i o'.
Proof.
  intros [Hi Hp Hu Hs Hsz Hf Ht Hm] Hxf Hxe [? ? ? ? ? ? ? ?].
  split; [by rewrite Hu|by rewrite Hi|by rewrite Hsz|by rewrite Hf|done|done|by rewrite Ht|by rewrite Hm].
Qed.

(** The bills of one trade of an order: [a] to the owner and the fee [f] to the
    exchange's account 0, against what the order held. *)
Definition tradeMoves (product : Product) (o : Order) (size value a f : Q) : part -> Z -> string -> Q :=
  if ord_Side o =s? SideBuy
  then plusMove (plusMove (move (ord_UserId o) (prod_BaseCurrency product) a 0)
                          (move (ord_UserId o) (prod_QuoteCurrency product) 0 (- value)))
                (move 0 (prod_BaseCurrency product) f 0)
  else plusMove (plusMove (move (ord_UserId o) (prod_BaseCurrency product) 0 (- size))
                          (move (ord_UserId o) (prod_QuoteCurrency product) a 0))
                (move 0 (prod_QuoteCurrency product) f 0).

(** What the fee is taken of. *)
Definition feeBase (o : Order) (fill : Fill) : Dec :=
  if ord_Side o =s? SideBuy then fill_Size fill else dec_Mul (fill_Size fill) (fill_Price fill).

Lemma fillFee_Ok o fill amount fee : ratio_ok (ord_TakerFeeRatio o) -> ratio_ok (ord_MakerFeeRatio o) ->
  fillFee o fill amount = Ok fee -> (0 <= dval amount)%Q -> (0 <= dval fee /\ dval fee <= dval amount)%Q.
Proof.
  intros [Ht0 Ht1] [Hm0 Hm1] Hfee Ha. unfold fillFee in Hfee.
  repeat case_bool; simplify_eq; rewrite dval_Mul; split; nra.
Qed.

Lemma feeBill_added now db cur fee notes db' : bills_wf (g_bill db) (next_bill db) -> (0 <= dval fee)%Q ->
  (if dec_GreaterThan fee dec_Zero then AddDelayBill now db 0 cur fee dec_Zero BillTypeTrade notes else mret db) = Ok db' ->
  exists f, billsAdded db db' (move 0 cur f 0) /\ (exact16 fee -> f == dval fee)%Q /\
    (Qabs (f - dval fee) <= (1 # 2) * ulp columnScale)%Q.
Proof.
  intros Hwf Hnn Hadd. destruct (dec_GreaterThan fee dec_Zero) eqn:Hg.
  - apply AddDelayBill_added in Hadd as (a & h & Ha & Hh & Hb); [|done|done]. exists (dval a). split.
    + eapply billsAdded_eq; [exact Hb|]. intros. apply move_eq; [reflexivity|].
      apply store_exact in Hh; [|apply exact16_Zero]. unfold deq in Hh. by rewrite Hh, dval_Zero.
    + split; [intros Hx; by apply store_exact in Ha|by apply store_near].
  - injection Hadd as <-. exists 0%Q. split.
    + eapply billsAdded_eq; [by apply billsAdded_none|]. intros. by rewrite move_zero.
    + dec_prop. rewrite dval_Zero in Hg. split; [intros _; lra|].
      pose proof (ulp_pos columnScale ltac:(done)). apply Qabs_Qle_condition. lra.
Qed.

(** What the owner and the exchange get of a trade differs from its amount by
    at most a unit of the columns. *)
Lemma rounded_parts a f amount fee : (Qabs (a - (amount - fee)) <= (1 # 2) * ulp columnScale)%Q ->
  (Qabs (f - fee) <= (1 # 2) * ulp columnScale)%Q -> (Qabs (a + f - amount) <= ulp columnScale)%Q.
Proof.
  intros Ha Hf. assert (He : (a + f - amount == (a - (amount - fee)) + (f - fee))%Q) by ring. rewrite He.
  eapply Qle_trans; [apply Qabs_triangle|]. lra.
Qed.

(** A trade bills the amounts of [tradeMoves] and adds itself to the order. *)
Lemma settleTrade_spec now product o fill db o' f' db' : bills_wf (g_bill db) (next_bill db) ->
  ratio_ok (ord_TakerFeeRatio o) -> ratio_ok (ord_MakerFeeRatio o) -> trade_ok fill ->
  settleTrade now product o fill db = Ok (o', f', db') ->
  exists fee a f,
    fillFee o fill (feeBase o fill) = Ok fee /\
    (exact16 fee -> a == dval (feeBase o fill) - dval fee /\ f == dval fee)%Q /\
    (Qabs (a + f - dval (feeBase o fill)) <= ulp columnScale)%Q /\
    billsAdded db db' (tradeMoves product o (dval (fill_Size fill)) (dval (fill_Size fill) * dval (fill_Price fill)) a f) /\
    f' = fill_settle fill fee /\
    o' = ord_addFill o (dec_Add (ord_FilledSize o) (fill_Size fill))
           (dec_Add (ord_ExecutedValue o) (dec_Mul (fill_Size fill) (fill_Price fill))) (dec_Add (ord_FillFees o) fee).
Proof.
  intros Hwf Hrt Hrm [Hxs Hxp Hxv Hs Hp] Hrun. unfold settleTrade in Hrun. unfold feeBase, tradeMoves.
  assert (Hv : (0 <= dval (dec_Mul (fill_Size fill) (fill_Price fill)))%Q) by (rewrite dval_Mul; nra).
  destruct (ord_Side o =s? SideBuy).
  - apply bind_Ok in Hrun as (fee & Hrun0 & Hrun). apply bind_Ok in Hrun as (db1 & Hrun1 & Hrun).
    apply bind_Ok in Hrun as (db2 & Hrun2 & Hrun). apply bind_Ok in Hrun as (db3 & Hrun3 & Hrun).
    injection Hrun as <- <- <-.
    pose proof (fillFee_Ok _ _ _ _ Hrt Hrm Hrun0 Hs) as [Hf0 Hf1].
    apply AddDelayBill_added in Hrun1 as (a & h & Ha & Hh & Hb1); [|done|rewrite dval_Sub; lra].
    apply AddDelayBill_exact in Hrun2; [|apply (added_wf _ _ _ Hb1)|rewrite dval_Zero; lra|apply exact16_Zero|by apply exact16_Neg].
    apply feeBill_added in Hrun3 as (f & Hb3 & Hf & Hnear); [|apply (added_wf _ _ _ Hrun2)|done].
    exists fee, (dval a), f. split_and!; [done| | | |done|done].
    + intros Hx. split; [|by apply Hf]. apply store_exact in Ha; [|by apply exact16_Sub]. unfold deq in Ha. by rewrite Ha, dval_Sub.
    + eapply rounded_parts; [|exact Hnear]. rewrite <- dval_Sub. by apply store_near.
    + apply store_exact in Hh; [|apply exact16_Zero]. unfold deq in Hh. rewrite dval_Zero in Hh.
      eapply billsAdded_eq; [eapply billsAdded_trans; [eapply billsAdded_trans; [exact Hb1|exact Hrun2]|exact Hb3]|].
      intros p u c. unfold plusMove. rewrite (move_eq _ _ _ (dval h) (dval a) 0) by (done || reflexivity).
      rewrite (move_eq _ _ (dval dec_Zero) _ 0 (- (dval (fill_Size fill) * dval (fill_Price fill)))); [reflexivity|apply dval_Zero|].
      by rewrite dval_Neg, dval_Mul.
  - apply bind_Ok in Hrun as (fee & Hrun0 & Hrun). apply bind_Ok in Hrun as (db1 & Hrun1 & Hrun).
    apply bind_Ok in Hrun as (db2 & Hrun2 & Hrun). apply bind_Ok in Hrun as (db3 & Hrun3 & Hrun).
    injection Hrun as <- <- <-.
    pose proof (fillFee_Ok _ _ _ _ Hrt Hrm Hrun0 Hv) as [Hf0 Hf1].
    apply AddDelayBill_exact in Hrun1; [|done|rewrite dval_Zero; lra|apply exact16_Zero|by apply exact16_Neg].
    apply AddDelayBill_added in Hrun2 as (a & h & Ha & Hh & Hb2); [|apply (added_wf _ _ _ Hrun1)|rewrite dval_Sub; lra].
    apply feeBill_added in Hrun3 as (f & Hb3 & Hf & Hnear); [|apply (added_wf _ _ _ Hb2)|done].
    exists fee, (dval a), f. split_and!; [done| | | |done|done].
    + intros Hx. split; [|by apply Hf]. apply store_exact in Ha; [|by apply exact16_Sub]. unfold deq in Ha. by rewrite Ha, dval_Sub.
    + eapply rounded_parts; [|exact Hnear]. rewrite <- dval_Sub. by apply store_near.
    + apply store_exact in Hh; [|apply exact16_Zero]. unfold deq in Hh. rewrite dval_Zero in Hh.
      eapply billsAdded_eq; [eapply billsAdded_trans; [eapply billsAdded_trans; [exact Hrun1|exact Hb2]|exact Hb3]|].
      intros p u c. unfold plusMove. rewrite (move_eq _ _ _ (dval h) (dval a) 0) by (done || reflexivity).
      rewrite (move_eq _ _ (dval dec_Zero) _ 0 (- dval (fill_Size fill))); [reflexivity|apply dval_Zero|].
      by rewrite dval_Neg.
Qed.

(** The currency an order of [product] holds. *)
Definition holdsIn (product : Product) (o : Order) : string :=
  if ord_Side o =s? SideBuy then prod_QuoteCurrency product else prod_BaseCurrency product.

Lemma doneStatus_completed o fill status : doneStatus o fill = Ok status -> completed status = true.
Proof. unfold doneStatus. intros Hd. repeat case_bool; simplify_eq; done. Qed.

(** A done fill gives back what is left of the hold. *)
Lemma settleDone_spec now product o fill db o' f' db' : bills_wf (g_bill db) (next_bill db) ->
  exact16 (ord_Size o) -> exact16 (ord_Funds o) -> exact16 (ord_FilledSize o) -> exact16 (ord_ExecutedValue o) ->
  settleDone now product o fill db = Ok (o', f', db') ->
  exists status,
    doneStatus o fill = Ok status /\ o' = ord_setStatus o status (ord_UpdatedAt o) /\
    f' = fill_settle fill (fill_Fee fill) /\
    billsAdded db db' (move (ord_UserId o) (holdsIn product o) (Qmax 0 (held o - used o)) (- Qmax 0 (held o - used o))).
Proof.
  intros Hwf Hxs Hxf Hxz Hxe Hrun. unfold settleDone in Hrun.
  apply bind_Ok in Hrun as (status & Hst & Hrun). exists status.
  set (remaining := if ord_Side o =s? SideBuy then dec_Sub (ord_Funds o) (ord_ExecutedValue o) else dec_Sub (ord_Size o) (ord_FilledSize o)).
  assert (Hr : (dval remaining == held o - used o)%Q).
  { unfold remaining, held, used. destruct (ord_Side o =s? SideBuy); apply dval_Sub. }
  assert (Hx : exact16 remaining) by (unfold remaining; destruct (ord_Side o =s? SideBuy); by apply exact16_Sub).
  assert (Hbill : exists tx, (if dec_GreaterThan remaining dec_Zero
      then AddDelayBill now db (ord_UserId o) (holdsIn product o) remaining (dec_Neg remaining) BillTypeTrade (fillNotes fill)
      else mret db) = Ok tx /\ o' = ord_setStatus o status (ord_UpdatedAt o) /\ f' = fill_settle fill (fill_Fee fill) /\ db' = tx).
  { unfold remaining, holdsIn. cbn [ord_setStatus ord_Side ord_UserId ord_Funds ord_ExecutedValue ord_Size ord_FilledSize] in Hrun.
    destruct (ord_Side o =s? SideBuy); apply bind_Ok in Hrun as (tx & Hb & Hrun); injection Hrun as <- <- <-; eauto. }
  destruct Hbill as (tx & Hb & -> & -> & ->). split_and!; [done..|].
  destruct (dec_GreaterThan remaining dec_Zero) eqn:Hg; dec_prop; rewrite dval_Zero in Hg.
  - eapply billsAdded_eq; [eapply AddDelayBill_exact; [exact Hwf|exact Hb|lra|done|by apply exact16_Neg]|].
    intros. apply move_eq; [|rewrite dval_Neg]; rewrite Hr; (rewrite Q.max_r by lra); reflexivity.
  - injection Hb as <-. eapply billsAdded_eq; [by apply billsAdded_none|].
    intros. rewrite (move_eq _ _ _ _ 0 0); [by rewrite move_zero| |]; (rewrite Q.max_l by lra); ring.
Qed.

(** ** All fills of an order *)

(** The trades before the fill that ends the order, and that fill. *)
Fixpoint tradesOf (fills : list Fill) : list Fill :=
  match fills with [] => [] | f :: fills => if fill_Done f then [] else f :: tradesOf fills end.
Definition doneOf (fills : list Fill) : option Fill := List.find fill_Done fills.

Definition fillSettled (f f' : Fill) : Prop := f' = f \/ exists fee, f' = fill_settle f fee.

Record settled (product : Product) (o o' : Order) (fills fills' : list Fill) (d : part -> Z -> string -> Q) : Prop := {
  settled_same : sameOrder o o';
  settled_exact : exact16 (ord_FilledSize o') /\ exact16 (ord_ExecutedValue o');
  settled_size : (dval (ord_FilledSize o') == dval (ord_FilledSize o) + sumOf (fun f => dval (fill_Size f)) (tradesOf fills))%Q;
  settled_value : (dval (ord_ExecutedValue o') == dval (ord_ExecutedValue o)
    + sumOf (fun f => dval (fill_Size f) * dval (fill_Price f)) (tradesOf fills))%Q;
  settled_status : match doneOf fills with
    | None => ord_Status o' = ord_Status o
    | Some f => if fill_DoneReason f =s? DoneReasonFilled then ord_Status o' = OrderStatusFilled
                else ord_Status o' = if Qeq_bool (dval (ord_FilledSize o')) 0 then OrderStatusCancelled else OrderStatusPartial end;
  settled_fills : Forall2 fillSettled fills fills';
  settled_hold : forall u c, (d Hold u c == move (ord_UserId o) (holdsIn product o) 0 (remainingHold o' - remainingHold o) Hold u c)%Q;
}.

Lemma tradeMoves_hold product o size value a f u c :
  (tradeMoves product o size value a f Hold u c
   == move (ord_UserId o) (holdsIn product o) 0 (- (if ord_Side o =s? SideBuy then value else size)) Hold u c)%Q.
Proof.
  unfold tradeMoves, holdsIn, plusMove, move. destruct (ord_Side o =s? SideBuy); repeat case_decide; ring.
Qed.

Lemma remainingHold_open o : completed (ord_Status o) = false -> (remainingHold o == held o - used o)%Q.
Proof. unfold remainingHold. intros ->. reflexivity. Qed.

Lemma remainingHold_done o : completed (ord_Status o) = true -> (remainingHold o == held o - used o - Qmax 0 (held o - used o))%Q.
Proof.
  unfold remainingHold. intros ->. destruct (Q.max_spec 0 (held o - used o)) as [[? ->]|[? ->]].
  - rewrite Q.min_l by lra. ring.
  - rewrite Q.min_r by lra. ring.
Qed.

Lemma settled_done product o fill fills db o' f' db' now : bills_wf (g_bill db) (next_bill db) ->
  completed (ord_Status o) = false -> fill_Done fill = true ->
  exact16 (ord_Size o) -> exact16 (ord_Funds o) -> exact16 (ord_FilledSize o) -> exact16 (ord_ExecutedValue o) ->
  settleDone now product o fill db = Ok (o', f', db') ->
  exists d, billsAdded db db' d /\ settled product o o' (fill :: fills) (f' :: fills) d.
Proof.
  intros Hwf Hopen Hd Hxs Hxf Hxz Hxe Hrun.
  apply settleDone_spec in Hrun as (status & Hst & -> & -> & Hb); [|done..]. eexists. split; [exact Hb|].
  assert (Hc := doneStatus_completed _ _ _ Hst). split; cbn [tradesOf doneOf List.find].
  - by split.
  - done.
  - rewrite Hd. cbn. ring.
  - rewrite Hd. cbn. ring.
  - rewrite Hd. unfold doneStatus in Hst. cbn. destruct (fill_DoneReason fill =s? DoneReasonCancelled) eqn:E1.
    + apply String.eqb_eq in E1. rewrite E1. cbn. injection Hst as <-. rewrite dec_Equal_val.
      assert (Hz : Qeq_bool (dval (ord_FilledSize o)) (dval dec_Zero) = Qeq_bool (dval (ord_FilledSize o)) 0) by (by rewrite dval_Zero).
      by rewrite Hz.
    + destruct (fill_DoneReason fill =s? DoneReasonFilled); [|discriminate]. by injection Hst as <-.
  - constructor; [right; eauto|]. apply Forall2_same_length_lookup_2; [done|]. intros ? ? ? ? ?. left. congruence.
  - intros u c. unfold move. case_decide; [|reflexivity]. rewrite remainingHold_done, (remainingHold_open o) by done.
    change (held (ord_setStatus _ _ _)) with (held o). change (used (ord_setStatus _ _ _)) with (used o). ring.
Qed.

Lemma settleFills_spec now product fills : forall o db o' fills' db', bills_wf (g_bill db) (next_bill db) ->
  completed (ord_Status o) = false -> Forall fill_ok fills ->
  exact16 (ord_Size o) -> exact16 (ord_Funds o) -> exact16 (ord_FilledSize o) -> exact16 (ord_ExecutedValue o) ->
  ratio_ok (ord_TakerFeeRatio o) -> ratio_ok (ord_MakerFeeRatio o) ->
  settleFills now product o fills db = Ok (o', fills', db') ->
  exists d, billsAdded db db' d /\ settled product o o' fills fills' d.
Proof.
  induction fills as [|fill fills IH]; intros o db o' fills' db' Hwf Hopen Hok Hxs Hxf Hxz Hxe Hrt Hrm Hrun; cbn in Hrun.
  - simplify_eq. exists noMove. split; [by apply billsAdded_none|]. split; cbn; try done; try ring.
    intros u c. rewrite (move_eq _ _ _ _ 0 0); [by rewrite move_zero|reflexivity|ring].
  - apply Forall_cons in Hok as [Hf Hok]. destruct (fill_Done fill) eqn:Hd.
    + apply bind_Ok in Hrun as ([[o1 f1] db1] & Hdone & Hrun). injection Hrun as <- <- <-. by eapply settled_done.
    + apply bind_Ok in Hrun as ([[o1 f1] db1] & Htr & Hrun). apply bind_Ok in Hrun as ([[o2 fs2] db2] & Hrest & Hrun).
      injection Hrun as <- <- <-. specialize (Hf Hd).
      apply settleTrade_spec in Htr as (fee & a & f & _ & _ & _ & Hb & -> & ->); [|done..].
      pose proof (trade_size _ Hf). pose proof (trade_value _ Hf).
      apply IH in Hrest as (d & Hb2 & Hs); [|apply (added_wf _ _ _ Hb)|done|done|done|done|by apply exact16_Add|by apply exact16_Add|done|done].
      eexists. split; [eapply billsAdded_trans; [exact Hb|exact Hb2]|].
      destruct Hs as [[? ? ? ? ? ? ? ?] Hx Hsz Hv Hst Hfs Hh]. split; cbn [tradesOf doneOf List.find].
      * by split.
      * done.
      * rewrite Hd, Hsz, sumOf_cons. cbn. rewrite dval_Add. ring.
      * rewrite Hd, Hv, sumOf_cons. cbn. rewrite dval_Add, dval_Mul. ring.
      * rewrite Hd. exact Hst.
      * constructor; [right; eauto|done].
      * intros u c. unfold plusMove. rewrite tradeMoves_hold, Hh.
        change (holdsIn product (ord_addFill _ _ _ _)) with (holdsIn product o).
        change (ord_UserId (ord_addFill _ _ _ _)) with (ord_UserId o).
        unfold move. case_decide; [|ring]. rewrite (remainingHold_open o) by done.
        rewrite (remainingHold_open (ord_addFill _ _ _ _)) by done. unfold held, used. cbn.
        destruct (ord_Side o =s? SideBuy); rewrite dval_Add, ?dval_Mul; ring.
Qed.

(** ** Order rows *)

Lemma ratio_stored r c : store r = Ok c -> ratio_ok r -> ratio_ok c.
Proof. intros Hs [H0 H1]. split; [by eapply store_nonneg|by eapply store_le_one]. Qed.

(** What reading a row back gives: the same order, amounts up to equality of values. *)
Record rowOf (o row : Order) : Prop := {
  rowOf_id : ord_Id row = ord_Id o;
  rowOf_product : ord_ProductId row = ord_ProductId o;
  rowOf_user : ord_UserId row = ord_UserId o;
  rowOf_side : ord_Side row = ord_Side o;
  rowOf_status : ord_Status row = ord_Status o;
  rowOf_size : ord_Size row ≡d ord_Size o;
  rowOf_funds : ord_Funds row ≡d ord_Funds o;
  rowOf_filled : ord_FilledSize row ≡d ord_FilledSize o;
  rowOf_executed : ord_ExecutedValue row ≡d ord_ExecutedValue o;
}.

Lemma orderRow_Ok created updated o row i : orderRow created updated o = Ok row -> order_row_ok i o ->
  rowOf o row /\ order_row_ok i row.
Proof.
  unfold orderRow. intros Hr [Hu Hid Hs Hf Hz He Ht Hm]. go_simpl.
  repeat match goal with H : store ?d = Ok ?c |- _ =>
    lazymatch goal with _ : exact16 c |- _ => fail | _ => pose proof (store_exact16 _ _ H) end end.
  split; split; cbn; try done; try (by apply store_exact); by eapply ratio_stored.
Qed.

Lemma orderHold_row products u c o row : rowOf o row -> (orderHold products u c row == orderHold products u c o)%Q.
Proof.
  intros [Hi Hp Hu Hsd Hst Hs Hf Hz He]. unfold orderHold, holdCurrency. rewrite Hu, Hp, Hsd.
  case_decide; [|reflexivity]. unfold remainingHold, held, used, deq in *. rewrite Hsd, Hst.
  destruct (ord_Side o =s? SideBuy), (completed (ord_Status o)); rewrite ?Hs, ?Hf, ?Hz, ?He; reflexivity.
Qed.

Lemma orderHold_other products u c o : ord_UserId o <> u -> orderHold products u c o = 0%Q.
Proof. intros Hne. unfold orderHold. rewrite decide_False; [done|]. by intros [? _]. Qed.

(** The tables but the orders are left alone. *)
Definition sameBooks (db db' : Db) : Prop := db' = db_setOrders db (g_order db').

Lemma UpdateOrder_spec now db o0 o db' : orders_wf (g_order db) -> sameOrder o0 o ->
  o0 ∈ g_order db (GetTableIndexByUserId (ord_UserId o0)) ->
  exact16 (ord_FilledSize o) -> exact16 (ord_ExecutedValue o) -> UpdateOrder now db o = Ok db' ->
  orders_wf (g_order db') /\ sameBooks db db' /\
  (forall u c, openHolds u c db' == openHolds u c db - orderHold (g_product db) u c o0 + orderHold (g_product db) u c o)%Q.
Proof.
  intros Hwf Hsame Hin Hxz Hxe Hup. unfold UpdateOrder in Hup. rewrite (same_user _ _ Hsame) in Hup.
  set (i := GetTableIndexByUserId (ord_UserId o0)) in *. apply bind_Ok in Hup as (row & Hrow & Hup). injection Hup as <-.
  destruct Hwf as [Hids Hok].
  assert (Hok0 : order_row_ok i o0) by (pose proof (Hok i) as Hi; rewrite Forall_forall in Hi; auto).
  assert (Hoko : order_row_ok i o) by (by eapply order_row_ok_same).
  destruct (orderRow_Ok _ _ _ _ _ Hrow Hoko) as [Hrof Hrok].
  assert (Hid : ord_Id row = ord_Id o0) by (rewrite (rowOf_id _ _ Hrof); apply (same_id _ _ Hsame)).
  assert (Hid' : ord_Id row = ord_Id o) by apply (rowOf_id _ _ Hrof).
  assert (Ht : forall j, g_order (setTable db i (map (fun r => if ord_Id r =? ord_Id o then row else r) (g_order db i))) j
                 = if j =? i then replace ord_Id row (g_order db i) else g_order db j).
  { intros j. cbn. unfold replace. by rewrite Hid'. }
  split_and!.
  - split; intros j; rewrite Ht; destruct (Z.eqb_spec j i) as [->|]; [by rewrite replace_keys|done|by apply replace_Forall|done].
  - done.
  - intros u c. unfold openHolds. rewrite Ht. change (g_product (setTable _ _ _)) with (g_product db).
    destruct (Z.eqb_spec (GetTableIndexByUserId u) i) as [Hi|Hi].
    + rewrite (sumOf_replace ord_Id _ o0), (orderHold_row _ _ _ o row), Hi by done. reflexivity.
    + rewrite !(orderHold_other _ _ _ _); [ring| |].
      * rewrite (same_user _ _ Hsame). intros <-. done.
      * intros <-. done.
Qed.

(** What reads by id see of an update. *)
Lemma UpdateOrder_read now db o0 o db' : orders_wf (g_order db) -> sameOrder o0 o ->
  o0 ∈ g_order db (GetTableIndexByUserId (ord_UserId o0)) ->
  exact16 (ord_FilledSize o) -> exact16 (ord_ExecutedValue o) -> UpdateOrder now db o = Ok db' ->
  (exists row, rowOf o row /\ GetOrderById db' (ord_Id o) = Some row) /\
  (forall id, id <> ord_Id o -> GetOrderById db' id = GetOrderById db id).
Proof.
  intros Hwf Hsame Hin Hxz Hxe Hup. unfold UpdateOrder in Hup. rewrite (same_user _ _ Hsame) in Hup.
  set (i := GetTableIndexByUserId (ord_UserId o0)) in *. apply bind_Ok in Hup as (row & Hrow & Hup). injection Hup as <-.
  destruct Hwf as [Hids Hok].
  assert (Hok0 : order_row_ok i o0) by (pose proof (Hok i) as Hi; rewrite Forall_forall in Hi; auto).
  assert (Hoko : order_row_ok i o) by (by eapply order_row_ok_same).
  destruct (orderRow_Ok _ _ _ _ _ Hrow Hoko) as [Hrof Hrok].
  assert (Hid : ord_Id row = ord_Id o) by apply (rowOf_id _ _ Hrof).
  assert (Ht : forall j, g_order (setTable db i (map (fun r => if ord_Id r =? ord_Id o then row else r) (g_order db i))) j
                 = if j =? i then replace ord_Id row (g_order db i) else g_order db j).
  { intros j. cbn. unfold replace. by rewrite Hid. }
  split.
  - exists row. split; [done|]. unfold GetOrderById. rewrite Ht, <- Hid, (row_id _ _ Hrok), Z.eqb_refl. apply query_replace.
    rewrite Hid, (same_id _ _ Hsame). by apply list_elem_of_fmap_2.
  - intros id Hne. unfold GetOrderById. rewrite Ht. destruct (Z.eqb_spec (GetTableIndexByOrderId id) i) as [->|]; [|done].
    by rewrite query_replace_other by congruence.
Qed.

Lemma AddOrder_spec now db o db' : orders_wf (g_order db) -> order_row_ok (GetTableIndexByUserId (ord_UserId o)) o ->
  AddOrder now db o = Ok db' ->
  orders_wf (g_order db') /\ sameBooks db db' /\
  (forall u c, openHolds u c db' == openHolds u c db + orderHold (g_product db) u c o)%Q /\
  exists row, rowOf o row /\ order_row_ok (GetTableIndexByUserId (ord_UserId o)) row /\ GetOrderById db (ord_Id o) = None /\
    GetOrderById db' (ord_Id o) = Some row /\ (forall id, id <> ord_Id o -> GetOrderById db' id = GetOrderById db id).
Proof.
  intros Hwf Hoko Hadd. unfold AddOrder in Hadd. set (i := GetTableIndexByUserId (ord_UserId o)) in *.
  case_decide as Hnew; [discriminate|]. apply bind_Ok in Hadd as (row & Hrow & Hadd). injection Hadd as <-.
  destruct Hwf as [Hids Hok]. destruct (orderRow_Ok _ _ _ _ _ Hrow Hoko) as [Hrof Hrok].
  assert (Hid : ord_Id row = ord_Id o) by apply (rowOf_id _ _ Hrof).
  assert (Ht : forall j, g_order (setTable db i (g_order db i ++ [row])) j = if j =? i then g_order db i ++ [row] else g_order db j) by done.
  assert (Hsh : GetTableIndexByOrderId (ord_Id o) = i) by apply (row_id _ _ Hoko).
  assert (Hno : filter (fun o' => ord_Id o' = ord_Id o) (g_order db i) = []).
  { apply filter_none. intros o' Ho' He. apply Hnew. rewrite <- He. by apply list_elem_of_fmap_2. }
  split_and!.
  - split; intros j; rewrite Ht; destruct (Z.eqb_spec j i) as [->|]; try done.
    + rewrite fmap_app. apply NoDup_app. split; [done|]. split; [|apply NoDup_singleton].
      intros x Hx Hx'. apply list_elem_of_singleton in Hx' as ->. cbn in Hx. by rewrite Hid in Hx.
    + apply Forall_app. by split; [|constructor].
  - done.
  - intros u c. unfold openHolds. rewrite Ht. change (g_product (setTable _ _ _)) with (g_product db).
    destruct (Z.eqb_spec (GetTableIndexByUserId u) i) as [Hi|Hi].
    + rewrite sumOf_app, sumOf_cons, (orderHold_row _ _ _ o row), Hi by done. cbn. ring.
    + rewrite (orderHold_other _ _ _ _); [ring|]. intros <-. done.
  - exists row. split_and!; [done|done| | |].
    + unfold GetOrderById. by rewrite Hsh, Hno.
    + unfold GetOrderById. rewrite Hsh, Ht, Z.eqb_refl, filter_app, Hno. cbn. by rewrite decide_True.
    + intros id Hne. unfold GetOrderById. rewrite Ht. destruct (Z.eqb_spec (GetTableIndexByOrderId id) i) as [->|]; [|done].
      rewrite filter_app, filter_cons_False, filter_nil, app_nil_r by congruence. done.
Qed.

(** A row of another status is not hit. *)
Lemma UpdateOrderStatus_read now db id old new b db' id' o : UpdateOrderStatus now db id old new = Ok (b, db') ->
  GetOrderById db id' = Some o -> ord_Status o <> old -> GetOrderById db' id' = Some o.
Proof.
  intros Hup Hget Hne. unfold UpdateOrderStatus in Hup. injection Hup as _ <-. unfold GetOrderById in *.
  change (g_order (setTable db ?i ?l) ?j) with (if j =? i then l else g_order db j).
  destruct (_ =? _) eqn:Hi; [|done]. apply Z.eqb_eq in Hi. rewrite Hi in Hget. revert Hget.
  induction (g_order db (GetTableIndexByOrderId id)) as [|r l IH]; [done|]. cbn [map].
  assert (Hid : forall r, ord_Id (if (ord_Id r =? id) && (ord_Status r =s? old) then ord_setStatus r new now else r) = ord_Id r)
    by (intros x; by case_match).
  rewrite !filter_cons, Hid. case_decide; [|exact IH]. cbn. intros [= ->]. f_equal.
  destruct (ord_Status o =s? old) eqn:Hs; [by apply String.eqb_eq in Hs|]. by rewrite andb_false_r.
Qed.

Lemma UpdateOrderStatus_spec now db id old new b db' : orders_wf (g_order db) ->
  completed old = false -> completed new = false -> UpdateOrderStatus now db id old new = Ok (b, db') ->
  orders_wf (g_order db') /\ sameBooks db db' /\ (forall u c, openHolds u c db' == openHolds u c db)%Q.
Proof.
  intros [Hids Hok] Ho Hn Hup. unfold UpdateOrderStatus in Hup. injection Hup as _ <-.
  set (i := GetTableIndexByOrderId id). 
  set (upd := fun o => if (ord_Id o =? id) && (ord_Status o =s? old) then ord_setStatus o new now else o).
  assert (Ht : forall j, g_order (setTable db i (map upd (g_order db i))) j = if j =? i then upd <$> g_order db i else g_order db j) by done.
  split_and!.
  - split; intros j; rewrite Ht; destruct (Z.eqb_spec j i) as [->|]; try done.
    + rewrite <- list_fmap_compose. rewrite (list_fmap_ext _ ord_Id); [done|]. intros _ o _. cbn. unfold upd. by case_match.
    + apply Forall_fmap. eapply Forall_impl; [apply Hok|]. intros o Hro. unfold upd. cbn. case_match; [|done].
      by destruct Hro; split.
  - done.
  - intros u c. unfold openHolds. rewrite Ht. change (g_product (setTable _ _ _)) with (g_product db).
    destruct (Z.eqb_spec (GetTableIndexByUserId u) i) as [Hi|Hi]; [|reflexivity].
    rewrite Hi. clear Ht. induction (g_order db i) as [|o l IH]; [reflexivity|]. rewrite fmap_cons, !sumOf_cons, IH.
    assert (Hh : (orderHold (g_product db) u c (upd o) == orderHold (g_product db) u c o)%Q); [|by rewrite Hh].
    unfold upd. destruct (_ && _) eqn:Hb; [|reflexivity]. apply andb_true_iff in Hb as [_ Hb]. apply String.eqb_eq in Hb.
    unfold orderHold, remainingHold, holdCurrency, held, used. cbn. rewrite Hb, Ho, Hn. reflexivity.
Qed.

(** ** What the fills are worth *)

(** All that a set of users owns in a currency, pending bills included. *)
Definition owned (u : Z) (c : string) (db : Db) : Q :=
  (balance Available u c db + balance Hold u c db + (pendingBills Available u c db + pendingBills Hold u c db))%Q.
Definition wealth (us : list Z) (c : string) (db : Db) : Q := sumOf (fun u => owned u c db) us.

(** What a movement adds to the users' wealth. *)
Definition worth (us : list Z) (c : string) (d : part -> Z -> string -> Q) : Q := sumOf (fun u => d Available u c + d Hold u c)%Q us.

Lemma sumOf_plus {A} (f g : A -> Q) l : (sumOf (fun a => f a + g a) l == sumOf f l + sumOf g l)%Q.
Proof.
  induction l as [|a l IH]; [reflexivity|]. rewrite !sumOf_cons, IH. ring.
Qed.

Lemma worth_plus us c d d' : (worth us c (plusMove d d') == worth us c d + worth us c d')%Q.
Proof.
  unfold worth. rewrite <- sumOf_plus. apply sumOf_ext. intros u _. unfold plusMove. ring.
Qed.

Lemma worth_move us c u c' a h : NoDup us -> u ∈ us -> (worth us c (move u c' a h) == if decide (c' = c) then a + h else 0)%Q.
Proof.
  intros Hd Hu. unfold worth, move. induction Hd as [|x us Hx Hd IH]; [by apply elem_of_nil in Hu|].
  rewrite sumOf_cons. destruct (decide (u = x)) as [->|Hne].
  - assert (Hz : (sumOf (fun y => (if decide (x = y /\ c' = c) then a else 0) + (if decide (x = y /\ c' = c) then h else 0)) us == 0)%Q).
    { apply sumOf_zero. intros y Hy. rewrite !decide_False by (intros [-> _]; done). ring. }
    rewrite Hz. destruct (decide (c' = c)) as [->|Hc]; [rewrite !decide_True by done|rewrite !decide_False by tauto]; ring.
  - rewrite IH by set_solver. rewrite !(decide_False (P := u = x /\ _)) by tauto. ring.
Qed.

(** The value in [c] of [size] of the base currency bought for [value]. *)
Definition tradeWorth (product : Product) (o : Order) (c : string) (size value : Q) : Q :=
  let base := if decide (prod_BaseCurrency product = c) then size else 0%Q in
  let quote := if decide (prod_QuoteCurrency product = c) then value else 0%Q in
  if ord_Side o =s? SideBuy then (base - quote)%Q else (quote - base)%Q.

(** The currency a trade earns its order, and how far its two parts are from the whole. *)
Definition earnsIn (product : Product) (o : Order) : string :=
  if ord_Side o =s? SideBuy then prod_BaseCurrency product else prod_QuoteCurrency product.

Lemma worth_trade us c product o size value a f : NoDup us -> ord_UserId o ∈ us -> 0 ∈ us ->
  (worth us c (tradeMoves product o size value a f) == tradeWorth product o c size value
     + (if decide (earnsIn product o = c) then a + f - (if ord_Side o =s? SideBuy then size else value) else 0))%Q.
Proof.
  intros Hd Hu H0. unfold tradeMoves, tradeWorth, earnsIn.
  destruct (ord_Side o =s? SideBuy); rewrite !worth_plus, !worth_move by done; repeat case_decide; lra.
Qed.

(** The columns hold the fee of a fill exactly. *)
Definition feeExact (o : Order) (f : Fill) : Prop :=
  exact16 (dec_Mul (feeBase o f) (ord_TakerFeeRatio o)) /\ exact16 (dec_Mul (feeBase o f) (ord_MakerFeeRatio o)).

Lemma fillFee_exact o f fee : feeExact o f -> fillFee o f (feeBase o f) = Ok fee -> exact16 fee.
Proof. intros [Ht Hm] Hf. unfold fillFee in Hf. repeat case_bool; by simplify_eq. Qed.

(** Units of the columns. *)
Definition units (n : nat) : Q := (inject_Z (Z.of_nat n) * ulp columnScale)%Q.
Lemma units_S n : (units (S n) == ulp columnScale + units n)%Q.
Proof. unfold units. rewrite Nat2Z.inj_succ, <- Z.add_1_l, inject_Z_plus. change (inject_Z 1) with 1%Q. ring. Qed.
Lemma units_add n m : (units (n + m) == units n + units m)%Q.
Proof. unfold units. rewrite Nat2Z.inj_add, inject_Z_plus. ring. Qed.

(** Settling the fills of an order moves the users' wealth by what the trades
    are worth, and by at most a unit for each trade, which is the rounding of
    the fee and of what is left of the amount. *)
Lemma settleFills_worth now product us c fills : NoDup us -> 0 ∈ us -> forall o db o' fills' db', ord_UserId o ∈ us ->
  bills_wf (g_bill db) (next_bill db) -> Forall fill_ok fills ->
  exact16 (ord_Size o) -> exact16 (ord_Funds o) -> exact16 (ord_FilledSize o) -> exact16 (ord_ExecutedValue o) ->
  ratio_ok (ord_TakerFeeRatio o) -> ratio_ok (ord_MakerFeeRatio o) ->
  settleFills now product o fills db = Ok (o', fills', db') ->
  exists d e, billsAdded db db' d /\
    (worth us c d == tradeWorth product o c (sumOf (fun f => dval (fill_Size f)) (tradesOf fills))
                       (sumOf (fun f => dval (fill_Size f) * dval (fill_Price f)) (tradesOf fills)) + e)%Q /\
    (Qabs e <= units (length (tradesOf fills)))%Q /\ (Forall (feeExact o) (tradesOf fills) -> e == 0)%Q.
Proof.
  intros Hnd H0. induction fills as [|fill fills IH]; intros o db o' fills' db' Hu Hwf Hok Hxs Hxf Hxz Hxe Hrt Hrm Hrun; cbn in Hrun.
  - injection Hrun as <- <- <-. exists noMove, 0%Q. split; [by apply billsAdded_none|].
    unfold worth, tradeWorth, noMove. rewrite sumOf_zero by (intros; ring).
    split_and!; [|vm_compute; discriminate|reflexivity]. cbn. destruct (ord_Side o =s? SideBuy); repeat case_decide; ring.
  - apply Forall_cons in Hok as [Hf Hok]. cbn [tradesOf] in *. destruct (fill_Done fill) eqn:Hd.
    + apply bind_Ok in Hrun as ([[o1 f1] db1] & Hdone & Hrun). injection Hrun as <- <- <-.
      apply settleDone_spec in Hdone as (status & _ & _ & _ & Hb); [|done..]. eexists _, 0%Q. split; [exact Hb|].
      split_and!; [|vm_compute; discriminate|reflexivity].
      rewrite worth_move by done. unfold tradeWorth. cbn. destruct (ord_Side o =s? SideBuy); repeat case_decide; ring.
    + apply bind_Ok in Hrun as ([[o1 f1] db1] & Htr & Hrun). apply bind_Ok in Hrun as ([[o2 fs2] db2] & Hrest & Hrun).
      injection Hrun as <- <- <-. specialize (Hf Hd).
      apply settleTrade_spec in Htr as (fee & a & f & Hfee & Haf & Hnear & Hb & -> & ->); [|done..].
      pose proof (trade_size _ Hf). pose proof (trade_value _ Hf).
      apply IH in Hrest as (d & e & Hb2 & Hs & He & Hx);
        [|done|apply (added_wf _ _ _ Hb)|done|done|done|by apply exact16_Add|by apply exact16_Add|done|done].
      set (whole := if ord_Side o =s? SideBuy then dval (fill_Size fill) else (dval (fill_Size fill) * dval (fill_Price fill))%Q).
      assert (Hwhole : (dval (feeBase o fill) == whole)%Q)
        by (unfold feeBase, whole; destruct (ord_Side o =s? SideBuy); [reflexivity|apply dval_Mul]).
      rewrite Hwhole in Hnear. pose proof (ulp_pos columnScale ltac:(done)) as Hpos.
      exists (plusMove (tradeMoves product o (dval (fill_Size fill)) (dval (fill_Size fill) * dval (fill_Price fill)) a f) d).
      exists ((if decide (earnsIn product o = c) then a + f - whole else 0) + e)%Q.
      split; [by eapply billsAdded_trans|]. split_and!.
      * rewrite worth_plus, Hs, worth_trade by done. rewrite !sumOf_cons. unfold tradeWorth. cbn [ord_Side ord_addFill].
        fold whole. destruct (ord_Side o =s? SideBuy); repeat case_decide; ring.
      * cbn [length]. rewrite units_S. eapply Qle_trans; [apply Qabs_triangle|]. apply Qplus_le_compat; [|done].
        case_decide; [done|]. apply Qabs_Qle_condition. lra.
      * intros Hex. apply Forall_cons in Hex as [Hxf1 Hex]. specialize (Hx Hex).
        destruct (Haf (fillFee_exact _ _ _ Hxf1 Hfee)) as [Ha Hfv]. rewrite Hwhole in Ha. case_decide; rewrite ?Ha, Hx, ?Hfv; ring.
Qed.
End OrderInv.
