(* ===== verification/FillSums.v ===== *)
(** The settled trades of the fill table: what a sum over them becomes when
    fills are added ([AddFills]), settled ([settleFills]) and written back
    ([updateFills]). *)
From S2P Require Import Prelude Decimal Models Ledger Settlement LedgerInv Accounting OrderInv.
From Stdlib Require Import QArith Qabs Lqa.
From stdpp Require Import list.
Open Scope list_scope.
Open Scope Z_scope.

(** A fill that is a trade and has been worked by [ExecuteFill]. *)
Definition settledTrade {P : DecimalPkg} (f : Fill) : Prop := fill_Settled f = true /\ fill_Done f = false.
#[export] Instance settledTrade_dec {P : DecimalPkg} (f : Fill) : Decision (settledTrade f).
Proof. unfold settledTrade. apply _. Defined.

Section FillSums.
Context {P : DecimalPkg} {L : DecimalLaws P} {C : Column} {CL : ColumnLaws L C}.

(** A weight of fills that looks at the order, the size and the price only. *)
Class FillWeight (w : Fill -> Q) : Prop :=
  fill_weight : forall f f', fill_OrderId f' = fill_OrderId f -> fill_Size f' ≡d fill_Size f -> fill_Price f' ≡d fill_Price f ->
    (w f' == w f)%Q.

Definition ifSettled (w : Fill -> Q) (f : Fill) : Q := if decide (settledTrade f) then w f else 0%Q.
Definition fillSum (w : Fill -> Q) (db : Db) : Q := sumOf (ifSettled w) (g_fill db).

Lemma fillSum_ext w w' db : (forall f, f ∈ g_fill db -> settledTrade f -> w f == w' f)%Q -> (fillSum w db == fillSum w' db)%Q.
Proof. intros He. apply sumOf_ext. intros f Hf. unfold ifSettled. case_decide; [auto|reflexivity]. Qed.

Lemma fillSum_filter w db : (fillSum w db == sumOf w (filter settledTrade (g_fill db)))%Q.
Proof.
  unfold fillSum, ifSettled. induction (g_fill db) as [|f l IH]; [reflexivity|]. rewrite sumOf_cons, IH, filter_cons.
  case_decide; [by rewrite sumOf_cons|]. ring.
Qed.

Lemma ifSettled_not w f : ~ settledTrade f -> ifSettled w f = 0%Q.
Proof. intros H. unfold ifSettled. by rewrite decide_False. Qed.

Lemma unsettled_not f : fill_Settled f = false -> ~ settledTrade f.
Proof. intros Hs [Hs' _]. congruence. Qed.

Lemma sumOf_unsettled w fills : Forall (fun f => fill_Settled f = false) fills -> (sumOf (ifSettled w) fills == 0)%Q.
Proof.
  intros Hu. apply sumOf_zero. intros f Hf. rewrite Forall_forall in Hu. rewrite ifSettled_not; [reflexivity|].
  by apply unsettled_not, Hu.
Qed.

(** ** Adding fills *)

Lemma AddFills_unsettled now w fills : forall db db', Forall (fun f => fill_Settled f = false) fills ->
  AddFills now db fills = Ok db' ->
  (fillSum w db' == fillSum w db)%Q /\ forall r, r ∈ g_fill db' -> settledTrade r -> r ∈ g_fill db.
Proof.
  induction fills as [|f fills IH]; intros db db' Hu Hrun; cbn in Hrun; [by injection Hrun as <-|].
  apply Forall_cons in Hu as [Hf Hu]. case_decide; [by apply IH|]. destruct (IH _ _ Hu Hrun) as [Hs Hr]. cbn in Hr.
  set (row := fillRow _ _ _ _ _ _ _ f) in *. assert (Hrow : ~ settledTrade row) by (by apply unsettled_not). split.
  - rewrite Hs. unfold fillSum. cbn [g_fill db_setFills]. fold row. rewrite sumOf_app, sumOf_cons, ifSettled_not by done. cbn. ring.
  - intros r Hin Hst. specialize (Hr _ Hin Hst). apply elem_of_app in Hr as [|Hr]; [done|].
    by apply list_elem_of_singleton in Hr as ->.
Qed.

(** ** Settling and writing back *)

Section Weight.
Context (w : Fill -> Q) `{!FillWeight w}.

Lemma ifSettled_row id cr up size price funds fee f : fill_ok f -> store (fill_Size f) = Ok size -> store (fill_Price f) = Ok price ->
  (ifSettled w (fillRow id cr up size price funds fee f) == ifSettled w f)%Q.
Proof.
  intros Hf Hs Hp. unfold ifSettled.
  rewrite (decide_ext (settledTrade (fillRow id cr up size price funds fee f)) (settledTrade f)) by done.
  case_decide as Hst; [|reflexivity]. destruct (Hf (proj2 Hst)) as [Hxs Hxp _ _ _].
  apply fill_weight; [done|by apply store_exact in Hs|by apply store_exact in Hp].
Qed.

(** The rows read, and the fills written back to them. *)
Lemma updateFills_sum fills : forall now read db db', updateFills now db fills = Ok db' ->
  Forall2 (fun f f' => fill_Id f' = fill_Id f) read fills -> Forall (fun f => f ∈ g_fill db) read ->
  NoDup (fill_Id <$> read) -> NoDup (fill_Id <$> g_fill db) -> Forall fill_ok fills ->
  (fillSum w db' == fillSum w db - sumOf (ifSettled w) read + sumOf (ifSettled w) fills)%Q.
Proof.
  induction fills as [|f fills IH]; intros now read db db' Hrun Hids Hin Hnd Hd Hok; cbn in Hrun.
  - injection Hrun as <-. apply Forall2_nil_inv_r in Hids as ->. cbn. ring.
  - apply Forall2_cons_inv_r in Hids as (g & read' & Hid & Hids & ->). apply Forall_cons in Hin as [Hg Hin].
    rewrite fmap_cons in Hnd. apply NoDup_cons in Hnd as [Hno Hnd]. apply Forall_cons in Hok as [Hf Hok].
    apply bind_Ok in Hrun as (tx & Hup & Hrun). unfold UpdateFill in Hup. go_simpl.
    match type of Hrun with context [fillRow ?i ?c ?u ?a ?b ?d ?e f] => set (row := fillRow i c u a b d e f) in * end.
    change (map _ (g_fill db)) with (replace fill_Id row (g_fill db)) in Hrun.
    assert (Hkey : fill_Id row = fill_Id g) by done.
    apply IH with (read := read') in Hrun; [| done | | done | cbn; by rewrite replace_keys | done].
    + rewrite Hrun. unfold fillSum. cbn [g_fill db_setFills]. rewrite ?sumOf_cons, (sumOf_replace fill_Id _ g) by done.
      unfold row. rewrite ifSettled_row by done. ring.
    + rewrite Forall_forall in *. intros r Hr. cbn. apply replace_keeps; [auto|]. rewrite Hkey. intros He. apply Hno.
      rewrite <- He. by apply list_elem_of_fmap_2.
Qed.

(** The unsettled fills [settleFills] is given, and what it makes of them. *)
Lemma settleFills_sum now product fills : forall o db o' fills' db', Forall (fun f => fill_Settled f = false) fills ->
  settleFills now product o fills db = Ok (o', fills', db') -> (sumOf (ifSettled w) fills' == sumOf w (tradesOf fills))%Q.
Proof.
  induction fills as [|f fills IH]; intros o db o' fills' db' Hu Hrun; cbn in Hrun; [injection Hrun as <- <- <-; reflexivity|].
  apply Forall_cons in Hu as [Hf Hu]. cbn [tradesOf]. destruct (fill_Done f) eqn:Hd.
  - apply bind_Ok in Hrun as ([[o1 f1] db1] & Hdone & Hrun). injection Hrun as <- <- <-.
    unfold settleDone in Hdone. apply bind_Ok in Hdone as (st & _ & Hdone). case_match.
    apply bind_Ok in Hdone as (tx & _ & Hdone). injection Hdone as _ <- _.
    rewrite sumOf_cons, sumOf_unsettled, ifSettled_not by (done || (intros [_ Hd']; cbn in Hd'; congruence)). cbn. ring.
  - apply bind_Ok in Hrun as ([[o1 f1] db1] & Htr & Hrun). apply bind_Ok in Hrun as ([[o2 fs2] db2] & Hrest & Hrun).
    injection Hrun as <- <- <-. rewrite !sumOf_cons, (IH _ _ _ _ _ Hu Hrest).
    assert (Hf1 : exists fee, f1 = fill_settle f fee).
    { unfold settleTrade in Htr. cbn in Htr. destruct (ord_Side o =s? SideBuy); go_simpl; eauto. }
    destruct Hf1 as [fee ->]. unfold ifSettled. rewrite decide_True by done.
    rewrite (fill_weight f (fill_settle f fee)) by done. reflexivity.
Qed.
End Weight.

(** The rows after writing back are rows from before or the rows of the fills. *)
Lemma updateFills_rows fills : forall now db db' r, updateFills now db fills = Ok db' -> r ∈ g_fill db' ->
  r ∈ g_fill db \/ exists f, f ∈ fills /\ fill_OrderId r = fill_OrderId f.
Proof.
  induction fills as [|f fills IH]; intros now db db' r Hrun Hr; cbn in Hrun; [injection Hrun as <-; by left|].
  apply bind_Ok in Hrun as (tx & Hup & Hrun). unfold UpdateFill in Hup. go_simpl.
  destruct (IH _ _ _ _ Hrun Hr) as [Hr'|(g & Hg & He)]; [|right; exists g; split; [by right|done]].
  apply (replace_elem fill_Id (fillRow (fill_Id f) (fill_CreatedAt f) now _ _ _ _ f)) in Hr' as [->|Hr'];
    [right; exists f; split; [by left|done]|by left].
Qed.
End FillSums.
