(* ===== verification/Transactions.v ===== *)
(** The transactions on orders ([PlaceOrder], [ExecuteFill]), and the database
    as a transition system of the transactions the services commit. *)
From S2P Require Import Prelude Decimal Models Ledger Settlement LedgerInv Accounting OrderInv FillSums.
From Stdlib Require Import QArith Qabs Qminmax Lqa.
From stdpp Require Import list relations.
Open Scope list_scope.
Open Scope Z_scope.

Section Transactions.
Context {P : DecimalPkg} {L : DecimalLaws P} {C : Column} {CL : ColumnLaws L C}.

(** ** Fills *)

Lemma fill_ok_stored f size price funds fee id cr up : fill_ok f -> store (fill_Size f) = Ok size -> store (fill_Price f) = Ok price ->
  fill_ok (fillRow id cr up size price funds fee f).
Proof.
  intros Hf Hs Hp Hd. destruct (Hf Hd) as [Hxs Hxp Hxv H0 H1].
  pose proof (store_exact _ _ Hs Hxs) as Es. pose proof (store_exact _ _ Hp Hxp) as Ep. unfold deq in Es, Ep.
  split; cbn.
  - by eapply store_exact16.
  - by eapply store_exact16.
  - eapply exact16_proper; [|exact Hxv]. unfold deq. by rewrite !dval_Mul, Es, Ep.
  - by rewrite Es.
  - by rewrite Ep.
Qed.

Lemma fill_ok_settle f f' : fillSettled f f' -> fill_ok f -> fill_ok f' /\ fill_Id f' = fill_Id f.
Proof. intros [->|[fee ->]] Hf; [done|]. split; [|done]. intros Hd. by destruct (Hf Hd); split. Qed.

(** The tables but the fills are left alone. *)
Definition sameButFills (db db' : Db) : Prop := db' = db_setFills db (g_fill db') (next_fill db').

Lemma fills_replace l n row : fills_wf l n -> fill_ok row -> fill_Id row < n -> fills_wf (replace fill_Id row l) n.
Proof.
  intros [Hi Hn Ho] Hok Hid. split; [by rewrite replace_keys|by apply replace_Forall|by apply replace_Forall].
Qed.

Lemma updateFills_spec now fills : forall db db', fills_wf (g_fill db) (next_fill db) ->
  Forall (fun f => fill_ok f /\ fill_Id f < next_fill db) fills -> updateFills now db fills = Ok db' ->
  fills_wf (g_fill db') (next_fill db') /\ sameButFills db db' /\ next_fill db' = next_fill db.
Proof.
  induction fills as [|f fills IH]; intros db db' Hwf Hall Hrun; cbn in Hrun.
  - injection Hrun as <-. split; [done|]. split; [by destruct db|done].
  - apply Forall_cons in Hall as [[Hf Hn] Hall]. apply bind_Ok in Hrun as (tx & Hup & Hrun).
    unfold UpdateFill in Hup. go_simpl.
    set (row := fillRow (fill_Id f) (fill_CreatedAt f) now a a0 a1 a2 f) in *.
    assert (Hok : fill_ok row) by (by eapply fill_ok_stored).
    apply IH in Hrun as (Hwf' & Hsame & Hnext); [|clear IH|done].
    + split_and!; [done| |done]. unfold sameButFills in *. rewrite Hsame. done.
    + exact (fills_replace _ _ row Hwf Hok Hn).
Qed.

(** Updates are seen by later reads, and rows of other ids are not touched. *)
Lemma updateFills_other now fills : forall db db' r, updateFills now db fills = Ok db' -> r ∈ g_fill db' ->
  fill_Id r ∉ fill_Id <$> fills -> r ∈ g_fill db.
Proof.
  induction fills as [|f fills IH]; intros db db' r Hrun Hr Hno; cbn in Hrun; [by injection Hrun as <-|].
  apply bind_Ok in Hrun as (tx & Hup & Hrun). rewrite fmap_cons, not_elem_of_cons in Hno. destruct Hno as [Hne Hno].
  eapply IH in Hrun; [|exact Hr|exact Hno]. unfold UpdateFill in Hup. go_simpl.
  change (map _ (g_fill db)) with (replace fill_Id (fillRow (fill_Id f) (fill_CreatedAt f) now a a0 a1 a2 f) (g_fill db)) in Hrun.
  apply replace_elem in Hrun as [->|?]; [done|done].
Qed.

Lemma updateFills_settled now fills : forall db db' f r, updateFills now db fills = Ok db' -> NoDup (fill_Id <$> fills) ->
  f ∈ fills -> fill_Settled f = true -> r ∈ g_fill db' -> fill_Id r = fill_Id f -> fill_Settled r = true.
Proof.
  induction fills as [|g fills IH]; intros db db' f r Hrun Hd Hf Hs Hr Hid; cbn in Hrun; [by apply elem_of_nil in Hf|].
  apply bind_Ok in Hrun as (tx & Hup & Hrun). rewrite fmap_cons in Hd. apply NoDup_cons in Hd as [Hg Hd].
  apply elem_of_cons in Hf as [->|Hf]; [|by eapply IH].
  eapply updateFills_other in Hrun; [|exact Hr|by rewrite Hid]. unfold UpdateFill in Hup. go_simpl.
  apply list_elem_of_fmap in Hrun as (x & -> & Hx). destruct (Z.eqb_spec (fill_Id x) (fill_Id g)) as [He|He]; [done|].
  by rewrite Hid in He.
Qed.

(** A fill as the fill maker hands it over: not settled, and the columns can hold it. *)
Definition fits (d : Dec) : Prop := exact16 d /\ is_Some (column d).
Definition fill_fits (f : Fill) : Prop := fill_ok f /\ fill_Settled f = false /\ (fill_Done f = false -> fits (fill_Size f) /\ fits (fill_Price f)).

Lemma clamp_fits d : fits d -> store d = Ok (clamp d).
Proof. intros [_ [c Hc]]. unfold store. rewrite Hc. by rewrite (clamp_column _ _ Hc). Qed.

Lemma AddFills_spec now fills : forall db db', fills_wf (g_fill db) (next_fill db) -> Forall fill_fits fills ->
  AddFills now db fills = Ok db' -> fills_wf (g_fill db') (next_fill db') /\ sameButFills db db'.
Proof.
  induction fills as [|f fills IH]; intros db db' Hwf Hall Hrun; cbn in Hrun.
  - injection Hrun as <-. split; [done|by destruct db].
  - apply Forall_cons in Hall as [(Hf & _ & Hfit) Hall]. case_decide; [by eapply IH|].
    apply IH in Hrun as [Hwf' Hsame]; [|clear IH|done].
    + split; [done|]. unfold sameButFills in *. rewrite Hsame. done.
    + cbn. destruct Hwf as [Hi Hn Ho]. set (row := fillRow _ _ _ _ _ _ _ f).
      destruct (fresh_key fill_Id (g_fill db) row (next_fill db)) as [? ?]; [done..|]. split; [done|done|].
      apply Forall_app. split; [done|]. constructor; [|done]. intros Hd. cbn in Hd.
      eapply fill_ok_stored; [exact Hf|by apply clamp_fits, Hfit|by apply clamp_fits, Hfit|exact Hd].
Qed.

(** ** Executing the fills of an order *)

Lemma GetOrderById_Some db id o : orders_wf (g_order db) -> GetOrderByIdForUpdate db id = Some o ->
  ord_Id o = id /\ o ∈ g_order db (GetTableIndexByUserId (ord_UserId o))
  /\ order_row_ok (GetTableIndexByUserId (ord_UserId o)) o.
Proof.
  intros [_ Hok] Hget. apply query_Some in Hget as [Hin Hid].
  assert (Ho : order_row_ok (GetTableIndexByOrderId id) o).
  { pose proof (Hok (GetTableIndexByOrderId id)) as H. rewrite Forall_forall in H. auto. }
  pose proof (row_user _ _ Ho) as Hu. rewrite Hu. done.
Qed.

(** The fills [ExecuteFill] works: the trades and the one that ends the order. *)
Definition workedOf (fills : list Fill) : list Fill := tradesOf fills ++ option_list (doneOf fills).

Lemma settleFills_worked now product fills : forall o db o' fills' db', settleFills now product o fills db = Ok (o', fills', db') ->
  fill_Id <$> fills' = fill_Id <$> fills /\
  forall f, f ∈ workedOf fills -> exists f', f' ∈ fills' /\ fill_Id f' = fill_Id f /\ fill_Settled f' = true.
Proof.
  unfold workedOf. induction fills as [|fill fills IH]; intros o db o' fills' db' Hrun; cbn in Hrun.
  - injection Hrun as <- <- <-. split; [done|]. intros f Hf. by apply elem_of_nil in Hf.
  - cbn. destruct (fill_Done fill) eqn:Hd.
    + apply bind_Ok in Hrun as ([[o1 f1] db1] & Hdone & Hrun). injection Hrun as <- <- <-.
      unfold settleDone in Hdone. apply bind_Ok in Hdone as (st & _ & Hdone). cbn in Hdone.
      assert (f1 = fill_settle fill (fill_Fee fill)) as ->.
      { destruct (ord_Side o =s? SideBuy); apply bind_Ok in Hdone as (tx & _ & Hdone); by injection Hdone as _ <- _. }
      split; [done|]. intros f Hf. apply list_elem_of_singleton in Hf as ->. eexists. split; [left|done].
    + apply bind_Ok in Hrun as ([[o1 f1] db1] & Htr & Hrun). apply bind_Ok in Hrun as ([[o2 fs2] db2] & Hrest & Hrun).
      injection Hrun as <- <- <-. destruct (IH _ _ _ _ _ Hrest) as [IH1 IH2].
      assert (Hf1 : exists fee, f1 = fill_settle fill fee).
      { unfold settleTrade in Htr. cbn in Htr. destruct (ord_Side o =s? SideBuy); go_simpl; eauto. }
      destruct Hf1 as [fee ->]. split; [rewrite !fmap_cons, IH1; done|].
      intros f Hf. apply elem_of_cons in Hf as [->|Hf].
      * eexists. split; [left|done].
      * destruct (IH2 _ Hf) as (f' & ? & ? & ?). exists f'. split; [by right|done].
Qed.

Lemma wealth_added us c db db' d : (forall p u c, balance p u c db' = balance p u c db) ->
  (forall p u c, pendingBills p u c db' == pendingBills p u c db + d p u c)%Q -> (wealth us c db' == wealth us c db + worth us c d)%Q.
Proof.
  intros Hb Hp. unfold wealth, worth. rewrite <- sumOf_plus. apply sumOf_ext. intros u _.
  unfold owned. rewrite !Hb, !Hp. ring.
Qed.

(** What a committed [ExecuteFill] has done. *)
Record fillExecuted (db db' : Db) (o o' : Order) (product : Product) (fills fills' : list Fill) : Prop := {
  executed_wf : db_wf db';
  executed_accounts : g_account db' = g_account db /\ g_product db' = g_product db;
  executed_bills : exists d, settled product o o' fills fills' d /\
    (forall p u c, settledBills p u c db' == settledBills p u c db)%Q /\
    (forall p u c, pendingBills p u c db' == pendingBills p u c db + d p u c)%Q;
  executed_holds : forall u c, (openHolds u c db'
    == openHolds u c db - orderHold (g_product db) u c o + orderHold (g_product db) u c o')%Q;
  executed_read : (exists row, rowOf o' row /\ GetOrderById db' (ord_Id o) = Some row) /\
    (forall id, id <> ord_Id o -> GetOrderById db' id = GetOrderById db id);
  executed_once : forall f r, f ∈ workedOf fills -> r ∈ g_fill db' -> fill_Id r = fill_Id f -> fill_Settled r = true;
  executed_worth : forall us c, NoDup us -> ord_UserId o ∈ us -> 0 ∈ us -> exists e,
    (wealth us c db' == wealth us c db + tradeWorth product o c (sumOf (fun f => dval (fill_Size f)) (tradesOf fills))
       (sumOf (fun f => dval (fill_Size f) * dval (fill_Price f)) (tradesOf fills)) + e)%Q /\
    (Qabs e <= units (length (tradesOf fills)))%Q /\ (Forall (feeExact o) (tradesOf fills) -> e == 0)%Q;
  executed_sum : forall w, FillWeight w -> (fillSum w db' == fillSum w db + sumOf w (tradesOf fills))%Q;
  executed_rows : forall r, r ∈ g_fill db' -> r ∈ g_fill db \/ fill_OrderId r = ord_Id o;
}.

Lemma GetUnsettled_of db id : Forall (fun f => fill_Settled f = false) (GetUnsettledFillsByOrderId db id) /\
  Forall (fun f => fill_OrderId f = id) (GetUnsettledFillsByOrderId db id).
Proof. split; apply Forall_take, Forall_forall; intros f Hf; apply list_elem_of_filter in Hf; tauto. Qed.

Lemma GetUnsettled_rows db id : fills_wf (g_fill db) (next_fill db) ->
  let fills := GetUnsettledFillsByOrderId db id in
  Forall (fun f => f ∈ g_fill db) fills /\ Forall (fun f => fill_ok f /\ fill_Id f < next_fill db) fills /\
  NoDup (fill_Id <$> fills).
Proof.
  intros [Hi Hn Ho] fills.
  assert (Hfills : Forall (fun f => f ∈ g_fill db) fills).
  { apply Forall_take, Forall_forall. intros f Hf'. apply list_elem_of_filter in Hf'. tauto. }
  split; [done|]. split.
  - rewrite Forall_forall in *. auto.
  - eapply sublist_NoDup; [exact Hi|]. apply fmap_sublist. unfold fills, GetUnsettledFillsByOrderId.
    etrans; [apply sublist_take|]. apply sublist_filter.
Qed.

(** The unsettled fills of an order, settled and written back. *)
Lemma writtenBack now db tx id db' fills' : g_fill tx = g_fill db -> next_fill tx = next_fill db -> fills_wf (g_fill db) (next_fill db) ->
  let fills := GetUnsettledFillsByOrderId db id in
  Forall2 fillSettled fills fills' -> updateFills now tx fills' = Ok db' ->
  fills_wf (g_fill db') (next_fill db') /\ sameButFills tx db' /\
  (forall r, r ∈ g_fill db' -> r ∈ g_fill db \/ fill_OrderId r = id) /\
  (forall w, FillWeight w -> (fillSum w db' == fillSum w db + sumOf (ifSettled w) fills')%Q).
Proof.
  intros Hg Hn Hwf fills Hall Hrun. destruct (GetUnsettled_of db id) as [Hnew Horder].
  destruct (GetUnsettled_rows db id Hwf) as (Hin & Hok & Hnd). fold fills in Hnew, Horder, Hin, Hok, Hnd.
  assert (Hback : forall f', f' ∈ fills' -> exists f, f ∈ fills /\ fillSettled f f').
  { intros f' Hf'. apply list_elem_of_lookup in Hf' as [k Hk].
    eapply Forall2_lookup_r in Hall as (f & Hk' & Hff); [|exact Hk]. exists f. split; [by eapply list_elem_of_lookup_2|done]. }
  assert (Hok' : Forall (fun f => fill_ok f /\ fill_Id f < next_fill tx) fills').
  { rewrite Forall_forall in *. intros f' Hf'. destruct (Hback _ Hf') as (f & Hf & Hff). destruct (Hok _ Hf) as [Hfo Hfn].
    destruct (fill_ok_settle _ _ Hff Hfo) as [? ->]. by rewrite Hn. }
  assert (Hw := Hrun). apply updateFills_spec in Hw as (Hfw & Hsame & _); [|by rewrite Hg, Hn|done].
  split_and!; [done|done| |].
  - intros r Hr. apply (updateFills_rows _ _ _ _ _ Hrun) in Hr as [Hr|(f' & Hf' & He)]; [left; by rewrite <- Hg|right].
    destruct (Hback _ Hf') as (f & Hf & Hff). rewrite He. rewrite Forall_forall in Horder. rewrite <- (Horder _ Hf).
    by destruct Hff as [->|[fee ->]].
  - intros w Hwt. rewrite (updateFills_sum w fills' now fills tx db' Hrun).
    + rewrite (sumOf_unsettled w fills Hnew). unfold fillSum. rewrite Hg. ring.
    + eapply Forall2_impl; [exact Hall|]. intros f f' [->|[fee ->]]; done.
    + by rewrite Hg.
    + done.
    + rewrite Hg. apply (fills_ids _ _ Hwf).
    + eapply Forall_impl; [exact Hok'|]. by intros f [? _].
Qed.

Lemma ExecuteFill_cases now db id db' : db_wf db -> ExecuteFill now db id = Ok db' ->
  (db' = db /\ GetUnsettledFillsByOrderId db id = []) \/
  exists o o' product fills',
    GetOrderByIdForUpdate db id = Some o /\ completed (ord_Status o) = false /\
    GetProductById db (ord_ProductId o) = Some product /\
    fillExecuted db db' o o' product (GetUnsettledFillsByOrderId db id) fills'.
Proof.
  intros Hwf Hrun. unfold ExecuteFill in Hrun.
  destruct (GetOrderByIdForUpdate db id) as [o|] eqn:Hget; [|discriminate].
  destruct (completed (ord_Status o)) eqn:Hopen; [discriminate|].
  destruct (GetProductById db (ord_ProductId o)) as [product|] eqn:Hprod; [|discriminate].
  set (fills := GetUnsettledFillsByOrderId db id) in *.
  destruct (length fills =? 0)%nat eqn:Hlen.
  { left. apply Nat.eqb_eq, length_zero_iff_nil in Hlen. by injection Hrun as <-. }
  right.
  apply bind_Ok in Hrun as ([[o' fills'] tx] & Hset & Hrun). apply bind_Ok in Hrun as (tx2 & Hup & Hrun).
  exists o, o', product, fills'. split_and!; [done..|].
  destruct (GetOrderById_Some _ _ _ (wf_orders _ Hwf) Hget) as (Hoid & Hin & [Hu Hi Hs Hf Hz He Ht Hm]).
  destruct (GetUnsettled_rows db id (wf_fills _ Hwf)) as (_ & Hfok & Hkd). fold fills in Hfok, Hkd.
  assert (Hfok' : Forall fill_ok fills) by (eapply Forall_impl; [exact Hfok|by intros f [? _]]).
  pose proof Hset as Hworked. apply settleFills_worked in Hworked as [Hkeys Hworked].
  assert (Hworth : forall us c, NoDup us -> ord_UserId o ∈ us -> 0 ∈ us -> exists d e, billsAdded db tx d /\
    (worth us c d == tradeWorth product o c (sumOf (fun f => dval (fill_Size f)) (tradesOf fills))
       (sumOf (fun f => dval (fill_Size f) * dval (fill_Price f)) (tradesOf fills)) + e)%Q /\
    (Qabs e <= units (length (tradesOf fills)))%Q /\ (Forall (feeExact o) (tradesOf fills) -> e == 0)%Q).
  { intros us c Hnd Hus H0. eapply (settleFills_worth now product us c fills Hnd H0 o db o' fills' tx); try done; apply (wf_bills _ Hwf). }
  pose proof (proj1 (GetUnsettled_of db id)) as Hnew. fold fills in Hnew.
  assert (Hsum := fun w (Hw : FillWeight w) => settleFills_sum w now product fills o db o' fills' tx Hnew Hset).
  apply settleFills_spec in Hset as (d & Hb & Hd); [|apply (wf_bills _ Hwf)|done..].
  destruct Hb as [Htx Hbw Hbs Hbp].
  assert (Hup' := Hup). apply (UpdateOrder_read _ _ o) in Hup' as [Hread Hother];
    [|rewrite Htx; apply (wf_orders _ Hwf)|apply (settled_same _ _ _ _ _ _ Hd)|rewrite Htx; exact Hin
     |apply (settled_exact _ _ _ _ _ _ Hd)|apply (settled_exact _ _ _ _ _ _ Hd)].
  rewrite (same_id _ _ (settled_same _ _ _ _ _ _ Hd)) in Hread, Hother.
  apply (UpdateOrder_spec _ _ o) in Hup as (How & Htx2 & Hoh);
    [|rewrite Htx; apply (wf_orders _ Hwf)|apply (settled_same _ _ _ _ _ _ Hd)|rewrite Htx; exact Hin
     |apply (settled_exact _ _ _ _ _ _ Hd)|apply (settled_exact _ _ _ _ _ _ Hd)].
  assert (Honce : forall f r, f ∈ workedOf fills -> r ∈ g_fill db' -> fill_Id r = fill_Id f -> fill_Settled r = true).
  { intros f r Hw Hr Hid. destruct (Hworked _ Hw) as (f' & Hf' & Hid' & Hs').
    eapply updateFills_settled; [exact Hrun|by rewrite Hkeys|exact Hf'|done|done|by rewrite Hid']. }
  apply (writtenBack now db _ id _ fills') in Hrun as (Hfw & Hdb' & Hrows & Hadd);
    [|by rewrite Htx2, Htx|by rewrite Htx2, Htx|apply (wf_fills _ Hwf)|apply (settled_fills _ _ _ _ _ _ Hd)].
  rewrite <- Hoid in Hrows.
  unfold sameButFills, sameBooks in *. rewrite Htx2, Htx in Hdb'.
  split.
  - destruct Hwf as [Ha _ _ _ Hp]. rewrite Hdb'. split; cbn; [exact Ha|exact Hbw|exact Hfw|exact How|exact Hp].
  - by rewrite Hdb'.
  - exists d. split; [done|]. rewrite Hdb'. split; [exact Hbs|exact Hbp].
  - intros u c. rewrite Hdb'. specialize (Hoh u c). rewrite Htx2, Htx in Hoh. exact Hoh.
  - rewrite Hdb'. rewrite Htx2, Htx in Hread, Hother. split; [exact Hread|exact Hother].
  - done.
  - intros us c Hnd Hus H0. destruct (Hworth us c Hnd Hus H0) as (d' & e & [_ _ _ Hp'] & Hw & He').
    exists e. split; [|exact He']. rewrite <- Qplus_assoc, <- Hw. apply wealth_added; rewrite Hdb'; [done|exact Hp'].
  - intros w Hw. by rewrite Hadd, (Hsum w Hw).
  - exact Hrows.
Qed.

(** ** Placing an order *)

(** What [PlaceOrder] makes of the request: amounts the columns hold. *)
Lemma normalizeOrder_exact product ty side size price funds size' price' funds' : product_ok product ->
  normalizeOrder product ty side size price funds = Ok (size', price', funds') ->
  exact16 size' /\ exact16 price' /\ exact16 funds'.
Proof.
  intros (Hb & Hq & Hbq) Hrun. unfold normalizeOrder in Hrun.
  assert (Hxz := exact16_Zero). assert (Hrb := fun d => exact16_Round d (prod_BaseScale product) ltac:(lia)).
  assert (Hrq := fun d => exact16_Round d (prod_QuoteScale product) ltac:(lia)).
  destruct (ty =s? OrderTypeLimit).
  - destruct (dec_LessThan _ _); [discriminate|]. apply bind_Ok in Hrun as (off & _ & Hrun).
    repeat case_bool; simplify_eq. split_and!; [done..|]. by apply exact16_Mul_Round.
  - repeat case_bool; by simplify_eq.
Qed.

Lemma badRatio_ok r : badRatio r = false -> ratio_ok r.
Proof.
  unfold badRatio. intros [H0 H1]%orb_false_iff. dec_prop. rewrite dval_Zero in H0. rewrite dval_NewFromInt in H1.
  change (inject_Z 1) with 1%Q in H1. split; lra.
Qed.

(** What a committed [PlaceOrder] has done. *)
Record orderPlaced (db db' : Db) (userId : Z) (o : Order) (product : Product) : Prop := {
  placed_wf : db_wf db';
  placed_product : GetProductById db (ord_ProductId o) = Some product /\ g_product db' = g_product db;
  placed_user : ord_UserId o = userId;
  placed_status : ord_Status o = OrderStatusNew;
  placed_held : (0 < held o)%Q;
  placed_used : (used o == 0)%Q;
  placed_read : forall id, id <> ord_Id o -> GetOrderById db' id = GetOrderById db id;
  placed_row : exists row, rowOf o row /\ order_row_ok (GetTableIndexByUserId userId) row /\
    GetOrderById db (ord_Id o) = None /\ GetOrderById db' (ord_Id o) = Some row;
  placed_balance : forall p u c, (balance p u c db' == balance p u c db + move userId (holdsIn product o) (- held o) (held o) p u c)%Q;
  placed_settled : forall p u c, (settledBills p u c db'
    == settledBills p u c db + move userId (holdsIn product o) (- held o) (held o) p u c)%Q;
  placed_pending : forall p u c, (pendingBills p u c db' == pendingBills p u c db)%Q;
  placed_holds : forall u c, (openHolds u c db' == openHolds u c db + orderHold (g_product db) u c o)%Q;
}.

Lemma PlaceOrder_spec now generate db userId level oid pid ty tif side size price funds o db' : db_wf db ->
  PlaceOrder now generate db userId level oid pid ty tif side size price funds = Ok (o, db') ->
  exists product fr size' price' funds' id,
    GetProductById db pid = Some product /\ ord_Side o = side /\
    normalizeOrder product ty side size price funds = Ok (size', price', funds') /\
    id = u64 (generate (GetTableNodeByUserId userId)) /\
    o = newOrder id userId oid pid ty tif side size' price' funds' fr /\
    orderPlaced db db' userId o product.
Proof.
  intros Hwf Hrun. unfold PlaceOrder in Hrun.
  destruct (GetProductById db pid) as [product|] eqn:Hprod; [|discriminate].
  destruct (GetFeeRateByUserLevel db level) as [fr|]; [|discriminate].
  destruct (badRatio (fr_MakerFeeRatio fr)) eqn:Hm; [discriminate|].
  destruct (badRatio (fr_TakerFeeRatio fr)) eqn:Ht; [discriminate|]. apply badRatio_ok in Hm, Ht.
  apply bind_Ok in Hrun as ([[size' price'] funds'] & Hnorm & Hrun).
  destruct (holdOf product side size' funds') as [cur amount] eqn:Hhold.
  apply bind_Ok in Hrun as (tx & Hh & Hrun).
  set (id := u64 (generate (GetTableNodeByUserId userId))) in *.
  destruct (GetTableIndexByOrderId id =? GetTableIndexByUserId userId) eqn:Hsh; cbn [negb] in Hrun; [|discriminate].
  apply Z.eqb_eq in Hsh. apply bind_Ok in Hrun as (tx2 & Hadd & Hrun). injection Hrun as <- <-.
  assert (Hpid : prod_Id product = pid) by (by apply query_Some in Hprod as [_ ?]). rewrite Hpid in *.
  exists product, fr, size', price', funds', id. split_and!; [done..|].
  set (o := newOrder id userId oid pid ty tif side size' price' funds' fr) in *.
  assert (Hpok : product_ok product).
  { pose proof (wf_products _ Hwf) as Hp. rewrite Forall_forall in Hp. apply Hp. by apply query_Some in Hprod as [? _]. }
  destruct (normalizeOrder_exact _ _ _ _ _ _ _ _ _ Hpok Hnorm) as (Hxs & Hxp & Hxf).
  assert (Hcur : cur = holdsIn product o /\ dval amount = held o /\ exact16 amount).
  { unfold holdOf in Hhold. unfold holdsIn, held. cbn. destruct (side =s? SideBuy); by injection Hhold as <- <-. }
  destruct Hcur as (-> & Hamt & Hxa).
  apply HoldBalance_spec in Hh as (Hpos & Hwt & Hsame & Hbal & Hset & Hpend); [|done|done]. rewrite Hamt in *.
  destruct Hsame as (Hso & Hsp & Hsf & Hsn).
  assert (Hro : order_row_ok (GetTableIndexByUserId (ord_UserId o)) o).
  { split; [done|exact Hsh|done|done|apply exact16_Zero|apply exact16_Zero|done|done]. }
  apply AddOrder_spec in Hadd as (How & Hsb & Hoh & row & Hrow & Hrok & Hnone & Hget & Hother); [|apply (wf_orders _ Hwt)|done].
  unfold sameBooks in Hsb. split.
  - destruct Hwt as [Ha Hb Hf _ Hp]. rewrite Hsb. by split.
  - split; [done|]. rewrite Hsb. exact Hsp.
  - done.
  - done.
  - done.
  - unfold used. cbn. destruct (side =s? SideBuy); apply dval_Zero.
  - intros id' Hne. rewrite Hother by done. unfold GetOrderById. by rewrite Hso.
  - exists row. split_and!; [done|done| |done]. unfold GetOrderById in *. by rewrite <- Hso.
  - intros p u c. rewrite <- Hbal, Hsb. reflexivity.
  - intros p u c. rewrite <- Hset, Hsb. reflexivity.
  - intros p u c. rewrite <- Hpend, Hsb. reflexivity.
  - intros u c. rewrite Hoh. unfold openHolds. rewrite Hso, Hsp. reflexivity.
Qed.

(** ** The database as a transition system *)

(** The transactions and statements the services and workers commit. *)
Inductive ledgerStep (db db' : Db) : Prop :=
| step_place now generate userId level oid pid ty tif side size price funds o :
    PlaceOrder now generate db userId level oid pid ty tif side size price funds = Ok (o, db') -> ledgerStep db db'
| step_open now id b : UpdateOrderStatus now db id OrderStatusNew OrderStatusOpen = Ok (b, db') -> ledgerStep db db'
| step_fills now fills : Forall fill_fits fills -> AddFills now db fills = Ok db' -> ledgerStep db db'
| step_execute now id : ExecuteFill now db id = Ok db' -> ledgerStep db db'
| step_bill now userId currency : ExecuteBill now db userId currency = Ok db' -> ledgerStep db db'
| step_trades now trades : AddTrades now db trades = Ok db' -> ledgerStep db db'
| step_ticks now ticks : AddTicks now db ticks = Ok db' -> ledgerStep db db'.

(** What every step does to the books: nothing moves but by bills, and what is
    held moves with the open orders. *)
Record accounted (db db' : Db) : Prop := {
  accounted_wf : db_wf db';
  accounted_bills : forall p u c, (balance p u c db' - settledBills p u c db' == balance p u c db - settledBills p u c db)%Q;
  accounted_holds : forall u c,
    (balance Hold u c db' + pendingBills Hold u c db' - openHolds u c db'
     == balance Hold u c db + pendingBills Hold u c db - openHolds u c db)%Q;
}.

Lemma accounted_refl db : db_wf db -> accounted db db.
Proof. split; [done|reflexivity|reflexivity]. Qed.

Lemma accounted_trans db1 db2 db3 : accounted db1 db2 -> accounted db2 db3 -> accounted db1 db3.
Proof. intros [_ Hb1 Hh1] [Hw Hb2 Hh2]. split; [done|intros; by rewrite Hb2, Hb1|intros; by rewrite Hh2, Hh1]. Qed.

(** A step on none of the tables of the books. *)
Lemma accounted_same db db' : db_wf db' -> g_account db' = g_account db -> g_bill db' = g_bill db ->
  g_order db' = g_order db -> g_product db' = g_product db -> accounted db db'.
Proof.
  intros Hw Ha Hb Ho Hp. split; [done| |]; intros;
    unfold balance, GetAccount, settledBills, pendingBills, openHolds; rewrite Ha, Hb, ?Ho, ?Hp; reflexivity.
Qed.

Lemma place_accounted db db' u o product : db_wf db -> orderPlaced db db' u o product -> accounted db db'.
Proof.
  intros Hwf [Hw [Hp _] Hu Hst Hpos Hus _ _ Hb Hs Hpe Hh]. split; [done| |].
  - intros. rewrite Hb, Hs. ring.
  - intros u' c. rewrite Hb, Hpe, Hh. unfold orderHold, holdCurrency, move. unfold GetProductById in Hp. rewrite Hp. cbn.
    rewrite Hu. fold (holdsIn product o). unfold remainingHold. rewrite Hst. cbn.
    destruct (decide (u = u' /\ holdsIn product o = c)) as [[-> ->]|Hno].
    + rewrite decide_True by done. rewrite Hus. ring.
    + rewrite decide_False by naive_solver. ring.
Qed.

Lemma execute_accounted db db' id o o' product fills fills' : db_wf db -> GetOrderByIdForUpdate db id = Some o ->
  GetProductById db (ord_ProductId o) = Some product -> fillExecuted db db' o o' product fills fills' -> accounted db db'.
Proof.
  intros Hwf Hget Hp [Hw [Ha Hpr] (d & Hd & Hs & Hpe) Hh].
  assert (Hb : forall p u c, balance p u c db' = balance p u c db) by (intros; unfold balance, GetAccount; by rewrite Ha).
  split; [done| |].
  - intros. rewrite Hb, Hs. reflexivity.
  - intros u c. rewrite Hb, Hpe, Hh, (settled_hold _ _ _ _ _ _ Hd).
    destruct (settled_same _ _ _ _ _ _ Hd) as [_ Ep Eu Es _ _ _ _].
    unfold GetProductById in Hp. unfold orderHold, holdCurrency, move. rewrite Eu, Ep, Es, Hp. cbn.
    fold (holdsIn product o). destruct (decide (ord_UserId o = u /\ holdsIn product o = c)) as [[-> ->]|Hno].
    + rewrite !decide_True by done. ring.
    + rewrite !decide_False by naive_solver. ring.
Qed.

Lemma AddTrades_frame now trades : forall db db', AddTrades now db trades = Ok db' ->
  db' = db_setTrades db (g_trade db') (next_trade db').
Proof.
  induction trades as [|t trades IH]; intros db db' Hrun; cbn in Hrun; [injection Hrun as <-; by destruct db|].
  apply IH in Hrun. rewrite Hrun. done.
Qed.

Lemma AddTicks_frame now ticks : forall db db', AddTicks now db ticks = Ok db' ->
  db' = db_setTicks db (g_tick db') (next_tick db').
Proof.
  induction ticks as [|t ticks IH]; intros db db' Hrun; cbn in Hrun; [injection Hrun as <-; by destruct db|].
  apply bind_Ok in Hrun as (tx & Hup & Hrun). apply IH in Hrun. unfold AddOrUpdateTick in Hup.
  apply bind_Ok in Hup as (row & _ & Hup). case_decide; injection Hup as <-; rewrite Hrun; done.
Qed.

Lemma ledgerStep_accounted db db' : db_wf db -> ledgerStep db db' -> accounted db db'.
Proof.
  intros Hwf Hstep. destruct Hstep as [now gen u lv oid pid ty tif side size price funds o Hr|now id b Hr|now fills Hf Hr
    |now id Hr|now u c Hr|now trades Hr|now ticks Hr].
  - apply PlaceOrder_spec in Hr as (product & fr & s & p & f & id & _ & _ & _ & _ & _ & Hr); [|done].
    by eapply place_accounted.
  - apply UpdateOrderStatus_spec in Hr as (Ho & Hsame & Hh); [|apply (wf_orders _ Hwf)|done|done].
    unfold sameBooks in Hsame. split.
    + destruct Hwf. rewrite Hsame. by split.
    + intros. rewrite Hsame. reflexivity.
    + intros u c. rewrite Hh, Hsame. reflexivity.
  - apply AddFills_spec in Hr as [Hfw Hsame]; [|apply (wf_fills _ Hwf)|done]. unfold sameButFills in Hsame.
    apply accounted_same; [|by rewrite Hsame..]. destruct Hwf. rewrite Hsame. by split.
  - destruct (ExecuteFill_cases _ _ _ _ Hwf Hr) as [[-> _]|(o & o' & product & fills' & Hget & Hst & Hp & Hx)].
    + by apply accounted_refl.
    + by eapply execute_accounted.
  - apply ExecuteBill_spec in Hr as (Hw & Hsame & Hb & Hs & Hp); [|done]. split; [done| |].
    + intros p u' c'. rewrite Hb, Hs. ring.
    + intros u' c'. rewrite Hb, Hp. destruct Hsame as (Ho & Hpr & _). unfold openHolds. rewrite Ho, Hpr. ring.
  - apply AddTrades_frame in Hr. apply accounted_same; [|by rewrite Hr..]. destruct Hwf. rewrite Hr. by split.
  - apply AddTicks_frame in Hr. apply accounted_same; [|by rewrite Hr..]. destruct Hwf. rewrite Hr. by split.
Qed.

Lemma ledger_accounted db db' : db_wf db -> rtc ledgerStep db db' -> accounted db db'.
Proof.
  intros Hwf Hr. revert Hwf. induction Hr as [db|db1 db2 db3 H1 _ IH]; intros Hwf; [by apply accounted_refl|].
  pose proof (ledgerStep_accounted _ _ Hwf H1) as Ha. eapply accounted_trans; [exact Ha|]. apply IH, Ha.
Qed.

(** Completed orders are never written again. *)
Lemma ledgerStep_completed db db' id o : db_wf db -> ledgerStep db db' -> GetOrderById db id = Some o ->
  completed (ord_Status o) = true -> GetOrderById db' id = Some o.
Proof.
  intros Hwf Hstep Hget Hc. destruct Hstep as [now gen u lv oid pid ty tif side size price funds o1 Hr|now id1 b Hr|now fills Hf Hr
    |now id1 Hr|now u c Hr|now trades Hr|now ticks Hr].
  - apply PlaceOrder_spec in Hr as (product & fr & s & p & f & id1 & _ & _ & _ & _ & _ & Hr); [|done].
    destruct (placed_row _ _ _ _ _ Hr) as (row & _ & _ & Hnone & _).
    rewrite (placed_read _ _ _ _ _ Hr); [done|]. intros ->. congruence.
  - eapply UpdateOrderStatus_read; [exact Hr|done|]. intros He. by rewrite He in Hc.
  - apply AddFills_spec in Hr as [_ Hsame]; [|apply (wf_fills _ Hwf)|done]. by rewrite Hsame.
  - destruct (ExecuteFill_cases _ _ _ _ Hwf Hr) as [[-> _]|(o1 & o' & product & fills' & Hget1 & Hst & Hp & Hx)]; [done|].
    destruct (GetOrderById_Some _ _ _ (wf_orders _ Hwf) Hget1) as [Hid1 _].
    rewrite (proj2 (executed_read _ _ _ _ _ _ _ Hx)); [done|]. intros ->. rewrite Hid1 in Hget.
    change (GetOrderByIdForUpdate db id1) with (GetOrderById db id1) in Hget1. congruence.
  - apply ExecuteBill_spec in Hr as (_ & (Ho & _) & _); [|done]. unfold GetOrderById in *. by rewrite Ho.
  - apply AddTrades_frame in Hr. by rewrite Hr.
  - apply AddTicks_frame in Hr. by rewrite Hr.
Qed.
End Transactions.
