(* ===== verification/Workers.v ===== *)
(** The workers that settle: [src/worker/fill_executor.go] and
    [bill_executor.go].

    Each executor is a pool of ten goroutines, one per shard, each with a
    buffered channel; a listener and an inspector feed the channels.
    [fillPoolStep] and [billPoolStep] interleave them.  A pool only ever commits
    the transactions of [Settlement.v], so the accounting theorems hold of it;
    the cache of a fill worker only holds completed orders; and pending bills
    are worked off a hundred at a time. *)
From S2P Require Import Prelude Decimal Models Ledger Settlement LedgerInv Accounting OrderInv Transactions.
From Stdlib Require Import QArith Lqa.
From stdpp Require Import list relations.
Open Scope string_scope.
Open Scope list_scope.
Open Scope Z_scope.

Definition fillWorkerNum : Z := 10.
Definition billWorkerNum : Z := 10.
Definition fillChCap : Z := 512.
Definition billChCap : Z := 256.

(** [github.com/hashicorp/golang-lru]: a cache of keys that forgets. *)
Class LruPkg := {
  Lru : Type;
  lru_New : Z -> Lru;
  lru_Contains : Lru -> Z -> bool;
  lru_Add : Lru -> Z -> Lru;
}.

(** It holds nothing but what was added. *)
Class LruLaws (R : LruPkg) := {
  lru_New_empty n k : lru_Contains (lru_New n) k = false;
  lru_Add_sound c k k' : lru_Contains (lru_Add c k) k' = true -> k' = k \/ lru_Contains c k' = true;
}.

Section Workers.
Context {P : DecimalPkg} {C : Column} {R : LruPkg}.

(** ** fill_executor.go *)

(** The body of a worker's loop on one fill. *)
Definition fillWork (now : Instant) (cache : Lru) (db : Db) (fill : Fill) : outcome blocked (Lru * Db) :=
  if lru_Contains cache (fill_OrderId fill) then Ok (cache, db)
  else match GetOrderById db (fill_OrderId fill) with
       | None => Ok (cache, db)
       | Some order =>
           if completed (ord_Status order) then Ok (lru_Add cache (ord_Id order), db)
           else db ← ignoreErr db (ExecuteFill now db (fill_OrderId fill)); Ok (cache, db)
       end.

Record fillPool := {
  fp_chs : list (list Fill);
  fp_caches : list Lru;
  fp_inspected : list Fill;
  fp_db : Db;
}.

Definition NewFillExecutor (db : Db) : fillPool := {|
  fp_chs := replicate (Z.to_nat fillWorkerNum) []; fp_caches := replicate (Z.to_nat fillWorkerNum) (lru_New 1000);
  fp_inspected := []; fp_db := db |}.

Definition fillShard (fill : Fill) : Z := Z.rem (fill_OrderId fill) fillWorkerNum.

(** [s.workerChs[fill.OrderId%fillWorkerNum] <- fill] *)
Definition fillSend (chs : list (list Fill)) (fill : Fill) : outcome blocked (list (list Fill)) :=
  ch ← deref (indexed chs (fillShard fill));
  ch ← send fillChCap ch fill;
  mret (<[Z.to_nat (fillShard fill) := ch]> chs).

Inductive fillPoolEvent :=
| FpMessage (fill : Fill)          (** [runMqListener] passes a message on *)
| FpInspect                        (** [runInspector] reads the unsettled fills *)
| FpInspectSend                    (** [runInspector] passes the next one on *)
| FpWork (i : nat) (now : Instant) (** worker [i] takes a fill from its channel *).

Definition fillPoolStep (ev : fillPoolEvent) (s : fillPool) : outcome blocked fillPool :=
  match ev with
  | FpMessage fill =>
      chs ← fillSend (fp_chs s) fill;
      mret {| fp_chs := chs; fp_caches := fp_caches s; fp_inspected := fp_inspected s; fp_db := fp_db s |}
  | FpInspect =>
      match fp_inspected s with
      | [] => mret {| fp_chs := fp_chs s; fp_caches := fp_caches s; fp_inspected := GetUnsettledFills (fp_db s) 1000;
                      fp_db := fp_db s |}
      | _ => Err Blocked
      end
  | FpInspectSend =>
      match fp_inspected s with
      | [] => Err Blocked
      | fill :: rest =>
          chs ← fillSend (fp_chs s) fill;
          mret {| fp_chs := chs; fp_caches := fp_caches s; fp_inspected := rest; fp_db := fp_db s |}
      end
  | FpWork i now =>
      match fp_chs s !! i, fp_caches s !! i with
      | Some ch, Some cache =>
          '(fill, ch) ← recv ch;
          '(cache, db) ← fillWork now cache (fp_db s) fill;
          mret {| fp_chs := <[i := ch]> (fp_chs s); fp_caches := <[i := cache]> (fp_caches s);
                  fp_inspected := fp_inspected s; fp_db := db |}
      | _, _ => Err Blocked
      end
  end.

Fixpoint fillPoolRun (evs : list fillPoolEvent) (s : fillPool) : outcome blocked fillPool :=
  match evs with [] => mret s | ev :: evs => s ← fillPoolStep ev s; fillPoolRun evs s end.

(** ** bill_executor.go *)

(** The error is logged. *)
Definition billWork (now : Instant) (db : Db) (bill : Bill) : outcome blocked Db :=
  ignoreErr db (ExecuteBill now db (bill_UserId bill) (bill_Currency bill)).

Record billPool := {
  bp_chs : list (list Bill);
  bp_inspected : list Bill;
  bp_db : Db;
}.

Definition NewBillExecutor (db : Db) : billPool := {|
  bp_chs := replicate (Z.to_nat billWorkerNum) []; bp_inspected := []; bp_db := db |}.

Definition billShard (bill : Bill) : Z := Z.rem (bill_UserId bill) billWorkerNum.

Definition billSend (chs : list (list Bill)) (bill : Bill) : outcome blocked (list (list Bill)) :=
  ch ← deref (indexed chs (billShard bill));
  ch ← send billChCap ch bill;
  mret (<[Z.to_nat (billShard bill) := ch]> chs).

Inductive billPoolEvent :=
| BpMessage (bill : Bill)
| BpInspect
| BpInspectSend
| BpWork (i : nat) (now : Instant).

Definition billPoolStep (ev : billPoolEvent) (s : billPool) : outcome blocked billPool :=
  match ev with
  | BpMessage bill =>
      chs ← billSend (bp_chs s) bill;
      mret {| bp_chs := chs; bp_inspected := bp_inspected s; bp_db := bp_db s |}
  | BpInspect =>
      match bp_inspected s with
      | [] => mret {| bp_chs := bp_chs s; bp_inspected := GetUnsettledBills (bp_db s); bp_db := bp_db s |}
      | _ => Err Blocked
      end
  | BpInspectSend =>
      match bp_inspected s with
      | [] => Err Blocked
      | bill :: rest =>
          chs ← billSend (bp_chs s) bill;
          mret {| bp_chs := chs; bp_inspected := rest; bp_db := bp_db s |}
      end
  | BpWork i now =>
      match bp_chs s !! i with
      | Some ch =>
          '(bill, ch) ← recv ch;
          db ← billWork now (bp_db s) bill;
          mret {| bp_chs := <[i := ch]> (bp_chs s); bp_inspected := bp_inspected s; bp_db := db |}
      | None => Err Blocked
      end
  end.

Fixpoint billPoolRun (evs : list billPoolEvent) (s : billPool) : outcome blocked billPool :=
  match evs with [] => mret s | ev :: evs => s ← billPoolStep ev s; billPoolRun evs s end.
End Workers.

(** ** The pools commit ledger transactions only *)

Section Sound.
Context {P : DecimalPkg} {L : DecimalLaws P} {C : Column} {CL : ColumnLaws L C} {R : LruPkg} {RL : LruLaws R}.

Lemma ignoreErr_Ok {E E' A} (old : A) (m : outcome E A) a : ignoreErr (E' := E') old m = Ok a -> a = old \/ m = Ok a.
Proof. destruct m; cbn; intros [= <-]; auto. Qed.

Lemma fillWork_step now cache db fill cache' db' : fillWork now cache db fill = Ok (cache', db') ->
  db' = db \/ ledgerStep db db'.
Proof.
  unfold fillWork. intros Hrun. destruct (lru_Contains _ _); [injection Hrun; auto|].
  destruct (GetOrderById _ _) as [order|]; [|injection Hrun; auto].
  destruct (completed _); [injection Hrun; auto|]. apply bind_Ok in Hrun as (db1 & Hex & Hrun). injection Hrun as <- <-.
  apply ignoreErr_Ok in Hex as [->|Hex]; [auto|]. right. by eapply step_execute.
Qed.

(** What a pool keeps: the channels are by shard, the caches hold completed orders. *)
Record poolOk (s : fillPool) : Prop := {
  pool_wf : db_wf (fp_db s);
  pool_len : length (fp_chs s) = Z.to_nat fillWorkerNum;
  pool_shards : forall i ch, fp_chs s !! i = Some ch -> Forall (fun f => fillShard f = Z.of_nat i) ch;
  pool_caches : forall i cache id, fp_caches s !! i = Some cache -> lru_Contains cache id = true ->
    exists o, GetOrderById (fp_db s) id = Some o /\ completed (ord_Status o) = true;
}.

Lemma NewFillExecutor_ok db : db_wf db -> poolOk (NewFillExecutor db).
Proof.
  intros Hwf. split; [done|done| |].
  - intros i ch Hch. apply lookup_replicate in Hch as [-> _]. constructor.
  - intros i cache id Hc Hin. apply lookup_replicate in Hc as [-> _]. by rewrite lru_New_empty in Hin.
Qed.

Lemma fillSend_ok s fill chs : poolOk s -> fillSend (fp_chs s) fill = Ok chs ->
  length chs = Z.to_nat fillWorkerNum /\
  (forall i ch, chs !! i = Some ch -> Forall (fun f => fillShard f = Z.of_nat i) ch).
Proof.
  intros [_ Hlen Hsh _] Hrun. unfold fillSend in Hrun. destruct (indexed _ _) as [ch|] eqn:Hch; [|done].
  apply indexed_Some in Hch as [Hpos Hch]. cbn in Hrun. unfold send in Hrun. case_bool; [|done]. cbn in Hrun.
  injection Hrun as <-. split; [by rewrite length_insert|]. intros i ch' Hi.
  apply list_lookup_insert_Some in Hi as [(<- & <- & _)|[_ Hi]]; [|by apply Hsh].
  apply Forall_app. split; [by apply Hsh|]. constructor; [lia|done].
Qed.

Lemma fillWork_ok now i s ch cache fill cache' db' : poolOk s -> fp_caches s !! i = Some cache -> fp_chs s !! i = Some (fill :: ch) ->
  fillWork now cache (fp_db s) fill = Ok (cache', db') ->
  (fp_db s = db' \/ ledgerStep (fp_db s) db') /\
  poolOk {| fp_chs := <[i := ch]> (fp_chs s); fp_caches := <[i := cache']> (fp_caches s); fp_inspected := fp_inspected s; fp_db := db' |}.
Proof.
  intros [Hwf Hlen Hsh Hca] Hc Hch Hrun.
  assert (Hstep : fp_db s = db' \/ ledgerStep (fp_db s) db') by (destruct (fillWork_step _ _ _ _ _ _ Hrun); auto).
  split; [done|].
  assert (Hkeep : forall id o, GetOrderById (fp_db s) id = Some o -> completed (ord_Status o) = true -> GetOrderById db' id = Some o).
  { intros id o Ho Hd. destruct Hstep as [<-|Hstep]; [done|]. by eapply ledgerStep_completed. }
  assert (Hkept : forall k c id, fp_caches s !! k = Some c -> lru_Contains c id = true ->
    exists o, GetOrderById db' id = Some o /\ completed (ord_Status o) = true).
  { intros k c id Hk Hin. destruct (Hca _ _ _ Hk Hin) as (o & Ho & Hd). exists o. split; [by apply Hkeep|done]. }
  split; cbn.
  - destruct Hstep as [<-|Hstep]; [done|]. apply (accounted_wf _ _ (ledgerStep_accounted _ _ Hwf Hstep)).
  - by rewrite length_insert.
  - intros k ch' Hk. apply list_lookup_insert_Some in Hk as [(-> & <- & _)|[_ Hk]]; [|by apply Hsh].
    apply Hsh in Hch. by apply Forall_cons in Hch as [_ ?].
  - intros k c id Hk Hin. apply list_lookup_insert_Some in Hk as [(<- & <- & _)|[_ Hk]]; [|by eapply Hkept].
    unfold fillWork in Hrun. destruct (lru_Contains cache (fill_OrderId fill)); [injection Hrun as <- <-; by eapply Hkept|].
    destruct (GetOrderById (fp_db s) (fill_OrderId fill)) as [order|] eqn:Hget; [|injection Hrun as <- <-; by eapply Hkept].
    destruct (completed (ord_Status order)) eqn:Hd.
    + injection Hrun as <- <-. apply lru_Add_sound in Hin as [->|Hin]; [|by eapply Hkept].
      assert (ord_Id order = fill_OrderId fill) as -> by (by apply query_Some in Hget as [_ ?]). by exists order.
    + apply bind_Ok in Hrun as (db1 & _ & Hrun). injection Hrun as <- <-. by eapply Hkept.
Qed.

Lemma fillPoolStep_ok ev s s' : poolOk s -> fillPoolStep ev s = Ok s' ->
  poolOk s' /\ (fp_db s = fp_db s' \/ ledgerStep (fp_db s) (fp_db s')).
Proof.
  intros Hok Hrun. destruct ev as [fill| | |i now]; cbn in Hrun.
  - apply bind_Ok in Hrun as (chs & Hsend & Hrun). injection Hrun as <-.
    destruct (fillSend_ok s fill chs Hok Hsend). destruct Hok. split; [by split|by left].
  - destruct (fp_inspected s); [|done]. injection Hrun as <-. destruct Hok. split; [by split|by left].
  - destruct (fp_inspected s) as [|fill rest]; [done|]. apply bind_Ok in Hrun as (chs & Hsend & Hrun). injection Hrun as <-.
    destruct (fillSend_ok s fill chs Hok Hsend). destruct Hok. split; [by split|by left].
  - destruct (fp_chs s !! i) as [[|fill ch]|] eqn:Hch; [by destruct (fp_caches s !! i)| |done].
    destruct (fp_caches s !! i) as [cache|] eqn:Hc; [|done]. cbn in Hrun.
    apply bind_Ok in Hrun as ([cache' db'] & Hw & Hrun). injection Hrun as <-.
    destruct (fillWork_ok _ _ _ _ _ _ _ _ Hok Hc Hch Hw) as [Hs Hp]. split; [exact Hp|exact Hs].
Qed.

Lemma fillPoolRun_ok evs : forall s s', poolOk s -> fillPoolRun evs s = Ok s' -> poolOk s' /\ rtc ledgerStep (fp_db s) (fp_db s').
Proof.
  induction evs as [|ev evs IH]; intros s s' Hok Hrun; cbn in Hrun.
  - injection Hrun as <-. split; [done|apply rtc_refl].
  - apply bind_Ok in Hrun as (s1 & Hstep & Hrun). destruct (fillPoolStep_ok _ _ _ Hok Hstep) as [Hok1 Hs].
    destruct (IH _ _ Hok1 Hrun) as [Hok' Hr]. split; [done|]. destruct Hs as [->|Hs]; [done|]. by eapply rtc_l.
Qed.

Lemma billPoolRun_ok evs : forall s s', billPoolRun evs s = Ok s' -> rtc ledgerStep (bp_db s) (bp_db s').
Proof.
  induction evs as [|ev evs IH]; intros s s' Hrun; cbn in Hrun.
  - injection Hrun as <-. apply rtc_refl.
  - apply bind_Ok in Hrun as (s1 & Hstep & Hrun). apply IH in Hrun.
    assert (Hs : bp_db s = bp_db s1 \/ ledgerStep (bp_db s) (bp_db s1)); [|destruct Hs as [->|Hs]; [done|by eapply rtc_l]].
    destruct ev as [bill| | |i now]; cbn in Hstep.
    + apply bind_Ok in Hstep as (chs & _ & Hstep). injection Hstep as <-. by left.
    + destruct (bp_inspected s); [|done]. injection Hstep as <-. by left.
    + destruct (bp_inspected s); [done|]. apply bind_Ok in Hstep as (chs & _ & Hstep). injection Hstep as <-. by left.
    + destruct (bp_chs s !! i) as [[|bill ch]|]; [done| |done]. cbn in Hstep.
      apply bind_Ok in Hstep as (db' & Hw & Hstep). injection Hstep as <-. cbn.
      apply ignoreErr_Ok in Hw as [->|Hw]; [by left|]. right. by eapply step_bill.
Qed.

(** ** Working bills off *)

Definition pendingOf (u : Z) (c : string) (b : Bill) : Prop := bill_Settled b = false /\ bill_UserId b = u /\ bill_Currency b = c.
#[export] Instance pendingOf_dec u c b : Decision (pendingOf u c b).
Proof. unfold pendingOf. apply _. Defined.

(** The pending bills of an account. *)
Definition pendingList (u : Z) (c : string) (db : Db) : list Bill := filter (pendingOf u c) (g_bill db).

Definition one (u : Z) (c : string) (b : Bill) : Q := if decide (pendingOf u c b) then 1%Q else 0%Q.

Lemma pending_count u c l : (sumOf (one u c) l == inject_Z (Z.of_nat (length (filter (pendingOf u c) l))))%Q.
Proof.
  induction l as [|b l IH]; [reflexivity|]. rewrite sumOf_cons, IH, filter_cons. unfold one. case_decide; cbn [length]; [|ring].
  rewrite Nat2Z.inj_succ. unfold Z.succ. rewrite inject_Z_plus. ring.
Qed.

Lemma settleBills_count now u c bills : forall db a h a' h' db', NoDup (bill_Id <$> g_bill db) ->
  Forall (fun b => b ∈ g_bill db) bills -> NoDup (bill_Id <$> bills) -> settleBills now db bills a h = Ok (a', h', db') ->
  (sumOf (one u c) (g_bill db') == sumOf (one u c) (g_bill db) - sumOf (one u c) bills)%Q.
Proof.
  induction bills as [|b bills IH]; intros db a h a' h' db' Hk Hall Hd Hrun; cbn in Hrun.
  - injection Hrun as _ _ <-. cbn. ring.
  - apply Forall_cons in Hall as [Hin Hall]. rewrite fmap_cons in Hd. apply NoDup_cons in Hd as [Hb Hd].
    apply bind_Ok in Hrun as (tx & Hup & Hrun). unfold UpdateBill in Hup. apply bind_Ok in Hup as (row & Hrow & Hup).
    injection Hup as <-. apply billRow_Ok in Hrow as (Hid & _ & _ & Hset & _). cbn in Hid, Hset.
    assert (Htab : map (fun r => if bill_Id r =? bill_Id b then row else r) (g_bill db) = replace bill_Id row (g_bill db)).
    { unfold replace. by rewrite Hid. }
    eapply IH in Hrun; [|cbn; rewrite Htab; by rewrite replace_keys| |done].
    + rewrite Hrun. cbn [g_bill db_setBills]. rewrite Htab, (sumOf_replace _ _ b), sumOf_cons by done.
      assert (Hz : (one u c row == 0)%Q).
      { unfold one, pendingOf. rewrite decide_False; [reflexivity|]. rewrite Hset. intros [? _]. discriminate. }
      rewrite Hz. ring.
    + rewrite Forall_forall in *. intros r Hr. cbn [g_bill db_setBills]. rewrite Htab. apply replace_keeps; [by apply Hall|].
      rewrite Hid. intros He. apply Hb. rewrite <- He. by apply list_elem_of_fmap_2.
Qed.

Lemma ExecuteBill_count now db u c db' : db_wf db -> ExecuteBill now db u c = Ok db' ->
  length (pendingList u c db') = (length (pendingList u c db) - 100)%nat.
Proof.
  intros Hwf Hrun. unfold ExecuteBill in Hrun. apply bind_Ok in Hrun as ([a tx] & Hacc & Hrun).
  assert (Htx : g_bill tx = g_bill db).
  { destruct (GetAccountForUpdate db u c); [by injection Hacc as _ <-|].
    apply bind_Ok in Hacc as (tx1 & Hadd & Hacc). apply bind_Ok in Hacc as (a1 & _ & Hacc). injection Hacc as _ <-.
    unfold AddAccount in Hadd. destruct (GetAccount _ _ _); [done|]. apply bind_Ok in Hadd as (row & _ & Hadd). by injection Hadd as <-. }
  assert (Hbills : GetUnsettledBillsByUserId tx u c = take 100 (pendingList u c db)).
  { unfold GetUnsettledBillsByUserId. rewrite Htx. done. }
  rewrite Hbills in Hrun. destruct (length (take 100 (pendingList u c db)) =? 0)%nat eqn:Hlen.
  - injection Hrun as <-. apply Nat.eqb_eq in Hlen. rewrite length_take in Hlen. lia.
  - apply bind_Ok in Hrun as ([[aS hS] tx2] & Hset & Hup).
    assert (Hb : g_bill db' = g_bill tx2).
    { unfold UpdateAccount in Hup. apply bind_Ok in Hup as (row & _ & Hup). by injection Hup as <-. }
    destruct (unsettledBills_of db u c (wf_bills _ Hwf)) as (H1 & H2 & H3).
    change (GetUnsettledBillsByUserId db u c) with (take 100 (pendingList u c db)) in H1, H2, H3.
    eapply (settleBills_count _ u c) in Hset; [|rewrite Htx; apply (bills_ids _ _ (wf_bills _ Hwf))| |done].
    + rewrite <- Hb, Htx, !pending_count in Hset. fold (pendingList u c db) (pendingList u c db') in Hset.
      rewrite (filter_id (pendingOf u c) (take 100 _)) in Hset by (rewrite Forall_forall in H3; auto).
      rewrite length_take in Hset.
      assert (Hz : Z.of_nat (length (pendingList u c db')) = Z.of_nat (length (pendingList u c db)) - Z.of_nat (Nat.min 100 (length (pendingList u c db)))).
      { apply inject_Z_injective. rewrite Hset. unfold Z.sub. rewrite inject_Z_plus, inject_Z_opp. ring. }
      lia.
    + rewrite Forall_forall in *. intros b Hb'. rewrite Htx. by apply (H1 b).
Qed.
End Sound.
