(* ===== verification/LedgerDemo.v ===== *)
(** A concrete database on rationals, for the witnesses of the accounting
    theorems: two users, one product, and a day on which the first buys one BTC
    from the second. *)
From S2P Require Import Prelude Decimal Models Ledger Settlement LedgerInv Accounting OrderInv Transactions.
From Stdlib Require Import QArith Qabs Lqa.
From stdpp Require Import list relations.
Open Scope string_scope.
Open Scope list_scope.
Open Scope Z_scope.

Module LedgerDemo.
#[export] Existing Instance QDecimal.pkg.
#[export] Existing Instance QDecimal.laws.

(** [decimal(32,16)]: 16 places, below 10^16. *)
Definition largest : Q := inject_Z (10 ^ 32 - 1) * ulp columnScale.
Definition columnQ (q : Q) : option Q :=
  let r := QDecimal.roundAway q columnScale in if Qle_bool (Qabs r) largest then Some (Qred r) else None.
Definition clampQ (q : Q) : Q := match columnQ q with Some c => c | None => if Qle_bool 0 q then largest else (- largest)%Q end.

#[export] Instance columns : Column := {| column := columnQ : Dec -> option Dec; clamp := clampQ : Dec -> Dec |}.
#[export] Instance columnLaws : ColumnLaws QDecimal.laws columns.
Proof.
  assert (Hround : forall q c, columnQ q = Some c -> (c : Dec) ≡d dec_Round (q : Dec) columnScale).
  { unfold columnQ. intros q c Hc. case_match; [injection Hc as <-|discriminate]. apply Qred_correct. }
  assert (Hexact : forall q c, columnQ q = Some c -> exact16 (c : Dec)).
  { intros q c Hc. eapply exact16_proper; [symmetry; exact (Hround q c Hc)|by apply exact16_Round]. }
  split.
  - intros d c Hc. split; [by eapply Hexact|]. pose proof (Hround _ _ Hc) as Hr. unfold deq in Hr.
    rewrite Hr. by apply (dval_Round d columnScale).
  - intros d c Hc. cbn in *. unfold clampQ. by rewrite Hc.
  - intros d. cbn. unfold clampQ. destruct (columnQ d) eqn:Hc; [by eapply Hexact|].
    destruct (Qle_bool 0 d).
    + exists (10 ^ 32 - 1). cbn. reflexivity.
    + exists (- (10 ^ 32 - 1)). cbn. reflexivity.
Qed.

Definition product : Product := {|
  prod_Id := "BTC-USDT"; prod_CreatedAt := 0; prod_UpdatedAt := 0;
  prod_BaseCurrency := "BTC"; prod_QuoteCurrency := "USDT";
  prod_BaseMinSize := (1 # 100)%Q; prod_BaseMaxSize := 100%Q; prod_QuoteMinSize := (1 # 100)%Q; prod_QuoteMaxSize := 100%Q;
  prod_BaseScale := 4; prod_QuoteScale := 2; prod_QuoteIncrement := (1 # 100)%Q |}.

Definition account (id user : Z) (currency : string) (available : Q) : Account := {|
  acc_Id := id; acc_CreatedAt := 0; acc_UpdatedAt := 0; acc_UserId := user; acc_Currency := currency;
  acc_Hold := 0%Q; acc_Available := available |}.

Definition db0 : Db := {|
  g_account := [account 1 7 "USDT" 100%Q; account 2 9 "BTC" 5%Q]; g_bill := []; g_fill := []; g_order := fun _ => [];
  g_product := [product]; g_trade := []; g_tick := [];
  g_fee_rate := [{| fr_Id := 1; fr_UserLevel := "VIP"; fr_TakerFeeRatio := (1 # 100)%Q; fr_MakerFeeRatio := (1 # 200)%Q;
                    fr_CreatedAt := 0; fr_UpdatedAt := 0 |}];
  next_account := 3; next_bill := 1; next_fill := 1; next_trade := 1; next_tick := 1 |}.

Lemma exact_Z (z : Z) : exact16 (inject_Z z : Dec).
Proof.
  exists (z * 10 ^ columnScale). rewrite inject_Z_mult. symmetry. apply Qdiv_mult_l. vm_compute. discriminate.
Qed.

Lemma db0_wf : db_wf db0.
Proof.
  split.
  - split.
    + vm_compute. repeat constructor; set_solver.
    + repeat constructor.
    + vm_compute. repeat constructor; set_solver.
    + repeat constructor; try (intros []; apply (exact_Z 100) || apply (exact_Z 0) || apply (exact_Z 5)); vm_compute; discriminate.
  - split; constructor.
  - split; constructor.
  - split; intros i; constructor.
  - repeat constructor; vm_compute; discriminate.
Qed.

(** The snowflake generator at a fixed moment. *)
Definition generate (node : Z) : Z := Z.shiftl (Z.shiftl 1000 10 + node) 12.

Definition buyId : Z := Z.shiftl (Z.shiftl 1000 10 + 7) 12.
Definition sellId : Z := Z.shiftl (Z.shiftl 1000 10 + 9) 12.

Definition orderAndDb0 (m : outcome dbError (Order * Db)) : outcome dbError Db := p ← m; mret p.2.

(** User 7 buys one BTC for at most 10 USDT, user 9 sells it. *)
Definition buy (db : Db) := PlaceOrder 1 generate db 7 "VIP" "" "BTC-USDT" OrderTypeLimit GoodTillCanceled SideBuy 1%Q 10%Q 0%Q.
Definition sell (db : Db) := PlaceOrder 2 generate db 9 "VIP" "" "BTC-USDT" OrderTypeLimit GoodTillCanceled SideSell 1%Q 8%Q 0%Q.

Definition fill (seq order : Z) (liquidity : string) (done : bool) : Fill := {|
  fill_Id := 0; fill_CreatedAt := 0; fill_UpdatedAt := 0; fill_TradeSeq := 1; fill_OrderId := order; fill_MessageSeq := seq;
  fill_ProductId := "BTC-USDT"; fill_Size := if done then 0%Q else 1%Q; fill_Price := if done then 0%Q else 8%Q;
  fill_Funds := 0%Q; fill_Fee := 0%Q; fill_Liquidity := liquidity; fill_Settled := false; fill_Side := SideBuy;
  fill_Done := done; fill_DoneReason := if done then DoneReasonFilled else ""; fill_LogOffset := seq; fill_LogSeq := seq |}.

Definition fills : list Fill :=
  [fill 1 buyId "T" false; fill 1 sellId "M" false; fill 2 sellId "" true; fill 3 buyId "" true].

Lemma trade_fit seq order liquidity : fill_fits (fill seq order liquidity false).
Proof.
  assert (Hone : fits (1%Q : Dec)) by (split; [apply (exact_Z 1)|exists 1%Q; vm_compute; reflexivity]).
  assert (Height : fits (8%Q : Dec)) by (split; [apply (exact_Z 8)|exists 8%Q; vm_compute; reflexivity]).
  split; [|split; [done|intros _; by split]]. intros _. split; cbn.
  - apply (exact_Z 1).
  - apply (exact_Z 8).
  - apply (exact_Z 8).
  - vm_compute. discriminate.
  - vm_compute. discriminate.
Qed.

Lemma done_fit seq order liquidity : fill_fits (fill seq order liquidity true).
Proof. split; [intros ?; discriminate|split; [done|intros ?; discriminate]]. Qed.

Lemma fills_fit : Forall fill_fits fills.
Proof. unfold fills. rewrite !Forall_cons, Forall_nil. split_and!; [apply trade_fit|apply trade_fit|apply done_fit|apply done_fit|done]. Qed.

Definition db1 : Db := getOk db0 (orderAndDb0 (buy db0)).
Definition db2 : Db := getOk db0 (orderAndDb0 (sell db1)).
Definition db3 : Db := getOk db0 (AddFills 3 db2 fills).
Definition db4 : Db := getOk db0 (ExecuteFill 4 db3 buyId).
Definition db5 : Db := getOk db0 (ExecuteFill 5 db4 sellId).
Definition db6 : Db := getOk db0 (ExecuteBill 6 db5 7 "BTC").
Definition db7 : Db := getOk db0 (ExecuteBill 7 db6 7 "USDT").

Lemma placed db (m : outcome dbError (Order * Db)) : isOk m = true -> exists o, m = Ok (o, getOk db (orderAndDb0 m)).
Proof. destruct m as [[o d]| | |]; try discriminate. by exists o. Qed.

Lemma bought : exists o, buy db0 = Ok (o, db1).
Proof. destruct (placed db0 (buy db0)) as [o Ho]; [vm_compute; reflexivity|]. fold db1 in Ho. by exists o. Qed.
Lemma step1 : ledgerStep db0 db1.
Proof.
  destruct bought as [o Ho]. unfold buy in Ho.
  exact (step_place _ _ _ _ _ _ _ _ _ _ _ _ _ _ _ Ho).
Qed.
Lemma step2 : ledgerStep db1 db2.
Proof.
  destruct (placed db0 (sell db1)) as [o Ho]; [vm_compute; reflexivity|]. fold db2 in Ho. unfold sell in Ho.
  exact (step_place _ _ _ _ _ _ _ _ _ _ _ _ _ _ _ Ho).
Qed.
Lemma step3 : ledgerStep db2 db3.
Proof. unfold db3. eapply step_fills; [exact fills_fit|]. apply isOk_get. vm_compute. reflexivity. Qed.
Lemma run4 : ExecuteFill 4 db3 buyId = Ok db4.
Proof. unfold db4. apply isOk_get. vm_compute. reflexivity. Qed.
Lemma step4 : ledgerStep db3 db4.
Proof. eapply step_execute. exact run4. Qed.
Lemma step5 : ledgerStep db4 db5.
Proof. unfold db5. eapply step_execute. apply isOk_get. vm_compute. reflexivity. Qed.
Lemma step6 : ledgerStep db5 db6.
Proof. unfold db6. eapply step_bill. apply isOk_get. vm_compute. reflexivity. Qed.
Lemma step7 : ledgerStep db6 db7.
Proof. unfold db7. eapply step_bill. apply isOk_get. vm_compute. reflexivity. Qed.

Lemma day : rtc ledgerStep db0 db7.
Proof.
  eapply rtc_l; [exact step1|]. eapply rtc_l; [exact step2|]. eapply rtc_l; [exact step3|]. eapply rtc_l; [exact step4|].
  eapply rtc_l; [exact step5|]. eapply rtc_l; [exact step6|]. eapply rtc_l; [exact step7|]. apply rtc_refl.
Qed.

Lemma db3_wf : db_wf db3.
Proof.
  apply (accounted_wf db0). apply ledger_accounted; [exact db0_wf|].
  eapply rtc_l; [exact step1|]. eapply rtc_l; [exact step2|]. eapply rtc_l; [exact step3|]. apply rtc_refl.
Qed.
Lemma db4_wf : db_wf db4.
Proof. apply (accounted_wf db3). apply ledgerStep_accounted; [exact db3_wf|exact step4]. Qed.

Lemma evening : rtc ledgerStep db4 db7.
Proof. eapply rtc_l; [exact step5|]. eapply rtc_l; [exact step6|]. eapply rtc_l; [exact step7|]. apply rtc_refl. Qed.
(** The buyer's order before and after it is settled. *)
Definition noOrder : Order := newOrder 0 0 "" "" "" "" "" 0%Q 0%Q 0%Q {| fr_Id := 0; fr_UserLevel := ""; fr_TakerFeeRatio := 0%Q;
  fr_MakerFeeRatio := 0%Q; fr_CreatedAt := 0; fr_UpdatedAt := 0 |}.
Definition order3 : Order := default noOrder (GetOrderById db3 buyId).
Definition order4 : Order := default noOrder (GetOrderById db4 buyId).
Lemma order3_get : GetOrderById db3 buyId = Some order3.
Proof. unfold order3. apply isSome_get. vm_compute. reflexivity. Qed.
Lemma order4_get : GetOrderById db4 buyId = Some order4.
Proof. unfold order4. apply isSome_get. vm_compute. reflexivity. Qed.
#[global] Opaque order3 order4 db1 db2 db3 db4 db5 db6 db7.
End LedgerDemo.
