(* ===== verification/LedgerTheorems.v ===== *)
(** The correctness of the accounts, orders and settlement ([src/service],
    [src/models/mysql]).

    Money only moves by bills ([books_balance]), what is held is what the open
    orders still need ([holds_match_orders]), no account is ever overdrawn
    ([no_overdraft]), a completed order is final ([completed_final]), each fill
    is settled once and completely ([ExecuteFill_settles]), and settling both
    sides of a trade neither makes nor loses money ([ExecuteFill_worth]).
    The worker pools commit nothing but these transactions, and a fill worker
    only skips fills of completed orders ([fill_pool_sound]); pending bills are
    worked off a hundred at a time ([bills_drain]).
    [PlaceOrder] hands the engine only orders it can take, but for their side
    ([PlaceOrder_accepts]), and never stops the process
    ([PlaceOrder_never_panics]). *)
From S2P Require Import Prelude Decimal Models Ledger Settlement LedgerInv Accounting OrderInv Transactions.
From S2P Require Import Window OrderBook Book Workers LedgerDemo.
From Stdlib Require Import QArith Qabs Qminmax Lqa.
From stdpp Require Import list relations.
Open Scope string_scope.
Open Scope list_scope.
Open Scope Z_scope.

Section NoPanic.
Context {P : DecimalPkg} {L : DecimalLaws P} {C : Column}.

(** A statement succeeds or fails; it does not stop the process. *)
Lemma store_no_panic d : store d <> Panic.
Proof. unfold store. by destruct (column d). Qed.
Hint Resolve store_no_panic : go.

Lemma AddBill_no_panic now db b : AddBills now db [b] <> Panic.
Proof. cbn. unfold billRow. no_panic. Qed.
Lemma UpdateAccount_no_panic now db a : UpdateAccount now db a <> Panic.
Proof. unfold UpdateAccount, accountRow. no_panic. Qed.
Hint Resolve AddBill_no_panic UpdateAccount_no_panic : go.

Lemma HoldBalance_no_panic now db u c size ty : HoldBalance now db u c size ty <> Panic.
Proof. unfold HoldBalance. repeat case_match; no_panic. Qed.

Lemma normalizeOrder_no_panic product ty side size price funds : normalizeOrder product ty side size price funds <> Panic.
Proof.
  unfold normalizeOrder. destruct (ty =s? OrderTypeLimit); [|repeat case_match; done].
  case_match; [done|]. apply bind_no_panic; [|intros [] _; [done|by case_match]].
  destruct (dec_IsPositive _) eqn:Hpos; [|done]. destruct (dec_Mod _ _) eqn:Hmod; [done|].
  apply dec_Mod_None in Hmod. dec_prop. lra.
Qed.

Lemma AddOrder_no_panic now db o : AddOrder now db o <> Panic.
Proof. unfold AddOrder, orderRow. case_decide; no_panic. Qed.
End NoPanic.

Section Theorems.
Context {P : DecimalPkg} {L : DecimalLaws P} {C : Column} {CL : ColumnLaws L C}.

(** C10: over any sequence of transactions, every account moves by exactly the
    bills that were settled for it, available and hold alike. *)
Theorem books_balance db db' p u c : db_wf db -> rtc ledgerStep db db' ->
  (balance p u c db' - balance p u c db == settledBills p u c db' - settledBills p u c db)%Q.
Proof.
  intros Hwf Hr. pose proof (accounted_bills _ _ (ledger_accounted _ _ Hwf Hr) p u c). lra.
Qed.

(** C11: what an account holds, pending bills included, differs from what its
    open orders still need by an amount no transaction changes: a hold is taken
    with the order, used up by its trades and released with its end. *)
Theorem holds_match_orders db db' u c : db_wf db -> rtc ledgerStep db db' ->
  (balance Hold u c db' + pendingBills Hold u c db' - openHolds u c db'
   == balance Hold u c db + pendingBills Hold u c db - openHolds u c db)%Q.
Proof. intros Hwf Hr. apply (accounted_holds _ _ (ledger_accounted _ _ Hwf Hr)). Qed.

(** C12: no sequence of transactions makes an available balance negative, nor
    leaves a pending bill that would. *)
Theorem no_overdraft db db' : db_wf db -> rtc ledgerStep db db' ->
  (forall u c, 0 <= balance Available u c db')%Q /\
  (forall b, b ∈ g_bill db' -> bill_Settled b = false -> 0 <= dval (bill_Available b))%Q.
Proof.
  intros Hwf Hr. pose proof (accounted_wf _ _ (ledger_accounted _ _ Hwf Hr)) as Hw. split.
  - intros u c. unfold balance. destruct (GetAccount db' u c) as [a|] eqn:Hget; [|lra].
    apply GetAccount_Some in Hget as [Hin _]. pose proof (accounts_ok _ _ (wf_accounts _ Hw)) as Hok.
    rewrite Forall_forall in Hok. by apply Hok.
  - intros b Hb Hs. pose proof (bills_ok _ _ (wf_bills _ Hw)) as Hok. rewrite Forall_forall in Hok. by apply Hok.
Qed.

(** An order that is filled, cancelled or partially filled and cancelled
    stays as it is, whatever is committed later. *)
Theorem completed_final db db' id o : db_wf db -> rtc ledgerStep db db' -> GetOrderById db id = Some o ->
  completed (ord_Status o) = true -> GetOrderById db' id = Some o.
Proof.
  intros Hwf Hr. revert Hwf. induction Hr as [|db1 db2 db3 H1 _ IH]; intros Hwf Hget Hc; [done|].
  apply IH; [|by eapply ledgerStep_completed|done]. apply (accounted_wf _ _ (ledgerStep_accounted _ _ Hwf H1)).
Qed.

(** C20: settling an order adds to it exactly the trades before the fill that
    ends it, gives it the status that fill names, and marks each of these fills
    settled, so that none is worked twice. *)
Theorem ExecuteFill_settles now db db' id o : db_wf db -> ExecuteFill now db id = Ok db' -> GetOrderById db id = Some o ->
  let fills := GetUnsettledFillsByOrderId db id in
  fills <> [] ->
  exists o', GetOrderById db' id = Some o' /\
    (dval (ord_FilledSize o') == dval (ord_FilledSize o) + sumOf (fun f => dval (fill_Size f)) (tradesOf fills))%Q /\
    (dval (ord_ExecutedValue o') == dval (ord_ExecutedValue o)
       + sumOf (fun f => dval (fill_Size f) * dval (fill_Price f)) (tradesOf fills))%Q /\
    match doneOf fills with
    | None => ord_Status o' = ord_Status o
    | Some f =>
        if fill_DoneReason f =s? DoneReasonFilled then ord_Status o' = OrderStatusFilled
        else ord_Status o' = if Qeq_bool (dval (ord_FilledSize o')) 0 then OrderStatusCancelled else OrderStatusPartial
    end /\
    (forall f r, f ∈ workedOf fills -> r ∈ g_fill db' -> fill_Id r = fill_Id f -> fill_Settled r = true).
Proof.
  intros Hwf Hrun Hget fills Hne. destruct (ExecuteFill_cases _ _ _ _ Hwf Hrun) as [[_ He]|(o0 & o1 & product & fills' & Hget0 & _ & _ & Hx)]; [done|].
  change (GetOrderByIdForUpdate db id) with (GetOrderById db id) in Hget0. rewrite Hget in Hget0. injection Hget0 as <-.
  destruct (GetOrderById_Some _ _ _ (wf_orders _ Hwf) Hget) as [Hid _].
  destruct Hx as [_ _ (d & [_ _ Hsz Hv Hst _ _] & _) _ [(row & Hrow & Hread) _] Honce _]. rewrite Hid in Hread. exists row.
  destruct Hrow as [_ _ _ _ Hs _ _ Hf He]. unfold deq in Hf, He. split_and!; [done|by rewrite Hf|by rewrite He| |done].
  fold fills in Hst. destruct (doneOf fills); rewrite Hs; [|done]. case_match; [done|].
  assert (Hz : Qeq_bool (dval (ord_FilledSize row)) 0 = Qeq_bool (dval (ord_FilledSize o1)) 0) by (by rewrite Hf).
  by rewrite Hz.
Qed.

(** Settling an order changes what all users together own, the exchange's
    fee account 0 included, by the order's own side of its trades: the size of
    the base currency against the value of the quote currency.  The other side
    of each trade changes it by the opposite, so a trade makes no money. *)
Theorem ExecuteFill_worth now db db' id o product us c : db_wf db -> ExecuteFill now db id = Ok db' ->
  GetOrderById db id = Some o -> GetProductById db (ord_ProductId o) = Some product ->
  NoDup us -> ord_UserId o ∈ us -> 0 ∈ us ->
  let fills := tradesOf (GetUnsettledFillsByOrderId db id) in
  Forall (feeExact o) fills ->
  (wealth us c db' == wealth us c db + tradeWorth product o c (sumOf (fun f => dval (fill_Size f)) fills)
     (sumOf (fun f => dval (fill_Size f) * dval (fill_Price f)) fills))%Q.
Proof.
  intros Hwf Hrun Hget Hprod Hd Hu H0 fills Hx.
  destruct (ExecuteFill_cases _ _ _ _ Hwf Hrun) as [[-> He]|(o0 & o1 & product' & fills' & Hget0 & _ & Hp & Hex)].
  - unfold fills. rewrite He. unfold tradeWorth. cbn. destruct (ord_Side o =s? SideBuy); repeat case_decide; ring.
  - change (GetOrderByIdForUpdate db id) with (GetOrderById db id) in Hget0. rewrite Hget in Hget0. injection Hget0 as <-.
    rewrite Hprod in Hp. injection Hp as <-.
    destruct (executed_worth _ _ _ _ _ _ _ Hex us c Hd Hu H0) as (e & Hw & _ & He). rewrite Hw, (He Hx), Qplus_0_r. reflexivity.
Qed.

(** The snowflake generator's documented layout: 63 bits, the node in bits 12 to 21. *)
Definition snowflake (generate : Z -> Z) : Prop :=
  forall node, 0 <= node < TableOrderSplitCount -> 0 <= generate node < i64_half /\ Z.shiftr (generate node) 12 mod 1024 = node.

Lemma snowflake_id generate u : snowflake generate -> 0 <= u ->
  let id := u64 (generate (GetTableNodeByUserId u)) in window_id id /\ GetTableIndexByOrderId id = GetTableIndexByUserId u.
Proof.
  intros Hg Hu id. assert (Hn : 0 <= GetTableNodeByUserId u < TableOrderSplitCount) by (by apply Z.mod_pos_bound).
  destruct (Hg _ Hn) as [Hr Hs]. unfold id. rewrite u64_id by (unfold is_u64, u64_size, i64_half in *; lia).
  split; [unfold window_id, u64_size, i64_half in *; lia|]. unfold GetTableIndexByOrderId.
  unfold TableOrderSplitCount in *. rewrite <- (Z.mod_mod_divide _ 1024) by (exists 8; done). rewrite Hs.
  by apply Z.mod_small.
Qed.

(** C21: an order [PlaceOrder] accepts is one the matching engine can take exactly
    if its side is buy or sell, which [PlaceOrder] does not test: all else it
    has checked.  The order can be read back by its id, which was not in use,
    and its owner's hold has grown by the funds or the size it holds, out of the
    available balance. *)
Theorem PlaceOrder_accepts now generate db userId level oid pid ty tif side size price funds o db' :
  db_wf db -> snowflake generate -> 0 <= userId ->
  PlaceOrder now generate db userId level oid pid ty tif side size price funds = Ok (o, db') ->
  ord_Side o = side /\ (order_ok o <-> valid_side side) /\ GetOrderById db (ord_Id o) = None /\
  (exists row, rowOf o row /\ GetOrderById db' (ord_Id o) = Some row) /\
  exists product, GetProductById db pid = Some product /\ (0 < held o)%Q /\
    (balance Available userId (holdsIn product o) db' == balance Available userId (holdsIn product o) db - held o)%Q /\
    (balance Hold userId (holdsIn product o) db' == balance Hold userId (holdsIn product o) db + held o)%Q.
Proof.
  intros Hwf Hg Hu Hrun.
  apply PlaceOrder_spec in Hrun as (product & fr & s & p & f & id & Hp & Hsd & Hnorm & Hid & Ho & Hr); [|done].
  destruct (placed_row _ _ _ _ _ Hr) as (row & Hrow & _ & Hnone & Hget).
  destruct (snowflake_id _ _ Hg Hu) as [Hwin _]. rewrite <- Hid in Hwin.
  split_and!; [by rewrite Ho| |done|by exists row|].
  - rewrite Ho. split; [by intros []|]. intros Hside. split; [done|done|]. cbn. unfold normalizeOrder in Hnorm.
    destruct (ty =s? OrderTypeLimit) eqn:Hl; [left|right].
    + apply String.eqb_eq in Hl. split; [done|]. destruct (dec_LessThan _ _); [discriminate|].
      apply bind_Ok in Hnorm as (off & _ & Hnorm). destruct off; [discriminate|].
      destruct (dec_LessThanOrEqual _ _) eqn:Hpos; [discriminate|]. injection Hnorm as _ <- _.
      dec_prop. by rewrite dval_Zero in Hpos.
    + destruct (ty =s? OrderTypeMarket) eqn:Hm; [by apply String.eqb_eq in Hm|discriminate].
  - exists product. split_and!; [done|apply (placed_held _ _ _ _ _ Hr)| |];
      rewrite (placed_balance _ _ _ _ _ Hr); unfold move; rewrite decide_True by done; ring.
Qed.

(** With the generator's documented layout, [PlaceOrder] never stops the
    process: the order's table by its id is the one by its owner. *)
Theorem PlaceOrder_never_panics now generate db userId level oid pid ty tif side size price funds :
  snowflake generate -> 0 <= userId ->
  PlaceOrder now generate db userId level oid pid ty tif side size price funds <> Panic.
Proof.
  intros Hg Hu. unfold PlaceOrder. destruct (snowflake_id _ _ Hg Hu) as [_ Hsh].
  destruct (GetProductById db pid) as [product|]; [|done]. destruct (GetFeeRateByUserLevel db level) as [fr|]; [|done].
  destruct (badRatio _); [done|]. destruct (badRatio _); [done|].
  apply bind_no_panic; [apply normalizeOrder_no_panic|]. intros [[s p] f] _.
  destruct (holdOf product side s f) as [cur amount]. apply bind_no_panic; [apply HoldBalance_no_panic|]. intros tx _.
  rewrite Hsh, Z.eqb_refl. apply bind_no_panic; [apply AddOrder_no_panic|]. done.
Qed.
End Theorems.

Section Pools.
Context {P : DecimalPkg} {L : DecimalLaws P} {C : Column} {CL : ColumnLaws L C} {R : LruPkg} {RL : LruLaws R}.

(** C22: however its listener, inspector and workers interleave, the fill
    executor only commits ledger transactions; every fill waits in the channel
    of its order's shard, so one order is never worked by two workers; and an
    order a worker remembers as settled is completed in the database. *)
Theorem fill_pool_sound db evs s : db_wf db -> fillPoolRun evs (NewFillExecutor db) = Ok s ->
  rtc ledgerStep db (fp_db s) /\
  (forall i ch f, fp_chs s !! i = Some ch -> f ∈ ch -> Z.of_nat i = Z.rem (fill_OrderId f) fillWorkerNum) /\
  (forall i cache id, fp_caches s !! i = Some cache -> lru_Contains cache id = true ->
     exists o, GetOrderById (fp_db s) id = Some o /\ completed (ord_Status o) = true).
Proof.
  intros Hwf Hrun. destruct (fillPoolRun_ok _ _ _ (NewFillExecutor_ok _ Hwf) Hrun) as [Hok Hr].
  split; [exact Hr|]. split; [|apply (pool_caches _ Hok)]. intros i ch f Hch Hf.
  pose proof (pool_shards _ Hok _ _ Hch) as Hsh. rewrite Forall_forall in Hsh. symmetry. by apply Hsh.
Qed.

(** [n] transactions of the bill executor on one account. *)
Fixpoint billRounds (now : Instant) (n : nat) (u : Z) (c : string) (db : Db) : outcome dbError Db :=
  match n with O => mret db | S n => db ← ExecuteBill now db u c; billRounds now n u c db end.

(** Every committed [ExecuteBill] works off a hundred pending bills of its
    account, so that after enough of them none is left. *)
Theorem bills_drain now n u c db db' : db_wf db -> billRounds now n u c db = Ok db' ->
  length (pendingList u c db') = (length (pendingList u c db) - 100 * n)%nat.
Proof.
  revert db. induction n as [|n IH]; intros db Hwf Hrun; cbn [billRounds] in Hrun.
  - injection Hrun as <-. lia.
  - apply bind_Ok in Hrun as (db1 & H1 & Hrun). apply IH in Hrun.
    + rewrite Hrun, (ExecuteBill_count _ _ _ _ _ Hwf H1). lia.
    + apply (accounted_wf db). apply ledgerStep_accounted; [done|]. by eapply step_bill.
Qed.
End Pools.

(** ** The theorems on the demonstration database *)

Import LedgerDemo.

Lemma generate_snowflake : snowflake generate.
Proof.
  intros node Hn. unfold TableOrderSplitCount, generate, i64_half in *. rewrite !Z.shiftl_mul_pow2, Z.shiftr_div_pow2 by lia.
  rewrite Z.div_mul by lia. split; [lia|]. change (1000 * 2 ^ 10 + node) with (1000 * 1024 + node).
  rewrite Z.add_comm, Z.mod_add by lia. apply Z.mod_small. lia.
Qed.

Lemma books_balance_witness :
  (balance Available 7 "BTC" db7 == 99 # 100)%Q /\
  (balance Available 7 "BTC" db7 - balance Available 7 "BTC" db0
   == settledBills Available 7 "BTC" db7 - settledBills Available 7 "BTC" db0)%Q.
Proof.
  split; [vm_compute; reflexivity|]. apply books_balance; [exact db0_wf|exact day].
Defined.

Lemma holds_match_orders_witness :
  (openHolds 9 "BTC" db2 == 1)%Q /\
  (balance Hold 7 "USDT" db7 + pendingBills Hold 7 "USDT" db7 - openHolds 7 "USDT" db7
   == balance Hold 7 "USDT" db0 + pendingBills Hold 7 "USDT" db0 - openHolds 7 "USDT" db0)%Q.
Proof.
  split; [vm_compute; reflexivity|]. apply holds_match_orders; [exact db0_wf|exact day].
Defined.

Lemma no_overdraft_witness :
  (balance Available 7 "USDT" db7 == 92)%Q /\ (forall u c, 0 <= balance Available u c db7)%Q.
Proof.
  split; [vm_compute; reflexivity|]. apply (no_overdraft db0); [exact db0_wf|exact day].
Defined.

Lemma completed_final_witness : ord_Status order4 = OrderStatusFilled /\ GetOrderById db7 buyId = Some order4.
Proof.
  assert (Hs : ord_Status order4 = OrderStatusFilled) by (vm_compute; reflexivity). split; [exact Hs|].
  apply (completed_final db4); [exact db4_wf|exact evening|exact order4_get|]. rewrite Hs. reflexivity.
Defined.

Lemma fills3 : GetUnsettledFillsByOrderId db3 buyId <> [].
Proof.
  assert (Hl : length (GetUnsettledFillsByOrderId db3 buyId) = 2%nat) by (vm_compute; reflexivity).
  intros He. rewrite He in Hl. discriminate Hl.
Qed.

Lemma ExecuteFill_settles_witness : length (tradesOf (GetUnsettledFillsByOrderId db3 buyId)) = 1%nat /\
  exists o', GetOrderById db4 buyId = Some o'.
Proof.
  split; [vm_compute; reflexivity|].
  pose proof (ExecuteFill_settles 4 db3 db4 buyId order3 db3_wf run4 order3_get fills3) as Hset.
  destruct Hset as (o' & Ho & _). exists o'. exact Ho.
Defined.

Definition parties : list Z := [0; 7; 9].

Lemma fees3 : Forall (feeExact order3) (tradesOf (GetUnsettledFillsByOrderId db3 buyId)).
Proof.
  assert (Hfee : forall q z, Qeq_bool q (inject_Z z * ulp columnScale) = true -> exact16 (q : Dec)).
  { intros q z Hq. exists z. by apply Qeq_bool_iff. }
  vm_compute tradesOf. constructor; [|constructor]. split; [apply (Hfee _ 100000000000000)|apply (Hfee _ 50000000000000)]; vm_compute; reflexivity.
Qed.

Lemma worth3 : (tradeWorth product order3 "USDT" (sumOf (fun f => dval (fill_Size f)) (tradesOf (GetUnsettledFillsByOrderId db3 buyId)))
  (sumOf (fun f => dval (fill_Size f) * dval (fill_Price f)) (tradesOf (GetUnsettledFillsByOrderId db3 buyId))) == - (8))%Q.
Proof. vm_compute. reflexivity. Qed.

Lemma ExecuteFill_worth_witness :
  (wealth parties "USDT" db4 == wealth parties "USDT" db3 - 8)%Q /\
  (wealth parties "USDT" db5 == wealth parties "USDT" db3)%Q.
Proof.
  split; [|vm_compute; reflexivity].
  assert (Hget : GetProductById db3 (ord_ProductId order3) = Some product) by (vm_compute; reflexivity).
  assert (Hnd : NoDup parties) by (apply (bool_decide_unpack _); vm_compute; exact I).
  assert (Hu : ord_UserId order3 ∈ parties) by (apply (bool_decide_unpack _); vm_compute; exact I).
  assert (H0 : 0 ∈ parties) by (apply (bool_decide_unpack _); vm_compute; exact I).
  assert (Hx : Forall (feeExact order3) (tradesOf (GetUnsettledFillsByOrderId db3 buyId))) by exact fees3.
  pose proof (ExecuteFill_worth 4 db3 db4 buyId order3 product parties "USDT" db3_wf run4 order3_get Hget Hnd Hu H0 Hx) as Hw.
  rewrite Hw, worth3. ring.
Defined.

Lemma PlaceOrder_accepts_witness : exists o, buy db0 = Ok (o, db1) /\ order_ok o.
Proof.
  destruct bought as [o Ho]. exists o. split; [exact Ho|].
  destruct (PlaceOrder_accepts _ generate _ 7 _ _ _ _ _ _ _ _ _ _ _ db0_wf generate_snowflake ltac:(lia) Ho) as (_ & [_ Hok] & _).
  apply Hok. by left.
Defined.

Lemma PlaceOrder_never_panics_witness : buy db0 <> Panic /\ isOk (buy db0) = true.
Proof.
  split; [|vm_compute; reflexivity]. apply PlaceOrder_never_panics; [exact generate_snowflake|lia].
Defined.

#[export] Instance listLru : LruPkg := {|
  Lru := list Z; lru_New := fun _ => []; lru_Contains := fun c k => bool_decide (k ∈ c); lru_Add := fun c k => k :: c |}.
#[export] Instance listLruLaws : LruLaws listLru.
Proof.
  split.
  - intros n k. cbn. by apply bool_decide_eq_false, not_elem_of_nil.
  - intros c k k' H. cbn in *. apply bool_decide_eq_true in H. apply elem_of_cons in H as [->|H]; [by left|right].
    by apply bool_decide_eq_true.
Qed.

(** The inspector finds the four fills; the buyer's worker settles the first,
    and the second, of the then completed order, goes into its cache. *)
Definition poolEvents : list fillPoolEvent :=
  [FpInspect; FpInspectSend; FpInspectSend; FpInspectSend; FpInspectSend; FpWork (Z.to_nat (fillShard (fill 1 buyId "T" false))) 4;
   FpWork (Z.to_nat (fillShard (fill 1 buyId "T" false))) 5].
Definition pool3 : fillPool := getOk (NewFillExecutor db3) (fillPoolRun poolEvents (NewFillExecutor db3)).
Lemma pool3_run : fillPoolRun poolEvents (NewFillExecutor db3) = Ok pool3.
Proof. unfold pool3. apply isOk_get. vm_compute. reflexivity. Qed.
#[global] Opaque pool3.

Lemma fill_pool_sound_witness : rtc ledgerStep db3 (fp_db pool3) /\
  isSome (list_find (fun c => lru_Contains c buyId = true) (fp_caches pool3)) = true.
Proof. split; [|vm_compute; reflexivity]. apply (fill_pool_sound db3 poolEvents pool3 db3_wf pool3_run). Defined.

Lemma db5_wf : db_wf db5.
Proof. apply (accounted_wf db4). apply ledgerStep_accounted; [exact db4_wf|exact step5]. Qed.
Definition drained : Db := getOk db5 (billRounds 6 1 7 "USDT" db5).
Lemma drained_run : billRounds 6 1 7 "USDT" db5 = Ok drained.
Proof. unfold drained. apply isOk_get. vm_compute. reflexivity. Qed.
#[global] Opaque drained.

Lemma bills_drain_witness : length (pendingList 7 "USDT" db5) = 2%nat /\ length (pendingList 7 "USDT" drained) = 0%nat.
Proof.
  assert (H2 : length (pendingList 7 "USDT" db5) = 2%nat) by (vm_compute; reflexivity). split; [exact H2|].
  rewrite (bills_drain 6 1 7 "USDT" db5 drained db5_wf drained_run), H2. reflexivity.
Defined.
