(* ===== verification/OrderRows.v ===== *)
(** What the order tables hold: orders the matching engine can take.

    The services take any text for the side of an order.  A row is good when its
    side is one of [sides], the engine can work the order it stands for if it
    knows the side ([order_fit]), and the price column holds its price.  Placing
    an order with one of the sides adds a good row, and everything the workers
    and services do to the tables keeps the rows good. *)
From S2P Require Import Prelude Decimal Models Ledger Settlement LedgerInv Accounting OrderInv Transactions.
From S2P Require Import Window OrderBook Book LedgerTheorems.
From Stdlib Require Import QArith Qabs Lqa.
From stdpp Require Import list relations.
Open Scope string_scope.
Open Scope list_scope.
Open Scope Z_scope.

Section Rows.
Context {P : DecimalPkg} {L : DecimalLaws P} {C : Column} {CL : ColumnLaws L C}.

(** An order the engine can take, if it knows its side. *)
Definition order_fit (o : Order) : Prop :=
  window_id (ord_Id o) /\ (ord_Type o = OrderTypeLimit /\ (0 < dval (ord_Price o))%Q \/ ord_Type o = OrderTypeMarket).

Lemma order_ok_fit o : order_ok o <-> order_fit o /\ valid_side (ord_Side o).
Proof. split; [intros []; by split|intros [[] ?]; by split]. Qed.

(** The sides that occur. *)
Context (sides : Side -> Prop).

Definition goodOrder (o : Order) : Prop := order_fit o /\ sides (ord_Side o).
Definition goodRow (o : Order) : Prop := goodOrder o /\ exact16 (ord_Price o).
Definition goodTables (db : Db) : Prop := forall i, Forall goodRow (g_order db i).

(** What goodness depends on. *)
Record sameTerms (o o' : Order) : Prop := {
  terms_id : ord_Id o' = ord_Id o;
  terms_side : ord_Side o' = ord_Side o;
  terms_type : ord_Type o' = ord_Type o;
  terms_price : ord_Price o' ≡d ord_Price o;
}.

Lemma sameTerms_refl o : sameTerms o o.
Proof. by split. Qed.
Lemma sameTerms_trans o1 o2 o3 : sameTerms o1 o2 -> sameTerms o2 o3 -> sameTerms o1 o3.
Proof. intros [? ? ? Hp] [? ? ? Hp']. split; [congruence..|]. by rewrite Hp', Hp. Qed.

Lemma goodRow_same o o' : sameTerms o o' -> goodRow o -> goodRow o'.
Proof.
  intros [Hi Hs Ht Hp] [[[Hid Hkind] Hside] Hx]. split; [|by eapply exact16_proper; [symmetry|]].
  split; [|by rewrite Hs]. split; [by rewrite Hi|]. rewrite Ht. unfold deq in Hp. by rewrite Hp.
Qed.

Lemma orderRow_terms created updated o row : orderRow created updated o = Ok row -> exact16 (ord_Price o) -> sameTerms o row.
Proof. unfold orderRow. intros Hr Hx. go_simpl. split; cbn; try done. by eapply store_exact. Qed.

Lemma settleFills_terms now product fills : forall o db o' fills' db',
  settleFills now product o fills db = Ok (o', fills', db') -> sameTerms o o'.
Proof.
  induction fills as [|f fills IH]; intros o db o' fills' db' Hrun; cbn in Hrun; [by simplify_eq|].
  destruct (fill_Done f).
  - unfold settleDone in Hrun. apply bind_Ok in Hrun as ([[o1 f1] db1] & Hd & Hrun). injection Hrun as <- _ _.
    apply bind_Ok in Hd as (st & _ & Hd). case_match. apply bind_Ok in Hd as (db2 & _ & Hd). by injection Hd as <- _ _.
  - apply bind_Ok in Hrun as ([[o1 f1] db1] & Ht & Hrun). apply bind_Ok in Hrun as ([[o2 fs2] db2] & Hrest & Hrun).
    injection Hrun as <- _ _. apply IH in Hrest. eapply sameTerms_trans; [|exact Hrest].
    unfold settleTrade in Ht. destruct (ord_Side o =s? SideBuy); go_simpl; by split.
Qed.

(** ** The steps *)

Lemma setTable_good db i rows : goodTables db -> Forall goodRow rows -> goodTables (setTable db i rows).
Proof. intros Hg Hr j. cbn. by destruct (j =? i). Qed.

Lemma goodTables_same db db' : g_order db' = g_order db -> goodTables db -> goodTables db'.
Proof. unfold goodTables. by intros ->. Qed.

Lemma UpdateOrder_good now db o db' : goodTables db -> goodRow o -> UpdateOrder now db o = Ok db' -> goodTables db'.
Proof.
  unfold UpdateOrder. intros Hg Ho Hrun. apply bind_Ok in Hrun as (row & Hrow & Hrun). injection Hrun as <-.
  assert (Hid : ord_Id row = ord_Id o) by (unfold orderRow in Hrow; by go_simpl). rewrite <- Hid.
  apply setTable_good; [done|]. apply (replace_Forall ord_Id goodRow); [apply Hg|].
  eapply goodRow_same; [|exact Ho]. eapply orderRow_terms; [exact Hrow|apply Ho].
Qed.

Lemma UpdateOrderStatus_good now db id old new b db' : goodTables db -> UpdateOrderStatus now db id old new = Ok (b, db') ->
  goodTables db'.
Proof.
  unfold UpdateOrderStatus. intros Hg [= _ <-]. apply setTable_good; [done|]. apply Forall_fmap.
  eapply Forall_impl; [apply Hg|]. intros o Ho. cbn. case_match; [|done]. by eapply goodRow_same; [|exact Ho].
Qed.

Lemma GetOrderById_good db id o : goodTables db -> GetOrderById db id = Some o -> goodRow o.
Proof. intros Hg Hget. apply query_Some in Hget as [Hin _]. pose proof (Hg (GetTableIndexByOrderId id)) as H. rewrite Forall_forall in H. auto. Qed.

Lemma updateFills_orders now fills : forall db db', updateFills now db fills = Ok db' -> g_order db' = g_order db.
Proof.
  induction fills as [|f fills IH]; intros db db' Hrun; cbn in Hrun; [by simplify_eq|].
  apply bind_Ok in Hrun as (db1 & Hu & Hrun). rewrite (IH _ _ Hrun). unfold UpdateFill in Hu. by go_simpl.
Qed.

Lemma AddDelayBill_orders now db u c a h ty notes db' : AddDelayBill now db u c a h ty notes = Ok db' -> g_order db' = g_order db.
Proof. unfold AddDelayBill. cbn. intros H. by go_simpl. Qed.

Lemma settleFills_orders now product fills : forall o db o' fills' db',
  settleFills now product o fills db = Ok (o', fills', db') -> g_order db' = g_order db.
Proof.
  assert (Hif : forall (b : bool) now db u c a h ty notes db',
    (if b then AddDelayBill now db u c a h ty notes else mret db) = Ok db' -> g_order db' = g_order db).
  { intros [] now' ? ? ? ? ? ? ? db' H; [by eapply AddDelayBill_orders|by injection H as <-]. }
  induction fills as [|f fills IH]; intros o db o' fills' db' Hrun; cbn in Hrun; [by simplify_eq|].
  destruct (fill_Done f).
  - unfold settleDone in Hrun. apply bind_Ok in Hrun as ([[o1 f1] db1] & Hd & Hrun). injection Hrun as _ _ <-.
    apply bind_Ok in Hd as (st & _ & Hd). case_match. apply bind_Ok in Hd as (db2 & Hb & Hd). injection Hd as _ _ <-.
    by eapply Hif.
  - apply bind_Ok in Hrun as ([[o1 f1] db1] & Ht & Hrun). apply bind_Ok in Hrun as ([[o2 fs2] db2] & Hrest & Hrun).
    injection Hrun as _ _ <-. rewrite (IH _ _ _ _ _ Hrest). unfold settleTrade in Ht. destruct (ord_Side o =s? SideBuy).
    all: apply bind_Ok in Ht as (fee & _ & Ht); apply bind_Ok in Ht as (d1 & H1 & Ht); apply bind_Ok in Ht as (d2 & H2 & Ht).
    all: apply bind_Ok in Ht as (d3 & H3 & Ht); injection Ht as _ _ <-.
    all: by rewrite (Hif _ _ _ _ _ _ _ _ _ _ H3), (AddDelayBill_orders _ _ _ _ _ _ _ _ _ H2), (AddDelayBill_orders _ _ _ _ _ _ _ _ _ H1).
Qed.

Lemma ExecuteFill_good now db id db' : goodTables db -> ExecuteFill now db id = Ok db' -> goodTables db'.
Proof.
  intros Hg Hrun. unfold ExecuteFill in Hrun. destruct (GetOrderByIdForUpdate db id) as [o|] eqn:Hget; [|discriminate].
  destruct (completed _); [discriminate|]. destruct (GetProductById _ _) as [product|]; [|discriminate].
  destruct (length _ =? 0)%nat; [by injection Hrun as <-|].
  apply bind_Ok in Hrun as ([[o' fills'] tx] & Hset & Hrun). apply bind_Ok in Hrun as (tx2 & Hup & Hrun).
  eapply goodTables_same; [by eapply updateFills_orders|]. eapply UpdateOrder_good; [| |exact Hup].
  - eapply goodTables_same; [by eapply settleFills_orders|done].
  - eapply goodRow_same; [by eapply settleFills_terms|]. by eapply GetOrderById_good.
Qed.

(** ** Placing an order *)

Lemma normalizeOrder_kind product ty side size price funds size' price' funds' :
  normalizeOrder product ty side size price funds = Ok (size', price', funds') ->
  ty = OrderTypeLimit /\ (0 < dval price')%Q \/ ty = OrderTypeMarket.
Proof.
  unfold normalizeOrder. intros Hnorm. destruct (ty =s? OrderTypeLimit) eqn:Hl; [left|right].
  - apply String.eqb_eq in Hl. split; [done|]. destruct (dec_LessThan _ _); [discriminate|].
    apply bind_Ok in Hnorm as (off & _ & Hnorm). destruct off; [discriminate|].
    destruct (dec_LessThanOrEqual _ _) eqn:Hpos; [discriminate|]. injection Hnorm as _ <- _.
    dec_prop. by rewrite dval_Zero in Hpos.
  - destruct (ty =s? OrderTypeMarket) eqn:Hm; [by apply String.eqb_eq in Hm|discriminate].
Qed.

Lemma PlaceOrder_good now generate db userId level oid pid ty tif side size price funds o db' :
  db_wf db -> snowflake generate -> 0 <= userId -> sides side ->
  PlaceOrder now generate db userId level oid pid ty tif side size price funds = Ok (o, db') -> goodRow o.
Proof.
  intros Hwf Hg Hu Hside Hrun.
  apply PlaceOrder_spec in Hrun as (product & fr & s & p & f & id & Hp & Hsd & Hnorm & Hid & Ho & Hr); [|done].
  destruct (snowflake_id _ _ Hg Hu) as [Hwin _]. rewrite <- Hid in Hwin. rewrite Ho.
  assert (Hpok : product_ok product).
  { pose proof (wf_products _ Hwf) as Hps. rewrite Forall_forall in Hps. apply Hps. by apply query_Some in Hp as [? _]. }
  destruct (normalizeOrder_exact _ _ _ _ _ _ _ _ _ Hpok Hnorm) as (_ & Hxp & _).
  split; [|exact Hxp]. split; [|done]. split; [done|]. by apply normalizeOrder_kind in Hnorm.
Qed.

Lemma PlaceOrder_tables now generate db userId level oid pid ty tif side size price funds o db' :
  PlaceOrder now generate db userId level oid pid ty tif side size price funds = Ok (o, db') ->
  exists row, orderRow now now o = Ok row /\ ord_UserId o = userId /\
    forall i, g_order db' i = if i =? GetTableIndexByUserId userId then g_order db i ++ [row] else g_order db i.
Proof.
  unfold PlaceOrder. intros Hrun. destruct (GetProductById _ _) as [product|]; [|discriminate].
  destruct (GetFeeRateByUserLevel _ _) as [fr|]; [|discriminate]. destruct (badRatio _); [discriminate|].
  destruct (badRatio _); [discriminate|]. apply bind_Ok in Hrun as ([[s p] f] & _ & Hrun).
  destruct (holdOf _ _ _ _) as [cur amount]. apply bind_Ok in Hrun as (tx & Hh & Hrun).
  assert (Hso : g_order tx = g_order db).
  { unfold HoldBalance in Hh. destruct (dec_LessThanOrEqual _ _); [discriminate|]. destruct (GetAccountForUpdate _ _ _); [|discriminate].
    destruct (negb _); [discriminate|]. apply bind_Ok in Hh as (tx1 & H1 & H2). cbn in H1. unfold UpdateAccount in H2. by go_simpl. }
  destruct (negb _); [discriminate|]. apply bind_Ok in Hrun as (tx2 & Hadd & Hrun). injection Hrun as <- <-.
  unfold AddOrder in Hadd. case_decide; [discriminate|]. apply bind_Ok in Hadd as (row & Hrow & Hadd). injection Hadd as <-.
  exists row. split; [exact Hrow|]. split; [done|]. intros i. cbn in *. rewrite Hso.
  destruct (Z.eqb_spec i (GetTableIndexByUserId userId)) as [->|]; done.
Qed.

Lemma PlaceOrder_tables_good now generate db userId level oid pid ty tif side size price funds o db' :
  goodTables db -> goodRow o ->
  PlaceOrder now generate db userId level oid pid ty tif side size price funds = Ok (o, db') -> goodTables db'.
Proof.
  intros Hg Ho Hrun. destruct (PlaceOrder_tables _ _ _ _ _ _ _ _ _ _ _ _ _ _ _ Hrun) as (row & Hrow & _ & Ht).
  intros i. rewrite Ht. destruct (i =? _); [|apply Hg]. apply Forall_app. split; [apply Hg|]. constructor; [|done].
  eapply goodRow_same; [|exact Ho]. eapply orderRow_terms; [exact Hrow|apply Ho].
Qed.

(** ** The workers *)

(** The steps that place no order. *)
Inductive workerStep (db db' : Db) : Prop :=
| work_open now id b : UpdateOrderStatus now db id OrderStatusNew OrderStatusOpen = Ok (b, db') -> workerStep db db'
| work_fills now fills : Forall fill_fits fills -> AddFills now db fills = Ok db' -> workerStep db db'
| work_execute now id : ExecuteFill now db id = Ok db' -> workerStep db db'
| work_bill now userId currency : ExecuteBill now db userId currency = Ok db' -> workerStep db db'
| work_trades now trades : AddTrades now db trades = Ok db' -> workerStep db db'
| work_ticks now ticks : AddTicks now db ticks = Ok db' -> workerStep db db'.

Lemma workerStep_ledger db db' : workerStep db db' -> ledgerStep db db'.
Proof.
  destruct 1; [by eapply step_open|by eapply step_fills|by eapply step_execute|by eapply step_bill|by eapply step_trades|by eapply step_ticks].
Qed.

Lemma workerStep_good db db' : db_wf db -> workerStep db db' -> goodTables db -> goodTables db'.
Proof.
  intros Hwf Hstep Hg. destruct Hstep as [now id b Hr|now fills Hf Hr|now id Hr|now u c Hr|now trades Hr|now ticks Hr].
  - by eapply UpdateOrderStatus_good.
  - apply AddFills_spec in Hr as [_ Hs]; [|apply (wf_fills _ Hwf)|done]. unfold sameButFills in Hs. apply (goodTables_same db); [by rewrite Hs|done].
  - by eapply ExecuteFill_good.
  - apply ExecuteBill_spec in Hr as (_ & (Ho & _) & _); [|done]. by eapply goodTables_same.
  - apply AddTrades_frame in Hr. apply (goodTables_same db); [by rewrite Hr|done].
  - apply AddTicks_frame in Hr. apply (goodTables_same db); [by rewrite Hr|done].
Qed.
End Rows.
