(* ===== verification/RestInv.v ===== *)
(** What a request does to the world: [handle_effect] is the case analysis over
    the handlers of [Rest.v], and the rest of the file what follows from it. *)
From S2P Require Import Prelude Strconv Decimal Models Ledger Settlement LedgerInv OrderInv Transactions.
From S2P Require Import Window OrderBook Book LedgerTheorems OrderRows Users Views Rest.
From Stdlib Require Import QArith.
From stdpp Require Import list relations.
Open Scope string_scope.
Open Scope list_scope.
Open Scope Z_scope.

Section RestInv.
Context {P : DecimalPkg} {L : DecimalLaws P} {C : Column} {CL : ColumnLaws L C}.
Context {R : RestPkg} {B : BcryptPkg} {J : JwtPkg} (JwtSecret : string).
Implicit Types (w : World) (env : Env) (o : Order).

(** ** Messages to the order topics *)

Definition submitAll env (orders : list Order) w : World := foldl (fun w o => submitOrder env o w) w orders.

(** A message Kafka takes and appends to the topic. *)
Definition goesTo env (topic : string) (o : Order) : Prop := env_accepts env o = true /\ orderTopic (ord_ProductId o) = topic.
#[export] Instance goesTo_dec env topic o : Decision (goesTo env topic o).
Proof. unfold goesTo. apply _. Defined.

Lemma submitOrder_rest env o w : w_db (submitOrder env o w) = w_db w /\ w_users (submitOrder env o w) = w_users w.
Proof. unfold submitOrder. by destruct (env_accepts env o). Qed.

Lemma submitOrder_topic env o w topic : topicOf (submitOrder env o w) topic = topicOf w topic ++ filter (goesTo env topic) [o].
Proof.
  rewrite filter_cons, filter_nil. unfold submitOrder. case_decide as Hg; unfold goesTo in Hg.
  - destruct Hg as [-> <-]. unfold topicOf at 1. cbn. by rewrite lookup_insert_eq.
  - rewrite app_nil_r. destruct (env_accepts env o); [|done]. unfold topicOf at 1. cbn. rewrite lookup_insert_ne; [done|]. naive_solver.
Qed.

Lemma submitAll_rest env orders : forall w, w_db (submitAll env orders w) = w_db w /\ w_users (submitAll env orders w) = w_users w.
Proof.
  induction orders as [|o orders IH]; intros w; [done|]. change (submitAll env (o :: orders) w) with (submitAll env orders (submitOrder env o w)).
  destruct (IH (submitOrder env o w)) as [-> ->]. apply submitOrder_rest.
Qed.

Lemma submitAll_topic env topic orders : forall w,
  topicOf (submitAll env orders w) topic = topicOf w topic ++ filter (goesTo env topic) orders.
Proof.
  induction orders as [|o orders IH]; intros w; [by rewrite filter_nil, app_nil_r|].
  change (submitAll env (o :: orders) w) with (submitAll env orders (submitOrder env o w)).
  rewrite IH, submitOrder_topic, <- app_assoc, <- filter_app. done.
Qed.

Lemma submitAll_fmap env (f : Order -> Order) orders : forall w,
  submitAll env (f <$> orders) w = foldl (fun w o => submitOrder env (f o) w) w orders.
Proof. induction orders as [|o orders IH]; intros w; [done|]. apply IH. Qed.

(** ** The effect of a handler *)

(** A row of the user that may still be cancelled. *)
Definition ownOpen (db : Db) (userId : Z) (o : Order) : Prop :=
  o ∈ g_order db (GetTableIndexByUserId userId) /\ ord_UserId o = userId /\ cancellable (ord_Status o) = true.

(** The side of a request, after the default. *)
Definition sideOf (req : placeOrderRequest) : Side := orDefault (po_Side req) SideBuy.

Inductive effect env (user : option User) (r : route) w w' : Prop :=
| effect_none : w' = w -> effect env user r w w'
| effect_signup req u t : r = POST_users (Ok req) ->
    CreateUser (env_now env) (env_salt env) (w_users w) (su_Email req) (su_Password req) = Ok (u, t) ->
    w' = w_setUsers w t -> effect env user r w w'
| effect_password req u t : r = POST_users_password (Ok req) -> user = Some u ->
    ChangePassword (env_now env) (env_salt env) (w_users w) (user_Email u) (cp_NewPassword req) = Ok t ->
    w' = w_setUsers w t -> effect env user r w w'
| effect_place req u ty tif size price funds o db : r = POST_orders (Ok req) -> user = Some u ->
    PlaceOrder (env_now env) (env_generate env) (w_db w) (user_Id u) (user_UserLevel u) (po_ClientOid req)
      (po_ProductId req) ty tif (sideOf req) size price funds = Ok (o, db) ->
    w' = submitOrder env o (w_setDb w db) -> effect env user r w w'
| effect_cancel u rows : user = Some u -> Forall (ownOpen (w_db w) (user_Id u)) rows ->
    w' = submitAll env (ord_cancelling <$> rows) w -> effect env user r w w'.

Lemma orFail_Ok {A} status w (m : outcome dbError A) k resp w' : orFail status w m k = Ok (resp, w') ->
  w' = w \/ exists a, m = Ok a /\ k a = Ok (resp, w').
Proof. destruct m; cbn; intros H; try discriminate; [by right; eauto|]. injection H as _ <-. by left. Qed.

Lemma orReject_Ok {A} w prefix (m : outcome string A) k resp w' : orReject w prefix m k = Ok (resp, w') ->
  w' = w \/ exists a, m = Ok a /\ k a = Ok (resp, w').
Proof. destruct m; cbn; intros H; try discriminate; [by right; eauto|]. injection H as _ <-. by left. Qed.

(** Follow a handler's early returns to its last line. *)
Ltac handler_step H :=
  match type of H with
  | orFail _ _ _ _ = Ok _ =>
      let a := fresh "a" in let Ha := fresh "Ha" in apply orFail_Ok in H as [H|(a & Ha & H)]; [by apply effect_none|]
  | orReject _ _ _ _ = Ok _ =>
      let a := fresh "a" in let Ha := fresh "Ha" in apply orReject_Ok in H as [H|(a & Ha & H)]; [by apply effect_none|]
  | (_ ≫= _) = Ok _ =>
      let a := fresh "a" in let Ha := fresh "Ha" in apply bind_Ok in H as (a & Ha & H)
  | mret _ = Ok _ => injection H as _ H
  | Ok _ = Ok _ => injection H as _ H
  end.
Ltac handler H := repeat (handler_step H; cbn beta iota zeta in * ).

Lemma currentUser_Ok (ctx : Ctx) u : currentUser ctx = Ok u -> ctx_user ctx = Some u.
Proof. unfold currentUser, GetCurrentUser. destruct (ctx_user ctx); cbn; [by intros [= ->]|discriminate]. Qed.

Lemma read_Ok {A} env (x y : A) : read env x = Ok y -> y = x.
Proof. unfold read. destruct (env_readError env); [discriminate|by intros [= ->]]. Qed.

Lemma PlaceOrder_effect env ctx bound w resp w' : rest_PlaceOrder env ctx bound w = Ok (resp, w') ->
  effect env (ctx_user ctx) (POST_orders bound) w w'.
Proof.
  unfold rest_PlaceOrder. intros H. handler_step H. cbn beta iota zeta in H. handler H. destruct a5 as [o db]. handler H.
  eapply effect_place; [by subst|by apply currentUser_Ok|exact Ha5|done].
Qed.

Lemma CancelOrder_effect env ctx w resp w' r : db_wf (w_db w) -> rest_CancelOrder env ctx w = Ok (resp, w') ->
  effect env (ctx_user ctx) r w w'.
Proof.
  intros Hwf H. unfold rest_CancelOrder in H.
  assert (Hans : forall found, cancelFound env ctx w found = Ok (resp, w') ->
    (forall o, found = Ok (Some o) -> o ∈ g_order (w_db w) (GetTableIndexByUserId (ord_UserId o))) ->
    effect env (ctx_user ctx) r w w').
  { intros found H' Hin. unfold cancelFound in H'. handler H'. destruct a as [o|]; [|by apply effect_none; injection H'].
    handler H'. destruct (Z.eqb_spec (ord_UserId o) (user_Id a)) as [He|]; cbn [negb] in H'; [|by apply effect_none; injection H'].
    destruct (cancellable (ord_Status o)) eqn:Hc; cbn [negb] in H'; [|by apply effect_none; injection H'].
    handler H'. eapply (effect_cancel _ _ _ _ _ a [o]); [by apply currentUser_Ok| |done].
    constructor; [|done]. split_and!; [|done|done]. rewrite <- He. by apply Hin. }
  destruct (HasPrefix _ _).
  - handler H. apply (Hans _ H). intros o Ho. apply read_Ok in Ho. symmetry in Ho. apply query_Some in Ho as [Hin [Hu _]].
    by rewrite Hu.
  - destruct (AToUint64 _) as [id [e|]]; [by apply effect_none; injection H|].
    apply (Hans _ H). intros o Ho. apply read_Ok in Ho. symmetry in Ho.
    by apply (GetOrderById_Some _ _ _ (wf_orders _ Hwf)) in Ho as (_ & ? & _).
Qed.

Lemma elem_query {A} (b : bool) (Q : A -> Prop) `{!forall x, Decision (Q x)} (l : list A) x :
  x ∈ (if b then filter Q l else l) -> x ∈ l /\ (b = true -> Q x).
Proof. destruct b; intros Hl; [|done]. apply list_elem_of_filter in Hl. naive_solver. Qed.

Lemma elem_query_neg {A} (b : bool) (Q : A -> Prop) `{!forall x, Decision (Q x)} (l : list A) x :
  x ∈ (if b then l else filter Q l) -> x ∈ l /\ (b = false -> Q x).
Proof. destruct b; intros Hl; [done|]. apply list_elem_of_filter in Hl. naive_solver. Qed.

(** What [GetOrdersByUserId] returns are rows of the user's table that pass its tests. *)
Lemma GetOrdersByUserId_elem db userId statuses side productId before after limit o :
  o ∈ GetOrdersByUserId db userId statuses side productId before after limit ->
  o ∈ g_order db (GetTableIndexByUserId userId) /\ ord_UserId o = userId /\ (statuses <> [] -> ord_Status o ∈ statuses) /\
  (forall s, side = Some s -> ord_Side o = s) /\ (productId <> "" -> ord_ProductId o = productId) /\
  (0 < before -> before < ord_Id o) /\ (0 < after -> ord_Id o < after).
Proof.
  unfold GetOrdersByUserId. intros H. eapply elem_of_sublist in H; [|apply sublist_take]. rewrite merge_sort_Permutation in H.
  apply elem_query in H as [H Ha]. apply elem_query in H as [H Hb].
  assert (Hs : forall l : list Order, o ∈ match side with None => l | Some s => filter (fun o => ord_Side o = s) l end ->
    o ∈ l /\ forall s, side = Some s -> ord_Side o = s).
  { destruct side as [s|]; intros l Hl; [|done]. apply list_elem_of_filter in Hl as [Hl ?]. split; [done|]. by intros ? [= <-]. }
  apply Hs in H as [H Hside]. apply elem_query_neg in H as [H Hp]. apply elem_query_neg in H as [H Hst].
  apply list_elem_of_filter in H as [Hu Hin]. split_and!; try done.
  - intros Hne. apply Hst. by destruct statuses.
  - intros Hne. apply Hp. by destruct productId.
  - intros Hlt. apply Hb. by apply Z.ltb_lt.
  - intros Hlt. apply Ha. by apply Z.ltb_lt.
Qed.

Lemma CancelOrders_effect env ctx w resp w' r : rest_CancelOrders env ctx w = Ok (resp, w') ->
  effect env (ctx_user ctx) r w w'.
Proof.
  intros H. unfold rest_CancelOrders in H. handler H. apply currentUser_Ok in Ha0. apply read_Ok in Ha1 as ->.
  rewrite <- submitAll_fmap in H. eapply effect_cancel; [exact Ha0| |by symmetry].
  apply Forall_forall. intros o Ho. apply GetOrdersByUserId_elem in Ho as (Hin & Hu & Hst & _). split_and!; [exact Hin|done|].
  specialize (Hst ltac:(done)). apply elem_of_cons in Hst as [->|Hst]; [done|]. by apply list_elem_of_singleton in Hst as ->.
Qed.

Lemma handle_effect env r ctx w resp w' : db_wf (w_db w) -> handle JwtSecret env r ctx w = Ok (resp, w') ->
  effect env (ctx_user ctx) r w w'.
Proof.
  intros Hwf H. destruct r; cbn [handle] in H.
  - unfold rest_GetConfigs in H. handler H. by apply effect_none.
  - unfold SignUp in H. handler H. destruct a0 as [u t]. handler H. eapply effect_signup; [by subst|exact Ha0|done].
  - unfold SignIn in H. handler H. by apply effect_none.
  - unfold GetToken in H. handler H. by apply effect_none.
  - unfold rest_GetProducts in H. handler H. by apply effect_none.
  - unfold rest_GetProductTrades in H. handler H. by apply effect_none.
  - handler H. by apply effect_none.
  - unfold rest_GetProductCandles in H. cbn zeta in H. destruct (negb _); handler H; by apply effect_none.
  - unfold rest_GetOrders in H. handler H. by apply effect_none.
  - by eapply PlaceOrder_effect.
  - by eapply CancelOrder_effect.
  - by eapply CancelOrders_effect.
  - unfold rest_GetAccounts in H. cbn zeta in H. handler H. by apply effect_none.
  - unfold GetUsersSelf in H. destruct (GetCurrentUser ctx); handler H; by apply effect_none.
  - unfold rest_ChangePassword in H. handler H. eapply effect_password; [by subst|by apply currentUser_Ok|exact Ha2|done].
  - unfold SignOut in H. handler H. by apply effect_none.
  - unfold GetWalletAddress in H. handler H. by apply effect_none.
  - unfold GetWalletTransactions in H. handler H. by apply effect_none.
  - unfold Withdrawal in H. handler H. by apply effect_none.
Qed.

(** ** Serving a request *)

(** The user a request's cookie names. *)
Definition userOf env w (cookie : option string) : option User :=
  match CheckToken JwtSecret (env_now env) (w_users w) (default "" cookie) with Ok u => u | _ => None end.

Lemma serve_effect env r cookie ctx w resp w' : db_wf (w_db w) -> serve JwtSecret env r cookie ctx w = Ok (resp, w') ->
  effect env (if publicRoute r then None else userOf env w cookie) r w w'.
Proof.
  intros Hwf H. unfold serve in H. destruct (publicRoute r); [by apply (handle_effect _ _ (noUser ctx)) in H|].
  unfold rest_checkToken in H. destruct (_ =? _)%nat; [injection H as _ <-; by apply effect_none|]. unfold userOf.
  apply orFail_Ok in H as [->|(user & -> & H)]; [by apply effect_none|]. destruct user as [u|]; [|injection H as _ <-; by apply effect_none].
  by apply (handle_effect _ _ (withUser (noUser ctx) u)) in H.
Qed.

(** ** Well-formed worlds *)

(** The sides that occur. *)
Context (sides : Side -> Prop).

(** What the services keep: well-formed tables, order tables with orders the
    engine can work if it knows their sides, which are among [sides], distinct
    users, and topics with such orders only. *)
Record world_ok w : Prop := {
  ok_db : db_wf (w_db w);
  ok_orders : goodTables sides (w_db w);
  ok_users : users_wf (w_users w);
  ok_topics : forall topic, Forall (goodOrder sides) (topicOf w topic);
}.

(** A request that places an order names one of the sides. *)
Definition namesSide (r : route) : Prop :=
  match r with POST_orders (Ok req) => sides (sideOf req) | _ => True end.

Lemma userOf_id env w cookie u : users_wf (w_users w) -> userOf env w cookie = Some u -> 0 <= user_Id u.
Proof.
  intros [_ Hn _ _]. unfold userOf, CheckToken. destruct (JwtParse _ _ _) as [[[v|]|]|e| |]; try discriminate.
  intros H. apply query_Some in H as [Hin _]. rewrite Forall_forall in Hn. specialize (Hn _ Hin). lia.
Qed.

Lemma CreateUser_wf env t req u t' : users_wf t ->
  CreateUser (env_now env) (env_salt env) t (su_Email req) (su_Password req) = Ok (u, t') -> users_wf t'.
Proof.
  intros [Hi Hn He Hf] H. unfold CreateUser in H. destruct (_ <? _)%nat; [discriminate|].
  destruct (GetUserByEmail _ _); [discriminate|]. apply bind_Ok in H as (hash & _ & H). unfold AddUser in H. cbn in H.
  case_decide as Hnew; [discriminate|]. injection H as _ <-. set (row := Build_User _ _ _ _ _ _ _).
  destruct (fresh_key user_Id (g_user t) row (next_user t) Hi) as [Hi' Hn']; [|done|].
  { eapply Forall_impl; [exact Hn|]. cbn. lia. }
  split; [exact Hi'| | |cbn; lia].
  - apply Forall_app. split; [|by constructor; cbn; [lia|]]. eapply Forall_impl; [exact Hn|]. cbn. lia.
  - cbn. rewrite fmap_app. apply NoDup_app. split; [done|]. split; [|apply NoDup_singleton].
    intros x Hx Hx'. apply list_elem_of_singleton in Hx' as ->. done.
Qed.

Lemma UpdateUser_wf now t u hash : users_wf t -> u ∈ g_user t -> users_wf (UpdateUser now t (user_setHash u hash)).
Proof.
  intros [Hi Hn He Hf] Hin. unfold UpdateUser. set (row := Build_User _ _ _ _ _ _ _).
  change (map _ _) with (replace user_Id row (g_user t)). split; cbn; [by rewrite replace_keys| | |done].
  - apply replace_Forall; [done|]. rewrite Forall_forall in Hn. by apply (Hn u).
  - by rewrite (replace_fmap user_Id user_Email u).
Qed.

Lemma ChangePassword_wf env t u req t' : users_wf t ->
  ChangePassword (env_now env) (env_salt env) t (user_Email u) (cp_NewPassword req) = Ok t' -> users_wf t'.
Proof.
  intros Hwf H. unfold ChangePassword in H. destruct (GetUserByEmail _ _) as [u'|] eqn:Hget; [|discriminate].
  apply bind_Ok in H as (hash & _ & H). injection H as <-. apply UpdateUser_wf; [done|]. by apply query_Some in Hget as [? _].
Qed.

Lemma cancelling_ok o : goodOrder sides o -> goodOrder sides (ord_cancelling o).
Proof. done. Qed.

Lemma topics_grow env orders w w1 : w_topics w1 = w_topics w -> (forall topic, Forall (goodOrder sides) (topicOf w topic)) ->
  Forall (goodOrder sides) orders -> forall topic, Forall (goodOrder sides) (topicOf (submitAll env orders w1) topic).
Proof.
  intros He Ht Ho topic. rewrite submitAll_topic. unfold topicOf in *. rewrite He. apply Forall_app. split; [apply Ht|].
  eapply Forall_sublist; [exact Ho|apply sublist_filter].
Qed.

(** A request keeps the world well formed. *)
Lemma serve_ok env r cookie ctx w resp w' : snowflake (env_generate env) -> namesSide r ->
  world_ok w -> serve JwtSecret env r cookie ctx w = Ok (resp, w') -> world_ok w'.
Proof.
  intros Hg Hside [Hdb Ho Hu Ht] Hrun. apply serve_effect in Hrun; [|done].
  destruct Hrun as [->|req u t Hr Hc ->|req u t Hr _ Hc ->|req u ty tif size price funds o db Hr Huser Hc ->|u rows Huser Hrows ->].
  - by split.
  - split; [done|done|by eapply CreateUser_wf|done].
  - split; [done|done|by eapply ChangePassword_wf|done].
  - subst r. cbn in Hside, Huser. assert (Hid : 0 <= user_Id u) by (by eapply userOf_id).
    assert (Hgood : goodRow sides o) by (by eapply PlaceOrder_good). destruct (submitOrder_rest env o (w_setDb w db)) as [Ed Eu].
    split; rewrite ?Ed, ?Eu; cbn.
    + eapply ledgerStep_accounted; [done|]. by eapply step_place.
    + by eapply PlaceOrder_tables_good.
    + done.
    + apply (topics_grow env [o] w (w_setDb w db)); [done|done|]. constructor; [apply Hgood|done].
  - destruct (submitAll_rest env (ord_cancelling <$> rows) w) as [Ed Eu]. split; rewrite ?Ed, ?Eu; [done..|].
    apply (topics_grow env _ w w); [done|done|]. apply Forall_fmap. eapply Forall_impl; [exact Hrows|].
    intros o (Hin & _). apply cancelling_ok. pose proof (Ho (GetTableIndexByUserId (user_Id u))) as Hall.
    rewrite Forall_forall in Hall. apply (Hall _ Hin).
Qed.
End RestInv.
