(* ===== verification/RestTotal.v ===== *)
(** Every request gets an answer: no handler loops or crashes, but for the
    panic of [hashPassword] on a password bcrypt refuses, and the candle loop,
    whose end depends on the clock ([Candles.v]). *)
From S2P Require Import Prelude Strconv Decimal Models Ledger Settlement LedgerInv LedgerTheorems Users Views Rest RestInv.
From Stdlib Require Import QArith Lqa Ascii.
From stdpp Require Import list.
Open Scope string_scope.
Open Scope list_scope.
Open Scope Z_scope.

(** A run that ends in a value or in an error. *)
Definition total {E A} (m : outcome E A) : Prop := m <> Panic /\ m <> Diverge.

Lemma Ok_total {E A} (a : A) : total (E := E) (Ok a).
Proof. done. Qed.
Lemma Err_total {E A} (e : E) : total (A := A) (Err e).
Proof. done. Qed.
Lemma mret_total {E A} (a : A) : total (mret (M := outcome E) a).
Proof. done. Qed.
Lemma bind_total {E A B} (m : outcome E A) (f : A -> outcome E B) : total m -> (forall a, m = Ok a -> total (f a)) -> total (m ≫= f).
Proof. intros [H1 H2] Hf. destruct m; cbn; [by apply Hf|done..]. Qed.
Create HintDb total.
#[export] Hint Resolve Ok_total Err_total mret_total : total.
Ltac total := repeat first [progress eauto with total | apply bind_total; [|intros ? ?]].

Section Statements.
Context {P : DecimalPkg} {L : DecimalLaws P} {C : Column}.

Lemma store_total d : total (store d).
Proof. unfold store. by destruct (column d). Qed.
Hint Resolve store_total : total.

Lemma HoldBalance_total now db u c size ty : total (HoldBalance now db u c size ty).
Proof. unfold HoldBalance. repeat case_match; unfold UpdateAccount, accountRow; cbn; unfold billRow; total. Qed.

Lemma normalizeOrder_total product ty side size price funds : total (normalizeOrder product ty side size price funds).
Proof.
  unfold normalizeOrder. destruct (ty =s? OrderTypeLimit); [|repeat case_match; done].
  case_match; [done|]. apply bind_total; [|intros [] _; [done|by case_match]].
  destruct (dec_IsPositive _) eqn:Hpos; [|done]. destruct (dec_Mod _ _) eqn:Hmod; [done|].
  apply dec_Mod_None in Hmod. dec_prop. lra.
Qed.

Lemma AddOrder_total now db o : total (AddOrder now db o).
Proof. unfold AddOrder, orderRow. case_decide; total. Qed.
Hint Resolve HoldBalance_total normalizeOrder_total AddOrder_total : total.

Lemma PlaceOrder_total now generate db userId level oid pid ty tif side size price funds : snowflake generate -> 0 <= userId ->
  total (PlaceOrder now generate db userId level oid pid ty tif side size price funds).
Proof.
  intros Hg Hu. unfold PlaceOrder. destruct (snowflake_id _ _ Hg Hu) as [_ Hsh].
  destruct (GetProductById _ _); [|done]. destruct (GetFeeRateByUserLevel _ _); [|done].
  destruct (badRatio _); [done|]. destruct (badRatio _); [done|].
  apply bind_total; [total|]. intros [[? ?] ?] _. destruct (holdOf _ _ _ _).
  apply bind_total; [total|]. intros tx _. rewrite Hsh, Z.eqb_refl. total.
Qed.
End Statements.

Section Handlers.
Context {P : DecimalPkg} {L : DecimalLaws P} {C : Column}.
Context {R : RestPkg} {RL : RestLaws L R} {B : BcryptPkg} {BL : BcryptLaws B} {J : JwtPkg} {JL : JwtLaws J} (JwtSecret : string).
Implicit Types (w : World) (env : Env).

Lemma orFail_total {A} status w (m : outcome dbError A) k : total m -> (forall a, m = Ok a -> total (k a)) -> total (orFail status w m k).
Proof. intros [H1 H2] Hk. destruct m; cbn; [by apply Hk|done..]. Qed.
Lemma orReject_total {A} w pre (m : outcome string A) k : total m -> (forall a, m = Ok a -> total (k a)) -> total (orReject w pre m k).
Proof. intros [H1 H2] Hk. destruct m; cbn; [by apply Hk|done..]. Qed.
Lemma read_total {A} env (x : A) : total (read env x).
Proof. unfold read. by destruct (env_readError env). Qed.
Lemma NewFromString_totals s : total (NewFromString s).
Proof. apply NewFromString_total. Qed.
Lemma querySide_total s : total (querySide s).
Proof. unfold querySide, NewSideFromString. repeat case_match; total. Qed.
Lemma parseStatuses_total l : total (parseStatuses l).
Proof. induction l as [|s l IH]; cbn; [done|]. apply bind_total; [unfold NewOrderStatusFromString; by case_match|]. intros ? _. total. Qed.
Lemma currentUser_total (ctx : Ctx) u : ctx_user ctx = Some u -> total (currentUser ctx).
Proof. unfold currentUser, GetCurrentUser. by intros ->. Qed.
Hint Resolve read_total NewFromString_totals querySide_total parseStatuses_total : total.

(** The text after ["client:"] is there. *)
Lemma Split_nonempty s sep : Split s sep <> [].
Proof. induction s as [|c s IH]; cbn; [done|]. destruct (Ascii.eqb c sep); [done|]. by destruct (Split s sep). Qed.

Lemma client_oid s : HasPrefix s "client:" = true -> total (E := noerr) (deref (indexed (Split s ":"%char) 1)).
Proof.
  unfold HasPrefix. intros H. do 7 (destruct s as [|? s]; [discriminate|]; cbn in H; case_match; [subst|discriminate]). clear H.
  cbn. destruct (Split s _) eqn:E; [by apply Split_nonempty in E|]. done.
Qed.

Lemma cancelFound_total env ctx u w found : ctx_user ctx = Some u -> total found -> total (cancelFound env ctx w found).
Proof.
  intros Hu Hf. unfold cancelFound. apply orFail_total; [done|]. intros [o|] _; [|done].
  apply bind_total; [by eapply currentUser_total|]. intros x _. by repeat case_match.
Qed.

(** A body that bound or did not. *)
Definition boundOk (r : route) : Prop :=
  match r with
  | POST_users b | POST_users_accessToken b | POST_users_token b => total b
  | POST_orders b => total b
  | POST_users_password b => total b
  | _ => True
  end.

(** The password of a request that is hashed. *)
Definition hashedPassword (r : route) : option string :=
  match r with
  | POST_users (Ok req) => Some (su_Password req)
  | POST_users_password (Ok req) => Some (cp_NewPassword req)
  | _ => None
  end.

Lemma hashPassword_total salt password : (String.length password <= 72)%nat -> total (hashPassword salt password).
Proof.
  intros H. unfold hashPassword. destruct (GenerateFromPassword salt password) eqn:Hg; [done|]. apply generate_error in Hg. lia.
Qed.

Lemma RefreshAccessToken_total now t email password : total (RefreshAccessToken JwtSecret now t email password).
Proof. unfold RefreshAccessToken. by repeat case_match. Qed.
Lemma CheckToken_total now t token : total (CheckToken JwtSecret now t token).
Proof. unfold CheckToken. destruct (parse_total JwtSecret token now) as [H1 H2]. destruct (JwtParse _ _ _) as [[[]|]|e| |]; done. Qed.
Hint Resolve RefreshAccessToken_total CheckToken_total : total.

Lemma rest_PlaceOrder_total env ctx u bound w : snowflake (env_generate env) -> ctx_user ctx = Some u -> 0 <= user_Id u ->
  total bound -> total (rest_PlaceOrder env ctx bound w).
Proof.
  intros Hg Hu Hid Hb. unfold rest_PlaceOrder. apply orReject_total; [done|]. intros req _.
  apply orReject_total; [by case_match|]. intros _ _. do 3 (apply orReject_total; [total|]; intros ? _).
  apply bind_total; [by eapply currentUser_total|]. intros x Hx. apply currentUser_Ok in Hx. rewrite Hu in Hx. injection Hx as <-.
  apply orFail_total; [by apply PlaceOrder_total|]. by intros [o db] _.
Qed.

Lemma handle_total env r ctx w : snowflake (env_generate env) -> boundOk r ->
  (publicRoute r = false -> exists u, ctx_user ctx = Some u /\ 0 <= user_Id u) ->
  (forall fuel, r <> GET_product_candles fuel) ->
  (forall p, hashedPassword r = Some p -> (String.length p <= 72)%nat) ->
  total (handle JwtSecret env r ctx w).
Proof.
  intros Hg Hb Hu Hc Hp. destruct r; cbn [handle]; cbn [boundOk] in Hb; try done.
  - unfold rest_GetConfigs. apply orFail_total; total.
  - unfold SignUp. apply orReject_total; [done|]. intros req ->. apply orFail_total; [|by intros [] _].
    unfold CreateUser. destruct (_ <? _)%nat; [done|]. case_match; [done|]. apply bind_total; [by apply hashPassword_total, Hp|].
    intros hash _. unfold AddUser. by case_decide.
  - unfold SignIn. apply orReject_total; [done|]. intros req _. apply orFail_total; total.
  - unfold GetToken. apply orReject_total; [done|]. intros req _. apply orFail_total; total.
  - unfold rest_GetProducts. apply orFail_total; total.
  - by destruct (Hc fuel).
  - destruct (Hu eq_refl) as (u & Hctx & _). unfold rest_GetOrders. apply orReject_total; [total|]. intros side _.
    apply orReject_total; [total|]. intros sts _. apply bind_total; [by eapply currentUser_total|]. intros x _. apply orFail_total; total.
  - destruct (Hu eq_refl) as (u & Hctx & Hid). by eapply rest_PlaceOrder_total.
  - destruct (Hu eq_refl) as (u & Hctx & _). unfold rest_CancelOrder. destruct (HasPrefix _ _) eqn:Hpre.
    + apply bind_total; [by apply client_oid|]. intros oid _. apply bind_total; [by eapply currentUser_total|]. intros x _.
      eapply cancelFound_total; total.
    + destruct (AToUint64 _) as [id [e|]]; [done|]. eapply cancelFound_total; total.
  - destruct (Hu eq_refl) as (u & Hctx & _). unfold rest_CancelOrders. apply orReject_total; [total|]. intros side _.
    apply bind_total; [by eapply currentUser_total|]. intros x _. apply orFail_total; total.
  - destruct (Hu eq_refl) as (u & Hctx & _). unfold rest_GetAccounts. apply bind_total; [by eapply currentUser_total|]. intros x _.
    apply orFail_total; total.
  - unfold GetUsersSelf. by case_match.
  - destruct (Hu eq_refl) as (u & Hctx & _). unfold rest_ChangePassword. apply orReject_total; [done|]. intros req ->.
    apply bind_total; [by eapply currentUser_total|]. intros x _. apply orFail_total; [unfold GetUserByPassword; by repeat case_match|].
    intros y _. apply orFail_total; [|done]. unfold ChangePassword. case_match; [|done].
    apply bind_total; [by apply hashPassword_total, Hp|done].
Qed.

Lemma serve_total env r cookie ctx w : snowflake (env_generate env) -> boundOk r -> users_wf (w_users w) ->
  (forall fuel, r <> GET_product_candles fuel) ->
  (forall p, hashedPassword r = Some p -> (String.length p <= 72)%nat) ->
  total (serve JwtSecret env r cookie ctx w).
Proof.
  intros Hg Hb Hwf Hc Hp. unfold serve. destruct (publicRoute r) eqn:Hpub; [by apply handle_total; try done; rewrite Hpub|].
  unfold rest_checkToken. destruct (_ =? _)%nat; [done|]. apply orFail_total; [total|]. intros [u|] Hu; [|done].
  apply handle_total; try done. intros _. exists u. split; [done|]. eapply (userOf_id JwtSecret env w cookie); [exact Hwf|].
  unfold userOf. by rewrite Hu.
Qed.
End Handlers.
