(* ===== verification/RestPages.v ===== *)
(** Paging through a user's orders: [GetOrders] of [src/rest/order_controller.go].

    A client that asks for the first page and then, as long as a page is not
    empty, for the page after the [gbe-after] of the last one ([browse]) sees
    every order that matches its query once, newest first. *)
From S2P Require Import Prelude SortedLists Strconv Decimal Models Ledger Settlement LedgerInv Users Views Rest RestInv.
From Stdlib Require Import QArith.
From stdpp Require Import list sorting.
Open Scope string_scope.
Open Scope list_scope.
Open Scope Z_scope.

(** ** Pages *)

Section Pages.
Context {P : DecimalPkg} {C : Column} {R : RestPkg} {B : BcryptPkg} {J : JwtPkg}.
Implicit Types (w : World) (env : Env).

(** All orders a query of the user selects, newest first. *)
Definition selected (db : Db) (userId : Z) (statuses : list OrderStatus) (side : option Side) (productId : string) : list Order :=
  GetOrdersByUserId db userId statuses side productId 0 0 (Z.of_nat (length (g_order db (GetTableIndexByUserId userId))) + 1).

(** The rows before they are sorted and cut, without the tests on ids. *)
Definition selectedRows (db : Db) (userId : Z) (statuses : list OrderStatus) (side : option Side) (productId : string) : list Order :=
  let rows := filter (fun o => ord_UserId o = userId) (g_order db (GetTableIndexByUserId userId)) in
  let rows := if (length statuses =? 0)%nat then rows else filter (fun o => ord_Status o ∈ statuses) rows in
  let rows := if (String.length productId =? 0)%nat then rows else filter (fun o => ord_ProductId o = productId) rows in
  match side with None => rows | Some s => filter (fun o => ord_Side o = s) rows end.

Lemma selectedRows_sublist db u sts side pid : selectedRows db u sts side pid `sublist_of` g_order db (GetTableIndexByUserId u).
Proof.
  unfold selectedRows. set (rows := filter (fun o => ord_UserId o = u) _).
  assert (H : rows `sublist_of` g_order db (GetTableIndexByUserId u)) by apply sublist_filter. revert H. generalize rows. clear rows.
  intros rows H. destruct (_ =? 0)%nat, (_ =? 0)%nat, side; repeat (etrans; [apply sublist_filter|]); exact H.
Qed.

Lemma selectedRows_elem db u sts side pid o : o ∈ selectedRows db u sts side pid <->
  o ∈ g_order db (GetTableIndexByUserId u) /\ ord_UserId o = u /\ (sts = [] \/ ord_Status o ∈ sts) /\
  (side = None \/ side = Some (ord_Side o)) /\ (pid = "" \/ ord_ProductId o = pid).
Proof.
  unfold selectedRows. destruct sts as [|st sts], pid as [|c pid], side as [s|]; cbn [length String.length Nat.eqb].
  all: rewrite ?list_elem_of_filter; naive_solver.
Qed.

Lemma GetOrdersByUserId_rows db u sts side pid after limit : NoDup (ord_Id <$> g_order db (GetTableIndexByUserId u)) -> 0 < limit ->
  GetOrdersByUserId db u sts side pid 0 after limit =
    take (Z.to_nat limit)
      (let l := merge_sort idDesc (selectedRows db u sts side pid) in if 0 <? after then filter (fun o => ord_Id o < after) l else l).
Proof.
  intros Hd Hl. unfold GetOrdersByUserId. fold (selectedRows db u sts side pid). cbn [Z.ltb Z.compare].
  destruct (Z.leb_spec limit 0) as [?|_]; [lia|]. f_equal. cbn zeta. destruct (0 <? after); [|done]. apply (merge_sort_filter ord_Id idDesc (fun x y => iff_refl _)).
  eapply sublist_NoDup; [exact Hd|]. apply fmap_sublist, selectedRows_sublist.
Qed.

Lemma selected_rows db u sts side pid : NoDup (ord_Id <$> g_order db (GetTableIndexByUserId u)) ->
  selected db u sts side pid = merge_sort idDesc (selectedRows db u sts side pid).
Proof.
  intros Hd. unfold selected. rewrite GetOrdersByUserId_rows by (done || lia). cbn. apply take_ge.
  rewrite (Permutation_length (merge_sort_Permutation idDesc _)).
  pose proof (sublist_length _ _ (selectedRows_sublist db u sts side pid)). lia.
Qed.

Lemma selected_decreasing db u sts side pid : NoDup (ord_Id <$> g_order db (GetTableIndexByUserId u)) ->
  decreasing ord_Id (selected db u sts side pid).
Proof.
  intros Hd. rewrite selected_rows by done. apply (merge_sort_decreasing ord_Id idDesc (fun x y => iff_refl _)).
  eapply sublist_NoDup; [exact Hd|]. apply fmap_sublist, selectedRows_sublist.
Qed.

(** The page after an order, or the first one. *)
Lemma page_after db u sts side pid seen rest limit : NoDup (ord_Id <$> g_order db (GetTableIndexByUserId u)) -> 0 < limit ->
  selected db u sts side pid = seen ++ rest ->
  Forall (fun o => 0 < ord_Id o) (selected db u sts side pid) ->
  GetOrdersByUserId db u sts side pid 0 (match last seen with Some o => ord_Id o | None => 0 end) limit = take (Z.to_nat limit) rest.
Proof.
  intros Hd Hl E Hpos. rewrite GetOrdersByUserId_rows by done. cbn zeta. rewrite <- selected_rows by done. f_equal.
  pose proof (selected_decreasing db u sts side pid Hd) as Hs. rewrite E in *.
  destruct (last seen) as [x|] eqn:Hlast.
  - apply last_Some in Hlast as [pre ->]. rewrite <- app_assoc in *. cbn in *.
    rewrite (proj2 (Z.ltb_lt _ _)); [by apply (filter_below ord_Id)|]. rewrite Forall_forall in Hpos. apply Hpos. set_solver.
  - apply last_None in Hlast as ->. done.
Qed.

(** ** A client that pages *)

Definition withQuery (ctx : Ctx) (key value : string) : Ctx := {|
  ctx_Param := ctx_Param ctx; ctx_Query := fun k => if k =s? key then value else ctx_Query ctx k;
  ctx_QueryArray := ctx_QueryArray ctx; ctx_user := ctx_user ctx |}.

Definition header (resp : response) (name : string) : string :=
  match List.find (fun h => h.1 =s? name) (resp_headers resp) with Some h => h.2 | None => "" end.

(** Ask for pages until one is empty. *)
Fixpoint browse (fuel : nat) env (ctx : Ctx) w (after : string) : outcome noerr (list orderVo) :=
  match fuel with
  | O => Diverge
  | S fuel =>
      '(resp, _) ← rest_GetOrders env (withQuery ctx "after" after) w;
      match resp_body resp with
      | JOrders [] => Ok []
      | JOrders page => rest ← browse fuel env ctx w (header resp "gbe-after"); mret (page ++ rest)
      | _ => Ok []
      end
  end.

Section Browse.
Context (env : Env) (ctx : Ctx) (w : World) (u : User) (sts : list OrderStatus) (side : option Side).
Context (Hread : env_readError env = None) (Huser : ctx_user ctx = Some u).
Context (Hside : querySide (ctx_Query ctx "side") = Ok side) (Hsts : parseStatuses (ctx_QueryArray ctx "status") = Ok sts).
Context (Hbefore : ctx_Query ctx "before" = "").
Context (Hkeys : NoDup (ord_Id <$> g_order (w_db w) (GetTableIndexByUserId (user_Id u)))).
Context (Hids : Forall (fun o => 0 < ord_Id o < i64_half) (g_order (w_db w) (GetTableIndexByUserId (user_Id u)))).

Let limit : Z := let l := queryInt (ctx_Query ctx "limit") in if (l <=? 0) || (100 <? l) then 100 else l.
Let all : list Order := selected (w_db w) (user_Id u) sts side (ctx_Query ctx "productId").

Lemma limit_range : 0 < limit <= 100.
Proof.
  unfold limit. destruct (Z.leb_spec (queryInt (ctx_Query ctx "limit")) 0), (Z.ltb_spec 100 (queryInt (ctx_Query ctx "limit"))); cbn; lia.
Qed.

Lemma all_ids : Forall (fun o => 0 < ord_Id o < i64_half) all.
Proof.
  unfold all. rewrite selected_rows by done. rewrite merge_sort_Permutation. eapply Forall_sublist; [exact Hids|apply selectedRows_sublist].
Qed.

Lemma page_response after seen rest : all = seen ++ rest ->
  queryInt after = match last seen with Some o => ord_Id o | None => 0 end ->
  exists resp, rest_GetOrders env (withQuery ctx "after" after) w = Ok (resp, w) /\
    resp_body resp = JOrders (newOrderVo <$> take (Z.to_nat limit) rest) /\
    (rest <> [] -> queryInt (header resp "gbe-after") = match last (take (Z.to_nat limit) rest) with Some o => ord_Id o | None => 0 end).
Proof.
  intros E Ha. pose proof all_ids as Hpos.
  assert (Hp : GetOrdersByUserId (w_db w) (user_Id u) sts side (ctx_Query ctx "productId") 0 (queryInt after) limit
               = take (Z.to_nat limit) rest).
  { rewrite Ha. apply page_after; [done|apply limit_range|exact E|]. eapply Forall_impl; [exact Hpos|]. cbn. lia. }
  unfold rest_GetOrders. cbn [withQuery ctx_Query ctx_QueryArray ctx_user]. cbn [String.eqb Ascii.eqb Bool.eqb andb].
  rewrite Hside, Hsts. cbn [orReject]. unfold currentUser, GetCurrentUser. cbn [ctx_user withQuery]. rewrite Huser. cbn [deref mbind outcome_bind].
  rewrite Hbefore. change (queryInt "") with 0. fold limit. unfold read. rewrite Hread, Hp. cbn [orFail]. eexists. split; [done|].
  split; [done|]. intros Hne. unfold header, pageHeaders. cbn [resp_headers List.find fst snd String.eqb Ascii.eqb Bool.eqb andb].
  destruct (last (take (Z.to_nat limit) rest)) as [o|] eqn:Hl; [|done].
  assert (Ho : 0 < ord_Id o < i64_half).
  { rewrite Forall_forall in Hpos. apply Hpos. rewrite E. apply elem_of_app. right. apply last_Some in Hl as [pre Hl].
    eapply elem_of_sublist; [|apply sublist_take]. rewrite Hl. set_solver. }
  unfold queryInt. rewrite ParseInt_U64ToA by (unfold is_u64, u64_size, i64_half in *; lia). lia.
Qed.

Lemma browse_all fuel : forall seen rest after, all = seen ++ rest ->
  queryInt after = match last seen with Some o => ord_Id o | None => 0 end -> (length rest < fuel)%nat ->
  browse fuel env ctx w after = Ok (newOrderVo <$> rest).
Proof.
  induction fuel as [|fuel IH]; intros seen rest after E Ha Hf; [lia|]. cbn [browse].
  destruct (page_response after seen rest E Ha) as (resp & -> & Hb & Hh). cbn [mbind outcome_bind]. rewrite Hb.
  destruct rest as [|x rest]; [by rewrite take_nil|]. specialize (Hh ltac:(done)). pose proof limit_range as Hr.
  destruct (Z.to_nat limit) as [|n] eqn:Hn; [lia|].
  rewrite firstn_cons, fmap_cons. rewrite (IH (seen ++ x :: take n rest) (drop n rest)); [|..].
  - cbn [mbind outcome_bind]. unfold mret, outcome_ret. f_equal. rewrite <- app_comm_cons, <- fmap_app, take_drop. done.
  - by rewrite E, <- app_assoc, <- app_comm_cons, take_drop.
  - rewrite Hh, firstn_cons. rewrite last_app, !last_cons. by destruct (last (take n rest)).
  - rewrite length_drop. cbn in Hf. lia.
Qed.
End Browse.
End Pages.
