(* ===== verification/Makers.v ===== *)
(** The workers that follow the matching log into the database:
    [src/worker/fill_maker.go], [trade_maker.go] and [tick_maker.go].

    Each maker is an observer of a log reader ([LogReader.v]) with a buffered
    channel and a flusher goroutine that writes what it receives in batches.
    [processStep] interleaves the sends of the callbacks with the flusher, so a
    crash can fall between any two of them; [NewFillMaker], [NewTradeMaker] and
    [NewTickMaker] are the restart, which resumes after the last row. *)
From S2P Require Import Prelude Decimal Models MatchLog OrderBook LogReader Ledger.
From stdpp Require Import list gmap.
Open Scope string_scope.
Open Scope list_scope.
Open Scope Z_scope.

(** [make(chan ..., 1000)] and the size of a batch. *)
Definition makerChCap : Z := 1000.
Definition makerBatch : Z := 1000.

(** What the clock shows when a maker works a log. *)
Class Clock {P : DecimalPkg} := { clock : Log -> Instant }.

Section Makers.
Context {P : DecimalPkg} {C : Column}.

(** ** A maker and its flusher *)

(** [mk_sending] is what the running callback has still to send; [mk_received]
    says that the flusher has taken an item and not yet looked at the channel. *)
Record maker (X Item : Type) := {
  mk_local : X;
  mk_sending : list Item;
  mk_ch : list Item;
  mk_batch : list Item;
  mk_received : bool;
  mk_db : Db;
}.
Arguments mk_local {X Item} m.
Arguments mk_sending {X Item} m.
Arguments mk_ch {X Item} m.
Arguments mk_batch {X Item} m.
Arguments mk_received {X Item} m.
Arguments mk_db {X Item} m.

Section Flusher.
Context {X Item : Type}.
Implicit Types (m : maker X Item).

Definition mk_setLocal m (x : X) (items : list Item) : maker X Item := {|
  mk_local := x; mk_sending := mk_sending m ++ items; mk_ch := mk_ch m; mk_batch := mk_batch m;
  mk_received := mk_received m; mk_db := mk_db m |}.
Definition mk_setSending m sending ch : maker X Item := {|
  mk_local := mk_local m; mk_sending := sending; mk_ch := ch; mk_batch := mk_batch m;
  mk_received := mk_received m; mk_db := mk_db m |}.
Definition mk_setFlusher m ch batch received db : maker X Item := {|
  mk_local := mk_local m; mk_sending := mk_sending m; mk_ch := ch; mk_batch := batch;
  mk_received := received; mk_db := db |}.
Definition mk_setDb m db : maker X Item := mk_setFlusher m (mk_ch m) (mk_batch m) (mk_received m) db.

(** The next send of the callback. *)
Definition sendStep m : outcome blocked (maker X Item) :=
  match mk_sending m with
  | [] => Err Blocked
  | x :: sending => ch ← send makerChCap (mk_ch m) x; mret (mk_setSending m sending ch)
  end.

(** [for item := range ch]: the flusher takes an item. *)
Definition receiveStep m : outcome blocked (maker X Item) :=
  if mk_received m then Err Blocked
  else '(x, ch) ← recv (mk_ch m); mret (mk_setFlusher m ch (mk_batch m ++ [x]) true (mk_db m)).

(** The flusher waits for more, or writes the batch; a write that fails is
    tried again. *)
Definition flushStep (addAll : Db -> list Item -> outcome dbError Db) m : outcome blocked (maker X Item) :=
  if negb (mk_received m) then Err Blocked
  else if (0 <? Z.of_nat (length (mk_ch m))) && (Z.of_nat (length (mk_batch m)) <? makerBatch)
  then mret (mk_setFlusher m (mk_ch m) (mk_batch m) false (mk_db m))
  else match addAll (mk_db m) (mk_batch m) with
       | Ok db => mret (mk_setFlusher m (mk_ch m) [] false db)
       | Err _ => mret m
       | Panic => Panic
       | Diverge => Diverge
       end.
End Flusher.

(** ** The process: reader, callbacks and flusher *)

Section Process.
Context {X Item : Type} {O : LogObserver (maker X Item)} (addAll : Instant -> Db -> list Item -> outcome dbError Db).

Record process := { pr_offset : Z; pr_reader : readerState (maker X Item) }.

Definition pr_maker (p : process) : maker X Item := rd_observer (pr_reader p).
Definition pr_setMaker (p : process) (m : maker X Item) : process := {|
  pr_offset := pr_offset p; pr_reader := {| rd_lastSeq := rd_lastSeq (pr_reader p); rd_observer := m |} |}.

Inductive processEvent :=
| PrRead                 (** the reader fetches a message and calls back *)
| PrSend                 (** the callback makes its next send *)
| PrReceive              (** the flusher receives *)
| PrFlush (now : Instant) (** the flusher writes its batch or goes on receiving *).

Definition readNext (topic : list logMessage) (offset : Z) : option logMessage :=
  head (filter (fun m => offset <= lm_Offset m) topic).

(** A callback runs to its end before the next message is fetched. *)
Definition readStep (topic : list logMessage) (p : process) : outcome blocked process :=
  if negb (length (mk_sending (pr_maker p)) =? 0)%nat then Err Blocked
  else match readNext topic (pr_offset p) with
       | None => Err Blocked
       | Some m =>
           match readerStep (pr_reader p) m with
           | Ok st => mret {| pr_offset := lm_Offset m + 1; pr_reader := st |}
           | Err e => match e with end
           | Panic => Panic
           | Diverge => Diverge
           end
       end.

Definition processStep (topic : list logMessage) (ev : processEvent) (p : process) : outcome blocked process :=
  match ev with
  | PrRead => readStep topic p
  | PrSend => m ← sendStep (pr_maker p); mret (pr_setMaker p m)
  | PrReceive => m ← receiveStep (pr_maker p); mret (pr_setMaker p m)
  | PrFlush now => m ← flushStep (addAll now) (pr_maker p); mret (pr_setMaker p m)
  end.

Fixpoint processRun (topic : list logMessage) (evs : list processEvent) (p : process) : outcome blocked process :=
  match evs with
  | [] => mret p
  | ev :: evs => p ← processStep topic ev p; processRun topic evs p
  end.

(** The start of a maker that resumes at a row's log position: the offset after it. *)
Definition startAt (x : X) (db : Db) (logSeq logOffset : Z) : process := {|
  pr_offset := if 0 <? logOffset then i64 (logOffset + 1) else logOffset;
  pr_reader := {| rd_lastSeq := logSeq;
                  rd_observer := {| mk_local := x; mk_sending := []; mk_ch := []; mk_batch := []; mk_received := false;
                                    mk_db := db |} |} |}.
End Process.
Arguments process : clear implicits.

(** ** fill_maker.go *)

Context {K : Clock}.

Definition FillMaker : Type := maker () Fill.

Definition takerFill (log : MatchLog) (offset : Z) : Fill := {|
  fill_Id := 0; fill_CreatedAt := 0; fill_UpdatedAt := 0; fill_TradeSeq := ml_TradeSeq log;
  fill_OrderId := ml_TakerOrderId log; fill_MessageSeq := base_Sequence (ml_Base log);
  fill_ProductId := base_ProductId (ml_Base log); fill_Size := ml_Size log; fill_Price := ml_Price log;
  fill_Funds := dec_Zero; fill_Fee := dec_Zero; fill_Liquidity := "T"; fill_Settled := false; fill_Side := ml_Side log;
  fill_Done := false; fill_DoneReason := ""; fill_LogOffset := offset; fill_LogSeq := base_Sequence (ml_Base log) |}.

Definition makerFill (log : MatchLog) (offset : Z) : Fill := {|
  fill_Id := 0; fill_CreatedAt := 0; fill_UpdatedAt := 0; fill_TradeSeq := ml_TradeSeq log;
  fill_OrderId := ml_MakerOrderId log; fill_MessageSeq := base_Sequence (ml_Base log);
  fill_ProductId := base_ProductId (ml_Base log); fill_Size := ml_Size log; fill_Price := ml_Price log;
  fill_Funds := dec_Zero; fill_Fee := dec_Zero; fill_Liquidity := "M"; fill_Settled := false;
  fill_Side := Opposite (ml_Side log); fill_Done := false; fill_DoneReason := ""; fill_LogOffset := offset;
  fill_LogSeq := base_Sequence (ml_Base log) |}.

Definition doneFill (log : DoneLog) (offset : Z) : Fill := {|
  fill_Id := 0; fill_CreatedAt := 0; fill_UpdatedAt := 0; fill_TradeSeq := 0;
  fill_OrderId := dl_OrderId log; fill_MessageSeq := base_Sequence (dl_Base log);
  fill_ProductId := base_ProductId (dl_Base log); fill_Size := dl_RemainingSize log; fill_Price := dec_Zero;
  fill_Funds := dec_Zero; fill_Fee := dec_Zero; fill_Liquidity := ""; fill_Settled := false; fill_Side := "";
  fill_Done := true; fill_DoneReason := dl_Reason log; fill_LogOffset := offset;
  fill_LogSeq := base_Sequence (dl_Base log) |}.

Definition FillMaker_OnMatchLog (log : MatchLog) (offset : Z) (t : FillMaker) : outcome noerr FillMaker :=
  mret (mk_setLocal t (mk_local t) [takerFill log offset; makerFill log offset]).

(** The error and the result of the update are dropped. *)
Definition FillMaker_OnOpenLog (log : OpenLog) (offset : Z) (t : FillMaker) : outcome noerr FillMaker :=
  '(_, db) ← ignoreErr (false, mk_db t)
    (UpdateOrderStatus (clock (LOpen log)) (mk_db t) (ol_OrderId log) OrderStatusNew OrderStatusOpen);
  mret (mk_setDb t db).

Definition FillMaker_OnDoneLog (log : DoneLog) (offset : Z) (t : FillMaker) : outcome noerr FillMaker :=
  mret (mk_setLocal t (mk_local t) [doneFill log offset]).

#[export] Instance FillMaker_observer : LogObserver (maker () Fill) := {|
  OnOpenLog := FillMaker_OnOpenLog; OnMatchLog := FillMaker_OnMatchLog; OnDoneLog := FillMaker_OnDoneLog |}.

Definition NewFillMaker (db : Db) (productId : string) : process () Fill :=
  match GetLastFillByProductId db productId with
  | Some f => startAt () db (fill_LogSeq f) (fill_LogOffset f)
  | None => startAt () db 0 0
  end.

(** ** trade_maker.go *)

Definition TradeMaker : Type := maker () Trade.

Definition tradeOf (log : MatchLog) (offset : Z) : Trade := {|
  trade_Id := 0; trade_CreatedAt := 0; trade_UpdatedAt := 0; trade_ProductId := base_ProductId (ml_Base log);
  trade_TradeSeq := ml_TradeSeq log; trade_TakerOrderId := ml_TakerOrderId log; trade_TakerUserId := ml_TakerUserId log;
  trade_MakerOrderId := ml_MakerOrderId log; trade_MakerUserId := ml_MakerUserId log; trade_Price := ml_Price log;
  trade_Size := ml_Size log; trade_Side := ml_Side log; trade_Time := base_Time (ml_Base log);
  trade_LogOffset := offset; trade_LogSeq := base_Sequence (ml_Base log) |}.

Definition TradeMaker_OnMatchLog (log : MatchLog) (offset : Z) (t : TradeMaker) : outcome noerr TradeMaker :=
  mret (mk_setLocal t (mk_local t) [tradeOf log offset]).

#[export] Instance TradeMaker_observer : LogObserver (maker () Trade) := {|
  OnOpenLog := fun _ _ t => mret t; OnMatchLog := TradeMaker_OnMatchLog; OnDoneLog := fun _ _ t => mret t |}.

Definition NewTradeMaker (db : Db) (productId : string) : process () Trade :=
  match GetLastTradeByProductId db productId with
  | Some t => startAt () db (trade_LogSeq t) (trade_LogOffset t)
  | None => startAt () db 0 0
  end.

(** ** tick_maker.go *)

Definition minutes : list Z := [1; 3; 5; 15; 30; 60; 120; 240; 360; 720; 1440].

Definition TickMaker : Type := maker (gmap Z Tick) Tick.

(** [log.Time.UTC().Truncate(granularity minutes).Unix()]: the zero time of
    [Truncate] is a whole number of days before the epoch. *)
Definition tickTime (t : Instant) (granularity : Z) : Z := t / (granularity * 60 * 10 ^ 9) * (granularity * 60).

Definition newTick (log : MatchLog) (offset granularity time : Z) : Tick := {|
  tick_Id := 0; tick_CreatedAt := 0; tick_UpdatedAt := 0; tick_ProductId := base_ProductId (ml_Base log);
  tick_Granularity := granularity; tick_Time := time; tick_Open := ml_Price log; tick_High := ml_Price log;
  tick_Low := ml_Price log; tick_Close := ml_Price log; tick_Volume := ml_Size log;
  tick_QuoteVolume := dec_Mul (ml_Price log) (ml_Size log); tick_LogOffset := offset;
  tick_LogSeq := base_Sequence (ml_Base log) |}.

Definition tick_update (tick : Tick) (log : MatchLog) (offset : Z) : Tick := {|
  tick_Id := tick_Id tick; tick_CreatedAt := tick_CreatedAt tick; tick_UpdatedAt := tick_UpdatedAt tick;
  tick_ProductId := tick_ProductId tick; tick_Granularity := tick_Granularity tick; tick_Time := tick_Time tick;
  tick_Open := tick_Open tick; tick_High := dec_Max (tick_High tick) (ml_Price log);
  tick_Low := dec_Min (tick_Low tick) (ml_Price log); tick_Close := ml_Price log;
  tick_Volume := dec_Add (tick_Volume tick) (ml_Size log);
  tick_QuoteVolume := dec_Add (tick_QuoteVolume tick) (dec_Mul (ml_Price log) (ml_Size log));
  tick_LogOffset := offset; tick_LogSeq := base_Sequence (ml_Base log) |}.

(** The body of the loop over [minutes]: the tick of one granularity. *)
Definition tickStep (log : MatchLog) (offset granularity : Z) (ticks : gmap Z Tick) : Tick :=
  let time := tickTime (base_Time (ml_Base log)) granularity in
  match ticks !! granularity with
  | Some tick => if tick_Time tick =? time then tick_update tick log offset else newTick log offset granularity time
  | None => newTick log offset granularity time
  end.

Fixpoint tickLoop (log : MatchLog) (offset : Z) (granularities : list Z) (ticks : gmap Z Tick) : gmap Z Tick * list Tick :=
  match granularities with
  | [] => (ticks, [])
  | g :: gs =>
      let tick := tickStep log offset g ticks in
      let '(ticks, sent) := tickLoop log offset gs (<[g := tick]> ticks) in
      (ticks, tick :: sent)
  end.

Definition TickMaker_OnMatchLog (log : MatchLog) (offset : Z) (t : TickMaker) : outcome noerr TickMaker :=
  let '(ticks, sent) := tickLoop log offset minutes (mk_local t) in
  mret (mk_setLocal t ticks sent).

#[export] Instance TickMaker_observer : LogObserver (maker (gmap Z Tick) Tick) := {|
  OnOpenLog := fun _ _ t => mret t; OnMatchLog := TickMaker_OnMatchLog; OnDoneLog := fun _ _ t => mret t |}.

(** The latest tick of each granularity, and the log position of the last one found. *)
Fixpoint loadTicks (db : Db) (productId : string) (granularities : list Z) (ticks : gmap Z Tick) (logSeq logOffset : Z)
    : gmap Z Tick * Z * Z :=
  match granularities with
  | [] => (ticks, logSeq, logOffset)
  | g :: gs =>
      match GetLastTickByProductId db productId g with
      | Some tick => loadTicks db productId gs (<[g := tick]> ticks) (tick_LogSeq tick) (tick_LogOffset tick)
      | None => loadTicks db productId gs ticks logSeq logOffset
      end
  end.

Definition NewTickMaker (db : Db) (productId : string) : process (gmap Z Tick) Tick :=
  let '(ticks, logSeq, logOffset) := loadTicks db productId minutes ∅ 0 0 in
  startAt ticks db logSeq logOffset.
End Makers.
Arguments maker {P} X Item.
Arguments mk_local {P X Item} m.
Arguments mk_sending {P X Item} m.
Arguments mk_ch {P X Item} m.
Arguments mk_batch {P X Item} m.
Arguments mk_received {P X Item} m.
Arguments mk_db {P X Item} m.
Arguments process {P} X Item.
Arguments pr_offset {P X Item} p.
Arguments pr_reader {P X Item} p.
