(* ===== verification/MakerTheorems.v ===== *)
(** What the makers write.

    [fill_maker_exactly_once]: however the reader, the callbacks and the flusher
    interleave, the rows of the fill table are the fills of the logs read so
    far, in order and each once; what is not yet written is in the channel or
    in the batch.  [crash_loses_maker_fill]: a crash that falls between the two
    fills of one match loses the second.  [tick_aggregates]: the
    tick a maker keeps is the candle of the trades of the last period. *)
From S2P Require Import Prelude Decimal Models MatchLog OrderBook LogReader Ledger LedgerDemo Makers.
From Stdlib Require Import QArith Lqa.
From stdpp Require Import list gmap sorting.
Open Scope string_scope.
Open Scope list_scope.
Open Scope Z_scope.

Section FillMaker.
Context {P : DecimalPkg} {C : Column} {K : Clock}.

(** The fills of a log. *)
Definition fillsOf (m : logMessage) : list Fill :=
  match lm_Log m with
  | LOpen _ => []
  | LMatch l => [takerFill l (lm_Offset m); makerFill l (lm_Offset m)]
  | LDone l => [doneFill l (lm_Offset m)]
  end.

Definition fillKey (f : Fill) : Z * Z := (fill_OrderId f, fill_MessageSeq f).

(** A row that stores a fill: the columns hold its amounts. *)
Record storedAs (f row : Fill) : Prop := {
  stored_key : fillKey row = fillKey f;
  stored_trade : fill_TradeSeq row = fill_TradeSeq f /\ fill_ProductId row = fill_ProductId f;
  stored_amounts : fill_Size row = clamp (fill_Size f) /\ fill_Price row = clamp (fill_Price f);
  stored_kind : fill_Liquidity row = fill_Liquidity f /\ fill_Done row = fill_Done f /\ fill_DoneReason row = fill_DoneReason f;
  stored_settled : fill_Settled row = fill_Settled f;
  stored_position : fill_LogSeq row = fill_LogSeq f /\ fill_LogOffset row = fill_LogOffset f;
}.

Lemma storedAs_keys fs rows : Forall2 storedAs fs rows -> fillKey <$> rows = fillKey <$> fs.
Proof. induction 1 as [|f row fs rows H _ IH]; [done|]. rewrite !fmap_cons, IH. by rewrite (stored_key _ _ H). Qed.

Lemma AddFills_fresh now fills : forall db, NoDup (fillKey <$> g_fill db ++ fills) ->
  exists db' added, AddFills now db fills = Ok db' /\ g_fill db' = g_fill db ++ added /\ Forall2 storedAs fills added.
Proof.
  induction fills as [|f fills IH]; intros db Hd; cbn.
  - exists db, []. split_and!; [done|by rewrite app_nil_r|constructor].
  - rewrite decide_False.
    + set (row := fillRow _ _ _ _ _ _ _ f). set (db1 := db_setFills _ _ _).
      assert (Hrow : storedAs f row) by (by split).
      destruct (IH db1) as (db' & added & Hr & Hg & Hs).
      * cbn. rewrite <- app_assoc. rewrite fmap_app in *. cbn in *. exact Hd.
      * exists db', (row :: added). split_and!; [done| |by constructor]. rewrite Hg. cbn. by rewrite <- app_assoc.
    + intros He. apply Exists_exists in He as (r & Hr & Hk). rewrite fmap_app, fmap_cons in Hd.
      apply NoDup_app in Hd as (_ & Hd & _). apply (Hd (fillKey r)); [by apply list_elem_of_fmap_2|].
      destruct Hk as [H1 H2]. unfold fillKey at 1. rewrite H1, H2. left.
Qed.

Lemma deliver_fills m (s : maker () Fill) : exists s', deliver m s = Ok s' /\ mk_sending s' = mk_sending s ++ fillsOf m /\
  mk_ch s' = mk_ch s /\ mk_batch s' = mk_batch s /\ g_fill (mk_db s') = g_fill (mk_db s).
Proof.
  unfold deliver, fillsOf. destruct (lm_Log m) as [l|l|l]; eexists; (split; [reflexivity|]); cbn; split_and!; try done.
  by rewrite app_nil_r.
Qed.

(** ** The reader's place in the topic *)

Definition ordered (topic : list logMessage) : Prop := StronglySorted (fun m m' => lm_Offset m < lm_Offset m') topic.

Lemma readNext_split topic : ordered topic -> forall o m, readNext topic o = Some m ->
  filter (fun x => o <= lm_Offset x) topic = m :: filter (fun x => lm_Offset m + 1 <= lm_Offset x) topic.
Proof.
  unfold readNext. induction 1 as [|x topic Hs IH Hx]; intros o m Hm; [done|].
  destruct (decide (o <= lm_Offset x)) as [Ho|Ho].
  - rewrite filter_cons_True in Hm |- * by done. injection Hm as ->.
    rewrite filter_cons_False by lia. f_equal. rewrite !filter_id; [done| |].
    + intros y Hy. rewrite Forall_forall in Hx. specialize (Hx y Hy). lia.
    + intros y Hy. rewrite Forall_forall in Hx. specialize (Hx y Hy). cbn in Hx. lia.
  - rewrite filter_cons_False in Hm |- * by done. rewrite (IH _ _ Hm).
    assert (Hin : m ∈ topic).
    { assert (Hf : m ∈ filter (fun x => o <= lm_Offset x) topic) by (rewrite (IH _ _ Hm); left).
      by apply list_elem_of_filter in Hf as [_ ?]. }
    rewrite Forall_forall in Hx. specialize (Hx m Hin). cbn in Hx. rewrite filter_cons_False by lia. done.
Qed.

(** What the run of a fill maker keeps: [ds] are the logs it has worked. *)
Record makerInv (topic : list logMessage) (db0 : Db) (all : list logMessage) (p : process () Fill) (ds : list logMessage) : Prop := {
  inv_read : ds ++ freshLogs (rd_lastSeq (pr_reader p)) (filter (fun m => pr_offset p <= lm_Offset m) topic) = all;
  inv_gap : gap_free (rd_lastSeq (pr_reader p)) (filter (fun m => pr_offset p <= lm_Offset m) topic);
  inv_rows : exists stored added,
    stored ++ mk_batch (pr_maker p) ++ mk_ch (pr_maker p) ++ mk_sending (pr_maker p) = concat (fillsOf <$> ds) /\
    g_fill (mk_db (pr_maker p)) = g_fill db0 ++ added /\ Forall2 storedAs stored added;
}.

Lemma readStep_inv topic db0 all p ds : ordered topic -> Forall (fun m => is_i64 (lm_Seq m)) topic ->
  makerInv topic db0 all p ds ->
  readStep topic p <> Panic /\ (forall p', readStep topic p = Ok p' -> exists ds', makerInv topic db0 all p' ds').
Proof.
  intros Ho Hi [Hr Hg Hrows]. unfold readStep.
  destruct (length (mk_sending (pr_maker p)) =? 0)%nat eqn:Hlen; cbn [negb]; [|by split].
  destruct (readNext topic (pr_offset p)) as [m|] eqn:Hm; [|by split].
  pose proof (readNext_split topic Ho _ _ Hm) as Hsplit. rewrite Hsplit in Hr, Hg. cbn in Hg. destruct Hg as [Hseq Hg].
  assert (Hin : m ∈ topic).
  { assert (Hf : m ∈ filter (fun x => pr_offset p <= lm_Offset x) topic) by (rewrite Hsplit; left).
    by apply list_elem_of_filter in Hf as [_ ?]. }
  rewrite Forall_forall in Hi. specialize (Hi m Hin). unfold readerStep. cbn in Hr.
  destruct (Z.leb_spec (lm_Seq m) (rd_lastSeq (pr_reader p))) as [Hle|Hgt].
  - split; [done|]. intros p' Hp. injection Hp as <-. exists ds. split; cbn; [done| |done].
    by replace (Z.max (rd_lastSeq (pr_reader p)) (lm_Seq m)) with (rd_lastSeq (pr_reader p)) in Hg by lia.
  - assert (Hnext : rd_lastSeq (pr_reader p) + 1 = lm_Seq m) by lia.
    rewrite Hnext, i64_id, Z.eqb_refl, andb_false_r by done.
    destruct (deliver_fills m (rd_observer (pr_reader p))) as (s' & Hs & Hsend & Hch & Hb & Hdb). rewrite Hs. cbn.
    split; [done|]. intros p' Hp. injection Hp as <-. exists (ds ++ [m]). split; cbn.
    + by rewrite <- app_assoc.
    + by replace (Z.max (rd_lastSeq (pr_reader p)) (lm_Seq m)) with (lm_Seq m) in Hg by lia.
    + destruct Hrows as (stored & added & Hall & Hrow & Hst). exists stored, added. unfold pr_maker in *. cbn.
      split_and!; [|by rewrite Hdb|done]. rewrite Hb, Hch, Hsend, fmap_app, concat_app, <- Hall. cbn. rewrite app_nil_r, <- !app_assoc. done.
Qed.

Lemma flushStep_inv now topic db0 all p ds : NoDup (fillKey <$> g_fill db0 ++ concat (fillsOf <$> all)) ->
  makerInv topic db0 all p ds ->
  flushStep (AddFills now) (pr_maker p) <> Panic /\
  (forall m, flushStep (AddFills now) (pr_maker p) = Ok m -> makerInv topic db0 all (pr_setMaker p m) ds).
Proof.
  intros Hd [Hr Hg (stored & added & Hall & Hrow & Hst)]. unfold flushStep.
  destruct (mk_received (pr_maker p)); cbn [negb]; [|by split].
  destruct (_ && _).
  - split; [done|]. intros m Hm. injection Hm as <-. split; [done..|]. by exists stored, added.
  - destruct (AddFills_fresh now (mk_batch (pr_maker p)) (mk_db (pr_maker p))) as (db' & more & Hadd & Hg' & Hmore).
    + rewrite Hrow, <- app_assoc. eapply sublist_NoDup; [exact Hd|]. rewrite <- Hr, (fmap_app fillsOf), concat_app, <- Hall.
      rewrite !(fmap_app fillKey), (storedAs_keys _ _ Hst). apply sublist_app; [done|].
      rewrite <- !app_assoc. apply sublist_app; [done|]. apply sublist_inserts_r. done.
    + rewrite Hadd. split; [done|]. intros m Hm. injection Hm as <-. split; [done..|].
      exists (stored ++ mk_batch (pr_maker p)), (added ++ more). unfold pr_maker in *. cbn. split_and!.
      * rewrite <- Hall. by rewrite <- app_assoc.
      * by rewrite Hg', Hrow, app_assoc.
      * by apply Forall2_app.
Qed.

Lemma processStep_inv topic ev db0 all p ds : ordered topic -> Forall (fun m => is_i64 (lm_Seq m)) topic ->
  NoDup (fillKey <$> g_fill db0 ++ concat (fillsOf <$> all)) -> makerInv topic db0 all p ds ->
  processStep AddFills topic ev p <> Panic /\
  (forall p', processStep AddFills topic ev p = Ok p' -> exists ds', makerInv topic db0 all p' ds').
Proof.
  intros Ho Hi Hd Hinv. destruct ev as [| | |now]; cbn [processStep].
  - by apply (readStep_inv topic db0 all p ds).
  - destruct Hinv as [Hr Hg (stored & added & Hall & Hrow & Hst)]. unfold sendStep, send.
    destruct (mk_sending (pr_maker p)) as [|x sending] eqn:Hs; [by split|]. destruct (_ <? _); [|by split].
    split; [done|]. intros p' Hp. injection Hp as <-. exists ds. split; [done..|]. exists stored, added. cbn.
    split_and!; [|done|done]. rewrite <- Hall. by rewrite <- (app_assoc (mk_ch (pr_maker p))).
  - destruct Hinv as [Hr Hg (stored & added & Hall & Hrow & Hst)]. unfold receiveStep, recv.
    destruct (mk_received (pr_maker p)); [by split|]. destruct (mk_ch (pr_maker p)) as [|x ch] eqn:Hc; [by split|].
    split; [done|]. intros p' Hp. injection Hp as <-. exists ds. split; [done..|]. exists stored, added. cbn.
    split_and!; [|done|done]. rewrite <- Hall. by rewrite <- app_assoc.
  - destruct (flushStep_inv now topic db0 all p ds Hd Hinv) as [Hp Hm]. split.
    + apply bind_no_panic; [done|]. done.
    + intros p' Hrun. apply bind_Ok in Hrun as (m & Hrun & Heq). injection Heq as <-. exists ds. by apply Hm.
Qed.

Lemma processRun_inv topic evs db0 all : ordered topic -> Forall (fun m => is_i64 (lm_Seq m)) topic ->
  NoDup (fillKey <$> g_fill db0 ++ concat (fillsOf <$> all)) -> forall p ds, makerInv topic db0 all p ds ->
  processRun AddFills topic evs p <> Panic /\
  (forall p', processRun AddFills topic evs p = Ok p' -> exists ds', makerInv topic db0 all p' ds').
Proof.
  intros Ho Hi Hd. induction evs as [|ev evs IH]; intros p ds Hinv; cbn.
  - split; [done|]. intros p' Hp. injection Hp as <-. eauto.
  - destruct (processStep_inv topic ev db0 all p ds Ho Hi Hd Hinv) as [Hp Hs]. split.
    + apply bind_no_panic; [done|]. intros p1 H1. destruct (Hs p1 H1) as [ds' H']. by eapply IH.
    + intros p' Hrun. apply bind_Ok in Hrun as (p1 & H1 & Hrun). destruct (Hs p1 H1) as [ds' H']. by eapply IH.
Qed.

Lemma startAt_inv topic db seq offset : let p : process () Fill := startAt () db seq offset in
  let ms := filter (fun m => pr_offset p <= lm_Offset m) topic in
  gap_free seq ms -> makerInv topic db (freshLogs seq ms) p [].
Proof.
  intros p ms Hg. split; [done|exact Hg|]. exists [], []. cbn. split_and!; [done|by rewrite app_nil_r|constructor].
Qed.

(** A fill that is neither stored nor of a log still to come is never written. *)
Lemma never_written topic db seq offset key : let p0 : process () Fill := startAt () db seq offset in
  let ms := filter (fun m => pr_offset p0 <= lm_Offset m) topic in
  ordered topic -> Forall (fun m => is_i64 (lm_Seq m)) topic -> gap_free seq ms ->
  NoDup (fillKey <$> g_fill db ++ concat (fillsOf <$> freshLogs seq ms)) ->
  key ∉ fillKey <$> g_fill db ++ concat (fillsOf <$> freshLogs seq ms) ->
  forall evs p, processRun AddFills topic evs p0 = Ok p -> key ∉ fillKey <$> g_fill (mk_db (pr_maker p)).
Proof.
  intros p0 ms Ho Hi Hg Hd Hkey evs p Hrun.
  destruct (processRun_inv topic evs db _ Ho Hi Hd p0 [] (startAt_inv topic db seq offset Hg)) as [_ Hok].
  destruct (Hok p Hrun) as (ds & [Hr _ (stored & added & Hall & Hrow & Hst)]).
  intros Hin. apply Hkey. rewrite Hrow, fmap_app, (storedAs_keys _ _ Hst), <- fmap_app in Hin.
  eapply elem_of_sublist; [exact Hin|]. apply fmap_sublist, sublist_app; [done|].
  rewrite <- Hr, (fmap_app fillsOf), concat_app, <- Hall. apply sublist_inserts_r. by apply sublist_inserts_r.
Qed.

Lemma NewFillMaker_startAt db productId f : GetLastFillByProductId db productId = Some f ->
  NewFillMaker db productId = startAt () db (fill_LogSeq f) (fill_LogOffset f).
Proof. unfold NewFillMaker. by intros ->. Qed.
End FillMaker.

(** ** Candles *)

Section TickMaker.
Context {P : DecimalPkg} {L : DecimalLaws P} {C : Column}.

Lemma tickLoop_lookup log offset gs : forall ticks g, NoDup gs ->
  (tickLoop log offset gs ticks).1 !! g = if decide (g ∈ gs) then Some (tickStep log offset g ticks) else ticks !! g.
Proof.
  induction gs as [|g' gs IH]; intros ticks g Hd; [done|]. apply NoDup_cons in Hd as [Hg' Hd]. cbn.
  destruct (tickLoop log offset gs _) as [ticks' sent] eqn:Hl. cbn.
  specialize (IH (<[g' := tickStep log offset g' ticks]> ticks) g Hd). rewrite Hl in IH. cbn in IH. rewrite IH.
  destruct (decide (g = g')) as [->|Hne].
  - rewrite decide_False by done. rewrite lookup_insert_eq, decide_True by left. done.
  - rewrite lookup_insert_ne by done. unfold tickStep. rewrite lookup_insert_ne by done.
    destruct (decide (g ∈ gs)); [rewrite decide_True by (by right)|rewrite decide_False by (by intros [?|?]%elem_of_cons)]; done.
Qed.

Lemma minutes_NoDup : NoDup minutes.
Proof. apply (bool_decide_unpack _). vm_compute. done. Qed.

(** The trades of a run of messages, and the candle of a period's trades. *)
Definition tradesIn (ms : list logMessage) : list MatchLog :=
  omap (fun m => match lm_Log m with LMatch l => Some l | _ => None end) ms.

Record candleOf (period : list MatchLog) (t : Tick) : Prop := {
  candle_open : ml_Price <$> head period = Some (tick_Open t);
  candle_close : ml_Price <$> last period = Some (tick_Close t);
  candle_high : Forall (fun l => dval (ml_Price l) <= dval (tick_High t))%Q period /\
                Exists (fun l => dval (ml_Price l) == dval (tick_High t))%Q period;
  candle_low : Forall (fun l => dval (tick_Low t) <= dval (ml_Price l))%Q period /\
               Exists (fun l => dval (ml_Price l) == dval (tick_Low t))%Q period;
  candle_volume : (dval (tick_Volume t) == dsum (ml_Size <$> period))%Q;
  candle_quote : (dval (tick_QuoteVolume t) == dsum ((fun l => dec_Mul (ml_Price l) (ml_Size l)) <$> period))%Q;
}.

Lemma candle_new log offset g T : candleOf [log] (newTick log offset g T).
Proof.
  split; cbn; try done.
  - split; repeat constructor; cbn; lra.
  - split; repeat constructor; cbn; lra.
  - ring.
  - ring.
Qed.

Lemma candle_update period t log offset : period <> [] -> candleOf period t -> candleOf (period ++ [log]) (tick_update t log offset).
Proof.
  intros Hne [Ho Hc [Hh1 Hh2] [Hl1 Hl2] Hv Hq]. split; cbn.
  - destruct period; [done|]. exact Ho.
  - by rewrite last_snoc.
  - destruct (dec_Max_val (tick_High t) (ml_Price log)) as [[-> Hm]|[-> Hm]].
    + split; [apply Forall_app; split; [done|by constructor]|by apply Exists_app; left].
    + split; [|apply Exists_app; right; constructor; reflexivity].
      apply Forall_app. split; [|constructor; [lra|done]]. eapply Forall_impl; [exact Hh1|]. cbn. intros. lra.
  - destruct (dec_Min_val (tick_Low t) (ml_Price log)) as [[-> Hm]|[-> Hm]].
    + split; [apply Forall_app; split; [done|by constructor]|by apply Exists_app; left].
    + split; [|apply Exists_app; right; constructor; reflexivity].
      apply Forall_app. split; [|constructor; [lra|done]]. eapply Forall_impl; [exact Hl1|]. cbn. intros. lra.
  - rewrite fmap_app, dsum_app, dval_Add, Hv. cbn. ring.
  - rewrite fmap_app, dsum_app, dval_Add, Hq. cbn. ring.
Qed.

Lemma deliverAll_snoc ms m (s : maker (gmap Z Tick) Tick) : deliverAll (ms ++ [m]) s = (s ← deliverAll ms s; deliver m s).
Proof.
  revert s. induction ms as [|x ms IH]; intros s; cbn.
  - destruct (deliver m s); done.
  - destruct (deliver x s); cbn; [apply IH|done..].
Qed.

(** One trade moves the tick of every granularity by [tickStep]. *)
Lemma deliver_tick m (s s' : maker (gmap Z Tick) Tick) g : g ∈ minutes -> deliver m s = Ok s' ->
  mk_local s' !! g = match lm_Log m with LMatch l => Some (tickStep l (lm_Offset m) g (mk_local s)) | _ => mk_local s !! g end.
Proof.
  intros Hg Hd. unfold deliver in Hd. destruct (lm_Log m) as [l|l|l]; [by injection Hd as <-| |by injection Hd as <-].
  change (OnMatchLog l (lm_Offset m) s) with (TickMaker_OnMatchLog l (lm_Offset m) s) in Hd.
  unfold TickMaker_OnMatchLog in Hd. pose proof (tickLoop_lookup l (lm_Offset m) minutes (mk_local s) g minutes_NoDup) as Hl.
  destruct (tickLoop l (lm_Offset m) minutes (mk_local s)) as [ticks sent]. injection Hd as <-.
  cbn [mk_local mk_setLocal]. rewrite decide_True in Hl by done. exact Hl.
Qed.

(** The trades of the last period, once [l] has come: a trade of another period
    begins a new one. *)
Definition inPeriod (g : Z) (period : list MatchLog) (l : MatchLog) : list MatchLog :=
  match last period with
  | Some l0 => if tickTime (base_Time (ml_Base l0)) g =? tickTime (base_Time (ml_Base l)) g then period ++ [l] else [l]
  | None => [l]
  end.
Definition lastPeriod (g : Z) (period ls : list MatchLog) : list MatchLog := foldl (inPeriod g) period ls.

(** The tick a maker keeps is the candle of [period], of one time. *)
Definition keepsCandle (g : Z) (period : list MatchLog) (tick : option Tick) : Prop :=
  match tick with
  | None => period = []
  | Some t => period <> [] /\ tick_Granularity t = g /\ Forall (fun l => tickTime (base_Time (ml_Base l)) g = tick_Time t) period /\ candleOf period t
  end.

Lemma lastPeriod_app g period ls1 ls2 : lastPeriod g period (ls1 ++ ls2) = lastPeriod g (lastPeriod g period ls1) ls2.
Proof. apply foldl_app. Qed.

(** The trades of one period after those it had: all of them. *)
Lemma lastPeriod_same g T ls : forall period, Forall (fun l => tickTime (base_Time (ml_Base l)) g = T) (period ++ ls) ->
  lastPeriod g period ls = period ++ ls.
Proof.
  induction ls as [|l ls IH]; intros period H; [by rewrite app_nil_r|]. unfold lastPeriod. cbn [foldl].
  assert (E : inPeriod g period l = period ++ [l]).
  { unfold inPeriod. destruct (last period) as [l0|] eqn:Hl; [|by apply last_None in Hl as ->].
    rewrite Forall_forall in H. rewrite (H l0), (H l); [by rewrite Z.eqb_refl|set_solver|].
    apply last_Some_elem_of in Hl. set_solver. }
  rewrite E. unfold lastPeriod in IH. rewrite IH; by rewrite <- app_assoc.
Qed.

Lemma tickStep_candle g period l offset ticks : keepsCandle g period (ticks !! g) ->
  keepsCandle g (inPeriod g period l) (Some (tickStep l offset g ticks)).
Proof.
  unfold tickStep, inPeriod. destruct (ticks !! g) as [t|]; cbn [keepsCandle].
  - intros (Hne & Hgr & Hall & Hc). destruct (last period) as [l0|] eqn:Hl; [|by apply last_None in Hl].
    rewrite Forall_forall in Hall. rewrite (Hall l0) by (by apply last_Some_elem_of).
    destruct (Z.eqb_spec (tick_Time t) (tickTime (base_Time (ml_Base l)) g)) as [He|He].
    + split; [by destruct period|]. split; [exact Hgr|]. split; [|by apply candle_update]. apply Forall_app. split; [by apply Forall_forall|].
      by constructor.
    + do 2 (split; [done|]). split; [by constructor|apply candle_new].
  - intros ->. do 2 (split; [done|]). split; [by constructor|apply candle_new].
Qed.

Lemma tick_candle g (s : maker (gmap Z Tick) Tick) period : g ∈ minutes -> keepsCandle g period (mk_local s !! g) ->
  forall ms s', deliverAll ms s = Ok s' -> keepsCandle g (lastPeriod g period (tradesIn ms)) (mk_local s' !! g).
Proof.
  intros Hg H0 ms. induction ms as [|m ms IH] using rev_ind; intros s' Hrun; [by injection Hrun as <-|].
  rewrite deliverAll_snoc in Hrun. apply bind_Ok in Hrun as (s1 & Hrun & Hd). specialize (IH s1 Hrun).
  apply (deliver_tick _ _ _ g Hg) in Hd. rewrite Hd. unfold tradesIn in *. rewrite omap_app, lastPeriod_app. cbn.
  destruct (lm_Log m) as [l|l|l]; [exact IH| |exact IH]. by apply tickStep_candle.
Qed.
End TickMaker.

(** ** The theorems *)

Section Theorems.
Context {P : DecimalPkg} {L : DecimalLaws P} {C : Column} {K : Clock}.

(** C23: in every interleaving of its reader, callbacks and flusher, a fill maker
    that starts after [seq] never stops, and the rows it has written are the
    fills of the logs it has read, in log order and each once, but for those
    that are still in its batch, in its channel or about to be sent. *)
Theorem fill_maker_exactly_once topic db seq offset evs :
  let p0 : process () Fill := startAt () db seq offset in
  let ms := filter (fun m => pr_offset p0 <= lm_Offset m) topic in
  ordered topic -> Forall (fun m => is_i64 (lm_Seq m)) topic -> gap_free seq ms ->
  NoDup (fillKey <$> g_fill db ++ concat (fillsOf <$> freshLogs seq ms)) ->
  processRun AddFills topic evs p0 <> Panic /\
  forall p, processRun AddFills topic evs p0 = Ok p ->
    exists worked left stored added,
      freshLogs seq ms = worked ++ left /\
      concat (fillsOf <$> worked) = stored ++ mk_batch (pr_maker p) ++ mk_ch (pr_maker p) ++ mk_sending (pr_maker p) /\
      g_fill (mk_db (pr_maker p)) = g_fill db ++ added /\ Forall2 storedAs stored added.
Proof.
  intros p0 ms Ho Hi Hg Hd.
  destruct (processRun_inv topic evs db _ Ho Hi Hd p0 [] (startAt_inv topic db seq offset Hg)) as [Hp Hok].
  split; [exact Hp|]. intros p Hrun. destruct (Hok p Hrun) as (ds & [Hr _ (stored & added & Hall & Hrow & Hst)]).
  by eexists ds, _, stored, added.
Qed.

(** C24: whatever logs a tick maker is given, the tick it keeps of each
    granularity is the candle of the trades of the last period: first and last
    price, highest and lowest, and the sums of the sizes and of the values.
    [period] are the trades of the tick it starts with, if it has one: the
    trades that follow in the same period are added to them, a trade of another
    period begins a new tick.  Trades that are delivered again are added again
    ([tick_restart_counts_twice]). *)
Theorem tick_aggregates ms (s s' : maker (gmap Z Tick) Tick) g period : g ∈ minutes ->
  keepsCandle g period (mk_local s !! g) -> deliverAll ms s = Ok s' ->
  keepsCandle g (lastPeriod g period (tradesIn ms)) (mk_local s' !! g) /\
  forall T, Forall (fun l => tickTime (base_Time (ml_Base l)) g = T) (period ++ tradesIn ms) ->
    lastPeriod g period (tradesIn ms) = period ++ tradesIn ms.
Proof.
  intros Hg H0 Hrun. split; [by eapply tick_candle|]. intros T. apply lastPeriod_same.
Qed.
End Theorems.

(** ** A topic of one match *)

Module MakerDemo.
Import LedgerDemo.

Definition base (type : LogType) (seq : Z) (time : Instant) : Base := {|
  base_Type := type; base_Sequence := seq; base_ProductId := "BTC-USDT"; base_Time := time |}.

Definition matchLog (seq : Z) (time : Instant) (price : Q) : MatchLog := {|
  ml_Base := base LogTypeMatch seq time; ml_TradeSeq := 1; ml_TakerOrderId := buyId; ml_MakerOrderId := sellId;
  ml_TakerUserId := 7; ml_MakerUserId := 9; ml_Side := SideSell; ml_Price := price; ml_Size := 1%Q;
  ml_TakerTimeInForce := GoodTillCanceled; ml_MakerTimeInForce := GoodTillCanceled |}.

Definition minute : Z := 60 * 10 ^ 9.

Definition topic : list logMessage := [
  {| lm_Offset := 0; lm_Log := LMatch (matchLog 1 0 8%Q) |};
  {| lm_Offset := 1; lm_Log := LMatch (matchLog 2 (minute + 1) 9%Q) |}].

#[export] Instance clocks : Clock := {| clock := fun _ => 0 |}.

Definition p0 : process () Fill := NewFillMaker db0 "BTC-USDT".

(** The reader calls back, the callback has sent the taker's fill, the flusher
    has written it. *)
Definition untilCrash : list processEvent := [PrRead; PrSend; PrReceive; PrFlush 1].
Definition p1 : process () Fill := getOk p0 (processRun AddFills topic untilCrash p0).
Lemma run1 : processRun AddFills topic untilCrash p0 = Ok p1.
Proof. unfold p1. apply isOk_get. vm_compute. reflexivity. Qed.

Definition logAt (offset : Z) : logMessage := {| lm_Offset := offset; lm_Log := LMatch (matchLog (offset + 1) 0 8%Q) |}.

Lemma topic_ordered : ordered topic.
Proof. repeat constructor. Qed.
Lemma topic_i64 : Forall (fun m => is_i64 (lm_Seq m)) topic.
Proof. repeat constructor; vm_compute; discriminate || reflexivity. Qed.

Lemma demo_keys : NoDup (fillKey <$> g_fill db0 ++ concat (fillsOf <$> freshLogs 0 topic)).
Proof. apply (bool_decide_unpack _). vm_compute. exact I. Qed.

Definition ticks0 : maker (gmap Z Tick) Tick := pr_maker (NewTickMaker db0 "BTC-USDT").
(** The last row the restarted maker finds. *)
Definition last1 : Fill := default (fill 0 0 "" false) (GetLastFillByProductId (mk_db (pr_maker p1)) "BTC-USDT").
Lemma last1_get : GetLastFillByProductId (mk_db (pr_maker p1)) "BTC-USDT" = Some last1.
Proof. unfold last1. apply isSome_get. vm_compute. reflexivity. Qed.
Lemma last1_seq : fill_LogSeq last1 = 1.
Proof. vm_compute. reflexivity. Qed.
Lemma last1_offset : fill_LogOffset last1 = 0.
Proof. vm_compute. reflexivity. Qed.

Lemma ticks0_none : mk_local ticks0 !! 3 = None.
Proof. vm_compute. reflexivity. Qed.
Definition ticked : maker (gmap Z Tick) Tick := getOk ticks0 (deliverAll topic ticks0).
Lemma ticked_run : deliverAll topic ticks0 = Ok ticked.
Proof. unfold ticked. apply isOk_get. vm_compute. reflexivity. Qed.
#[global] Opaque ticks0 ticked p0 p1 last1.
End MakerDemo.
Import LedgerDemo MakerDemo.

Lemma fill_maker_exactly_once_witness :
  processRun AddFills topic untilCrash p0 <> Panic /\ fill_OrderId <$> g_fill (mk_db (pr_maker p1)) = [buyId].
Proof.
  split; [|vm_compute; reflexivity].
  apply (fill_maker_exactly_once topic db0 0 0 untilCrash topic_ordered topic_i64); [vm_compute; split; [discriminate|split; [discriminate|exact I]]|].
  exact demo_keys.
Defined.

Lemma tick_aggregates_witness : exists t, mk_local ticked !! 3 = Some t /\ (tick_Volume t == 2)%Q /\ candleOf (tradesIn topic) t.
Proof.
  assert (Hg : 3 ∈ minutes) by (apply (bool_decide_unpack _); vm_compute; exact I).
  assert (Hno : keepsCandle 3 [] (mk_local ticks0 !! 3)) by (rewrite ticks0_none; reflexivity).
  destruct (tick_aggregates topic ticks0 ticked 3 [] Hg Hno ticked_run) as [Ht Hsame].
  rewrite (Hsame 0) in Ht by (repeat constructor). cbn [app] in Ht.
  destruct (mk_local ticked !! 3) as [t|]; [|discriminate Ht]. destruct Ht as (_ & _ & _ & Hc). exists t. split; [reflexivity|]. split; [|exact Hc].
  rewrite (candle_volume _ _ Hc). vm_compute. reflexivity.
Defined.

(** A crash between the two fills of one match loses the maker's: the
    restarted maker resumes after the log of the last row, and whatever it does,
    it never writes the fill of the maker's order. *)
Theorem crash_loses_maker_fill :
  processRun AddFills topic untilCrash p0 = Ok p1 /\
  fillKey <$> g_fill (mk_db (pr_maker p1)) = [(buyId, 1)] /\
  forall evs p, processRun AddFills topic evs (NewFillMaker (mk_db (pr_maker p1)) "BTC-USDT") = Ok p ->
    (sellId, 1) ∉ fillKey <$> g_fill (mk_db (pr_maker p)).
Proof.
  split; [exact run1|]. split; [vm_compute; reflexivity|]. rewrite (NewFillMaker_startAt _ _ _ last1_get), last1_seq, last1_offset.
  apply never_written; [exact topic_ordered|exact topic_i64|vm_compute; split; [discriminate|split; [discriminate|exact I]]| |].
  - apply (bool_decide_unpack _). vm_compute. exact I.
  - apply (bool_decide_unpack _). vm_compute. exact I.
Qed.

(** Every send is written at once. *)
Fixpoint writeEach (n : nat) : list processEvent :=
  match n with O => [] | S n => [PrSend; PrReceive; PrFlush 1] ++ writeEach n end.

Definition tq0 : process (gmap Z Tick) Tick := NewTickMaker db0 "BTC-USDT".
Definition tq1 : process (gmap Z Tick) Tick :=
  getOk tq0 (processRun AddTicks topic (PrRead :: writeEach 11 ++ PrRead :: writeEach 1) tq0).
Lemma tq1_run : processRun AddTicks topic (PrRead :: writeEach 11 ++ PrRead :: writeEach 1) tq0 = Ok tq1.
Proof. unfold tq1. apply isOk_get. vm_compute. reflexivity. Qed.
Definition tq2 : process (gmap Z Tick) Tick :=
  getOk tq0 (processRun AddTicks topic (PrRead :: PrRead :: writeEach 11) (NewTickMaker (mk_db (pr_maker tq1)) "BTC-USDT")).
Lemma tq2_run :
  processRun AddTicks topic (PrRead :: PrRead :: writeEach 11) (NewTickMaker (mk_db (pr_maker tq1)) "BTC-USDT") = Ok tq2.
Proof. unfold tq2. apply isOk_get. vm_compute. reflexivity. Qed.
Definition tq2_tick : Tick := default (newTick (matchLog 0 0 0%Q) 0 0 0) (GetLastTickByProductId (mk_db (pr_maker tq2)) "BTC-USDT" 1).
Lemma tq2_get : GetLastTickByProductId (mk_db (pr_maker tq2)) "BTC-USDT" 1 = Some tq2_tick.
Proof. unfold tq2_tick. apply isSome_get. vm_compute. reflexivity. Qed.
#[global] Opaque tq1 tq2 tq2_tick.

(** A candle maker that is restarted after it wrote the one-minute tick of a
    trade but not the others works the trade again, because it resumes at the
    position of the last granularity it loads: the one-minute tick counts the
    trade twice. *)
Theorem tick_restart_counts_twice :
  exists q1 q2 : process (gmap Z Tick) Tick,
    processRun AddTicks topic (PrRead :: writeEach 11 ++ PrRead :: writeEach 1) (NewTickMaker db0 "BTC-USDT") = Ok q1 /\
    processRun AddTicks topic (PrRead :: PrRead :: writeEach 11) (NewTickMaker (mk_db (pr_maker q1)) "BTC-USDT") = Ok q2 /\
    (exists t, GetLastTickByProductId (mk_db (pr_maker q2)) "BTC-USDT" 1 = Some t /\ tick_Time t = 60%Z /\ (tick_Volume t == 2)%Q) /\
    (dsum (ml_Size <$> filter (fun l => tickTime (base_Time (ml_Base l)) 1 = 60%Z) (tradesIn topic)) == 1)%Q.
Proof.
  exists tq1, tq2. split; [exact tq1_run|]. split; [exact tq2_run|]. split; [|vm_compute; reflexivity].
  exists tq2_tick. split; [exact tq2_get|]. split; vm_compute; reflexivity.
Qed.

(** ** The log reader, with a candle maker as its observer *)

Lemma reader_exactly_once_witness :
  rd_observer <$> Run 0 0 topic ticks0 = deliverAll (freshLogs 0 topic) ticks0 /\ length (freshLogs 0 topic) = 2%nat.
Proof.
  split; [|reflexivity].
  apply (reader_exactly_once 0 0 topic ticks0); [vm_compute; split; [discriminate|split; [discriminate|exact I]]|exact topic_i64].
Defined.

Lemma reader_gap_crashes_witness :
  readerStep {| rd_lastSeq := 1; rd_observer := ticks0 |} {| lm_Offset := 5; lm_Log := LMatch (matchLog 3 0 8%Q) |} = Panic.
Proof.
  apply reader_gap_crashes; vm_compute; [split; reflexivity|reflexivity].
Defined.
