(* ===== verification/Circulation.v ===== *)
(** Money in circulation: over a whole run of transactions, what the users and
    the exchange own in a currency changes only by what the settled trades are
    worth, and the two sides of a trade are worth nothing together. *)
From S2P Require Import Prelude Decimal Models Ledger Settlement LedgerInv Accounting OrderInv FillSums Transactions LedgerDemo.
From S2P Require Import MatchLog LogReader Makers MakerTheorems.
From Stdlib Require Import QArith Qabs Lqa.
From stdpp Require Import list relations.
Open Scope string_scope.
Open Scope list_scope.
Open Scope Z_scope.

Section Circulation.
Context {P : DecimalPkg} {L : DecimalLaws P} {C : Column} {CL : ColumnLaws L C}.

(** ** What a settled trade is worth *)

(** What the fill brought the owner of its order and the exchange in [c]. *)
Definition worthIn (c : string) (db : Db) (f : Fill) : Q :=
  match GetOrderById db (fill_OrderId f) with
  | Some o =>
      match GetProductById db (ord_ProductId o) with
      | Some product => tradeWorth product o c (dval (fill_Size f)) (dval (fill_Size f) * dval (fill_Price f))
      | None => 0
      end
  | None => 0
  end%Q.

#[export] Instance tradeWorth_proper product o c : Proper (Qeq ==> Qeq ==> Qeq) (tradeWorth product o c).
Proof. intros s s' Hs v v' Hv. unfold tradeWorth. destruct (ord_Side o =s? SideBuy); repeat case_decide; by rewrite ?Hs, ?Hv. Qed.

#[export] Instance worthIn_weight c db : FillWeight (worthIn c db).
Proof.
  intros f f' Ho Hs Hp. unfold worthIn, deq in *. rewrite Ho. destruct (GetOrderById _ _); [|reflexivity].
  destruct (GetProductById _ _); [|reflexivity]. by rewrite Hs, Hp.
Qed.
#[export] Instance const_weight q : FillWeight (fun _ => q).
Proof. by intros f f' _ _ _. Qed.

Lemma sumOf_const (q : Q) (l : list Fill) : (sumOf (fun _ => q) l == inject_Z (Z.of_nat (length l)) * q)%Q.
Proof.
  induction l as [|f l IH]; [cbn; ring|]. rewrite sumOf_cons, IH. cbn [length].
  rewrite Nat2Z.inj_succ, <- Z.add_1_l, inject_Z_plus. change (inject_Z 1) with 1%Q. ring.
Qed.

Lemma sumOf_worth product o c fills :
  (sumOf (fun f => tradeWorth product o c (dval (fill_Size f)) (dval (fill_Size f) * dval (fill_Price f))) fills
   == tradeWorth product o c (sumOf (fun f => dval (fill_Size f)) fills)
        (sumOf (fun f => dval (fill_Size f) * dval (fill_Price f)) fills))%Q.
Proof.
  induction fills as [|f fills IH].
  - unfold tradeWorth. cbn. destruct (ord_Side o =s? SideBuy); repeat case_decide; ring.
  - rewrite !sumOf_cons, IH. unfold tradeWorth. destruct (ord_Side o =s? SideBuy); repeat case_decide; ring.
Qed.

Lemma tradesOf_in fills f : f ∈ tradesOf fills -> f ∈ fills.
Proof.
  induction fills as [|g fills IH]; [done|]. cbn [tradesOf]. destruct (fill_Done g); [intros Hf; by apply elem_of_nil in Hf|].
  intros Hf. apply elem_of_cons in Hf as [->|Hf]; [by left|right; auto].
Qed.

Lemma PlaceOrder_fills now generate db userId level oid pid ty tif side size price funds o db' :
  PlaceOrder now generate db userId level oid pid ty tif side size price funds = Ok (o, db') -> g_fill db' = g_fill db.
Proof.
  unfold PlaceOrder. intros Hrun. destruct (GetProductById _ _); [|discriminate]. destruct (GetFeeRateByUserLevel _ _); [|discriminate].
  destruct (badRatio _); [discriminate|]. destruct (badRatio _); [discriminate|].
  apply bind_Ok in Hrun as ([[s p1] f1] & _ & Hrun). destruct (holdOf _ _ _ _). apply bind_Ok in Hrun as (tx & Hh & Hrun).
  destruct (negb _); [discriminate|]. apply bind_Ok in Hrun as (tx2 & Hadd & Hrun). injection Hrun as _ <-.
  unfold AddOrder in Hadd. case_decide; [discriminate|]. apply bind_Ok in Hadd as (row & _ & Hadd). injection Hadd as <-. cbn.
  unfold HoldBalance in Hh. destruct (dec_LessThanOrEqual _ _); [discriminate|]. destruct (GetAccountForUpdate _ _ _); [|discriminate].
  destruct (negb _); [discriminate|]. apply bind_Ok in Hh as (tx1 & H1 & H2). cbn in H1. unfold UpdateAccount in H2. by go_simpl.
Qed.

(** ** Orders keep their owner, product and side *)

Record sameTrader (o o' : Order) : Prop := {
  trader_user : ord_UserId o' = ord_UserId o;
  trader_product : ord_ProductId o' = ord_ProductId o;
  trader_side : ord_Side o' = ord_Side o;
}.

(** [db'] still has the orders of [db]. *)
Definition tradersKept (db db' : Db) : Prop :=
  g_product db' = g_product db /\
  forall id o, GetOrderById db id = Some o -> exists o', GetOrderById db' id = Some o' /\ sameTrader o o'.

Lemma tradersKept_same db db' : g_order db' = g_order db -> g_product db' = g_product db -> tradersKept db db'.
Proof. intros Ho Hp. split; [done|]. intros id o Hget. exists o. unfold GetOrderById in *. by rewrite Ho. Qed.

Lemma UpdateOrderStatus_kept now db id old new b db' : UpdateOrderStatus now db id old new = Ok (b, db') -> tradersKept db db'.
Proof.
  unfold UpdateOrderStatus. intros [= _ <-]. split; [done|]. intros id' o Hget. unfold GetOrderById in *. cbn.
  destruct (_ =? _) eqn:Hi; [|by exists o]. apply Z.eqb_eq in Hi. rewrite Hi in Hget. revert Hget.
  induction (g_order db (GetTableIndexByOrderId id)) as [|r l IH]; [done|]. cbn [map].
  assert (Hid : forall r, ord_Id (if (ord_Id r =? id) && (ord_Status r =s? old) then ord_setStatus r new now else r) = ord_Id r)
    by (intros x; by case_match).
  rewrite !filter_cons, Hid. case_decide; [|exact IH]. cbn. intros [= ->]. eexists. split; [reflexivity|]. by case_match.
Qed.

Lemma ledgerStep_kept db db' : db_wf db -> ledgerStep db db' -> tradersKept db db'.
Proof.
  intros Hwf Hstep. destruct Hstep as [now gen u lv oid pid ty tif side size price funds o Hr|now id b Hr|now fills Hf Hr
    |now id Hr|now u c Hr|now trades Hr|now ticks Hr].
  - apply PlaceOrder_spec in Hr as (product & fr & s & p & f & id & _ & _ & _ & _ & _ & Hr); [|done].
    split; [apply (placed_product _ _ _ _ _ Hr)|]. intros id' o' Hget. exists o'. split; [|done].
    destruct (placed_row _ _ _ _ _ Hr) as (row & _ & _ & Hnone & _).
    rewrite (placed_read _ _ _ _ _ Hr); [done|]. intros ->. congruence.
  - by eapply UpdateOrderStatus_kept.
  - apply AddFills_spec in Hr as [_ Hsame]; [|apply (wf_fills _ Hwf)|done]. apply tradersKept_same; by rewrite Hsame.
  - destruct (ExecuteFill_cases _ _ _ _ Hwf Hr) as [[-> _]|(o & o' & product & fills' & Hget & _ & _ & Hx)];
      [by apply tradersKept_same|].
    split; [apply (executed_accounts _ _ _ _ _ _ _ Hx)|]. intros id' o1 Hget1.
    destruct (executed_read _ _ _ _ _ _ _ Hx) as [(row & Hrow & Hread) Hother]. destruct (decide (id' = ord_Id o)) as [->|Hne].
    + exists row. split; [done|]. destruct (GetOrderById_Some _ _ _ (wf_orders _ Hwf) Hget) as [Hid _].
      change (GetOrderByIdForUpdate db id) with (GetOrderById db id) in Hget. rewrite <- Hid in Hget. rewrite Hget in Hget1.
      injection Hget1 as <-. destruct (executed_bills _ _ _ _ _ _ _ Hx) as (d & Hd & _).
      destruct (settled_same _ _ _ _ _ _ Hd), Hrow. split; congruence.
    + exists o1. by rewrite Hother.
  - apply ExecuteBill_spec in Hr as (_ & (Ho & Hp & _) & _); [|done]. by apply tradersKept_same.
  - apply AddTrades_frame in Hr. apply tradersKept_same; by rewrite Hr.
  - apply AddTicks_frame in Hr. apply tradersKept_same; by rewrite Hr.
Qed.

(** The orders of the settled trades are in the tables. *)
Definition ordersKnown (db : Db) : Prop :=
  forall f, f ∈ g_fill db -> settledTrade f -> is_Some (GetOrderById db (fill_OrderId f)).

Lemma worthIn_kept c db db' f : tradersKept db db' -> is_Some (GetOrderById db (fill_OrderId f)) -> worthIn c db' f = worthIn c db f.
Proof.
  intros [Hp Hk] [o Ho]. destruct (Hk _ _ Ho) as (o' & Ho' & [_ Hpr Hs]). unfold worthIn, GetProductById. rewrite Ho, Ho', Hpr, Hp.
  destruct (head _); [|done]. unfold tradeWorth. by rewrite Hs.
Qed.

(** ** The steps *)

Section Users.
Context (us : list Z) (c : string) (Hnd : NoDup us) (H0 : 0 ∈ us).

(** The users the orders belong to are counted. *)
Definition tradersIn (db : Db) : Prop := forall id o, GetOrderById db id = Some o -> ord_UserId o ∈ us.

(** What is owned besides the proceeds of the settled trades, and a unit of the
    columns for every settled trade. *)
Definition principal (db : Db) : Q := (wealth us c db - fillSum (worthIn c db) db)%Q.
Definition dust (db : Db) : Q := fillSum (fun _ => ulp columnScale) db.

Record circulates (db db' : Db) : Prop := {
  circulates_known : ordersKnown db';
  circulates_drift : (Qabs (principal db' - principal db) <= dust db' - dust db)%Q;
}.

Lemma circulates_refl db : ordersKnown db -> circulates db db.
Proof. split; [done|]. apply Qabs_Qle_condition. lra. Qed.

Lemma circulates_trans db1 db2 db3 : circulates db1 db2 -> circulates db2 db3 -> circulates db1 db3.
Proof.
  intros [_ H1] [Hk H2]. split; [done|].
  assert (He : (principal db3 - principal db1 == (principal db3 - principal db2) + (principal db2 - principal db1))%Q) by ring.
  rewrite He. eapply Qle_trans; [apply Qabs_triangle|]. lra.
Qed.

(** A step that settles nothing leaves the total alone. *)
Lemma quiet_circulates db db' : ordersKnown db -> tradersKept db db' -> (wealth us c db' == wealth us c db)%Q ->
  (forall w, fillSum w db' == fillSum w db)%Q -> (forall r, r ∈ g_fill db' -> settledTrade r -> r ∈ g_fill db) ->
  circulates db db'.
Proof.
  intros Hk Hkept Hw Hsum Hrows. split.
  - intros f Hf Hs. destruct (Hk f (Hrows _ Hf Hs) Hs) as [o Ho]. destruct (proj2 Hkept _ _ Ho) as (o' & Ho' & _). by exists o'.
  - unfold principal, dust. rewrite Hw, !Hsum, (fillSum_ext (worthIn c db') (worthIn c db)).
    + apply Qabs_Qle_condition. lra.
    + intros f Hf Hs. by rewrite (worthIn_kept c db db' f Hkept (Hk f Hf Hs)).
Qed.

Lemma quiet_same db db' : ordersKnown db -> tradersKept db db' -> (wealth us c db' == wealth us c db)%Q ->
  g_fill db' = g_fill db -> circulates db db'.
Proof. intros Hk Hkept Hw Hf. apply quiet_circulates; [done..| |]; intros; unfold fillSum; by rewrite ?Hf, <- ?Hf. Qed.

Lemma wealth_owned db db' : (forall u, owned u c db' == owned u c db)%Q -> (wealth us c db' == wealth us c db)%Q.
Proof. intros Ho. apply sumOf_ext. intros u _. apply Ho. Qed.

Lemma wealth_same db db' : g_account db' = g_account db -> g_bill db' = g_bill db -> (wealth us c db' == wealth us c db)%Q.
Proof.
  intros Ha Hb. apply wealth_owned. intros u. unfold owned, balance, GetAccount, pendingBills. rewrite Ha, Hb. reflexivity.
Qed.

Lemma place_wealth db db' u o product : orderPlaced db db' u o product -> (wealth us c db' == wealth us c db)%Q.
Proof.
  intros Hp. apply wealth_owned. intros u'. unfold owned. rewrite !(placed_balance _ _ _ _ _ Hp), !(placed_pending _ _ _ _ _ Hp).
  unfold move. case_decide; ring.
Qed.

Lemma bill_wealth now db u cur db' : db_wf db -> ExecuteBill now db u cur = Ok db' -> (wealth us c db' == wealth us c db)%Q.
Proof.
  intros Hwf Hr. apply ExecuteBill_spec in Hr as (_ & _ & Hb & _ & Hp); [|done]. apply wealth_owned. intros u'. unfold owned.
  rewrite !Hb, !Hp. ring.
Qed.

(** Executing the fills of an order: its trades become settled ones. *)
Lemma execute_circulates db db' id o o' product fills' : ordersKnown db -> tradersKept db db' ->
  GetOrderByIdForUpdate db id = Some o -> GetProductById db (ord_ProductId o) = Some product -> ord_Id o = id -> ord_UserId o ∈ us ->
  fillExecuted db db' o o' product (GetUnsettledFillsByOrderId db id) fills' -> circulates db db'.
Proof.
  intros Hk Hkept Hget Hprod Hid Hu Hx. change (GetOrderByIdForUpdate db id) with (GetOrderById db id) in Hget.
  destruct (GetUnsettled_of db id) as [_ Horder]. set (fills := GetUnsettledFillsByOrderId db id) in *.
  assert (Hknown : forall f, f ∈ g_fill db' -> settledTrade f -> is_Some (GetOrderById db (fill_OrderId f))).
  { intros f Hf Hs. destruct (decide (fill_OrderId f = id)) as [->|Hne]; [by rewrite Hget|].
    pose proof (executed_rows _ _ _ _ _ _ _ Hx f Hf) as [Hf'|He]; [by apply Hk|]. by rewrite Hid in He. }
  assert (Hworth : (sumOf (worthIn c db) (tradesOf fills) == tradeWorth product o c (sumOf (fun f => dval (fill_Size f)) (tradesOf fills))
    (sumOf (fun f => dval (fill_Size f) * dval (fill_Price f)) (tradesOf fills)))%Q).
  { rewrite <- sumOf_worth. apply sumOf_ext. intros f Hf. rewrite Forall_forall in Horder. unfold worthIn.
    rewrite (Horder f), Hget, Hprod by (by apply tradesOf_in). reflexivity. }
  destruct (executed_worth _ _ _ _ _ _ _ Hx us c Hnd Hu H0) as (e & Hw & He & _).
  split.
  - intros f Hf Hs. destruct (Hknown f Hf Hs) as [o1 Ho1]. destruct (proj2 Hkept _ _ Ho1) as (o2 & Ho2 & _). by exists o2.
  - unfold principal, dust. rewrite (fillSum_ext (worthIn c db') (worthIn c db)).
    + rewrite !(executed_sum _ _ _ _ _ _ _ Hx) by apply _. rewrite Hworth, Hw, sumOf_const.
      fold (units (length (tradesOf fills))). apply Qabs_Qle_condition in He. apply Qabs_Qle_condition. lra.
    + intros f Hf Hs. by rewrite (worthIn_kept c db db' f Hkept (Hknown f Hf Hs)).
Qed.

(** A transaction circulates the money: what is owned besides the proceeds of
    the trades stays, up to a unit for each trade it settles. *)
Lemma ledgerStep_circulates db db' : db_wf db -> ordersKnown db -> tradersIn db' -> ledgerStep db db' -> circulates db db'.
Proof.
  intros Hwf Hk Hin Hstep. assert (Hkept := ledgerStep_kept _ _ Hwf Hstep).
  destruct Hstep as [now gen u lv oid pid ty tif side size price funds o Hr|now id b Hr|now fills Hf Hr
    |now id Hr|now u cur Hr|now trades Hr|now ticks Hr].
  - assert (Hfr := Hr). apply PlaceOrder_spec in Hr as (product & fr & s & p & f & id & _ & _ & _ & _ & _ & Hr); [|done].
    apply quiet_same; [done|done|by eapply place_wealth|by eapply PlaceOrder_fills].
  - apply UpdateOrderStatus_spec in Hr as (_ & Hsame & _); [|apply (wf_orders _ Hwf)|done|done]. unfold sameBooks in Hsame.
    apply quiet_same; [done|done|apply wealth_same; by rewrite Hsame|by rewrite Hsame].
  - assert (Hnew : Forall (fun f => fill_Settled f = false) fills) by (eapply Forall_impl; [exact Hf|by intros f (_ & Hs & _)]).
    assert (Hadd := fun w => AddFills_unsettled now w fills _ _ Hnew Hr).
    apply AddFills_spec in Hr as [_ Hsame]; [|apply (wf_fills _ Hwf)|done]. unfold sameButFills in Hsame.
    apply quiet_circulates; [done|done|apply wealth_same; by rewrite Hsame|apply Hadd|apply (Hadd (fun _ => 0%Q))].
  - destruct (ExecuteFill_cases _ _ _ _ Hwf Hr) as [[-> _]|(o & o' & product & fills' & Hget & _ & Hp & Hx)];
      [by apply circulates_refl|].
    destruct (GetOrderById_Some _ _ _ (wf_orders _ Hwf) Hget) as [Hid _].
    eapply execute_circulates; [done|done|exact Hget|exact Hp|done| |exact Hx].
    destruct (proj2 Hkept _ _ Hget) as (o1 & Hget1 & [Hu _ _]). rewrite <- Hu. by eapply Hin.
  - assert (Hw := bill_wealth _ _ _ _ _ Hwf Hr). apply ExecuteBill_spec in Hr as (_ & (_ & _ & Hf & _) & _); [|done].
    by apply quiet_same.
  - apply AddTrades_frame in Hr. apply quiet_same; [done|done|apply wealth_same; by rewrite Hr|by rewrite Hr].
  - apply AddTicks_frame in Hr. apply quiet_same; [done|done|apply wealth_same; by rewrite Hr|by rewrite Hr].
Qed.

(** A run of them. *)
Lemma tradersIn_before db db' : tradersKept db db' -> tradersIn db' -> tradersIn db.
Proof. intros [_ Hk] Hin id o Hget. destruct (Hk _ _ Hget) as (o' & Hget' & [<- _ _]). by eapply Hin. Qed.

Lemma ledger_circulates db db' : db_wf db -> ordersKnown db -> rtc ledgerStep db db' -> tradersIn db' -> circulates db db'.
Proof.
  intros Hwf Hk Hr. revert db' Hr. refine (rtc_ind_r _ _ _ _); [by intros _; apply circulates_refl|].
  intros db1 db2 Hr Hstep IH Hin. pose proof (accounted_wf _ _ (ledger_accounted _ _ Hwf Hr)) as Hwf1.
  assert (H1 : circulates db db1) by (apply IH; eapply tradersIn_before; [by apply ledgerStep_kept|done]).
  eapply circulates_trans; [exact H1|]. apply ledgerStep_circulates; [done|apply H1|done|done].
Qed.

(** ** The two sides of a trade *)

(** The fills of the taker and the maker of one trade. *)
Record twoSides (db : Db) (p : Fill * Fill) : Prop := {
  sides_size : fill_Size p.2 ≡d fill_Size p.1;
  sides_price : fill_Price p.2 ≡d fill_Price p.1;
  sides_orders : exists o o', GetOrderById db (fill_OrderId p.1) = Some o /\ GetOrderById db (fill_OrderId p.2) = Some o' /\
    ord_ProductId o' = ord_ProductId o /\ (ord_Side o' =s? SideBuy) = negb (ord_Side o =s? SideBuy);
}.
Definition bothFills (p : Fill * Fill) : list Fill := [p.1; p.2].

(** The settled trades are both sides of [n] trades. *)
Definition tradesSettled (db : Db) (n : nat) : Prop :=
  exists ps, filter settledTrade (g_fill db) ≡ₚ concat (bothFills <$> ps) /\ Forall (twoSides db) ps /\ length ps = n.

Lemma twoSides_worth db p : twoSides db p -> (worthIn c db p.1 + worthIn c db p.2 == 0)%Q.
Proof.
  intros [Hs Hp (o & o' & Ho & Ho' & Hpr & Hside)]. unfold worthIn, deq in *. rewrite Ho, Ho', Hpr.
  destruct (GetProductById _ _) as [product|]; [|ring]. rewrite Hs, Hp. unfold tradeWorth. rewrite Hside.
  destruct (ord_Side o =s? SideBuy); cbn [negb]; ring.
Qed.

Lemma sumOf_pairs (w : Fill -> Q) q ps : Forall (fun p => w p.1 + w p.2 == q)%Q ps ->
  (sumOf w (concat (bothFills <$> ps)) == inject_Z (Z.of_nat (length ps)) * q)%Q.
Proof.
  induction 1 as [|p ps Hp _ IH]; [cbn; ring|]. cbn [fmap list_fmap concat bothFills app length]. rewrite !sumOf_cons, IH.
  rewrite Nat2Z.inj_succ, <- Z.add_1_l, inject_Z_plus. change (inject_Z 1) with 1%Q. rewrite <- Hp. ring.
Qed.

Lemma sumOf_permutation {A} (w : A -> Q) l l' : l ≡ₚ l' -> (sumOf w l == sumOf w l')%Q.
Proof. induction 1; rewrite ?sumOf_cons, ?IHPermutation; [reflexivity..|ring|by etrans]. Qed.

Lemma settled_total db n : tradesSettled db n ->
  (principal db == wealth us c db)%Q /\ (dust db == 2 * units n)%Q /\ ordersKnown db.
Proof.
  intros (ps & Hperm & Hps & <-). unfold principal, dust. rewrite !fillSum_filter, !(sumOf_permutation _ _ _ Hperm). split_and!.
  - rewrite (sumOf_pairs (worthIn c db) 0); [ring|]. eapply Forall_impl; [exact Hps|]. apply twoSides_worth.
  - rewrite (sumOf_pairs _ (2 * ulp columnScale)%Q); [unfold units; ring|]. apply Forall_forall. intros p _. cbn. ring.
  - intros f Hf Hs. assert (Hin : f ∈ concat (bothFills <$> ps)) by (rewrite <- Hperm; by apply list_elem_of_filter).
    apply list_elem_of_In, in_concat in Hin as (pair & Hpair & Hin). apply list_elem_of_In in Hpair, Hin.
    apply list_elem_of_fmap in Hpair as (p & -> & Hp). rewrite Forall_forall in Hps. destruct (sides_orders _ _ (Hps _ Hp)) as (o & o' & Ho & Ho' & _).
    apply elem_of_cons in Hin as [->|Hin]; [by rewrite Ho|]. apply list_elem_of_singleton in Hin as ->. by rewrite Ho'.
Qed.
End Users.

(** What the fill maker makes of the log: the two fills of a match are the two
    sides of a trade, if its orders are on opposite sides.  So when every trade
    in the table is settled, [money_conserved] applies to it. *)
Record rowFor (f row : Fill) : Prop := {
  row_order : fill_OrderId row = fill_OrderId f;
  row_amounts : fill_Size row ≡d clamp (fill_Size f) /\ fill_Price row ≡d clamp (fill_Price f);
  row_done : fill_Done row = fill_Done f;
}.

Definition opposed (db : Db) (l : MatchLog) : Prop := exists o o',
  GetOrderById db (ml_TakerOrderId l) = Some o /\ GetOrderById db (ml_MakerOrderId l) = Some o' /\
  ord_ProductId o' = ord_ProductId o /\ (ord_Side o' =s? SideBuy) = negb (ord_Side o =s? SideBuy).

Lemma match_sides db l offset row row' : opposed db l -> rowFor (takerFill l offset) row -> rowFor (makerFill l offset) row' ->
  twoSides db (row, row').
Proof.
  intros (o & o' & Ho & Ho' & Hp & Hs) [E1 [Es Ep] _] [E1' [Es' Ep'] _]. cbn in *. split; cbn.
  - by rewrite Es, Es'.
  - by rewrite Ep, Ep'.
  - exists o, o'. by rewrite E1, E1'.
Qed.

Lemma matches_settled db ms : forall rows, Forall2 rowFor (concat (fillsOf <$> ms)) rows ->
  Forall (fun r => fill_Done r = false -> fill_Settled r = true) rows ->
  Forall (opposed db) (tradesIn ms) ->
  exists ps, filter settledTrade rows = concat (bothFills <$> ps) /\ Forall (twoSides db) ps /\ length ps = length (tradesIn ms).
Proof.
  induction ms as [|m ms IH]; intros rows Hr Hs Ho; [apply Forall2_nil_inv_l in Hr as ->; by exists []|].
  rewrite fmap_cons in Hr. cbn [concat] in Hr. unfold fillsOf at 1 in Hr. unfold tradesIn in *. cbn [omap list_omap] in *.
  destruct (lm_Log m) as [l|l|l]; [by apply IH| |].
  - apply Forall2_app_inv_l in Hr as (r1 & r2 & H1 & H2 & ->). apply Forall2_cons_inv_l in H1 as (row & r1' & Ha & H1 & ->).
    apply Forall2_cons_inv_l in H1 as (row' & r1'' & Hb & H1 & ->). apply Forall2_nil_inv_l in H1 as ->.
    apply Forall_cons in Ho as [Hop Ho]. apply Forall_app in Hs as [Hs1 Hs2].
    apply Forall_cons in Hs1 as [Hsa Hs1]. apply Forall_cons in Hs1 as [Hsb _].
    destruct (IH _ H2 Hs2 Ho) as (ps & E & Hps & Hl). exists ((row, row') :: ps). pose proof (row_done _ _ Ha) as Da. pose proof (row_done _ _ Hb) as Dm.
    cbn in Da, Dm. split_and!.
    + cbn [app]. rewrite !filter_cons_True by (split; auto). by rewrite E.
    + constructor; [by eapply match_sides|done].
    + cbn. by rewrite Hl.
  - apply Forall2_app_inv_l in Hr as (r1 & r2 & H1 & H2 & ->). apply Forall2_cons_inv_l in H1 as (row & r1' & Ha & H1 & ->).
    apply Forall2_nil_inv_l in H1 as ->. apply Forall_app in Hs as [_ Hs2]. destruct (IH _ H2 Hs2 Ho) as (ps & E & Hps & Hl).
    exists ps. split; [|done]. cbn [app]. rewrite filter_cons_False; [exact E|]. intros [_ Hd]. by rewrite (row_done _ _ Ha) in Hd.
Qed.

Lemma matches_tradesSettled db ms : Forall2 rowFor (concat (fillsOf <$> ms)) (g_fill db) ->
  Forall (fun r => fill_Done r = false -> fill_Settled r = true) (g_fill db) -> Forall (opposed db) (tradesIn ms) ->
  tradesSettled db (length (tradesIn ms)).
Proof. intros Hr Hs Ho. destruct (matches_settled db ms _ Hr Hs Ho) as (ps & E & H). exists ps. by rewrite E. Qed.

(** C13: no run of the services and workers makes or loses money.  Take a
    database whose settled trades are both sides of [n] trades, run any
    sequence of transactions on it, and look again when the settled trades are
    both sides of [m] trades: all that the users and the exchange own in a
    currency, holds and pending bills included, is what it was, up to the
    rounding of the fees, at most two units of the columns for each trade
    settled in between.  Between the two ends the sides of a trade may be
    settled at any time and in any order. *)
Theorem money_conserved us c db db' n m : db_wf db -> rtc ledgerStep db db' -> NoDup us -> 0 ∈ us -> tradersIn us db' ->
  tradesSettled db n -> tradesSettled db' m ->
  (Qabs (wealth us c db' - wealth us c db) <= 2 * units m - 2 * units n)%Q.
Proof.
  intros Hwf Hr Hnd H0 Hin Hn Hm. destruct (settled_total us c _ _ Hn) as (Hp & Hd & Hk). destruct (settled_total us c _ _ Hm) as (Hp' & Hd' & _).
  pose proof (circulates_drift _ _ _ _ (ledger_circulates us c Hnd H0 _ _ Hwf Hk Hr Hin)) as H.
  by rewrite Hp, Hp', Hd, Hd' in H.
Qed.
End Circulation.

(** ** On the demonstration database *)

Import LedgerDemo.

Definition everyone : list Z := [0; 7; 9].

Lemma traders7 : tradersIn everyone db7.
Proof.
  intros id o Hget. apply query_Some in Hget as [Hin _].
  assert (Hi : GetTableIndexByOrderId id ∈ seqZ 0 TableOrderSplitCount).
  { apply elem_of_seqZ. apply GetTableIndexByOrderId_range. }
  assert (Hall : Forall (fun i => Forall (fun o => ord_UserId o ∈ everyone) (g_order db7 i)) (seqZ 0 TableOrderSplitCount)).
  { apply (bool_decide_unpack _). vm_compute. exact I. }
  rewrite Forall_forall in Hall. specialize (Hall _ Hi). rewrite Forall_forall in Hall. by apply Hall.
Qed.

(** The two fills of the day. *)
Definition settled7 : list Fill := filter settledTrade (g_fill db7).
Definition noFill : Fill := fill 0 0 "" false.
Definition taker7 : Fill := nth 0 settled7 noFill.
Definition maker7 : Fill := nth 1 settled7 noFill.
Definition takerOrder7 : Order := default noOrder (GetOrderById db7 (fill_OrderId taker7)).
Definition makerOrder7 : Order := default noOrder (GetOrderById db7 (fill_OrderId maker7)).

Lemma two_nth {A} (l : list A) d : length l = 2%nat -> l = [nth 0 l d; nth 1 l d].
Proof. destruct l as [|a [|b [|]]]; done. Qed.

Lemma sides7 : twoSides db7 (taker7, maker7).
Proof.
  split; [vm_compute; reflexivity|vm_compute; reflexivity|]. exists takerOrder7, makerOrder7. split_and!.
  - unfold takerOrder7. apply isSome_get. vm_compute. reflexivity.
  - unfold makerOrder7. apply isSome_get. vm_compute. reflexivity.
  - vm_compute. reflexivity.
  - vm_compute. reflexivity.
Qed.

Lemma settled_day : tradesSettled db7 1.
Proof.
  exists [(taker7, maker7)]. split; [|split; [constructor; [exact sides7|constructor]|reflexivity]].
  assert (Hl : length settled7 = 2%nat) by (vm_compute; reflexivity).
  cbn [fmap list_fmap concat bothFills app fst snd]. fold settled7. rewrite (two_nth settled7 noFill Hl) at 1. reflexivity.
Qed.

Lemma settled_none : tradesSettled db0 0.
Proof. exists []. split; [reflexivity|]. split; [constructor|reflexivity]. Qed.

Lemma money_conserved_witness : (wealth everyone "USDT" db0 == 100)%Q /\
  (Qabs (wealth everyone "USDT" db7 - wealth everyone "USDT" db0) <= 2 * units 1 - 2 * units 0)%Q.
Proof.
  split; [vm_compute; reflexivity|].
  assert (Hnd : NoDup everyone) by (apply (bool_decide_unpack _); vm_compute; exact I).
  assert (H0 : 0 ∈ everyone) by (apply (bool_decide_unpack _); vm_compute; exact I).
  exact (money_conserved everyone "USDT" db0 db7 0 1 db0_wf day Hnd H0 traders7 settled_none settled_day).
Defined.
