(* ===== verification/Candles.v ===== *)
(** The candles of a product: [GetProductCandles] of
    [src/rest/product_controller.go].

    The handler reads the stored candles of the product, newest first, and fills
    the periods without one up to the clock with flat candles at the last close.
    [candleAt] says what the candle of a moment is; [amendLoop_spec] that the
    loop lists it for every period. *)
From S2P Require Import Prelude SortedLists Strconv Decimal Models Ledger Users Views Rest Makers.
From Stdlib Require Import QArith.
From stdpp Require Import list sorting.
Open Scope string_scope.
Open Scope list_scope.
Open Scope Z_scope.

Section Candles.
Context {P : DecimalPkg}.

(** The stored candle of [t], or a flat one at the close of the newest before. *)
Definition candleAt (ticks : list Tick) (g t : Z) : option Tick :=
  match head (filter (fun k => tick_Time k <= t) ticks) with
  | None => None
  | Some k => Some (if tick_Time k =? t then k else flatTick g t k)
  end.

(** Candles newest first, all at multiples of [g] from each other. *)
Record candleList (g : Z) (ticks : list Tick) : Prop := {
  candles_sorted : decreasing tick_Time ticks;
  candles_grid : forall k k', k ∈ ticks -> k' ∈ ticks -> (g | tick_Time k - tick_Time k');
}.

Lemma ticksByTime_lookup ticks t : NoDup (tick_Time <$> ticks) ->
  (forall k, ticksByTime ticks !! t = Some k <-> k ∈ ticks /\ tick_Time k = t).
Proof.
  unfold ticksByTime. induction ticks as [|x l IH] using rev_ind; intros Hd k.
  - cbn. rewrite lookup_empty. set_solver.
  - rewrite foldl_snoc. rewrite fmap_app in Hd. apply NoDup_app in Hd as (Hd & Hx & _).
    assert (Hx' : forall y, y ∈ l -> tick_Time y <> tick_Time x).
    { intros y Hy E. apply (Hx (tick_Time y)); [by apply list_elem_of_fmap_2|]. rewrite E. by left. }
    rewrite elem_of_app, list_elem_of_singleton. destruct (decide (tick_Time x = t)) as [<-|Hne].
    + rewrite lookup_insert_eq. split; [intros [= <-]; tauto|]. intros [[Hk| ->] Ht]; [by destruct (Hx' k)|done].
    + rewrite lookup_insert_ne by done. rewrite IH by done. naive_solver.
Qed.

Section Loop.
Context (clock : nat -> Z) (g : Z) (Hg : 0 < g) (ticks : list Tick) (Hticks : candleList g ticks).

(** The candle the loop appends at [t], and the one it goes on from. *)
Lemma loop_candle t lastTick : (forall k, k ∈ ticks -> (g | tick_Time k - t)) ->
  (exists k, k ∈ ticks /\ tick_Time k = t) \/ head (filter (fun k => tick_Time k < t) ticks) = Some lastTick ->
  exists tick last', (match ticksByTime ticks !! t with
                      | Some tick => (tick, tick)
                      | None => (flatTick g t lastTick, lastTick)
                      end) = (tick, last') /\
    candleAt ticks g t = Some tick /\ tick_Time tick = t /\ head (filter (fun k => tick_Time k < t + g) ticks) = Some last'.
Proof.
  intros Hgrid Hinv. destruct Hticks as [Hs _].
  assert (Hnext : filter (fun k => tick_Time k < t + g) ticks = filter (fun k => tick_Time k <= t) ticks).
  { apply filter_same. intros k Hk. destruct (Hgrid k Hk) as [q Hq]. split; [|lia]. intros Hlt. assert (q < 1) by nia. nia. }
  assert (Hmap := ticksByTime_lookup ticks t (decreasing_NoDup _ _ Hs)). rewrite Hnext. unfold candleAt.
  destruct (ticksByTime ticks !! t) as [k|] eqn:Hk.
  - destruct (proj1 (Hmap k) eq_refl) as [Hin Ht]. exists k, k. rewrite (newest_at tick_Time t ticks k Hs Hin Ht).
    by rewrite Ht, Z.eqb_refl.
  - destruct Hinv as [(k & Hin & Ht)|Hlast]; [by pose proof (proj2 (Hmap k) (conj Hin Ht))|].
    assert (E : filter (fun k => tick_Time k <= t) ticks = filter (fun k => tick_Time k < t) ticks).
    { apply filter_same. intros k Hin. assert (tick_Time k <> t); [|lia]. intros Ht. by pose proof (proj2 (Hmap k) (conj Hin Ht)). }
    rewrite E, Hlast. exists (flatTick g t lastTick), lastTick. split_and!; try done.
    assert (Hlt : tick_Time lastTick < t).
    { destruct (filter _ ticks) as [|y l] eqn:Ef; [done|]. injection Hlast as ->. assert (Hy : lastTick ∈ filter (fun k => tick_Time k < t) ticks) by (rewrite Ef; left).
      by apply list_elem_of_filter in Hy as [? _]. }
    by rewrite (proj2 (Z.eqb_neq _ _)) by lia.
Qed.

Lemma amendLoop_spec n : forall fuel i t lastTick,
  (forall j, (j < n)%nat -> t + Z.of_nat j * g <= clock (i + j)%nat) -> clock (i + n)%nat < t + Z.of_nat n * g ->
  (n < fuel)%nat -> 0 <= t -> t + Z.of_nat n * g < i64_half ->
  (forall k, k ∈ ticks -> (g | tick_Time k - t)) ->
  (exists k, k ∈ ticks /\ tick_Time k = t) \/ head (filter (fun k => tick_Time k < t) ticks) = Some lastTick ->
  exists l, amendLoop fuel clock (ticksByTime ticks) g i t lastTick = Ok l /\
    Forall2 (fun tick j => candleAt ticks g (t + Z.of_nat j * g) = Some tick /\ tick_Time tick = t + Z.of_nat j * g) l (seq 0 n).
Proof.
  induction n as [|n IH]; intros [|fuel] i t lastTick Hle Hend Hf H0 Hb Hgrid Hinv; try lia; cbn [amendLoop].
  - rewrite Nat.add_0_r in Hend. rewrite (proj2 (Z.ltb_lt _ _)) by lia. by exists [].
  - assert (Hi := Hle 0%nat ltac:(lia)). rewrite Nat.add_0_r in Hi. rewrite (proj2 (Z.ltb_ge _ _)) by lia.
    destruct (loop_candle t lastTick Hgrid Hinv) as (tick & last' & -> & Hc & Ht & Hl). cbn zeta.
    rewrite i64_id by (unfold is_i64, i64_half in *; nia).
    destruct (IH fuel (S i) (t + g) last') as (l & -> & HF).
    + intros j Hj. specialize (Hle (S j) ltac:(lia)). rewrite <- Nat.add_succ_comm in Hle. lia.
    + rewrite <- Nat.add_succ_comm in Hend. lia.
    + lia.
    + lia.
    + lia.
    + intros k Hk. replace (tick_Time k - (t + g)) with (tick_Time k - t - g) by lia. apply Z.divide_sub_r; [by apply Hgrid|done].
    + by right.
    + cbn [mbind outcome_bind]. exists (tick :: l). split; [done|]. cbn [seq]. constructor; [split; [rewrite <- Hc; f_equal|]; lia|].
      rewrite <- seq_shift. apply Forall2_fmap_r. eapply Forall2_impl; [exact HF|]. cbn. intros x j [Hx1 Hx2].
      split; [rewrite <- Hx1; f_equal|]; lia.
Qed.
End Loop.

(** The clock is passed at last: the first period that is not over. *)
Lemma loop_end clock t g T : 0 < g -> (forall j, clock j <= T) ->
  exists n, (forall j, (j < n)%nat -> t + Z.of_nat j * g <= clock j) /\ clock n < t + Z.of_nat n * g /\
    Z.of_nat n <= Z.max 0 (T - t + 1).
Proof.
  intros Hg HT.
  assert (H : forall m, (exists n, (forall j, (j < n)%nat -> t + Z.of_nat j * g <= clock j) /\ clock n < t + Z.of_nat n * g)
                        \/ forall j, (j < m)%nat -> t + Z.of_nat j * g <= clock j).
  { induction m as [|m [IH|IH]]; [right; lia|by left|]. destruct (Z.lt_ge_cases (clock m) (t + Z.of_nat m * g)); [left; by exists m|].
    right. intros j Hj. destruct (decide (j = m)) as [->|]; [done|]. apply IH. lia. }
  destruct (H (S (Z.to_nat (T - t + 1)))) as [(n & Hn & He)|Hall].
  - exists n. split_and!; [done|done|]. destruct n as [|n]; [lia|]. specialize (Hn n ltac:(lia)). specialize (HT n). nia.
  - specialize (Hall (Z.to_nat (T - t + 1)) ltac:(lia)). specialize (HT (Z.to_nat (T - t + 1))). nia.
Qed.

(** ** The stored candles *)

(** What the candle maker keeps: one candle for each period, at its start. *)
Record ticks_wf (l : list Tick) : Prop := {
  ticks_keys : NoDup ((fun k => (tick_ProductId k, tick_Granularity k, tick_Time k)) <$> l);
  ticks_made : Forall (fun k => tick_Granularity k ∈ minutes /\ (tick_Granularity k * 60 | tick_Time k) /\
                                0 <= tick_Time k < 2 ^ 61) l;
}.

Definition ticksOf (db : Db) (productId : string) (granularity : Z) : list Tick :=
  filter (ofTick productId granularity) (g_tick db).

Lemma ticksOf_times db pid m : ticks_wf (g_tick db) -> NoDup (tick_Time <$> ticksOf db pid m).
Proof.
  intros [Hk _]. unfold ticksOf. induction (g_tick db) as [|x l IH]; [constructor|].
  apply NoDup_cons in Hk as [Hx Hk]. rewrite filter_cons. case_decide as Hp; [|by apply IH].
  rewrite fmap_cons. constructor; [|by apply IH]. intros Hin. apply Hx. apply list_elem_of_fmap in Hin as (y & Ht & Hy).
  apply list_elem_of_filter in Hy as [[Hp1 Hp2] Hy]. destruct Hp as [Hp3 Hp4].
  apply list_elem_of_fmap. exists y. split; [congruence|done].
Qed.

(** The candles a query may see, newest first: those before the cursor [after]. *)
Definition visible (db : Db) (productId : string) (granularity after : Z) : list Tick :=
  let l := merge_sort timeDesc (ticksOf db productId granularity) in
  if 0 <? after then filter (fun k => tick_Time k < after) l else l.

Lemma visible_decreasing db pid m after : ticks_wf (g_tick db) -> decreasing tick_Time (visible db pid m after).
Proof.
  intros Hwf. assert (H : decreasing tick_Time (merge_sort timeDesc (ticksOf db pid m)))
    by (apply (merge_sort_decreasing tick_Time timeDesc (fun x y => iff_refl _)); by apply ticksOf_times).
  unfold visible. destruct (0 <? after); [by apply StronglySorted_filter|done].
Qed.

Lemma visible_elem db pid m after k : k ∈ visible db pid m after -> k ∈ g_tick db /\ ofTick pid m k.
Proof.
  unfold visible, ticksOf. intros Hk. assert (H : k ∈ merge_sort timeDesc (filter (ofTick pid m) (g_tick db))).
  { destruct (0 <? after); [by apply list_elem_of_filter in Hk as [_ ?]|done]. }
  rewrite merge_sort_Permutation in H. by apply list_elem_of_filter in H as [? ?].
Qed.

(** What the handler reads is the beginning of them. *)
Lemma GetTicks_prefix db pid m before after limit : ticks_wf (g_tick db) ->
  GetTicksByProductId db pid m before after limit `prefix_of` visible db pid m after.
Proof.
  intros Hwf. unfold GetTicksByProductId. fold (ticksOf db pid m). pose proof (ticksOf_times db pid m Hwf) as Hd.
  set (rows := ticksOf db pid m) in *. etrans; [apply prefix_take|].
  set (above := if 0 <? before then filter (fun t => before < tick_Time t) rows else rows).
  assert (Hd' : NoDup (tick_Time <$> above)).
  { unfold above. destruct (0 <? before); [|done]. eapply sublist_NoDup; [exact Hd|]. apply fmap_sublist, sublist_filter. }
  assert (E : merge_sort timeDesc (if 0 <? after then filter (fun t => tick_Time t < after) above else above)
              = let l := merge_sort timeDesc above in if 0 <? after then filter (fun t => tick_Time t < after) l else l).
  { cbn zeta. destruct (0 <? after); [|done]. by apply (merge_sort_filter tick_Time timeDesc (fun x y => iff_refl _)). }
  rewrite E. unfold visible. fold rows. cbn zeta. unfold above. destruct (0 <? before) eqn:Hb; [|done].
  assert (E2 : merge_sort timeDesc (filter (fun t => before < tick_Time t) rows) = filter (fun t => before < tick_Time t) (merge_sort timeDesc rows))
    by (by apply (merge_sort_filter tick_Time timeDesc (fun x y => iff_refl _))). rewrite E2.
  pose proof (merge_sort_decreasing tick_Time timeDesc (fun x y => iff_refl _) rows Hd) as Hs.
  destruct (0 <? after); [|by apply filter_above].
  rewrite filter_comm. apply filter_above. by apply StronglySorted_filter.
Qed.

(** The granularities of the query: minutes, which the handler takes for seconds. *)
Lemma valid_cases g : g ∈ validGranularities -> g = 60 \/ g <> 60 /\ g / 60 ∉ minutes.
Proof.
  intros H. unfold validGranularities in H. repeat (apply elem_of_cons in H as [->|H]; [|]); [..|by apply elem_of_nil in H].
  all: first [by left|right; split; [done|vm_compute; set_solver]].
Qed.

Lemma Forall2_impl_seq {A} (Q Q' : A -> nat -> Prop) l n : Forall2 Q l (seq 0 n) ->
  (forall x i, (i < n)%nat -> Q x i -> Q' x i) -> Forall2 Q' l (seq 0 n).
Proof.
  intros HF HQ. pose proof (Forall2_length _ _ _ HF) as Hlen. apply Forall2_same_length_lookup_2; [done|]. intros i x j Hx Hj.
  eapply Forall2_lookup_lr in HF; [|exact Hx|exact Hj]. apply lookup_seq in Hj as [-> Hi]. by apply HQ.
Qed.

(** The rows of the answer: the newest of the candles of every period. *)
Lemma newest_rows {A} (Q : A -> nat -> Prop) (l : list A) n k : Forall2 Q l (seq 0 n) ->
  Forall2 (fun x i => Q x (n - 1 - i)%nat) (take k (rev l)) (seq 0 (length (take k (rev l)))).
Proof.
  intros HF. pose proof (Forall2_length _ _ _ HF) as Hlen. rewrite length_seq in Hlen.
  apply Forall2_same_length_lookup_2; [by rewrite length_seq|]. intros i x j Hx Hj.
  apply lookup_seq in Hj as [-> Hi]. apply lookup_take_Some in Hx as [Hx _]. cbn [Nat.add].
  rewrite length_take, length_rev in Hi. rewrite rev_alt in Hx. change (rev_append l []) with (reverse l) in Hx. rewrite reverse_lookup in Hx by lia.
  eapply Forall2_lookup_l in HF as (j & Hj & HQ); [|exact Hx]. apply lookup_seq in Hj as [-> _]. cbn [Nat.add] in HQ.
  replace (n - 1 - i)%nat with (length l - S i)%nat by lia. done.
Qed.

Lemma amendTicks_spec fuel clock T g limit ticks : 0 < g -> candleList g ticks ->
  (forall j, clock j <= T) -> 0 <= T < 2 ^ 61 -> g < 2 ^ 61 -> T + 2 < Z.of_nat fuel ->
  (forall k, k ∈ ticks -> 0 <= tick_Time k < 2 ^ 61) ->
  exists l newest i, amendTicks fuel clock g limit ticks = Ok (candleRow <$> l) /\ (length l <= Z.to_nat limit)%nat /\
    (l <> [] -> newest <= clock i /\ clock (S i) < newest + g) /\
    Forall2 (fun tick j => candleAt ticks g (newest - Z.of_nat j * g) = Some tick /\ tick_Time tick = newest - Z.of_nat j * g)
      l (seq 0 (length l)).
Proof.
  intros Hg Hl HT HTb Hgb Hf Htimes. unfold amendTicks. destruct (last ticks) as [oldest|] eqn:Hlast.
  2:{ exists [], 0, 0%nat. split_and!; [done|cbn; lia|done|constructor]. }
  assert (Hin : oldest ∈ ticks) by (apply last_Some in Hlast as [l' ->]; set_solver).
  pose proof (Htimes _ Hin) as Hold. destruct (loop_end clock (tick_Time oldest) g T Hg HT) as (n & Hn & He & Hbound).
  assert (Htop : tick_Time oldest + Z.of_nat n * g < i64_half).
  { unfold i64_half. destruct n as [|n]; [lia|]. specialize (Hn n ltac:(lia)). specialize (HT n). lia. }
  destruct (amendLoop_spec clock g Hg ticks Hl n fuel 0%nat (tick_Time oldest) oldest) as (l & -> & HF); try done; [lia|lia|..].
  { intros k Hk. by apply (candles_grid _ _ Hl). }
  { left. by exists oldest. }
  cbn [mbind outcome_bind]. exists (take (Z.to_nat limit) (rev l)), (tick_Time oldest + (Z.of_nat n - 1) * g), (n - 1)%nat.
  pose proof (Forall2_length _ _ _ HF) as Hlen. rewrite length_seq in Hlen. split_and!.
  - done.
  - rewrite length_take. lia.
  - intros Hne. destruct n as [|n]; [destruct l; [by destruct Hne; cbn; rewrite take_nil|done]|].
    replace (S (S n - 1))%nat with (S n) by lia. replace (S n - 1)%nat with n by lia. specialize (Hn n ltac:(lia)). lia.
  - eapply Forall2_impl_seq; [exact (newest_rows _ l n (Z.to_nat limit) HF)|]. intros x i Hi. rewrite length_take, length_rev in Hi.
    cbn. replace (Z.of_nat (n - 1 - i)) with (Z.of_nat n - 1 - Z.of_nat i) by lia.
    replace (tick_Time oldest + (Z.of_nat n - 1 - Z.of_nat i) * g) with (tick_Time oldest + (Z.of_nat n - 1) * g - Z.of_nat i * g) by ring. done.
Qed.

Lemma valid_range g : g ∈ validGranularities -> 0 < g < 2 ^ 61.
Proof.
  intros H. unfold validGranularities in H. repeat (apply elem_of_cons in H as [->|H]; [|]); [..|by apply elem_of_nil in H]; lia.
Qed.

Lemma valid_minutes g : g ∈ validGranularities -> g / 60 ∈ minutes -> g / 60 * 60 = g.
Proof. intros H Hm. destruct (valid_cases g H) as [->|[_ Hn]]; [done|by destruct Hn]. Qed.

(** The stored candles lie on the grid the handler steps on. *)
Lemma ticks_grid db pid g k k' : g ∈ validGranularities -> ticks_wf (g_tick db) ->
  k ∈ g_tick db /\ ofTick pid (g / 60) k -> k' ∈ g_tick db /\ ofTick pid (g / 60) k' -> (g | tick_Time k - tick_Time k').
Proof.
  intros Hval [_ Hm] [Hk [_ Hg]] [Hk' [_ Hg']]. rewrite Forall_forall in Hm.
  destruct (Hm k Hk) as (Hmin & Hd & _). destruct (Hm k' Hk') as (_ & Hd' & _). rewrite Hg in Hmin, Hd. rewrite Hg' in Hd'.
  rewrite (valid_minutes g Hval Hmin) in Hd, Hd'. by apply Z.divide_sub_r.
Qed.

Lemma decreasing_prefix l k : l `prefix_of` k -> decreasing tick_Time k -> decreasing tick_Time l.
Proof. intros [k' ->] H. by apply StronglySorted_app in H as (_ & ? & _). Qed.

Lemma candleAt_prefix l k g t x : l `prefix_of` k -> candleAt l g t = Some x -> candleAt k g t = Some x.
Proof.
  unfold candleAt. intros Hp. destruct (head (filter _ l)) as [y|] eqn:Hy; [|discriminate].
  by rewrite (newest_prefix tick_Time t l k y Hp Hy).
Qed.
End Candles.
