(* ===== verification/RestDemo.v ===== *)
(** A concrete world for the witnesses on the REST server: the database of
    [LedgerDemo], its two users, and small implementations of the packages the
    server calls, with the proofs of their laws. *)
From S2P Require Import Prelude Strconv Decimal Models Ledger Settlement LedgerInv Accounting OrderInv Transactions.
From S2P Require Import LedgerDemo OrderRows Users Views Rest RestInv Candles.
From Stdlib Require Import QArith Qround Ascii.
From stdpp Require Import list countable.
Open Scope string_scope.
Open Scope list_scope.
Open Scope Z_scope.

Module RestDemo.
Export LedgerDemo.

(** Whole numbers are the decimals this parser knows. *)
#[export] Instance restPkg : RestPkg := {|
  NewFromString s := match ParseInt s with (z, None) => Ok (inject_Z z : Dec) | _ => Err ("can't convert " +:+ s) end;
  uuid_Parse s := if (String.length s =? 36)%nat then None else Some "invalid UUID length";
  FormatRFC3339 t := I64ToA t;
  dec_IntPart := Qfloor;
  dbErrorText e := match e with DuplicateKey => "Error 1062" | OutOfRange => "Error 1264" | AppError msg => msg end;
|}.
#[export] Instance restLaws : RestLaws QDecimal.laws restPkg.
Proof.
  split; [|intros d z _ H; cbn in *; rewrite H; apply Qfloor_Z|done]. intros s. cbn. by destruct (ParseInt s) as [z [e|]].
Qed.

(** Passwords as they are. *)
#[export] Instance bcryptPkg : BcryptPkg := {|
  GenerateFromPassword _ p := if (72 <? String.length p)%nat then None else Some p;
  CompareHashAndPassword h p := h =s? p;
|}.
#[export] Instance bcryptLaws : BcryptLaws bcryptPkg.
Proof.
  split; unfold GenerateFromPassword, CompareHashAndPassword, bcryptPkg.
  - intros _ p. destruct (Nat.ltb_spec 72 (String.length p)); split; intros H'; try done; lia.
  - intros _ p h. destruct (72 <? _)%nat; [done|]. intros [= ->]. apply String.eqb_refl.
Qed.

(** A token is its claims and its secret, written in bits. *)
Fixpoint bits (p : positive) : string :=
  match p with xH => "" | xO p => String "0" (bits p) | xI p => String "1" (bits p) end.
Fixpoint unbits (s : string) : positive :=
  match s with EmptyString => xH | String c s => if Ascii.eqb c "1"%char then xI (unbits s) else xO (unbits s) end.
Lemma unbits_bits p : unbits (bits p) = p.
Proof. induction p as [p IH|p IH|]; cbn; [by rewrite IH..|done]. Qed.

#[export] Instance jwtPkg : JwtPkg := {|
  SignedString u e s := String "t" (bits (encode (u, e, s)));
  JwtParse secret token now :=
    match token with
    | EmptyString => Err "no token"
    | String _ t =>
        match decode (A := Z * Z * string) (unbits t) with
        | None => Err "malformed"
        | Some (u, e, s) =>
            if negb (s =s? secret) then Err "signature" else if now <? e * 10 ^ 9 then Ok (Some (CNumber (float64 u))) else Err "expired"
        end
    end;
|}.
#[export] Instance jwtLaws : JwtLaws jwtPkg.
Proof.
  split; cbn -[encode decode Z.pow].
  - intros u e s now H. rewrite unbits_bits, decode_encode, String.eqb_refl. cbn [negb]. by rewrite (proj2 (Z.ltb_lt _ _)).
  - intros u e s now H. rewrite unbits_bits, decode_encode, String.eqb_refl. cbn [negb]. rewrite (proj2 (Z.ltb_ge _ _)) by done. by eexists.
  - intros secret token now. destruct token as [|c t]; [done|]. destruct (decode _) as [[[u e] s]|]; [|done]. by repeat case_match.
  - done.
Qed.

Definition secret : string := "s3cret".
Definition user (id : Z) (email : string) : User := {|
  user_Id := id; user_CreatedAt := 0; user_UpdatedAt := 0; user_UserId := ""; user_Email := email;
  user_PasswordHash := "password"; user_UserLevel := "VIP" |}.

Definition users0 : UserDb := {| g_user := [user 7 "seven@x"; user 9 "nine@x"]; next_user := 10; g_config := [] |}.
Definition w0 : World := {| w_db := db0; w_users := users0; w_topics := ∅ |}.

Definition env (now : Instant) : Env := {|
  env_now := now; env_generate := generate; env_salt := "salt"; env_accepts := fun _ => true; env_readError := None;
  env_clock := fun _ => 500 |}.

(** A request without parameters. *)
Definition ctx0 : Ctx := {|
  ctx_Param := fun _ => ""; ctx_Query := fun _ => ""; ctx_QueryArray := fun _ => []; ctx_user := None |}.

Definition token (u : Z) : option string := Some (SignedString u 1000 secret).

Definition placeReq (side price : string) : placeOrderRequest := {|
  po_ClientOid := ""; po_ProductId := "BTC-USDT"; po_Size := "1"; po_Funds := "0"; po_Price := price; po_Side := side;
  po_Type := ""; po_TimeInForce := "" |}.

Lemma users0_wf : users_wf users0.
Proof.
  split; [apply (bool_decide_unpack _); vm_compute; exact I| |apply (bool_decide_unpack _); vm_compute; exact I|vm_compute; reflexivity].
  constructor; [cbn; lia|]. constructor; [cbn; lia|done].
Qed.

Lemma w0_ok sides : world_ok sides w0.
Proof.
  split; [exact db0_wf|intros i; constructor|exact users0_wf|]. intros topic. unfold topicOf. cbn. rewrite lookup_empty. done.
Qed.

Definition answer (m : outcome noerr (response * World)) : response * World := getOk (message 0 "", w0) m.
Lemma answer_ok m : isOk m = true -> m = Ok ((answer m).1, (answer m).2).
Proof. intros H. rewrite (isOk_get (message 0 "", w0) m H) at 1. unfold answer. by destruct (getOk _ m). Qed.

(** User 7 buys one BTC for 10 USDT. *)
Definition buyRun : outcome noerr (response * World) :=
  serve secret (env 1) (POST_orders (Ok (placeReq "buy" "10"))) (token 7) ctx0 w0.
Definition w1 : World := (answer buyRun).2.

(** User 9 sells one BTC, and does not say buy or sell. *)
Definition ctx9 : Ctx := withUser ctx0 (user 9 "nine@x").
Definition oddRun : outcome noerr (response * World) := rest_PlaceOrder (env 1) ctx9 (Ok (placeReq "hold" "10")) w0.

(** A candle maker's rows: minutes 2 and 5 of one product. *)
Definition tick (time : Z) (close : Q) : Tick := {|
  tick_Id := time; tick_CreatedAt := 0; tick_UpdatedAt := 0; tick_ProductId := "BTC-USDT"; tick_Granularity := 1;
  tick_Time := time; tick_Open := 1%Q; tick_High := 9%Q; tick_Low := 1%Q; tick_Close := close; tick_Volume := 3%Q;
  tick_QuoteVolume := 9%Q; tick_LogOffset := 0; tick_LogSeq := 0 |}.
Definition wTicks : World := w_setDb w0 (db_setTicks db0 [tick 120 4%Q; tick 300 5%Q] 3).
Definition candleCtx (granularity limit : string) : Ctx := {|
  ctx_Param := fun _ => "BTC-USDT";
  ctx_Query := fun k => if k =s? "granularity" then granularity else if k =s? "limit" then limit else "";
  ctx_QueryArray := fun _ => []; ctx_user := None |}.

Lemma ticks_ok : ticks_wf (g_tick (w_db wTicks)).
Proof.
  split; [apply (bool_decide_unpack _); vm_compute; exact I|].
  constructor; [|constructor; [|constructor]]; cbn; (split; [set_solver|split; [|lia]]); [by exists 2|by exists 5].
Qed.

Definition signUpRun : outcome noerr (response * World) :=
  serve secret (env 1) (POST_users (Ok {| su_Email := "ten@x"; su_Password := "password" |})) None ctx0 w0.
End RestDemo.
