(* ===== verification/RestUsers.v ===== *)
(** Signing up and signing in: [src/rest/user_controller.go],
    [src/rest/auth.go] and [src/service/user_service.go] together. *)
From S2P Require Import Prelude Strconv Decimal Models Ledger Settlement LedgerInv OrderInv Transactions OrderRows Users Views Rest RestInv RestDemo.
From Stdlib Require Import QArith.
From stdpp Require Import list relations.
Open Scope string_scope.
Open Scope list_scope.
Open Scope Z_scope.

Section RestUsers.
Context {P : DecimalPkg} {L : DecimalLaws P} {C : Column} {CL : ColumnLaws L C}.
Context {R : RestPkg} {B : BcryptPkg} {BL : BcryptLaws B} {J : JwtPkg} {JL : JwtLaws J} (JwtSecret : string).
Implicit Types (w : World) (env : Env) (u : User).

(** Any request but a change of a password, and any work of the services. *)
Inductive quietStep w w' : Prop :=
| quiet_request env r cookie ctx resp : (forall bound, r <> POST_users_password bound) ->
    serve JwtSecret env r cookie ctx w = Ok (resp, w') -> quietStep w w'
| quiet_work db : workerStep (w_db w) db -> w' = w_setDb w db -> quietStep w w'.

(** What such steps keep: the tables' keys, and every user as it is. *)
Record accounts_ok w : Prop := {
  accounts_db : db_wf (w_db w);
  accounts_users : users_wf (w_users w);
}.

Lemma quietStep_keeps w w' u : accounts_ok w -> quietStep w w' -> u ∈ g_user (w_users w) ->
  accounts_ok w' /\ u ∈ g_user (w_users w').
Proof.
  intros [Hdb Hu] [env r cookie ctx resp Hr Hrun|db Hstep ->] Hin.
  - apply serve_effect in Hrun; [|done].
    destruct Hrun as [->|req u' t _ Hc ->|req u' t E _ _ _|req u' ty tif size price funds o db _ _ Hc ->|u' rows _ _ ->].
    + done.
    + split; [split; [done|by eapply CreateUser_wf]|]. unfold CreateUser in Hc. destruct (_ <? _)%nat; [discriminate|].
      destruct (GetUserByEmail _ _); [discriminate|]. apply bind_Ok in Hc as (hash & _ & Hc). unfold AddUser in Hc.
      case_decide; [discriminate|]. injection Hc as _ <-. cbn. apply elem_of_app. by left.
    + by destruct (Hr (Ok req)).
    + destruct (submitOrder_rest env o (w_setDb w db)) as [Ed Eu]. rewrite Eu. split; [|done]. split; [|by rewrite Eu].
      rewrite Ed. cbn. eapply ledgerStep_accounted; [done|]. by eapply step_place.
    + destruct (submitAll_rest env (ord_cancelling <$> rows) w) as [Ed Eu]. rewrite Eu. split; [|done]. split; by rewrite ?Ed, ?Eu.
  - split; [|done]. split; [|done]. by eapply ledgerStep_accounted, workerStep_ledger.
Qed.

Lemma quiet_keeps w w' u : accounts_ok w -> rtc quietStep w w' -> u ∈ g_user (w_users w) ->
  accounts_ok w' /\ u ∈ g_user (w_users w').
Proof.
  intros Hok Hr. revert Hok. induction Hr as [w|w1 w2 w3 Hs _ IH]; intros Hok Hin; [done|].
  destruct (quietStep_keeps _ _ _ Hok Hs Hin). auto.
Qed.

(** Users are found by their keys. *)
Lemma user_found {K} `{EqDecision K} (key : User -> K) (l : list User) u : NoDup (key <$> l) -> u ∈ l ->
  head (filter (fun x => key x = key u) l) = Some u.
Proof.
  induction l as [|x l IH]; intros Hd Hin; [by apply elem_of_nil in Hin|]. apply NoDup_cons in Hd as [Hx Hd].
  apply elem_of_cons in Hin as [->|Hin]; [by rewrite filter_cons_True|]. rewrite filter_cons_False; [by apply IH|].
  intros E. apply Hx. rewrite E. by apply list_elem_of_fmap_2.
Qed.

Lemma user_by_email w u : accounts_ok w -> u ∈ g_user (w_users w) -> GetUserByEmail (w_users w) (user_Email u) = Some u.
Proof. intros [_ [_ _ He _]] Hin. by apply (user_found user_Email). Qed.

Lemma user_by_id w u : accounts_ok w -> u ∈ g_user (w_users w) -> GetUserById (w_users w) (user_Id u) = Some u.
Proof. intros [_ [Hi _ _ _]] Hin. by apply (user_found user_Id). Qed.

(** The token of a sign-in at time [t] names its user until it expires. *)
Lemma token_names w u now t : accounts_ok w -> u ∈ g_user (w_users w) -> user_Id u < 2 ^ 53 ->
  now < (t / 10 ^ 9 + tokenLife) * 10 ^ 9 ->
  CheckToken JwtSecret now (w_users w) (SignedString (user_Id u) (t / 10 ^ 9 + tokenLife) JwtSecret) = Ok (Some u).
Proof.
  intros Hok Hin Hid Hnow. unfold CheckToken. rewrite parse_signed by done.
  pose proof (users_next _ (accounts_users _ Hok)) as Hn. rewrite Forall_forall in Hn. specialize (Hn u Hin).
  rewrite float64_exact by lia. rewrite u64_id by (unfold is_u64, u64_size; lia). by rewrite user_by_id.
Qed.

Lemma SignUp_added env req w resp w' : SignUp env (Ok req) w = Ok (resp, w') -> resp_status resp = StatusOK ->
  exists u, user_Email u = su_Email req /\ user_Id u = next_user (w_users w) /\ u ∈ g_user (w_users w') /\
    CompareHashAndPassword (user_PasswordHash u) (su_Password req) = true /\ w' = w_setUsers w (w_users w').
Proof.
  unfold SignUp. cbn [orReject]. intros H Hst. destruct (CreateUser _ _ _ _ _) as [[u t]|e| |] eqn:Hc; cbn in H; try discriminate.
  - injection H as _ <-. unfold CreateUser in Hc. destruct (_ <? _)%nat; [discriminate|].
    destruct (GetUserByEmail _ _); [discriminate|]. apply bind_Ok in Hc as (hash & Hh & Hc). unfold AddUser in Hc.
    case_decide; [discriminate|]. injection Hc as <- <-. eexists. split; [|split; [|split; [cbn; apply elem_of_app; right; by left|]]]; try done.
    split; [|done]. cbn. unfold hashPassword in Hh. destruct (GenerateFromPassword _ _) eqn:Hg; [|discriminate]. injection Hh as <-.
    by eapply generate_compare.
  - injection H as <- _. discriminate.
Qed.

(** C34: a user who has signed up can sign in with the same email and password,
    whatever other requests and whatever work of the services come between, as
    long as nobody changes a password: the answer sets the token as a cookie
    for seven days, and until it expires every request of a private route with
    it is handled as a request of that user.  Signing in with a password the
    stored hash does not match is refused. *)
Theorem signup_signin env req cookie ctx w resp w1 w2 : accounts_ok w -> next_user (w_users w) < 2 ^ 53 ->
  serve JwtSecret env (POST_users (Ok req)) cookie ctx w = Ok (resp, w1) -> resp_status resp = StatusOK -> rtc quietStep w1 w2 ->
  exists u, user_Email u = su_Email req /\
    (forall password cookie2 ctx2 env2,
       CompareHashAndPassword (user_PasswordHash u) password = false ->
       exists text, serve JwtSecret env2 (POST_users_accessToken (Ok {| su_Email := su_Email req; su_Password := password |})) cookie2 ctx2 w2
         = Ok (message StatusBadRequest text, w2)) /\
    forall cookie2 ctx2 env2, exists resp2 token,
      serve JwtSecret env2 (POST_users_accessToken (Ok req)) cookie2 ctx2 w2 = Ok (resp2, w2) /\
      resp_status resp2 = StatusOK /\ resp_cookie resp2 = Some (token, 604800) /\
      forall w3 env3 r3 ctx3, rtc quietStep w2 w3 -> env_now env3 < (env_now env2 / 10 ^ 9 + 604800) * 10 ^ 9 ->
        publicRoute r3 = false ->
        serve JwtSecret env3 r3 (Some token) ctx3 w3 = handle JwtSecret env3 r3 (withUser ctx3 u) w3.
Proof.
  intros Hok Hn Hrun Hst Hq. unfold serve in Hrun. cbn [publicRoute handle] in Hrun.
  destruct (SignUp_added _ _ _ _ _ Hrun Hst) as (u & Hemail & Hid & Hin & Hpw & E).
  assert (Hok1 : accounts_ok w1).
  { rewrite E. split; [apply Hok|]. cbn. unfold SignUp in Hrun. cbn [orReject] in Hrun.
    destruct (CreateUser _ _ _ _ _) as [[u' t]|e| |] eqn:Hc; cbn in Hrun; try discriminate; [|by injection Hrun as <- _].
    injection Hrun as _ <-. cbn. eapply CreateUser_wf; [apply Hok|exact Hc]. }
  destruct (quiet_keeps _ _ _ Hok1 Hq Hin) as [Hok2 Hin2]. exists u. split; [done|]. split.
  - intros password cookie2 ctx2 env2 Hbad. eexists. unfold serve. cbn [publicRoute handle]. unfold SignIn, RefreshAccessToken, checkPassword.
    cbn [orReject su_Email su_Password]. rewrite <- Hemail, (user_by_email _ _ Hok2 Hin2), Hbad. reflexivity.
  - intros cookie2 ctx2 env2. eexists _, _. unfold serve. cbn [publicRoute handle]. unfold SignIn, RefreshAccessToken, checkPassword.
    cbn [orReject]. rewrite <- Hemail, (user_by_email _ _ Hok2 Hin2), Hpw. cbn [negb orFail]. split; [reflexivity|]. split; [done|]. split; [done|].
    intros w3 env3 r3 ctx3 Hq3 Hnow Hpriv. destruct (quiet_keeps _ _ _ Hok2 Hq3 Hin2) as [Hok3 Hin3].
    rewrite Hpriv. unfold rest_checkToken. cbn [default from_option id]. unfold id.
    set (token := SignedString _ _ _). assert (Hne : token <> "") by apply signed_nonempty.
    destruct (String.length token =? 0)%nat eqn:Hl; [by destruct token|].
    unfold token. rewrite (token_names w3 u) by (done || lia). done.
Qed.
End RestUsers.

(** ** The theorem at work *)

Section Witnesses.
Import RestDemo.

Lemma signUpRun_ok : signUpRun = Ok ((answer signUpRun).1, (answer signUpRun).2).
Proof. apply answer_ok. vm_compute. reflexivity. Qed.

Definition signUp10 : SignUpRequest := {| su_Email := "ten@x"; su_Password := "password" |}.

Lemma signup_signin_witness : exists resp token,
  serve secret (env 2) (POST_users_accessToken (Ok signUp10)) None ctx0 (answer signUpRun).2 = Ok (resp, (answer signUpRun).2) /\
  resp_status resp = StatusOK /\ resp_cookie resp = Some (token, 604800).
Proof.
  destruct (signup_signin secret (env 1) signUp10 None ctx0 w0 (answer signUpRun).1 (answer signUpRun).2 (answer signUpRun).2
    {| accounts_db := ok_db _ _ (w0_ok (fun _ => True)); accounts_users := ok_users _ _ (w0_ok (fun _ => True)) |} eq_refl signUpRun_ok eq_refl (rtc_refl _ _)) as (u & _ & _ & H).
  destruct (H None ctx0 (env 2)) as (resp & token & H1 & H2 & H3 & _). exists resp, token. split; [exact H1|]. split; [exact H2|exact H3].
Defined.
End Witnesses.
