(* ===== verification/Applier.v ===== *)
(** The order path of the engine: what [runApplier] of [src/matching/engine.go]
    does with one order, by its status and its time in force.

    [applyOffsetOrder] is the body of the applier's first case; [runOrders]
    folds it over a stream of orders.  The lemmas show that the stream of a
    well-formed product never crashes the engine, that bids stay below asks
    ([uncrossed]), and that the logs are numbered without gaps. *)
From S2P Require Import Prelude Decimal TreeMap Models Window MatchLog OrderBook DepthInv Matching Book Trading.
From Stdlib Require Import QArith Lqa.
From stdpp Require Import list.
Open Scope string_scope.
Open Scope list_scope.
Open Scope Z_scope.

Section Defs.
Context {P : DecimalPkg} {T : TreeMapPkg} (now : Z -> Instant).

Definition applyOffsetOrder (o : orderBook) (order : Order) : outcome noerr (orderBook * list Log) :=
  if ord_Status order =s? OrderStatusCancelling then CancelOrder now o order
  else if ord_TimeInForce order =s? ImmediateOrCancel then
    '(o, logs) ← ApplyOrder now o order;
    '(o, iocLogs) ← CancelOrder now o order;
    mret (o, logs ++ iocLogs)
  else if ord_TimeInForce order =s? GoodTillCrossing then
    b ← IsOrderWillNotMatch o order;
    if b : bool then ApplyOrder now o order else NullifyOrder now o order
  else if ord_TimeInForce order =s? FillOrKill then
    b ← IsOrderWillFullMatch o order;
    if b : bool then ApplyOrder now o order else NullifyOrder now o order
  else if ord_TimeInForce order =s? GoodTillCanceled then ApplyOrder now o order
  else mret (o, []).

Fixpoint runOrders (o : orderBook) (orders : list Order) : outcome noerr (orderBook * list Log) :=
  match orders with
  | [] => mret (o, [])
  | order :: orders =>
      '(o, logs) ← applyOffsetOrder o order;
      '(o, logs') ← runOrders o orders;
      mret (o, logs ++ logs')
  end.
End Defs.

(** ** Numbering *)

Section Numbering.
Context {P : DecimalPkg}.

(** [logs] carry the sequence numbers after [seq], and [seq'] is the last. *)
Fixpoint numbered (seq : Z) (logs : list Log) (seq' : Z) : Prop :=
  match logs with
  | [] => seq' = seq
  | l :: logs => GetSeq l = i64 (seq + 1) /\ numbered (i64 (seq + 1)) logs seq'
  end.

Lemma numbered_app seq l1 l2 seq1 seq2 :
  numbered seq l1 seq1 -> numbered seq1 l2 seq2 -> numbered seq (l1 ++ l2) seq2.
Proof.
  revert seq. induction l1 as [|l l1 IH]; intros seq; simpl; [by intros ->|].
  intros [? ?] ?. split; [done|by apply IH].
Qed.

Lemma numbered_seqZ logs : forall seq seq', numbered seq logs seq' ->
  0 <= seq -> seq + Z.of_nat (length logs) < i64_half ->
  GetSeq <$> logs = seqZ (seq + 1) (Z.of_nat (length logs)) /\ seq' = seq + Z.of_nat (length logs).
Proof.
  induction logs as [|l logs IH]; intros seq seq' H Hs Hb; cbn [length] in *; simpl in H.
  { split; [done|lia]. }
  destruct H as [Hl H]. rewrite i64_id in * by (unfold is_i64, i64_half in *; lia).
  destruct (IH (seq + 1) seq' H) as [E ->]; [lia|lia|].
  rewrite fmap_cons, E, Hl. split; [|lia].
  rewrite (seqZ_cons (seq + 1)) by lia. f_equal.
  replace (Z.succ (seq + 1)) with (seq + 1 + 1) by lia.
  by replace (Z.pred (Z.of_nat (S (length logs)))) with (Z.of_nat (length logs)) by lia.
Qed.

Lemma fillLogs_numbered now pid t fills : forall seq tseq logs seq' tseq',
  fillLogs now pid t seq tseq fills = (logs, seq', tseq') -> numbered seq logs seq'.
Proof.
  induction fills as [|[m size] fills IH]; intros seq tseq logs seq' tseq' H; simpl in H.
  { by injection H as <- <- <-. }
  destruct (dec_IsZero (bo_Size m)).
  all: destruct (fillLogs _ _ _ _ _ fills) as [[l2 s2] t2] eqn:E.
  all: injection H as <- <- <-; repeat split; by eapply IH.
Qed.

Lemma finishLog_seq now pid seq t : GetSeq (finishLog now pid seq t) = seq.
Proof. unfold finishLog. destruct (takerRests t); [done|]. by destruct (takerDone t) as [[? ?] ?]. Qed.

Lemma absApply_numbered now product a seq tseq t a' logs seq' tseq' :
  absApply now product a seq tseq t = Ok (a', logs, seq', tseq') -> numbered seq logs seq'.
Proof.
  unfold absApply. intros H. apply bind_Ok in H as ([[fills t'] rest] & _ & H).
  destruct (fillLogs _ _ _ _ _ _) as [[l1 s1] t1] eqn:E. injection H as _ <- <- _.
  eapply numbered_app; [by eapply fillLogs_numbered|]. split; [apply finishLog_seq|done].
Qed.

Lemma absCancel_numbered now pid a seq order a' logs seq' :
  absCancel now pid a seq order = (a', logs, seq') -> numbered seq logs seq'.
Proof.
  unfold absCancel. destruct (ab_find _ _ _); intros [= <- <- <-]; [|done]. by repeat split.
Qed.
End Numbering.

(** ** Bids below asks *)

Section Uncrossed.
Context {P : DecimalPkg} {L : DecimalLaws P} {T : TreeMapPkg} {TL : TreeMapLaws T}.
Implicit Types (a : AbsBook).

Definition uncrossed a : Prop :=
  forall b k, b ∈ ab_bids a -> k ∈ ab_asks a -> (dval (bo_Price b) < dval (bo_Price k))%Q.

Lemma pricesCross_false_buy p q : pricesCross SideBuy p q = false <-> (dval p < dval q)%Q.
Proof. unfold pricesCross. simpl. apply GreaterThanOrEqual_false. Qed.
Lemma pricesCross_false_sell p q : pricesCross SideSell p q = false <-> (dval q < dval p)%Q.
Proof. unfold pricesCross. simpl. apply LessThanOrEqual_false. Qed.

Lemma uncrossed_side a s : valid_side s ->
  uncrossed a <-> forall x y, x ∈ ab_get a s -> y ∈ ab_get a (Opposite s) ->
                    pricesCross s (bo_Price x) (bo_Price y) = false.
Proof.
  intros [->| ->]; unfold uncrossed; simpl.
  - setoid_rewrite pricesCross_false_buy. naive_solver.
  - setoid_rewrite pricesCross_false_sell. naive_solver.
Qed.

(** A taker that does not cross a maker crosses none behind it. *)
Lemma priority_cross s p h y : valid_side s -> priority (cmpOf (Opposite s)) h y ->
  pricesCross s p (bo_Price h) = false -> pricesCross s p (bo_Price y) = false.
Proof.
  unfold priority. intros [->| ->]; simpl.
  - rewrite !pricesCross_false_buy. intros H%asc_le. simpl in H. intros. lra.
  - rewrite !pricesCross_false_sell. intros H%desc_le. simpl in H. intros. lra.
Qed.

Lemma matches_rest_elem product t ms fills t' rest y : matches product t ms fills t' rest -> y ∈ rest ->
  exists m, m ∈ ms /\ bo_Price y = bo_Price m.
Proof.
  intros (pre & post & -> & Hf & ->)%matches_prefix [Hy|Hy]%elem_of_app.
  - apply list_elem_of_bind in Hy as (f & Hy & Hin).
    apply list_elem_of_lookup in Hin as [i Hi]. destruct (Forall2_lookup_r _ _ _ _ _ Hf Hi) as (m & Hm & E & _).
    exists m. apply list_elem_of_lookup_2 in Hm. split; [set_solver|].
    unfold keepIfOpen in Hy. rewrite E in Hy. by case_match; set_solver.
  - exists y. set_solver.
Qed.

Lemma absApply_uncrossed now product o a order a' logs seq tseq seq' tseq' :
  book_repr o a -> order_ok order -> uncrossed a ->
  absApply now product a seq tseq (takerOf order) = Ok (a', logs, seq', tseq') -> uncrossed a'.
Proof.
  intros R Hok Hu H. destruct (takerOf_fields order) as (_ & Eside & _).
  pose proof (ok_side _ Hok) as Hs. unfold absApply in H. rewrite Eside in H.
  destruct (book_depth o a (Opposite (ord_Side order)) R (valid_Opposite _)) as (d & _ & Rd).
  pose proof (depth_sorted _ _ _ _ Rd) as Hsort. pose proof (dr_resting _ _ _ _ Rd) as Hres.
  apply bind_Ok in H as ([[fills t'] rest] & Hm & H).
  destruct (fillLogs _ _ _ _ _ _) as [[l1 s1] t1]. injection H as <- _ _ _.
  apply (matchList_matches product (Opposite (ord_Side order))) in Hm; [|by apply takerOf_kind|done].
  pose proof (matches_same _ _ _ _ _ _ Hm) as Hsame.
  rewrite (uncrossed_side a _ Hs) in Hu. rewrite (uncrossed_side _ _ Hs).
  set (a1 := ab_set a (Opposite (ord_Side order)) rest).
  assert (Ha1 : ab_get a1 (ord_Side order) = ab_get a (ord_Side order)).
  { apply ab_get_set_ne; [apply valid_Opposite|done|by apply Opposite_ne]. }
  assert (Ha1' : ab_get a1 (Opposite (ord_Side order)) = rest) by apply ab_get_set_eq.
  assert (Hold : forall x y, x ∈ ab_get a (ord_Side order) -> y ∈ rest ->
                   pricesCross (ord_Side order) (bo_Price x) (bo_Price y) = false).
  { intros x y Hx Hy. destruct (matches_rest_elem _ _ _ _ _ _ _ Hm Hy) as (m & Hin & ->). by apply Hu. }
  destruct (takerRests t') eqn:Hrest; [|by rewrite Ha1, Ha1'].
  pose proof (takerRests_resting order t' Hok Hsame Hrest) as (Et & El & Hsz & _). rewrite Et.
  rewrite ab_get_set_eq, ab_get_set_ne, Ha1, Ha1'; [|done|apply valid_Opposite|by apply not_eq_sym, Opposite_ne].
  intros x y. rewrite rest_insert_perm, elem_of_cons. intros [->|Hx] Hy; [|by apply Hold].
  assert (Hsized : sizedTaker (takerOf order) = true).
  { destruct Hsame as (_&_&_&_&Ety&_). unfold sizedTaker. by rewrite <- Ety, El. }
  destruct (matches_uncrossed _ _ _ _ _ _ Hm Hsized Hsz) as (pre & Epre & Hhead).
  { eapply Forall_impl; [exact Hres|]. by intros m (_&_&?&_). }
  destruct Hsame as (_&_&Ep&_). rewrite Ep. rewrite Eside in Hhead.
  destruct rest as [|h rest']; [by apply elem_of_nil in Hy|].
  apply elem_of_cons in Hy as [->|Hy]; [done|]. eapply priority_cross; [done| |done].
  rewrite Epre in Hsort. apply StronglySorted_app in Hsort as (_ & _ & Hsort).
  apply StronglySorted_inv in Hsort as [_ Hsort]. rewrite Forall_forall in Hsort. by apply Hsort.
Qed.

Lemma ab_remove_elem a s s' id x : valid_side s -> valid_side s' ->
  x ∈ ab_get (ab_remove a s id) s' -> x ∈ ab_get a s'.
Proof.
  intros Hs Hs'. unfold ab_remove. destruct (decide (s = s')) as [<-|Hne].
  - rewrite ab_get_set_eq, list_elem_of_filter. tauto.
  - by rewrite ab_get_set_ne.
Qed.

Lemma absCancel_uncrossed now pid a seq order a' logs seq' : valid_side (ord_Side order) ->
  uncrossed a -> absCancel now pid a seq order = (a', logs, seq') -> uncrossed a'.
Proof.
  intros Hs Hu. unfold absCancel. destruct (ab_find _ _ _); intros [= <- <- <-]; [|done].
  intros x y Hx Hy. apply Hu.
  - eapply (ab_remove_elem a _ SideBuy); [exact Hs|by left|exact Hx].
  - eapply (ab_remove_elem a _ SideSell); [exact Hs|by right|exact Hy].
Qed.
End Uncrossed.

(** ** The applier *)

Section Applier.
Context {P : DecimalPkg} {L : DecimalLaws P} {T : TreeMapPkg} {TL : TreeMapLaws T}.
Context (now : Z -> Instant).
Implicit Types (o : orderBook) (a : AbsBook) (order : Order).

(** The best and the worst maker the code asks the queue for. *)
Lemma IsOrderWillNotMatch_eq o a order : book_repr o a -> order_ok order ->
  let makers := ab_get a (Opposite (ord_Side order)) in
  IsOrderWillNotMatch o order =
    Ok match (if ord_Side order =s? SideBuy then head makers else last makers) with
       | None => true
       | Some m => negb (pricesCross (ord_Side order) (bo_Price (takerOf order)) (bo_Price m))
       end.
Proof.
  intros R Hok makers. destruct (takerOf_fields order) as (_ & Eside & _).
  destruct (book_depth o a (Opposite (ord_Side order)) R (valid_Opposite _)) as (d & Hd & Rd).
  unfold IsOrderWillNotMatch. fold (takerOf order). rewrite !Eside, Hd. go_red.
  destruct (ord_Side order =s? SideBuy).
  - rewrite (tm_repr_Min _ _ _ (dr_queue _ _ _ _ Rd)). fold makers in Rd |- *.
    destruct makers as [|m ms]; [done|]. simpl.
    rewrite (depth_lookup _ _ _ _ m Rd) by set_solver. done.
  - rewrite (tm_repr_Max _ _ _ (dr_queue _ _ _ _ Rd)), fmap_last. fold makers in Rd |- *.
    destruct (last makers) as [m|] eqn:E; [|done]. simpl.
    rewrite (depth_lookup _ _ _ _ m Rd) by (by apply last_Some_elem_of). done.
Qed.

Lemma IsOrderWillFullMatch_eq o a order : book_repr o a -> order_ok order ->
  exists fills t' rest,
    matchList (ob_product o) (takerOf order) (ab_get a (Opposite (ord_Side order))) = Ok (fills, t', rest) /\
    IsOrderWillFullMatch o order = Ok (negb (takerRests t')).
Proof.
  intros R Hok. destruct (takerOf_fields order) as (_ & Eside & _).
  destruct (book_depth o a (Opposite (ord_Side order)) R (valid_Opposite _)) as (d & Hd & Rd).
  destruct (matchList_total (ob_product o) (ab_get a (Opposite (ord_Side order))) (takerOf order))
    as (fills & t' & rest & Hm & _).
  { by apply takerOf_kind. }
  { eapply resting_prices, (dr_resting _ _ _ _ Rd). }
  exists fills, t', rest. split; [done|]. unfold IsOrderWillFullMatch. fold (takerOf order).
  rewrite Eside, Hd. go_red.
  rewrite (fullMatchLoop_refines (cmpOf (Opposite (ord_Side order))) (cmpOf_order _) (cmpOf_id _) _ d _
    (ab_get a (Opposite (ord_Side order))) _ [] _ None fills t' rest Rd); [|done| |done].
  - go_red. unfold takerRests. by destruct (_ && _).
  - rewrite (tm_repr_Size _ _ _ (dr_queue _ _ _ _ Rd)), length_fmap. lia.
Qed.

(** The state the applier keeps. *)
Record book_ok o a : Prop := {
  bk_repr : book_repr o a;
  bk_uncrossed : uncrossed a;
}.

(** What every step of the applier keeps and leaves. *)
Definition step_ok o (res : outcome noerr (orderBook * list Log)) : Prop :=
  exists o' a' logs, res = Ok (o', logs) /\ book_ok o' a' /\ ob_product o' = ob_product o /\
    numbered (ob_logSeq o) logs (ob_logSeq o') /\
    forall id, ws_refused (ob_orderIdWindows o) id -> ws_refused (ob_orderIdWindows o') id.

Lemma NewOrderBook_ok product : book_ok (NewOrderBook product) ab_empty.
Proof. split; [apply NewOrderBook_repr|]. by intros ? ? ?%elem_of_nil. Qed.

Lemma ApplyOrder_ok o a order : book_ok o a -> order_ok order -> step_ok o (ApplyOrder now o order).
Proof.
  intros [R Hu] Hok. destruct (decide (ws_refused (ob_orderIdWindows o) (ord_Id order))) as [Hr|Hr].
  - rewrite (ApplyOrder_refused now o a order) by done. by exists o, a, [].
  - destruct (ApplyOrder_repr now o a order R Hok Hr) as (o' & a' & logs & -> & Habs & R' & Ep & _ & _ & Hmono).
    exists o', a', logs. split; [done|]. split; [split; [done|]|split; [done|split; [|done]]].
    + eapply absApply_uncrossed; [exact R|done|done|exact Habs].
    + by eapply absApply_numbered.
Qed.

Lemma CancelOrder_ok o a order : book_ok o a -> order_ok order -> step_ok o (CancelOrder now o order).
Proof.
  intros [R Hu] [Hid Hs _]. destruct (CancelOrder_repr now o a order R Hid Hs)
    as (o' & a' & logs & -> & Habs & R' & Ep & _ & _ & _ & Hmono).
  exists o', a', logs. split; [done|]. split; [split; [done|]|split; [done|split; [|done]]].
  - by eapply absCancel_uncrossed.
  - by eapply absCancel_numbered.
Qed.

Lemma NullifyOrder_ok o a order : book_ok o a -> order_ok order -> step_ok o (NullifyOrder now o order).
Proof.
  intros [R Hu] Hok. destruct (NullifyOrder_repr now o a order R (ok_id _ Hok)) as (o' & -> & R' & Es & Ep & _ & _ & _ & Hmono).
  do 3 eexists. split; [done|]. split; [split; done|]. split; [done|]. by rewrite Es.
Qed.

Lemma step_ok_bind o (m : outcome noerr (orderBook * list Log)) (k : orderBook -> outcome noerr (orderBook * list Log)) :
  step_ok o m -> (forall o' a', book_ok o' a' -> step_ok o' (k o')) ->
  step_ok o ('(o, logs) ← m; '(o, logs') ← k o; mret (o, logs ++ logs')).
Proof.
  intros (o1 & a1 & l1 & -> & B1 & P1 & N1 & M1) Hk.
  destruct (Hk o1 a1 B1) as (o2 & a2 & l2 & E & B2 & P2 & N2 & M2). go_red. rewrite E. go_red.
  exists o2, a2, (l1 ++ l2). split; [done|]. split; [done|]. split; [congruence|].
  split; [by eapply numbered_app|auto].
Qed.

Lemma applyOffsetOrder_ok o a order :
  book_ok o a -> order_ok order -> step_ok o (applyOffsetOrder now o order).
Proof.
  intros B Hok. unfold applyOffsetOrder.
  case_bool; [by eapply CancelOrder_ok|].
  case_bool.
  { apply (step_ok_bind o _ (fun o => CancelOrder now o order)); [by eapply ApplyOrder_ok|].
    intros. by eapply CancelOrder_ok. }
  case_bool.
  { rewrite (IsOrderWillNotMatch_eq o a order) by (done || apply B). go_red.
    case_bool; [by eapply ApplyOrder_ok|by eapply NullifyOrder_ok]. }
  case_bool.
  { destruct (IsOrderWillFullMatch_eq o a order) as (fills & t' & rest & _ & ->); [apply B|done|]. go_red.
    case_bool; [by eapply ApplyOrder_ok|by eapply NullifyOrder_ok]. }
  case_bool; [by eapply ApplyOrder_ok|]. by exists o, a, [].
Qed.

Lemma runOrders_ok orders : forall o a, book_ok o a -> Forall order_ok orders ->
  step_ok o (runOrders now o orders).
Proof.
  induction orders as [|order orders IH]; intros o a B Hok; simpl; [by exists o, a, []|].
  apply Forall_cons in Hok as [Ho Hok].
  apply (step_ok_bind o _ (fun o => runOrders now o orders)); [by eapply applyOffsetOrder_ok|].
  intros. by eapply IH.
Qed.

Lemma runOrders_app o l1 l2 :
  runOrders now o (l1 ++ l2) =
    ('(o, logs) ← runOrders now o l1; '(o, logs') ← runOrders now o l2; mret (o, logs ++ logs')).
Proof.
  revert o. induction l1 as [|order l1 IH]; intros o; simpl.
  - destruct (runOrders now o l2) as [[? ?]| | |]; done.
  - destruct (applyOffsetOrder now o order) as [[o1 g1]| | |]; go_red; [|done..].
    rewrite IH. destruct (runOrders now o1 l1) as [[o2 g2]| | |]; go_red; [|done..].
    destruct (runOrders now o2 l2) as [[o3 g3]| | |]; go_red; [|done..]. by rewrite app_assoc.
Qed.
End Applier.
