(* ===== verification/Engine.v ===== *)
(** The matching engine: [src/matching/engine.go] as a transition system.

    The four goroutines of [Engine.Start] share the channels of [engine] and,
    where the code does, the order book itself.  [estep] is one step of one of
    them, as an executable function on the state of the process, of the Kafka
    topics and of the snapshot store; [Err blocked] is a step that has to wait.
    A receive and the branch it leads to are one step, so is a batch written to
    the log topic.  Every interleaving of the goroutines is a list of events.

    Two things are kept as the code has them.  The committer reads the book's
    [logSeq] when its goroutine first runs ([EvCommitterStart]), and the windows
    of a snapshot are the book's own objects, so the snapshot store writes them
    as they are when it writes ([withLiveWindows]). *)
From S2P Require Import Prelude Decimal TreeMap Models Window MatchLog OrderBook Applier.
From stdpp Require Import list.
Open Scope string_scope.
Open Scope list_scope.
Open Scope Z_scope.

(** Buffer sizes of [NewEngine] and [runCommitter], and the snapshot distance of [runApplier]. *)
Definition orderChCap : Z := 10000.
Definition logChCap : Z := 10000.
Definition snapshotChCap : Z := 32.
Definition logBatch : Z := 100.
Definition snapshotDelta : Z := 1000.

Section Engine.
Context {P : DecimalPkg} {T : TreeMapPkg} (now : Z -> Instant).
(** The order in which Go visits a map. *)
Context (visit : list BookOrder -> list BookOrder).

(** [type Snapshot struct] of engine.go. *)
Record EngineSnapshot := {
  es_OrderBookSnapshot : orderBookSnapshot;
  es_OrderOffset : Z;
}.

(** The zero value of the book part, in a request. *)
Definition zeroSnapshot : orderBookSnapshot :=
  {| snap_ProductId := ""; snap_Orders := []; snap_TradeSeq := 0; snap_LogSeq := 0; snap_OrderIdWindows := [] |}.

(** [offsetOrder]: a message of the order topic. *)
Record offsetOrder := { oo_Offset : Z; oo_Order : Order }.

(** Where the applier stands: waiting, or sending the logs of an order. *)
Inductive applierAt :=
| ApplierSelect
| ApplierSend (logs : list Log) (offset : Z).

(** The locals of [runCommitter], once its goroutine has read [logSeq]. *)
Record committerState := {
  c_seq : Z;
  c_pending : option EngineSnapshot;
  c_logs : list Log;
}.

(** The channels are queues; [e_fetchPos] is the reader's position. *)
Record engine := {
  e_OrderBook : orderBook;
  e_fetchPos : Z;
  e_orderCh : list offsetOrder;
  e_logCh : list Log;
  e_snapshotReqCh : list EngineSnapshot;
  e_snapshotApproveReqCh : list EngineSnapshot;
  e_snapshotCh : list EngineSnapshot;
  e_applierAt : applierAt;
  e_applierOffset : Z;
  e_committer : option committerState;
  e_snapshotsOffset : Z;
  (** the world outside the process *)
  e_orderTopic : list offsetOrder;
  e_logTopic : list Log;
  e_snapshotStore : option EngineSnapshot;
}.

(** [NewEngine] and the start of the goroutines: the book of the latest
    snapshot, and the offset after it. *)
Definition NewEngine (product : Product) (orderTopic : list offsetOrder) (logTopic : list Log)
    (snapshotStore : option EngineSnapshot) : outcome noerr engine :=
  '(o, offset) ← match snapshotStore with
                 | None => mret (NewOrderBook product, 0)
                 | Some s => o ← Restore (NewOrderBook product) (es_OrderBookSnapshot s); mret (o, es_OrderOffset s)
                 end;
  mret {| e_OrderBook := o;
          e_fetchPos := if 0 <? offset then i64 (offset + 1) else offset;
          e_orderCh := []; e_logCh := []; e_snapshotReqCh := []; e_snapshotApproveReqCh := []; e_snapshotCh := [];
          e_applierAt := ApplierSelect; e_applierOffset := 0; e_committer := None; e_snapshotsOffset := offset;
          e_orderTopic := orderTopic; e_logTopic := logTopic; e_snapshotStore := snapshotStore |}.

Inductive event :=
| EvFetch              (** [runFetcher] receives a message and sends it on *)
| EvFetchError         (** [FetchOrder] fails *)
| EvApply              (** [runApplier] receives an order and works it *)
| EvSendLog            (** [runApplier] sends its next log *)
| EvSnapshotRequested  (** [runApplier] receives a snapshot request *)
| EvCommitterStart     (** [runCommitter] reads the book's sequence number *)
| EvCommit             (** [runCommitter] receives a log *)
| EvCommitFails        (** [runCommitter] receives a log and cannot store *)
| EvApprove            (** [runCommitter] receives a snapshot to approve *)
| EvTimer              (** [runSnapshots] asks for a snapshot *)
| EvStoreSnapshot      (** [runSnapshots] stores an approved snapshot *)
| EvStoreFails.        (** [runSnapshots] fails to store it *)

Definition e_setFetch (e : engine) pos ch : engine :=
  {| e_OrderBook := e_OrderBook e; e_fetchPos := pos; e_orderCh := ch; e_logCh := e_logCh e;
     e_snapshotReqCh := e_snapshotReqCh e; e_snapshotApproveReqCh := e_snapshotApproveReqCh e;
     e_snapshotCh := e_snapshotCh e; e_applierAt := e_applierAt e; e_applierOffset := e_applierOffset e;
     e_committer := e_committer e; e_snapshotsOffset := e_snapshotsOffset e;
     e_orderTopic := e_orderTopic e; e_logTopic := e_logTopic e; e_snapshotStore := e_snapshotStore e |}.

Definition e_setApplier (e : engine) book orderCh logCh reqCh approveCh at_ offset : engine :=
  {| e_OrderBook := book; e_fetchPos := e_fetchPos e; e_orderCh := orderCh; e_logCh := logCh;
     e_snapshotReqCh := reqCh; e_snapshotApproveReqCh := approveCh;
     e_snapshotCh := e_snapshotCh e; e_applierAt := at_; e_applierOffset := offset;
     e_committer := e_committer e; e_snapshotsOffset := e_snapshotsOffset e;
     e_orderTopic := e_orderTopic e; e_logTopic := e_logTopic e; e_snapshotStore := e_snapshotStore e |}.

Definition e_setCommitter (e : engine) logCh approveCh snapshotCh committer logTopic : engine :=
  {| e_OrderBook := e_OrderBook e; e_fetchPos := e_fetchPos e; e_orderCh := e_orderCh e; e_logCh := logCh;
     e_snapshotReqCh := e_snapshotReqCh e; e_snapshotApproveReqCh := approveCh;
     e_snapshotCh := snapshotCh; e_applierAt := e_applierAt e; e_applierOffset := e_applierOffset e;
     e_committer := Some committer; e_snapshotsOffset := e_snapshotsOffset e;
     e_orderTopic := e_orderTopic e; e_logTopic := logTopic; e_snapshotStore := e_snapshotStore e |}.

Definition e_setSnapshots (e : engine) reqCh snapshotCh offset store : engine :=
  {| e_OrderBook := e_OrderBook e; e_fetchPos := e_fetchPos e; e_orderCh := e_orderCh e; e_logCh := e_logCh e;
     e_snapshotReqCh := reqCh; e_snapshotApproveReqCh := e_snapshotApproveReqCh e;
     e_snapshotCh := snapshotCh; e_applierAt := e_applierAt e; e_applierOffset := e_applierOffset e;
     e_committer := e_committer e; e_snapshotsOffset := offset;
     e_orderTopic := e_orderTopic e; e_logTopic := e_logTopic e; e_snapshotStore := store |}.

(** The message the reader delivers next. *)
Definition FetchOrder (pos : Z) (topic : list offsetOrder) : option offsetOrder :=
  head (filter (fun m => pos <= oo_Offset m) topic).

Definition fetchStep (e : engine) : outcome blocked engine :=
  match FetchOrder (e_fetchPos e) (e_orderTopic e) with
  | None => Err Blocked
  | Some m => ch ← send orderChCap (e_orderCh e) m; mret (e_setFetch e (oo_Offset m + 1) ch)
  end.

Definition applyStep (e : engine) : outcome blocked engine :=
  match e_applierAt e with
  | ApplierSend _ _ => Err Blocked
  | ApplierSelect =>
      '(m, ch) ← recv (e_orderCh e);
      '(o, logs) ← fatalErr (applyOffsetOrder now (e_OrderBook e) (oo_Order m));
      mret (e_setApplier e o ch (e_logCh e) (e_snapshotReqCh e) (e_snapshotApproveReqCh e)
              (ApplierSend logs (oo_Offset m)) (e_applierOffset e))
  end.

Definition sendLogStep (e : engine) : outcome blocked engine :=
  match e_applierAt e with
  | ApplierSelect => Err Blocked
  | ApplierSend [] offset =>
      mret (e_setApplier e (e_OrderBook e) (e_orderCh e) (e_logCh e) (e_snapshotReqCh e) (e_snapshotApproveReqCh e)
              ApplierSelect offset)
  | ApplierSend (log :: logs) offset =>
      logCh ← send logChCap (e_logCh e) log;
      mret (e_setApplier e (e_OrderBook e) (e_orderCh e) logCh (e_snapshotReqCh e) (e_snapshotApproveReqCh e)
              (ApplierSend logs offset) (e_applierOffset e))
  end.

Definition snapshotRequestStep (e : engine) : outcome blocked engine :=
  match e_applierAt e with
  | ApplierSend _ _ => Err Blocked
  | ApplierSelect =>
      '(snapshot, reqCh) ← recv (e_snapshotReqCh e);
      let delta := i64 (e_applierOffset e - es_OrderOffset snapshot) in
      if delta <=? snapshotDelta then
        mret (e_setApplier e (e_OrderBook e) (e_orderCh e) (e_logCh e) reqCh (e_snapshotApproveReqCh e)
                ApplierSelect (e_applierOffset e))
      else
        bookSnapshot ← fatalErr (Snapshot visit (e_OrderBook e));
        approveCh ← send snapshotChCap (e_snapshotApproveReqCh e)
                      {| es_OrderBookSnapshot := bookSnapshot; es_OrderOffset := e_applierOffset e |};
        mret (e_setApplier e (e_OrderBook e) (e_orderCh e) (e_logCh e) reqCh approveCh
                ApplierSelect (e_applierOffset e))
  end.

Definition committerStartStep (e : engine) : outcome blocked engine :=
  match e_committer e with
  | Some _ => Err Blocked
  | None => mret (e_setCommitter e (e_logCh e) (e_snapshotApproveReqCh e) (e_snapshotCh e)
                    {| c_seq := ob_logSeq (e_OrderBook e); c_pending := None; c_logs := [] |} (e_logTopic e))
  end.

Definition snapshotLogSeq (s : EngineSnapshot) : Z := snap_LogSeq (es_OrderBookSnapshot s).

(** [approve pending snapshot], after a batch was stored. *)
Definition approvePending (seq : Z) (pending : option EngineSnapshot) (snapshotCh : list EngineSnapshot)
    : outcome blocked (option EngineSnapshot * list EngineSnapshot) :=
  match pending with
  | Some s => if snapshotLogSeq s <=? seq then ch ← send snapshotChCap snapshotCh s; mret (None, ch)
              else mret (pending, snapshotCh)
  | None => mret (None, snapshotCh)
  end.

Definition commitStep (storeOk : bool) (e : engine) : outcome blocked engine :=
  match e_committer e with
  | None => Err Blocked
  | Some c =>
      '(log, logCh) ← recv (e_logCh e);
      if GetSeq log <=? c_seq c then
        mret (e_setCommitter e logCh (e_snapshotApproveReqCh e) (e_snapshotCh e) c (e_logTopic e))
      else
        let seq := GetSeq log in
        let logs := c_logs c ++ [log] in
        if (0 <? Z.of_nat (length logCh)) && (Z.of_nat (length logs) <? logBatch) then
          mret (e_setCommitter e logCh (e_snapshotApproveReqCh e) (e_snapshotCh e)
                  {| c_seq := seq; c_pending := c_pending c; c_logs := logs |} (e_logTopic e))
        else if storeOk then
          '(pending, snapshotCh) ← approvePending seq (c_pending c) (e_snapshotCh e);
          mret (e_setCommitter e logCh (e_snapshotApproveReqCh e) snapshotCh
                  {| c_seq := seq; c_pending := pending; c_logs := [] |} (e_logTopic e ++ logs))
        else Panic
  end.

Definition approveStep (e : engine) : outcome blocked engine :=
  match e_committer e with
  | None => Err Blocked
  | Some c =>
      '(snapshot, approveCh) ← recv (e_snapshotApproveReqCh e);
      if snapshotLogSeq snapshot <=? c_seq c then
        snapshotCh ← send snapshotChCap (e_snapshotCh e) snapshot;
        mret (e_setCommitter e (e_logCh e) approveCh snapshotCh
                {| c_seq := c_seq c; c_pending := None; c_logs := c_logs c |} (e_logTopic e))
      else
        mret (e_setCommitter e (e_logCh e) approveCh (e_snapshotCh e)
                {| c_seq := c_seq c; c_pending := Some snapshot; c_logs := c_logs c |} (e_logTopic e))
  end.

Definition timerStep (e : engine) : outcome blocked engine :=
  reqCh ← send snapshotChCap (e_snapshotReqCh e)
            {| es_OrderBookSnapshot := zeroSnapshot; es_OrderOffset := e_snapshotsOffset e |};
  mret (e_setSnapshots e reqCh (e_snapshotCh e) (e_snapshotsOffset e) (e_snapshotStore e)).

(** The snapshot as it is serialised: its windows are the book's. *)
Definition withLiveWindows (o : orderBook) (s : EngineSnapshot) : EngineSnapshot :=
  let b := es_OrderBookSnapshot s in
  {| es_OrderBookSnapshot := {| snap_ProductId := snap_ProductId b; snap_Orders := snap_Orders b;
       snap_TradeSeq := snap_TradeSeq b; snap_LogSeq := snap_LogSeq b;
       snap_OrderIdWindows := ob_orderIdWindows o |};
     es_OrderOffset := es_OrderOffset s |}.

Definition storeSnapshotStep (storeOk : bool) (e : engine) : outcome blocked engine :=
  '(snapshot, snapshotCh) ← recv (e_snapshotCh e);
  if storeOk then
    mret (e_setSnapshots e (e_snapshotReqCh e) snapshotCh (es_OrderOffset snapshot)
            (Some (withLiveWindows (e_OrderBook e) snapshot)))
  else mret (e_setSnapshots e (e_snapshotReqCh e) snapshotCh (e_snapshotsOffset e) (e_snapshotStore e)).

Definition estep (ev : event) (e : engine) : outcome blocked engine :=
  match ev with
  | EvFetch => fetchStep e
  | EvFetchError => mret e
  | EvApply => applyStep e
  | EvSendLog => sendLogStep e
  | EvSnapshotRequested => snapshotRequestStep e
  | EvCommitterStart => committerStartStep e
  | EvCommit => commitStep true e
  | EvCommitFails => commitStep false e
  | EvApprove => approveStep e
  | EvTimer => timerStep e
  | EvStoreSnapshot => storeSnapshotStep true e
  | EvStoreFails => storeSnapshotStep false e
  end.

Fixpoint erun (evs : list event) (e : engine) : outcome blocked engine :=
  match evs with
  | [] => Ok e
  | ev :: evs => e ← estep ev e; erun evs e
  end.

(** The states an engine can be in. *)
Inductive reach (e0 : engine) : engine -> Prop :=
| reach_here : reach e0 e0
| reach_step e ev e' : reach e0 e -> estep ev e = Ok e' -> reach e0 e'.

Lemma erun_reach evs : forall e0 e e', reach e0 e -> erun evs e = Ok e' -> reach e0 e'.
Proof.
  induction evs as [|ev evs IH]; intros e0 e e' R H; simpl in H.
  - by injection H as <-.
  - apply bind_Ok in H as (e1 & H1 & H). eapply IH; [by eapply reach_step|done].
Qed.
End Engine.
