(* ===== verification/Snapshots.v ===== *)
(** [Snapshot] and [Restore] of [src/matching/order_book.go].

    A snapshot lists the resting orders in whatever order Go visits the maps;
    [restore_repr] shows that restoring it into a new book gives a book that
    represents the same abstract book, whatever that order was. *)
From S2P Require Import Prelude Decimal TreeMap Models Window MatchLog OrderBook DepthInv Matching Book.
From Stdlib Require Import QArith Lqa.
From stdpp Require Import list.
Open Scope string_scope.
Open Scope list_scope.
Open Scope Z_scope.

Section Snapshots.
Context {P : DecimalPkg} {L : DecimalLaws P} {T : TreeMapPkg} {TL : TreeMapLaws T}.
Implicit Types (o : orderBook) (a : AbsBook) (l : list BookOrder).

(** The values of a depth's map are the resting orders. *)
Lemma depth_values s d l : depth_repr (cmpOf s) s d l -> (map_to_list (d_orders d)).*2 ≡ₚ l.
Proof.
  intros R. pose proof (depth_ids _ (cmpOf_order s) (cmpOf_id s) _ _ _ R) as Hids.
  assert (Hfst : bo_OrderId <$> (map_to_list (d_orders d)).*2 = (map_to_list (d_orders d)).*1).
  { rewrite <- list_fmap_compose. apply list_fmap_ext. intros i [id b] Hi%list_elem_of_lookup_2.
    apply elem_of_map_to_list, (dr_orders _ _ _ _ R) in Hi as [_ E]. exact E. }
  apply NoDup_Permutation.
  - eapply (NoDup_fmap_1 bo_OrderId). rewrite Hfst. apply NoDup_fst_map_to_list.
  - by eapply NoDup_fmap_1.
  - intros b. rewrite list_elem_of_fmap. split.
    + intros ([id b'] & -> & Hi%elem_of_map_to_list). simpl. apply (dr_orders _ _ _ _ R) in Hi. tauto.
    + intros Hb. exists (bo_OrderId b, b). split; [done|].
      by apply elem_of_map_to_list, (dr_orders _ _ _ _ R).
Qed.

(** Sorted lists of the same orders are the same list. *)
Lemma sorted_unique s l1 l2 :
  StronglySorted (priority (cmpOf s)) l1 -> StronglySorted (priority (cmpOf s)) l2 -> l1 ≡ₚ l2 -> l1 = l2.
Proof.
  assert (AntiSymm (=) (priority (cmpOf s))) as HA.
  { intros x y H1 H2. unfold priority in *. exfalso.
    apply (cmp_anti (cmpOf_order s)) in H1. lia. }
  by apply StronglySorted_unique.
Qed.

(** The depths of [o] hold [a], whatever the windows. *)
Definition sides_repr o a : Prop :=
  (forall s, valid_side s -> exists d, ob_depths o !! s = Some d /\ depth_repr (cmpOf s) s d (ab_get a s)) /\
  (forall s, ~ valid_side s -> ob_depths o !! s = None).

Lemma restoreOrders_sides orders : forall o a,
  sides_repr o a ->
  Forall (fun b => valid_side (bo_Side b) /\ resting (bo_Side b) b) orders ->
  NoDup (bo_OrderId <$> orders) ->
  (forall b b' s, b ∈ orders -> valid_side s -> b' ∈ ab_get a s -> bo_OrderId b' <> bo_OrderId b) ->
  exists o' a', restoreOrders o orders = Ok o' /\ sides_repr o' a' /\
    ob_product o' = ob_product o /\ ob_logSeq o' = ob_logSeq o /\ ob_tradeSeq o' = ob_tradeSeq o /\
    ob_orderIdWindows o' = ob_orderIdWindows o /\
    forall s, valid_side s -> ab_get a' s ≡ₚ filter (fun b => bo_Side b = s) orders ++ ab_get a s.
Proof.
  induction orders as [|b orders IH]; intros o a [Hs Ho] Hb Hnd Hfresh; cbn [restoreOrders].
  { by exists o, a. }
  apply Forall_cons in Hb as [[Hv Hr] Hb]. rewrite fmap_cons in Hnd. apply NoDup_cons in Hnd as [Hnew Hnd].
  destruct (Hs _ Hv) as (d & Hd & Rd). rewrite Hd. go_red.
  pose proof (depth_add_repr _ (cmpOf_order (bo_Side b)) (cmpOf_id (bo_Side b)) _ d _ b Rd Hr) as Rd'.
  specialize (Rd' ltac:(intros b' Hb'; eapply Hfresh; [set_solver|exact Hv|done])).
  destruct (IH (ob_setDepth o (bo_Side b) (depth_add d b))
    (ab_set a (bo_Side b) (rest_insert (cmpOf (bo_Side b)) b (ab_get a (bo_Side b)))))
    as (o' & a' & -> & R' & E1 & E2 & E3 & E4 & Hp); [|done|done| |].
  - split.
    + intros s Hvs. simpl. destruct (decide (bo_Side b = s)) as [<-|Hne].
      * exists (depth_add d b). by rewrite lookup_insert_eq, ab_get_set_eq.
      * rewrite lookup_insert_ne, ab_get_set_ne by done. by apply Hs.
    + intros s Hvs. simpl. rewrite lookup_insert_ne; [by apply Ho|]. by intros <-.
  - intros x b' s Hx Hvs. destruct (decide (bo_Side b = s)) as [<-|Hne].
    + rewrite ab_get_set_eq, rest_insert_perm. intros [->|Hb']%elem_of_cons.
      * intros E. apply Hnew. rewrite E. by apply list_elem_of_fmap_2.
      * eapply Hfresh; [set_solver|exact Hvs|done].
    + rewrite ab_get_set_ne by done. intros Hb'. eapply Hfresh; [set_solver|exact Hvs|done].
  - exists o', a'. do 6 (split; [done|]). intros s Hvs. rewrite (Hp s Hvs).
    destruct (decide (bo_Side b = s)) as [<-|Hne].
    + rewrite filter_cons_True, ab_get_set_eq, rest_insert_perm by done.
      by rewrite <- Permutation_middle.
    + by rewrite filter_cons_False, ab_get_set_ne.
Qed.

Lemma filter_side s l1 l2 : valid_side s ->
  Forall (resting s) l1 -> Forall (resting (Opposite s)) l2 ->
  filter (fun b => bo_Side b = s) (l1 ++ l2) = l1 /\ filter (fun b => bo_Side b = s) (l2 ++ l1) = l1.
Proof.
  intros Hs H1 H2. rewrite Forall_forall in H1, H2. rewrite !filter_app.
  rewrite (filter_id _ l1) by (intros x Hx; apply (H1 x Hx)).
  rewrite (filter_none _ l2), app_nil_r; [done|].
  intros x Hx E. destruct (H2 x Hx) as [E' _]. apply (Opposite_ne s Hs). congruence.
Qed.

Lemma Snapshot_eq visit o a : (forall l, visit l ≡ₚ l) -> book_repr o a ->
  exists orders, Snapshot visit o = Ok {| snap_ProductId := ""; snap_Orders := orders;
      snap_TradeSeq := ob_tradeSeq o; snap_LogSeq := ob_logSeq o;
      snap_OrderIdWindows := ob_orderIdWindows o |} /\
    orders ≡ₚ ab_asks a ++ ab_bids a.
Proof.
  intros Hvisit R. unfold Snapshot.
  destruct (book_depth o a SideSell R) as (ds & -> & Rs); [by right|].
  destruct (book_depth o a SideBuy R) as (db & -> & Rb); [by left|]. go_red.
  eexists. split; [done|]. rewrite !Hvisit. by rewrite (depth_values _ _ _ Rs), (depth_values _ _ _ Rb).
Qed.

Lemma ab_ext a a' : (forall s, valid_side s -> ab_get a s = ab_get a' s) -> a = a'.
Proof.
  intros H. destruct a, a'. f_equal; [apply (H SideBuy)|apply (H SideSell)]; [by left|by right].
Qed.

(** Restoring a list of the book's orders, in any order. *)
Lemma restore_repr product orders a ws seq tseq :
  ws_wf ws -> NoDup (ab_ids a) -> Forall (fun id => window_id id /\ ws_refused ws id) (ab_ids a) ->
  (forall s, valid_side s -> StronglySorted (priority (cmpOf s)) (ab_get a s) /\ Forall (resting s) (ab_get a s)) ->
  orders ≡ₚ ab_asks a ++ ab_bids a ->
  exists o', Restore (NewOrderBook product) {| snap_ProductId := ""; snap_Orders := orders;
      snap_TradeSeq := tseq; snap_LogSeq := seq; snap_OrderIdWindows := ws |} = Ok o' /\
    book_repr o' a /\ ob_product o' = product /\ ob_logSeq o' = seq /\ ob_tradeSeq o' = tseq /\
    ob_orderIdWindows o' = ws.
Proof.
  intros Hw Hi Hd Hwf Hp. unfold Restore. cbn [snap_OrderIdWindows snap_TradeSeq snap_LogSeq snap_Orders]. rewrite (proj1 Hw), Z.eqb_refl. cbn [negb].
  destruct (restoreOrders_sides orders {| ob_product := ob_product (NewOrderBook product); ob_depths := ob_depths (NewOrderBook product);
      ob_tradeSeq := tseq; ob_logSeq := seq; ob_orderIdWindows := ws |} ab_empty)
    as (o' & a' & E & R' & E1 & E2 & E3 & E4 & Hperm).
  { split; apply (NewOrderBook_repr product). }
  { assert (Hside : forall s, valid_side s ->
      Forall (fun b => valid_side (bo_Side b) /\ resting (bo_Side b) b) (ab_get a s)).
    { intros s Hs. destruct (Hwf s Hs) as [_ H]. eapply Forall_impl; [exact H|].
      intros b Hb. pose proof Hb as [-> _]. by split. }
    rewrite Hp. apply Forall_app. split; [apply (Hside SideSell)|apply (Hside SideBuy)]; [by right|by left]. }
  { rewrite Hp. rewrite (Permutation_app_comm (ab_asks a)). exact Hi. }
  { intros b b' s _ [->| ->] ?%elem_of_nil; done. }
  assert (a' = a) as ->.
  { apply ab_ext. intros s Hs. apply (sorted_unique s).
    - destruct R' as [Rs _]. destruct (Rs s Hs) as (d & _ & Rd). by eapply depth_sorted.
    - by apply Hwf.
    - rewrite (Hperm s Hs).
      assert (ab_get ab_empty s = []) as -> by (by destruct Hs as [->| ->]). rewrite app_nil_r, Hp.
      destruct (filter_side s (ab_get a s) (ab_get a (Opposite s)) Hs) as [F1 F2]; [by apply Hwf|apply Hwf, valid_Opposite|].
      destruct Hs as [->| ->].
      + change (ab_asks a ++ ab_bids a) with (ab_get a (Opposite SideBuy) ++ ab_get a SideBuy). by rewrite F2.
      + change (ab_asks a ++ ab_bids a) with (ab_get a SideSell ++ ab_get a (Opposite SideSell)). by rewrite F1. }
  exists o'. rewrite E. split; [done|]. split; [|done]. destruct R' as [Rs Ro].
  constructor; try done; rewrite E4; done.
Qed.
End Snapshots.
