(* ===== verification/BookEquiv.v ===== *)
(** Books that no order can tell apart.

    Two books are the same, [o1 ≡b o2], when they represent the same abstract
    book with the same counters and windows; their trees and maps may differ.
    [applyOffsetOrder] is [Proper] for it, so a restored book continues exactly
    as the book the snapshot was taken of. *)
From S2P Require Import Prelude Decimal TreeMap Models Window MatchLog OrderBook DepthInv Matching Book Trading Applier Snapshots.
From Stdlib Require Import QArith Lqa.
From stdpp Require Import list.
Open Scope string_scope.
Open Scope list_scope.
Open Scope Z_scope.

Section Equiv.
Context {P : DecimalPkg} {L : DecimalLaws P} {T : TreeMapPkg} {TL : TreeMapLaws T}.
Context (now : Z -> Instant).
Implicit Types (o : orderBook) (a : AbsBook).

Record same_at a o1 o2 : Prop := {
  sa_1 : book_ok o1 a;
  sa_2 : book_ok o2 a;
  sa_product : ob_product o1 = ob_product o2;
  sa_logSeq : ob_logSeq o1 = ob_logSeq o2;
  sa_tradeSeq : ob_tradeSeq o1 = ob_tradeSeq o2;
  sa_windows : ob_orderIdWindows o1 = ob_orderIdWindows o2;
}.

Definition same_book o1 o2 : Prop := exists a, same_at a o1 o2.

(** A book stands for one abstract book only. *)
Lemma book_repr_unique o a1 a2 : book_repr o a1 -> book_repr o a2 -> a1 = a2.
Proof.
  intros R1 R2. apply ab_ext. intros s Hs.
  destruct (book_depth _ _ s R1 Hs) as (d & Hd & D1). destruct (book_depth _ _ s R2 Hs) as (d' & Hd' & D2).
  rewrite Hd in Hd'. injection Hd' as <-.
  apply (sorted_unique s); [by eapply depth_sorted|by eapply depth_sorted|].
  by rewrite <- (depth_values _ _ _ D1), <- (depth_values _ _ _ D2).
Qed.

#[export] Instance same_book_per : RelationClasses.PER same_book.
Proof.
  split.
  - intros o1 o2 [a []]. exists a. by constructor.
  - intros o1 o2 o3 [a [A1 A2 ? ? ? ?]] [a' [B1 B2 ? ? ? ?]].
    assert (a' = a) as -> by (eapply book_repr_unique; [apply B1|apply A2]).
    exists a. constructor; try done; congruence.
Qed.

(** Results with the same logs and the same books. *)
Definition same_result (r1 r2 : outcome noerr (orderBook * list Log)) : Prop :=
  exists o1 o2 logs, r1 = Ok (o1, logs) /\ r2 = Ok (o2, logs) /\ same_book o1 o2.

Lemma same_result_bind r1 r2 (k : orderBook -> outcome noerr (orderBook * list Log)) :
  same_result r1 r2 -> (forall o1 o2, same_book o1 o2 -> same_result (k o1) (k o2)) ->
  same_result ('(o, logs) ← r1; '(o, logs') ← k o; mret (o, logs ++ logs'))
              ('(o, logs) ← r2; '(o, logs') ← k o; mret (o, logs ++ logs')).
Proof.
  intros (o1 & o2 & l & -> & -> & S) Hk. go_red.
  destruct (Hk o1 o2 S) as (o1' & o2' & l' & -> & -> & S'). go_red. by exists o1', o2', (l ++ l').
Qed.

Lemma ApplyOrder_same o1 o2 order : same_book o1 o2 -> order_ok order ->
  same_result (ApplyOrder now o1 order) (ApplyOrder now o2 order).
Proof.
  intros [a [B1 B2 Ep Es Et Ew]] Hok.
  destruct (decide (ws_refused (ob_orderIdWindows o1) (ord_Id order))) as [Hr|Hr].
  - exists o1, o2, []. split; [eapply ApplyOrder_refused; [apply B1|done|done]|].
    split; [eapply ApplyOrder_refused; [apply B2|done|by rewrite <- Ew]|]. by exists a.
  - destruct (ApplyOrder_repr now o1 a order (bk_repr _ _ B1) Hok Hr) as (o1' & a1 & l1 & E1 & A1 & R1 & P1 & W1 & _).
    rewrite Ew in Hr.
    destruct (ApplyOrder_repr now o2 a order (bk_repr _ _ B2) Hok Hr) as (o2' & a2 & l2 & E2 & A2 & R2 & P2 & W2 & _).
    rewrite Ep, Es, Et, A2 in A1. injection A1 as <- <- Hs Ht.
    assert (uncrossed a2) as Hu by (eapply absApply_uncrossed; [apply B2|done|apply B2|exact A2]).
    exists o1', o2', l2. split; [done|]. split; [done|]. exists a2. constructor; try done; congruence.
Qed.

Lemma CancelOrder_same o1 o2 order : same_book o1 o2 -> order_ok order ->
  same_result (CancelOrder now o1 order) (CancelOrder now o2 order).
Proof.
  intros [a [B1 B2 Ep Es Et Ew]] [Hid Hs _].
  destruct (CancelOrder_repr now o1 a order (bk_repr _ _ B1) Hid Hs) as (o1' & a1 & l1 & E1 & A1 & R1 & P1 & T1 & W1 & _).
  destruct (CancelOrder_repr now o2 a order (bk_repr _ _ B2) Hid Hs) as (o2' & a2 & l2 & E2 & A2 & R2 & P2 & T2 & W2 & _).
  rewrite Ep, Es, A2 in A1. injection A1 as <- <- Hseq.
  assert (uncrossed a2) as Hu by (eapply absCancel_uncrossed; [done|apply B2|exact A2]).
  exists o1', o2', l2. split; [done|]. split; [done|]. exists a2. constructor; try done; congruence.
Qed.

Lemma NullifyOrder_same o1 o2 order : same_book o1 o2 -> order_ok order ->
  same_result (NullifyOrder now o1 order) (NullifyOrder now o2 order).
Proof.
  intros [a [B1 B2 Ep Es Et Ew]] Hok.
  destruct (NullifyOrder_repr now o1 a order (bk_repr _ _ B1) (ok_id _ Hok)) as (o1' & E1 & R1 & S1 & P1 & T1 & W1 & _).
  destruct (NullifyOrder_repr now o2 a order (bk_repr _ _ B2) (ok_id _ Hok)) as (o2' & E2 & R2 & S2 & P2 & T2 & W2 & _).
  rewrite E1, E2, Ep, Es. exists o1', o2'. eexists. split; [done|]. split; [done|].
  exists a. constructor; try congruence; (split; [done|]); [apply B1|apply B2].
Qed.

Lemma dry_runs_same o1 o2 order : same_book o1 o2 -> order_ok order ->
  (exists b, IsOrderWillNotMatch o1 order = Ok b /\ IsOrderWillNotMatch o2 order = Ok b) /\
  (exists b, IsOrderWillFullMatch o1 order = Ok b /\ IsOrderWillFullMatch o2 order = Ok b).
Proof.
  intros [a [B1 B2 Ep _ _ _]] Hok. split.
  - rewrite (IsOrderWillNotMatch_eq o1 a), (IsOrderWillNotMatch_eq o2 a) by (done || apply B1 || apply B2).
    by eexists.
  - destruct (IsOrderWillFullMatch_eq o1 a order (bk_repr _ _ B1) Hok) as (f1 & t1 & r1 & M1 & ->).
    destruct (IsOrderWillFullMatch_eq o2 a order (bk_repr _ _ B2) Hok) as (f2 & t2 & r2 & M2 & ->).
    rewrite Ep, M2 in M1. injection M1 as <- <- <-. by eexists.
Qed.

Lemma applyOffsetOrder_same o1 o2 order : same_book o1 o2 -> order_ok order ->
  same_result (applyOffsetOrder now o1 order) (applyOffsetOrder now o2 order).
Proof.
  intros S Hok. unfold applyOffsetOrder.
  destruct (dry_runs_same o1 o2 order S Hok) as [(b1 & -> & ->) (b2 & -> & ->)]. go_red.
  case_bool; [by apply CancelOrder_same|].
  case_bool.
  { apply (same_result_bind _ _ (fun o => CancelOrder now o order)); [by apply ApplyOrder_same|].
    intros. by apply CancelOrder_same. }
  case_bool; [destruct b1; [by apply ApplyOrder_same|by apply NullifyOrder_same]|].
  case_bool; [destruct b2; [by apply ApplyOrder_same|by apply NullifyOrder_same]|].
  case_bool; [by apply ApplyOrder_same|]. by exists o1, o2, [].
Qed.

Lemma runOrders_same orders : forall o1 o2, same_book o1 o2 -> Forall order_ok orders ->
  same_result (runOrders now o1 orders) (runOrders now o2 orders).
Proof.
  induction orders as [|order orders IH]; intros o1 o2 S Hok; simpl; [by exists o1, o2, []|].
  apply Forall_cons in Hok as [Ho Hok].
  apply (same_result_bind _ _ (fun o => runOrders now o orders)); [by apply applyOffsetOrder_same|].
  intros. by apply IH.
Qed.

(** Restoring a snapshot of [o] gives [o] again. *)
Lemma Snapshot_Restore_same visit o a : (forall l, visit l ≡ₚ l) -> book_ok o a ->
  exists snap o', Snapshot visit o = Ok snap /\
    snap_LogSeq snap = ob_logSeq o /\ snap_OrderIdWindows snap = ob_orderIdWindows o /\
    Restore (NewOrderBook (ob_product o)) snap = Ok o' /\ same_at a o o'.
Proof.
  intros Hv B. pose proof (bk_repr _ _ B) as R.
  destruct (Snapshot_eq visit o a Hv R) as (orders & -> & Hp).
  destruct (restore_repr (ob_product o) orders a (ob_orderIdWindows o) (ob_logSeq o) (ob_tradeSeq o))
    as (o' & E & R' & E1 & E2 & E3 & E4); try done.
  - apply R.
  - apply R.
  - apply R.
  - intros s Hs. destruct (book_depth o a s R Hs) as (d & _ & Rd). split; [by eapply depth_sorted|apply Rd].
  - eexists _, o'. split; [done|]. split; [done|]. split; [done|]. split; [exact E|].
    constructor; try done. split; [done|apply B].
Qed.
End Equiv.
Notation "o1 ≡b o2" := (same_book o1 o2) (at level 70, no associativity) : go_scope.
