(* ===== verification/EngineInv.v ===== *)
(** The invariant of the running engine, kept by every step of every goroutine.

    [engine_inv] ties the channels, the log topic and the snapshots to one run
    of the applier over the orders consumed so far: the topic, the committer's
    buffer, the channel and the logs still to be sent are, in this order, the
    logs of that run, but for those that were worked before the committer's
    goroutine had started, and every snapshot on its way is the book after a
    prefix of it.  [reach_inv] cuts a run in two at the step in which the
    committer starts. *)
From S2P Require Import Prelude Decimal TreeMap Models Window MatchLog OrderBook DepthInv Matching Book Trading Applier.
From S2P Require Import Snapshots BookEquiv Engine.
From Stdlib Require Import QArith Lqa.
From stdpp Require Import list.
Open Scope string_scope.
Open Scope list_scope.
Open Scope Z_scope.

(** A reader that has delivered a message of a topic. *)
Lemma filter_next {P : DecimalPkg} p m rest (topic : list offsetOrder) :
  StronglySorted (fun m m' => oo_Offset m < oo_Offset m') topic ->
  filter (fun x => p <= oo_Offset x) topic = m :: rest ->
  filter (fun x => oo_Offset m + 1 <= oo_Offset x) topic = rest.
Proof.
  induction 1 as [|x topic Hs IH Hx]; [done|]. destruct (decide (p <= oo_Offset x)) as [Hp|Hp].
  - rewrite filter_cons_True by done. intros [= -> <-]. rewrite filter_cons_False by lia.
    rewrite Forall_forall in Hx. rewrite !filter_id; [done| |]; intros y Hy; specialize (Hx y Hy); lia.
  - rewrite filter_cons_False by done. intros H. rewrite filter_cons_False; [by apply IH|].
    assert (Hm : m ∈ topic).
    { assert (m ∈ filter (fun x => p <= oo_Offset x) topic) as Hm by (rewrite H; set_solver).
      by apply list_elem_of_filter in Hm as [_ ?]. }
    rewrite Forall_forall in Hx. specialize (Hx m Hm). lia.
Qed.

Section Inv.
Context {P : DecimalPkg} {L : DecimalLaws P} {T : TreeMapPkg} {TL : TreeMapLaws T}.
Context (now : Z -> Instant) (visit : list BookOrder -> list BookOrder).
Implicit Types (e : engine) (o : orderBook) (s : EngineSnapshot) (done : list offsetOrder).

(** An engine that has not worked anything. *)
Record idle e : Prop := {
  id_book : exists a, book_ok (e_OrderBook e) a;
  id_orderCh : e_orderCh e = [];
  id_logCh : e_logCh e = [];
  id_approve : e_snapshotApproveReqCh e = [];
  id_snapshotCh : e_snapshotCh e = [];
  id_applier : e_applierAt e = ApplierSelect;
  id_offset : e_applierOffset e = 0;
  id_orders : Forall (fun m => order_ok (oo_Order m)) (e_orderTopic e);
  id_sorted : StronglySorted (fun m m' => oo_Offset m < oo_Offset m') (e_orderTopic e);
}.

(** As [NewEngine] leaves it: no goroutine has run. *)
Record created e : Prop := {
  cr_idle : idle e;
  cr_committer : e_committer e = None;
}.

(** The committer has read the sequence number, the others have not run. *)
Record started e : Prop := {
  st_idle : idle e;
  st_committer : e_committer e = Some {| c_seq := ob_logSeq (e_OrderBook e); c_pending := None; c_logs := [] |};
}.

(** The logs the applier has computed but not sent. *)
Definition unsent (at_ : applierAt) : list Log :=
  match at_ with ApplierSelect => [] | ApplierSend logs _ => logs end.

Definition lastOffset done : Z := match last done with Some m => oo_Offset m | None => 0 end.

Section Run.
Context (e0 : engine).
#[local] Abbreviation book0 := (e_OrderBook e0).
#[local] Abbreviation seq0 := (ob_logSeq (e_OrderBook e0)).

(** The orders the engine has to work. *)
Definition work : list offsetOrder := filter (fun m => e_fetchPos e0 <= oo_Offset m) (e_orderTopic e0).

(** [s] is the book after the prefix [d] of the orders. *)
Definition snapshot_at (d : list offsetOrder) s : Prop :=
  exists b logs, runOrders now book0 (oo_Order <$> d) = Ok (b, logs) /\
    Snapshot visit b = Ok (es_OrderBookSnapshot s) /\ es_OrderOffset s = lastOffset d.

Definition snapshot_good done s : Prop := exists d d', done = d ++ d' /\ snapshot_at d s.

(** The committer, given the logs [all] of the run and those of them, [early],
    that were worked before it started.  It has received some of the logs; it
    drops the early ones, for their numbers are not above the one it has read. *)
Record committer_inv (early all : list Log) e (c : committerState) (received stored : list Log) : Prop := {
  ci_topic : e_logTopic e = e_logTopic e0 ++ stored;
  ci_logs : all = received ++ e_logCh e ++ unsent (e_applierAt e);
  ci_new : drop (length early) received = stored ++ c_logs c;
  ci_seq : c_seq c = seq0 + Z.of_nat (length early `max` length received);
  ci_approved : Forall (fun s => snapshotLogSeq s <= c_seq c) (e_snapshotCh e);
}.

(** Until it has started, nothing leaves the process. *)
Record waiting (all : list Log) e : Prop := {
  wa_topic : e_logTopic e = e_logTopic e0;
  wa_logs : all = e_logCh e ++ unsent (e_applierAt e);
  wa_snapshots : e_snapshotCh e = [];
  wa_store : e_snapshotStore e = e_snapshotStore e0;
}.

Definition no_overflow (all : list Log) : Prop := 0 <= seq0 /\ seq0 + Z.of_nat (length all) < i64_half.

(** The snapshot in the store: an old one, or the book after a prefix of the
    orders, with the windows of a later book. *)
Definition store_good done (st : option EngineSnapshot) : Prop :=
  st = e_snapshotStore e0 \/
  exists s d' b' logs', st = Some (withLiveWindows b' s) /\ snapshot_good d' s /\
    runOrders now book0 (oo_Order <$> d') = Ok (b', logs') /\ d' `prefix_of` done.

(** [begun] are the orders that were worked before the committer started. *)
Record engine_inv (begun : list offsetOrder) (early : list Log) e (done rest : list offsetOrder) (all : list Log)
    (a : AbsBook) (oc : option committerState) : Prop := {
  ei_topic : e_orderTopic e = e_orderTopic e0;
  ei_work : work = done ++ e_orderCh e ++ rest;
  ei_rest : rest = filter (fun m => e_fetchPos e <= oo_Offset m) (e_orderTopic e);
  ei_run : runOrders now book0 (oo_Order <$> done) = Ok (e_OrderBook e, all);
  ei_book : book_ok (e_OrderBook e) a;
  ei_numbered : numbered seq0 all (ob_logSeq (e_OrderBook e));
  ei_offset : match e_applierAt e with
              | ApplierSelect => e_applierOffset e = lastOffset done
              | ApplierSend _ offset => offset = lastOffset done
              end;
  ei_committer : e_committer e = oc;
  ei_begun : begun `prefix_of` done;
  ei_early : early `prefix_of` all;
  ei_commit : match oc with
              | Some c => no_overflow all -> exists received stored, committer_inv early all e c received stored
              | None => waiting all e
              end;
  ei_approve : Forall (snapshot_good done) (e_snapshotApproveReqCh e);
  ei_pending : Forall (snapshot_good done) (option_list (oc ≫= c_pending));
  ei_snapshots : Forall (snapshot_good done) (e_snapshotCh e);
  ei_store : store_good done (e_snapshotStore e);
}.

Definition inv begun early e : Prop := exists done rest all a oc, engine_inv begun early e done rest all a oc.

Lemma inv_idle : idle e0 -> e_committer e0 = None \/ started e0 -> inv [] [] e0.
Proof.
  intros [[a B] Eo El Ea Es Eat Eoff _ _] Hc. exists [], work, [], a, (e_committer e0).
  constructor; rewrite ?Eo, ?Ea, ?Es, ?Eat; try done.
  - destruct Hc as [->|[_ ->]].
    + constructor; rewrite ?El, ?Es, ?Eat; done.
    + intros _. exists [], []. constructor; rewrite ?El, ?Es, ?Eat, ?app_nil_r; cbn; (done || lia).
  - destruct Hc as [->|[_ ->]]; constructor.
  - by left.
Qed.

(** ** Monotonicity *)

Lemma snapshot_good_app done d s : snapshot_good done s -> snapshot_good (done ++ d) s.
Proof. intros (d1 & d2 & -> & H). exists d1, (d2 ++ d). by rewrite app_assoc. Qed.

Lemma store_good_app done d st : store_good done st -> store_good (done ++ d) st.
Proof.
  intros [?|(s & d' & b' & l' & ? & ? & ? & ?)]; [by left|]. right. exists s, d', b', l'.
  do 3 (split; [done|]). by apply prefix_app_r.
Qed.

Lemma no_overflow_app l1 l2 : no_overflow (l1 ++ l2) -> no_overflow l1.
Proof. unfold no_overflow. rewrite length_app. lia. Qed.

(** The numbers of the logs of a run. *)
Lemma log_seq all seq l1 log l2 : numbered seq0 all seq -> no_overflow all -> all = l1 ++ log :: l2 ->
  GetSeq log = seq0 + Z.of_nat (length l1) + 1.
Proof.
  intros Hn [H0 Hb] ->. destruct (numbered_seqZ _ _ _ Hn H0 Hb) as [E _]. rewrite fmap_app, fmap_cons in E.
  assert (Hl : seqZ (seq0 + 1) (Z.of_nat (length (l1 ++ log :: l2))) !! length (GetSeq <$> l1) = Some (GetSeq log))
    by (rewrite <- E; by apply list_lookup_middle).
  apply lookup_seqZ in Hl as [-> _]. rewrite length_fmap. lia.
Qed.

Lemma book_seq all seq : numbered seq0 all seq -> no_overflow all -> seq = seq0 + Z.of_nat (length all).
Proof. intros Hn [H0 Hb]. by apply (numbered_seqZ _ _ _ Hn). Qed.

(** ** The fetcher *)

Context (Hsorted : StronglySorted (fun m m' => oo_Offset m < oo_Offset m') (e_orderTopic e0)).
Context (Hok : Forall (fun m => order_ok (oo_Order m)) (e_orderTopic e0)).
Context (Hvisit : forall l, visit l ≡ₚ l).

Section Steps.
Context (begun : list offsetOrder) (early : list Log).
#[local] Abbreviation inv := (inv begun early).

Lemma inv_fetch e e' : inv e -> fetchStep e = Ok e' -> inv e'.
Proof.
  intros (done & rest & all & a & c & []) H. unfold fetchStep, FetchOrder in H.
  destruct (filter _ (e_orderTopic e)) as [|m rest'] eqn:Hf; [done|]. cbn [head] in H.
  apply bind_Ok in H as (ch & Hsend & [= <-]). unfold send in Hsend. case_bool; [|done]. injection Hsend as <-.
  exists done, rest', all, a, c. subst rest. constructor; try done.
  - cbn [e_orderCh e_setFetch]. rewrite ei_work0. by rewrite <- !app_assoc.
  - cbn [e_fetchPos e_setFetch e_orderTopic]. symmetry. eapply filter_next; [by rewrite ei_topic0|exact Hf].
  - destruct c as [c|]; [|by destruct ei_commit0].
    intros Hno. destruct (ei_commit0 Hno) as (received & stored & []). by exists received, stored.
Qed.

(** ** The applier *)

Lemma lastOffset_snoc done m : lastOffset (done ++ [m]) = oo_Offset m.
Proof. unfold lastOffset. by rewrite last_snoc. Qed.

(** The logs of another order. *)
Lemma commit_more oc all logs e e' : match oc with
    | Some c => no_overflow all -> exists received stored, committer_inv early all e c received stored
    | None => waiting all e end ->
  e_logTopic e' = e_logTopic e -> e_snapshotCh e' = e_snapshotCh e -> e_snapshotStore e' = e_snapshotStore e ->
  e_logCh e' ++ unsent (e_applierAt e') = e_logCh e ++ unsent (e_applierAt e) ++ logs ->
  match oc with
  | Some c => no_overflow (all ++ logs) -> exists received stored, committer_inv early (all ++ logs) e' c received stored
  | None => waiting (all ++ logs) e' end.
Proof.
  intros Hc E1 E2 E3 E4. destruct oc as [c|].
  - intros Hno. destruct (Hc (no_overflow_app _ _ Hno)) as (received & stored & []). exists received, stored.
    constructor; rewrite ?E1, ?E2; try done. rewrite E4, ci_logs0. by rewrite <- !app_assoc.
  - destruct Hc. constructor; rewrite ?E1, ?E2, ?E3; try done. rewrite E4, wa_logs0. by rewrite <- !app_assoc.
Qed.

Lemma commit_same oc all e e' : match oc with
    | Some c => no_overflow all -> exists received stored, committer_inv early all e c received stored
    | None => waiting all e end ->
  e_logTopic e' = e_logTopic e -> e_snapshotCh e' = e_snapshotCh e -> e_snapshotStore e' = e_snapshotStore e ->
  e_logCh e' ++ unsent (e_applierAt e') = e_logCh e ++ unsent (e_applierAt e) ->
  match oc with
  | Some c => no_overflow all -> exists received stored, committer_inv early all e' c received stored
  | None => waiting all e' end.
Proof.
  intros Hc E1 E2 E3 E4. rewrite <- (app_nil_r all). eapply commit_more; try done. by rewrite E4, app_nil_r.
Qed.

Lemma work_ok done m ch rest : work = done ++ (m :: ch) ++ rest -> order_ok (oo_Order m).
Proof.
  intros Hw. rewrite Forall_forall in Hok. apply Hok. assert (m ∈ work) as Hm by (rewrite Hw; set_solver).
  unfold work in Hm. by apply list_elem_of_filter in Hm as [_ ?].
Qed.

Lemma inv_apply e e' : inv e -> applyStep now e = Ok e' -> inv e'.
Proof.
  intros (done & rest & all & a & c & []) H. unfold applyStep in H.
  destruct (e_applierAt e) eqn:Hat; [|done].
  destruct (e_orderCh e) as [|m ch] eqn:Hch; [done|]. cbn [recv mbind outcome_bind] in H.
  assert (Hm : order_ok (oo_Order m)) by (by eapply work_ok).
  destruct (applyOffsetOrder_ok now _ _ _ ei_book0 Hm) as (o & a' & logs & E & B & _ & N & _).
  rewrite E in H. cbn [fatalErr mbind outcome_bind] in H. injection H as <-.
  exists (done ++ [m]), rest, (all ++ logs), a', c. constructor; simpl; try done.
  - rewrite ei_work0. by rewrite <- !app_assoc.
  - rewrite fmap_app, runOrders_app, ei_run0. go_red. simpl. rewrite E. go_red. by rewrite app_nil_r.
  - by eapply numbered_app.
  - by rewrite lastOffset_snoc.
  - by apply prefix_app_r.
  - by apply prefix_app_r.
  - eapply (commit_more _ _ _ e); try done. by rewrite Hat.
  - eapply Forall_impl; [exact ei_approve0|]. intros. by apply snapshot_good_app.
  - eapply Forall_impl; [exact ei_pending0|]. intros. by apply snapshot_good_app.
  - eapply Forall_impl; [exact ei_snapshots0|]. intros. by apply snapshot_good_app.
  - by apply store_good_app.
Qed.

Lemma inv_sendLog e e' : inv e -> sendLogStep e = Ok e' -> inv e'.
Proof.
  intros (done & rest & all & a & c & []) H. unfold sendLogStep in H.
  destruct (e_applierAt e) as [|[|log logs] offset] eqn:Hat; [done| |].
  - injection H as <-. exists done, rest, all, a, c. constructor; simpl; try done.
    eapply (commit_same _ _ e); try done. by rewrite Hat.
  - apply bind_Ok in H as (ch & Hsend & [= <-]). unfold send in Hsend. case_bool; [|done]. injection Hsend as <-.
    exists done, rest, all, a, c. constructor; simpl; try done.
    eapply (commit_same _ _ e); try done. cbn. by rewrite Hat, <- app_assoc.
Qed.

Lemma inv_snapshotRequest e e' : inv e -> snapshotRequestStep visit e = Ok e' -> inv e'.
Proof.
  intros (done & rest & all & a & c & []) H. unfold snapshotRequestStep in H.
  destruct (e_applierAt e) eqn:Hat; [|done].
  destruct (e_snapshotReqCh e) as [|s ch] eqn:Hch; [done|]. cbn [recv mbind outcome_bind] in H.
  case_bool.
  - injection H as <-. exists done, rest, all, a, c. constructor; simpl; try done.
    eapply (commit_same _ _ e); try done. by rewrite Hat.
  - destruct (Snapshot_Restore_same visit _ _ Hvisit ei_book0) as (snap & _ & E & _).
    rewrite E in H. cbn [fatalErr mbind outcome_bind] in H.
    apply bind_Ok in H as (ch' & Hsend & [= <-]). unfold send in Hsend. case_bool; [|done]. injection Hsend as <-.
    exists done, rest, all, a, c. constructor; simpl; try done.
    + eapply (commit_same _ _ e); try done. by rewrite Hat.
    + apply Forall_app. split; [done|]. constructor; [|constructor]. exists done, []. rewrite app_nil_r.
      split; [done|]. by exists (e_OrderBook e), all.
Qed.

(** ** The committer *)

(** A log passes the duplicate test unless it is an early one. *)
Lemma commit_log e all c received stored log logCh seq : committer_inv early all e c received stored ->
  numbered seq0 all seq -> no_overflow all -> e_logCh e = log :: logCh ->
  all = (received ++ [log]) ++ logCh ++ unsent (e_applierAt e) /\
  (GetSeq log <= c_seq c -> drop (length early) (received ++ [log]) = drop (length early) received /\
     c_seq c = seq0 + Z.of_nat (length early `max` length (received ++ [log]))) /\
  (c_seq c < GetSeq log -> drop (length early) (received ++ [log]) = drop (length early) received ++ [log] /\
     GetSeq log = seq0 + Z.of_nat (length early `max` length (received ++ [log]))).
Proof.
  intros [_ Elogs _ Eseq _] Hn Hno Hch. rewrite Hch in Elogs.
  assert (Hlog : GetSeq log = seq0 + Z.of_nat (length received) + 1) by (by eapply log_seq).
  split; [rewrite Elogs; by rewrite <- !app_assoc|]. rewrite length_app. cbn [length]. split; intros H.
  - assert (length received < length early)%nat by lia. split; [|lia]. by rewrite !drop_ge by (rewrite ?length_app; cbn; lia).
  - assert (length early <= length received)%nat by lia. split; [|lia]. by rewrite drop_app_le.
Qed.

(** The committer's step leaves the rest of the engine alone. *)
Lemma committed e e' done rest all a c c' : engine_inv begun early e done rest all a (Some c) -> e_OrderBook e' = e_OrderBook e ->
  e_orderTopic e' = e_orderTopic e -> e_orderCh e' = e_orderCh e -> e_fetchPos e' = e_fetchPos e -> e_applierAt e' = e_applierAt e ->
  e_applierOffset e' = e_applierOffset e -> e_committer e' = Some c' ->
  e_snapshotApproveReqCh e' = e_snapshotApproveReqCh e -> e_snapshotStore e' = e_snapshotStore e ->
  Forall (snapshot_good done) (option_list (c_pending c')) -> Forall (snapshot_good done) (e_snapshotCh e') ->
  (no_overflow all -> forall received stored, committer_inv early all e c received stored ->
     exists received' stored', committer_inv early all e' c' received' stored') ->
  engine_inv begun early e' done rest all a (Some c').
Proof.
  intros [] E1 E2 E3 E4 E5 E6 E7 E8 E9 Hp Hs Hc. constructor; rewrite ?E1, ?E2, ?E3, ?E4, ?E5, ?E6, ?E8, ?E9; try done.
  intros Hno. destruct (ei_commit0 Hno) as (received & stored & Hst). by eapply Hc.
Qed.

Lemma approved_more n m ch : n <= m -> Forall (fun s => snapshotLogSeq s <= n) ch -> Forall (fun s => snapshotLogSeq s <= m) ch.
Proof. intros Hn Hf. eapply Forall_impl; [exact Hf|]. intros s. simpl. lia. Qed.

Lemma approvePending_good done seq pending ch pending' ch' : approvePending seq pending ch = Ok (pending', ch') ->
  Forall (snapshot_good done) (option_list pending) -> Forall (snapshot_good done) ch ->
  Forall (snapshot_good done) (option_list pending') /\ Forall (snapshot_good done) ch' /\
  (Forall (fun s => snapshotLogSeq s <= seq) ch -> Forall (fun s => snapshotLogSeq s <= seq) ch').
Proof.
  intros Happ Hp Hs. unfold approvePending in Happ. destruct pending as [s|]; [|by injection Happ as <- <-].
  destruct (Z.leb_spec (snapshotLogSeq s) seq); [|by injection Happ as <- <-].
  apply bind_Ok in Happ as (ch1 & Hsend & [= <- <-]). unfold send in Hsend. case_bool; [|done]. injection Hsend as <-.
  split; [constructor|]. split; [by apply Forall_app|]. intros Hf. apply Forall_app. split; [done|]. by constructor.
Qed.

Lemma inv_commit e e' ok : inv e -> commitStep ok e = Ok e' -> inv e'.
Proof.
  intros (worked & rest & all & a & [c|] & I) H; unfold commitStep in H; rewrite (ei_committer _ _ _ _ _ _ _ _ I) in H; [|discriminate H].
  destruct (e_logCh e) as [|log ch] eqn:Hch; [done|]. cbn [recv mbind outcome_bind] in H.
  pose proof (ei_numbered _ _ _ _ _ _ _ _ I) as Hn. pose proof (ei_pending _ _ _ _ _ _ _ _ I) as Hp.
  pose proof (ei_snapshots _ _ _ _ _ _ _ _ I) as Hsn.
  destruct (Z.leb_spec (GetSeq log) (c_seq c)) as [Hle|Hgt].
  { injection H as <-. exists worked, rest, all, a, (Some c). eapply committed; try done.
    intros Hno received stored Hst. destruct (commit_log _ _ _ _ _ _ _ _ Hst Hn Hno Hch) as (E1 & E2 & _).
    destruct (E2 Hle) as [E3 E4], Hst. exists (received ++ [log]), stored. constructor; simpl; try done. by rewrite E3. }
  case_bool.
  { injection H as <-. exists worked, rest, all, a. eexists (Some _). eapply committed; try done.
    intros Hno received stored Hst. destruct (commit_log _ _ _ _ _ _ _ _ Hst Hn Hno Hch) as (E1 & _ & E2).
    destruct (E2 Hgt) as [E3 E4], Hst. exists (received ++ [log]), stored. constructor; simpl; try done.
    - by rewrite E3, ci_new0, app_assoc.
    - by eapply approved_more, ci_approved0; lia. }
  destruct ok; [|discriminate H].
  apply bind_Ok in H as ([pending sch] & Happ & [= <-]). destruct (approvePending_good worked _ _ _ _ _ Happ Hp Hsn) as (H1 & H2 & H3).
  exists worked, rest, all, a. eexists (Some _). eapply committed; try done.
  intros Hno received stored Hst. destruct (commit_log _ _ _ _ _ _ _ _ Hst Hn Hno Hch) as (E1 & _ & E2).
  destruct (E2 Hgt) as [E3 E4], Hst. exists (received ++ [log]), (stored ++ c_logs c ++ [log]). constructor; simpl; try done.
  - by rewrite ci_topic0, <- app_assoc.
  - by rewrite E3, ci_new0, app_nil_r, app_assoc.
  - apply H3. by eapply approved_more, ci_approved0; lia.
Qed.

Lemma inv_approve e e' : inv e -> approveStep e = Ok e' -> inv e'.
Proof.
  intros (worked & rest & all & a & [c|] & I) H; unfold approveStep in H; rewrite (ei_committer _ _ _ _ _ _ _ _ I) in H; [|discriminate H].
  pose proof (ei_snapshots _ _ _ _ _ _ _ _ I) as Hsn. destruct I.
  destruct (e_snapshotApproveReqCh e) as [|s ch] eqn:Hch; [done|]. cbn [recv mbind outcome_bind] in H.
  apply Forall_cons in ei_approve0 as [Hs Hrest].
  destruct (Z.leb_spec (snapshotLogSeq s) (c_seq c)).
  - apply bind_Ok in H as (ch' & Hsend & [= <-]). unfold send in Hsend. case_bool; [|done]. injection Hsend as <-.
    exists worked, rest, all, a. eexists (Some _). constructor; try done; simpl; try done.
    + intros Hno. destruct (ei_commit0 Hno) as (received & stored & []). exists received, stored. constructor; try done.
      apply Forall_app. split; [done|]. by constructor.
    + apply Forall_app. split; [done|]. by constructor.
  - injection H as <-. exists worked, rest, all, a. eexists (Some _). constructor; try done; simpl; try done.
    + intros Hno. destruct (ei_commit0 Hno) as (received & stored & []). exists received, stored. by constructor.
    + by constructor.
Qed.

(** ** The snapshots *)

Lemma inv_timer e e' : inv e -> timerStep e = Ok e' -> inv e'.
Proof.
  intros (done & rest & all & a & c & []) H. unfold timerStep in H.
  apply bind_Ok in H as (ch' & _ & [= <-]). exists done, rest, all, a, c. constructor; try done.
  by eapply (commit_same _ _ e).
Qed.

Lemma inv_storeSnapshot e e' ok : inv e -> storeSnapshotStep ok e = Ok e' -> inv e'.
Proof.
  intros (done & rest & all & a & c & []) H. unfold storeSnapshotStep in H.
  destruct (e_snapshotCh e) as [|s ch] eqn:Hch; [done|]. cbn [recv mbind outcome_bind] in H.
  destruct c as [c|]; [|destruct ei_commit0 as [_ _ Hnone _]; by rewrite Hch in Hnone].
  apply Forall_cons in ei_snapshots0 as [Hs Hrest].
  destruct ok; injection H as <-; exists done, rest, all, a, (Some c); constructor; try done; simpl; try done.
  1, 3: intros Hno; destruct (ei_commit0 Hno) as (received & stored & []); exists received, stored; constructor; try done; simpl;
    rewrite Hch in ci_approved0; by apply Forall_cons in ci_approved0 as [_ ?].
  right. exists s, done, (e_OrderBook e), all. done.
Qed.

Lemma inv_step e ev e' : inv e -> ev <> EvCommitterStart -> estep now visit ev e = Ok e' -> inv e'.
Proof.
  intros I Hev H. destruct ev; simpl in H.
  - by eapply inv_fetch.
  - by injection H as <-.
  - by eapply inv_apply.
  - by eapply inv_sendLog.
  - by eapply inv_snapshotRequest.
  - done.
  - by eapply inv_commit.
  - by eapply inv_commit.
  - by eapply inv_approve.
  - by eapply inv_timer.
  - by eapply inv_storeSnapshot.
  - by eapply inv_storeSnapshot.
Qed.
End Steps.

(** The committer starts: what has been worked so far is early. *)
Lemma inv_committerStart e e' : inv [] [] e -> committerStartStep e = Ok e' ->
  exists done all, runOrders now book0 (oo_Order <$> done) = Ok (e_OrderBook e, all) /\ inv done all e'.
Proof.
  intros (done & rest & all & a & oc & []) H. unfold committerStartStep in H. rewrite ei_committer0 in H.
  destruct oc as [c|]; [done|]. injection H as <-. exists done, all. split; [done|].
  exists done, rest, all, a. eexists (Some _). constructor; try done.
  intros Hno. destruct ei_commit0. exists [], []. constructor; simpl; rewrite ?app_nil_r; try done.
  - by rewrite drop_nil.
  - rewrite Nat.max_0_r. by apply book_seq.
  - by rewrite wa_snapshots0.
Qed.

(** The committer starts once. *)
Lemma committer_kept e ev e' : is_Some (e_committer e) -> estep now visit ev e = Ok e' -> is_Some (e_committer e').
Proof.
  intros [c Hc] H. destruct ev; cbn [estep] in H; unfold fetchStep, applyStep, sendLogStep, snapshotRequestStep, committerStartStep,
    commitStep, approveStep, timerStep, storeSnapshotStep in H; rewrite ?Hc in H; try done;
    repeat first [apply bind_Ok in H as (? & ? & H) | case_match | injection H as <-]; try done; first [by exists c|by eexists].
Qed.
Lemma committer_stays e ev e' : e_committer e = None -> ev <> EvCommitterStart -> estep now visit ev e = Ok e' -> e_committer e' = None.
Proof.
  intros Hc Hev H. destruct ev; cbn [estep] in H; unfold fetchStep, applyStep, sendLogStep, snapshotRequestStep, commitStep,
    approveStep, timerStep, storeSnapshotStep in H; rewrite ?Hc in H; try done;
    repeat first [apply bind_Ok in H as (? & ? & H) | case_match | injection H as <-]; done.
Qed.
End Run.

(** A run from [e0], cut at the start of the committer. *)
Inductive lifeOf e0 e : Prop :=
| life_waiting : e_committer e = None -> inv e0 [] [] e -> lifeOf e0 e
| life_running e1 e2 begun early : is_Some (e_committer e) -> reach now visit e0 e1 -> committerStartStep e1 = Ok e2 ->
    reach now visit e2 e -> runOrders now (e_OrderBook e0) (oo_Order <$> begun) = Ok (e_OrderBook e1, early) ->
    inv e0 begun early e -> lifeOf e0 e.

Lemma event_start ev : ev = EvCommitterStart \/ ev <> EvCommitterStart.
Proof. destruct ev; by (left + right). Qed.

Lemma reach_life e0 e : (forall l, visit l ≡ₚ l) -> created e0 -> reach now visit e0 e -> lifeOf e0 e.
Proof.
  intros Hv [Hi Hc]. induction 1 as [|e ev e' R IH Hs]; [by apply life_waiting; [|apply inv_idle; [|left]]|].
  destruct IH as [Hn I|e1 e2 begun early Hc' R1 E R2 Hrun I].
  - destruct (event_start ev) as [->|Hev].
    + destruct (inv_committerStart e0 e e' I Hs) as (begun & early & Hrun & I').
      eapply (life_running _ _ e e'); try done; [|apply reach_here]. cbn in Hs. unfold committerStartStep in Hs. rewrite Hn in Hs.
      by injection Hs as <-.
    + apply life_waiting; [by eapply committer_stays|]. by eapply inv_step; try done; apply Hi.
  - destruct (event_start ev) as [->|Hev].
    + cbn in Hs. unfold committerStartStep in Hs. destruct Hc' as [c Hce]. by rewrite Hce in Hs.
    + eapply life_running; try done; [by eapply committer_kept|by eapply reach_step|]. by eapply inv_step; try done; apply Hi.
Qed.

(** The run after the committer's start. *)
Lemma reach_running e0 begun early e e' : (forall l, visit l ≡ₚ l) -> idle e0 -> is_Some (e_committer e) ->
  inv e0 begun early e -> reach now visit e e' -> inv e0 begun early e'.
Proof.
  intros Hv Hi Hc I R. enough (is_Some (e_committer e') /\ inv e0 begun early e') by tauto.
  induction R as [|e1 ev e2 _ [Hc1 I1] Hs]; [done|]. split; [by eapply committer_kept|].
  eapply inv_step; try done; [apply Hi..|]. intros ->. cbn in Hs. unfold committerStartStep in Hs.
  destruct Hc1 as [c Ec]. by rewrite Ec in Hs.
Qed.

(** The run of a committer that starts first. *)
Lemma reach_inv e0 e : (forall l, visit l ≡ₚ l) -> started e0 -> reach now visit e0 e -> inv e0 [] [] e.
Proof.
  intros Hv S R. pose proof (st_idle _ S) as Hi. eapply reach_running; try done; [rewrite (st_committer _ S); by eexists|].
  apply inv_idle; [done|by right].
Qed.

(** The run from the creation on, given the step in which the committer starts. *)
Lemma reach_started e0 e1 e2 e : (forall l, visit l ≡ₚ l) -> created e0 -> reach now visit e0 e1 ->
  committerStartStep e1 = Ok e2 -> reach now visit e2 e ->
  exists begun early, runOrders now (e_OrderBook e0) (oo_Order <$> begun) = Ok (e_OrderBook e1, early) /\ inv e0 begun early e.
Proof.
  intros Hv F R1 Hc R2. unfold committerStartStep in Hc.
  destruct (reach_life e0 e1 Hv F R1) as [Hn I|? ? ? ? [c Hs] _ _ _ _ _]; [|by rewrite Hs in Hc].
  assert (Hc' : committerStartStep e1 = Ok e2) by done. rewrite Hn in Hc. injection Hc as E2.
  destruct (inv_committerStart e0 e1 e2 I Hc') as (begun & early & Hrun & I'). exists begun, early. split; [done|].
  eapply reach_running; [done|apply (cr_idle _ F)| |exact I'|exact R2]. rewrite <- E2. by eexists.
Qed.
End Inv.
