(* ===== verification/Observe.v ===== *)
(** The matching log as its readers see it: the lemmas that carry facts about
    fills to the match logs of [ApplyOrder], and a small demonstration book on
    rationals that the witnesses of the theorems evaluate. *)
From S2P Require Import Prelude Decimal TreeMap Models Window MatchLog OrderBook DepthInv Matching Book Trading Applier Snapshots.
From Stdlib Require Import QArith Lqa.
From stdpp Require Import list.
Open Scope string_scope.
Open Scope list_scope.
Open Scope Z_scope.

Section Observe.
Context {P : DecimalPkg}.

(** The match logs, the open logs' orders and the trade sizes of a log stream. *)
Definition matchLogs (logs : list Log) : list MatchLog :=
  omap (fun l => match l with LMatch m => Some m | _ => None end) logs.
Definition openLogs (logs : list Log) : list OpenLog :=
  omap (fun l => match l with LOpen m => Some m | _ => None end) logs.

Definition logOf (t : BookOrder) (f : fillOf) (ml : MatchLog) : Prop :=
  ml_TakerOrderId ml = bo_OrderId t /\ ml_MakerOrderId ml = bo_OrderId f.1 /\
  ml_Price ml = bo_Price f.1 /\ ml_Size ml = f.2 /\ ml_Side ml = bo_Side f.1.

Lemma fillLogs_matchLogs now pid t fills : forall seq tseq logs seq' tseq',
  fillLogs now pid t seq tseq fills = (logs, seq', tseq') ->
  Forall2 (logOf t) fills (matchLogs logs) /\ openLogs logs = [].
Proof.
  induction fills as [|[m size] fills IH]; intros seq tseq logs seq' tseq' H; simpl in H.
  { injection H as <- <- <-. by split; [constructor|]. }
  destruct (dec_IsZero (bo_Size m)).
  all: destruct (fillLogs _ _ _ _ _ fills) as [[l2 s2] t2] eqn:E.
  all: injection H as <- <- <-; destruct (IH _ _ _ _ _ E) as [IH1 IH2].
  all: split; [constructor; [by repeat split|exact IH1]|exact IH2].
Qed.

Lemma matchLogs_app l1 l2 : matchLogs (l1 ++ l2) = matchLogs l1 ++ matchLogs l2.
Proof. apply omap_app. Qed.
Lemma openLogs_app l1 l2 : openLogs (l1 ++ l2) = openLogs l1 ++ openLogs l2.
Proof. apply omap_app. Qed.
End Observe.

Section Fresh.
Context {P : DecimalPkg} {L : DecimalLaws P} {T : TreeMapPkg} {TL : TreeMapLaws T}.
Context (now : Z -> Instant).

(** [ApplyOrder] on a fresh order, opened up once for the theorems: the
    matching it did, the logs it wrote, the book it left. *)
Lemma ApplyOrder_fresh o a order :
  book_repr o a -> order_ok order -> ~ ws_refused (ob_orderIdWindows o) (ord_Id order) ->
  let opp := Opposite (ord_Side order) in
  exists o' logs fills t' rest mlogs seq, ApplyOrder now o order = Ok (o', logs) /\
    matchList (ob_product o) (takerOf order) (ab_get a opp) = Ok (fills, t', rest) /\
    matches (ob_product o) (takerOf order) (ab_get a opp) fills t' rest /\
    logs = mlogs ++ [finishLog now (prod_Id (ob_product o)) seq t'] /\
    Forall2 (logOf (takerOf order)) fills (matchLogs logs) /\ openLogs mlogs = [] /\
    let a1 := ab_set a opp rest in
    book_repr o' (if takerRests t'
                  then ab_set a1 (ord_Side order) (rest_insert (cmpOf (ord_Side order)) t' (ab_get a1 (ord_Side order)))
                  else a1).
Proof.
  intros R Hok Hr opp. destruct (takerOf_fields order) as (_ & Eside & _).
  destruct (ApplyOrder_repr now o a order R Hok Hr) as (o' & a' & logs & HA & Habs & R' & _).
  unfold absApply in Habs. rewrite Eside in Habs. fold opp in Habs.
  apply bind_Ok in Habs as ([[fills t'] rest] & Hm & Habs).
  destruct (fillLogs _ _ _ _ _ _) as [[mlogs s1] t1] eqn:El. injection Habs as <- <- _ _.
  destruct (book_depth o a opp R (valid_Opposite _)) as (d & _ & Rd).
  pose proof (matchList_matches (ob_product o) opp _ _ _ _ _ (takerOf_kind order Hok) (dr_resting _ _ _ _ Rd) Hm) as HM.
  destruct (fillLogs_matchLogs _ _ _ _ _ _ _ _ _ El) as [Hf Hopen].
  exists o'. do 6 eexists. split; [exact HA|]. split; [exact Hm|]. split; [exact HM|].
  split; [reflexivity|]. split; [|split; [exact Hopen|]].
  - rewrite matchLogs_app. unfold finishLog. destruct (takerRests t'); [|destruct (takerDone t') as [[? ?] ?]];
      simpl; by rewrite app_nil_r.
  - destruct (matches_same _ _ _ _ _ _ HM) as (_&_&_&Es&_). rewrite Eside in Es. by rewrite Es in R'.
Qed.

(** The opposite side after the taker has been put away. *)
Lemma after_opp (b : bool) a s rest l : valid_side s ->
  ab_get (if b then ab_set (ab_set a (Opposite s) rest) s l else ab_set a (Opposite s) rest) (Opposite s) = rest.
Proof.
  intros Hs. destruct b; [|apply ab_get_set_eq].
  rewrite ab_get_set_ne, ab_get_set_eq; [done|done|apply valid_Opposite|]. by apply not_eq_sym, Opposite_ne.
Qed.

(** All logs but the last report a maker that was filled. *)
Lemma init_filled product t ms fills t' rest pre mls init ml :
  matches product t ms fills t' rest -> sizedTaker t = true -> (0 <= dval (bo_Size t))%Q ->
  Forall (fun m => 0 < dval (bo_Size m))%Q ms ->
  Forall2 (fun m f => f.1 = decr m f.2 /\ (dval f.2 <= dval (bo_Size m))%Q) pre fills ->
  Forall2 (logOf t) fills mls -> mls = init ++ [ml] ->
  Forall2 (fun m l => dval (ml_Size l) == dval (bo_Size m))%Q (take (length init) pre) init.
Proof.
  intros HM Hs Hsz Hms Hpre Hlogs ->.
  apply Forall2_app_inv_r in Hlogs as (fi & fl & Hfi & Hfl & ->).
  apply list.Forall2_cons_inv_r in Hfl as (f & fl' & _ & Hnil & ->). apply Forall2_nil_inv_r in Hnil as ->.
  destruct (matches_sized _ _ _ _ _ _ HM Hs Hsz Hms) as (_ & _ & _ & Hinit). specialize (Hinit fi f eq_refl).
  apply Forall2_app_inv_r in Hpre as (p1 & p2 & Hp1 & _ & ->).
  rewrite <- (Forall2_length _ _ _ Hfi), <- (Forall2_length _ _ _ Hp1), take_app_length.
  apply Forall2_same_length_lookup_2.
  - by rewrite (Forall2_length _ _ _ Hp1), (Forall2_length _ _ _ Hfi).
  - intros i m l Hm Hl. destruct (Forall2_lookup_r _ _ _ _ _ Hfi Hl) as (f' & Hf' & (_&_&_&Esz&_)).
    destruct (Forall2_lookup_l _ _ _ _ _ Hp1 Hm) as (f'' & Hf'' & Ef & _).
    assert (f'' = f') as -> by congruence.
    rewrite Forall_lookup in Hinit. specialize (Hinit i f' Hf'). rewrite Ef in Hinit.
    unfold decr in Hinit. simpl in Hinit. rewrite Esz. dec_lra.
Qed.

Lemma sorted_uncrossed s p l : valid_side s -> StronglySorted (priority (cmpOf (Opposite s))) l ->
  match l with [] => True | m :: _ => pricesCross s p (bo_Price m) = false end ->
  Forall (fun m => pricesCross s p (bo_Price m) = false) l.
Proof.
  intros Hs Hl Hh. destruct l as [|h l]; [done|]. constructor; [done|].
  apply StronglySorted_inv in Hl as [_ Hl]. eapply Forall_impl; [exact Hl|].
  intros y Hy. by eapply priority_cross.
Qed.

Lemma log_sizes t fills mls : Forall2 (logOf t) fills mls -> ml_Size <$> mls = fills.*2.
Proof.
  induction 1 as [|f ml fills mls (_&_&_&E&_) _ IH]; [done|]. by rewrite !fmap_cons, E, IH.
Qed.

Lemma log_costs t fills mls : Forall2 (logOf t) fills mls ->
  (fun ml => dec_Mul (ml_Size ml) (ml_Price ml)) <$> mls = cost <$> fills.
Proof.
  induction 1 as [|f ml fills mls (_&_&Ep&Es&_) _ IH]; [done|].
  rewrite !fmap_cons, IH, Es, Ep. done.
Qed.

Lemma asks_overspend product t ms fills t' rest pmax : matches product t ms fills t' rest ->
  fundedTaker t = true -> 0 <= prod_BaseScale product < DivisionPrecision -> (0 < pmax)%Q ->
  (0 <= dval (bo_Funds t))%Q -> StronglySorted (priority (cmpOf SideSell)) ms ->
  Forall (resting SideSell) ms -> Forall (fun m => dval (bo_Price m) <= pmax)%Q ms ->
  (- ((1 # 2) * ulp DivisionPrecision * pmax) <= dval (bo_Funds t'))%Q.
Proof.
  intros HM Hf Hbs Hp Hfunds Hsort Hres Hmax. pose proof (ulp_pos DivisionPrecision ltac:(done)) as Hu.
  assert (Hle : StronglySorted (fun a b => dval (bo_Price a) <= dval (bo_Price b))%Q ms).
  { clear -Hsort L. induction Hsort as [|m ms _ IH Hm]; constructor; [done|].
    eapply Forall_impl; [exact Hm|]. intros b Hb. exact (asc_le _ _ Hb). }
  destruct ms as [|m ms]; [inversion HM; subst; nra|].
  pose proof Hres as [(_&_&_&Hpm) _]%Forall_cons. pose proof Hmax as [Hpmax _]%Forall_cons.
  apply (matches_overspend _ _ _ _ _ _ HM Hf Hbs (dval (bo_Price m)) pmax); [done|done|nra|done|].
  apply Forall_forall. intros b Hb. rewrite Forall_forall in Hres, Hmax.
  destruct (Hres b Hb) as (_&_&?&_). split; [|by split; [apply Hmax|]].
  apply StronglySorted_inv in Hle as [_ Hle]. apply elem_of_cons in Hb as [->|Hb]; [lra|].
  rewrite Forall_forall in Hle. by apply Hle.
Qed.

Lemma book_side_wf o a s : book_repr o a -> valid_side s ->
  StronglySorted (priority (cmpOf s)) (ab_get a s) /\ Forall (resting s) (ab_get a s).
Proof.
  intros R Hs. destruct (book_depth o a s R Hs) as (d & _ & Rd).
  split; [by eapply depth_sorted|apply Rd].
Qed.

Lemma resting_sizes s l : Forall (resting s) l -> Forall (fun m => 0 < dval (bo_Size m))%Q l.
Proof. intros H. eapply Forall_impl; [exact H|]. by intros m (_&_&?&_). Qed.

Lemma limit_sized order : ord_Type order = OrderTypeLimit -> sizedTaker (takerOf order) = true.
Proof. destruct (takerOf_fields order) as (_&_&Et&_). unfold sizedTaker. rewrite Et. by intros ->. Qed.

(** Orders that trade a size: every limit order and the market sells. *)
Lemma sized_iff order : valid_side (ord_Side order) ->
  sizedTaker (takerOf order) = true <->
  ord_Type order = OrderTypeLimit \/ ord_Type order = OrderTypeMarket /\ ord_Side order = SideSell.
Proof.
  intros _. destruct (takerOf_fields order) as (_&Es&Et&_). unfold sizedTaker. rewrite Es, Et.
  by rewrite orb_true_iff, andb_true_iff, !String.eqb_eq.
Qed.

Lemma funded_iff order :
  fundedTaker (takerOf order) = true <-> ord_Type order = OrderTypeMarket /\ ord_Side order = SideBuy.
Proof.
  destruct (takerOf_fields order) as (_&Es&Et&_). unfold fundedTaker. rewrite Es, Et.
  by rewrite andb_true_iff, !String.eqb_eq.
Qed.
End Fresh.

(** ** The demonstration book *)

Module Demo.
#[export] Existing Instance QDecimal.pkg.
#[export] Existing Instance QDecimal.laws.
#[export] Existing Instance SortedList.pkg.
#[export] Existing Instance SortedList.laws.

Definition product : Product := {|
  prod_Id := "BTC-USDT"; prod_CreatedAt := 0; prod_UpdatedAt := 0;
  prod_BaseCurrency := "BTC"; prod_QuoteCurrency := "USDT";
  prod_BaseMinSize := 0%Q; prod_BaseMaxSize := 100%Q; prod_QuoteMinSize := 0%Q; prod_QuoteMaxSize := 100%Q;
  prod_BaseScale := 2; prod_QuoteScale := 2; prod_QuoteIncrement := 0%Q |}.

Definition order (id : Z) (side : Side) (type : OrderType) (tif : TimeInForceType) (size price funds : Q) : Order := {|
  ord_Id := id; ord_CreatedAt := 0; ord_UpdatedAt := 0; ord_ProductId := "BTC-USDT"; ord_UserId := 7;
  ord_ClientOid := ""; ord_Size := size; ord_Funds := funds; ord_FilledSize := 0%Q; ord_ExecutedValue := 0%Q;
  ord_Price := price; ord_FillFees := 0%Q; ord_Type := type; ord_Side := side; ord_TimeInForce := tif;
  ord_TakerFeeRatio := 0%Q; ord_MakerFeeRatio := 0%Q; ord_Status := OrderStatusNew; ord_Settled := false |}.

Definition rest (id : Z) (side : Side) (size price : Q) : BookOrder :=
  newBookOrder (order id side OrderTypeLimit GoodTillCanceled size price 0%Q).

Definition clock (n : Z) : Instant := n.

(** Windows that have left the ids below 1000 behind. *)
Definition windows : list Window := replicate 128 (newWindow 1000 11000).

Definition snapshot (orders : list BookOrder) : orderBookSnapshot := {|
  snap_ProductId := ""; snap_Orders := orders; snap_TradeSeq := 4; snap_LogSeq := 9;
  snap_OrderIdWindows := windows |}.

(** A book with the given resting orders. *)
Definition book (orders : list BookOrder) : orderBook :=
  match Restore (NewOrderBook product) (snapshot orders) with Ok o => o | _ => NewOrderBook product end.

Lemma windows_lookup id : windows !! Z.to_nat (GetTableIndexByOrderId id) = Some (newWindow 1000 11000).
Proof. pose proof (GetTableIndexByOrderId_range id). apply lookup_replicate. split; [done|lia]. Qed.

Lemma windows_refused id : ws_refused windows id <-> id < 1000.
Proof.
  unfold ws_refused. rewrite windows_lookup. split; [|by left]. intros [H|H]; [exact H|].
  exfalso. by apply newWindow_seen in H.
Qed.

Lemma windows_wf : ws_wf windows.
Proof. split; [done|]. apply Forall_replicate. apply newWindow_wf; unfold u64_size; lia. Qed.

Lemma book_repr_demo (bids asks : list BookOrder) :
  NoDup (bo_OrderId <$> bids ++ asks) -> Forall (fun id => 0 <= id < 1000) (bo_OrderId <$> bids ++ asks) ->
  StronglySorted (priority (cmpOf SideBuy)) bids -> Forall (resting SideBuy) bids ->
  StronglySorted (priority (cmpOf SideSell)) asks -> Forall (resting SideSell) asks ->
  let o := book (asks ++ bids) in
  book_repr o {| ab_bids := bids; ab_asks := asks |} /\ ob_orderIdWindows o = windows /\
  ob_product o = product /\ ob_logSeq o = 9 /\ ob_tradeSeq o = 4.
Proof.
  intros Hnd Hids Sb Rb Sa Ra. unfold book.
  destruct (restore_repr product (asks ++ bids) {| ab_bids := bids; ab_asks := asks |} windows 9 4)
    as (o & E & R & E1 & E2 & E3 & E4).
  - apply windows_wf.
  - exact Hnd.
  - eapply Forall_impl; [exact Hids|]. intros id Hid. split; [unfold window_id, u64_size; simpl in *; lia|].
    apply windows_refused. simpl in Hid. lia.
  - intros s [->| ->]; done.
  - done.
  - unfold snapshot. rewrite E. done.
Qed.

(** Two bids and three asks, in matching priority. *)
Definition bids : list BookOrder := [rest 11 SideBuy 2 99; rest 12 SideBuy 1 98].
Definition asks : list BookOrder := [rest 13 SideSell 1 100; rest 14 SideSell 2 100; rest 15 SideSell 5 102].
Definition ab : AbsBook := {| ab_bids := bids; ab_asks := asks |}.
Definition ob : orderBook := book (asks ++ bids).

Ltac demo_resting := repeat constructor; simpl; try (unfold Qlt; simpl; lia).

Lemma ob_repr : book_repr ob ab /\ ob_orderIdWindows ob = windows /\
  ob_product ob = product /\ ob_logSeq ob = 9 /\ ob_tradeSeq ob = 4.
Proof.
  apply book_repr_demo.
  - apply (bool_decide_unpack _). by vm_compute.
  - apply (bool_decide_unpack _). by vm_compute.
  - repeat constructor.
  - demo_resting.
  - repeat constructor.
  - demo_resting.
Qed.

(** Its trees are never evaluated. *)
#[global] Opaque ob.

Lemma order_ok_limit id side tif size price funds : 0 <= id < 100000 -> valid_side side -> (0 < price)%Q ->
  order_ok (order id side OrderTypeLimit tif size price funds).
Proof. intros. split; [unfold window_id, u64_size; simpl; lia|done|by left]. Qed.
Lemma order_ok_market id side tif size price funds : 0 <= id < 100000 -> valid_side side ->
  order_ok (order id side OrderTypeMarket tif size price funds).
Proof. intros. split; [unfold window_id, u64_size; simpl; lia|done|by right]. Qed.
Lemma ob_fresh id : 1000 <= id -> ~ ws_refused (ob_orderIdWindows ob) id.
Proof. destruct ob_repr as (_ & -> & _). rewrite windows_refused. lia. Qed.
End Demo.
