(* ===== verification/EngineTheorems.v ===== *)
(** The theorems on the running engine of [src/matching/engine.go]: what holds
    in every interleaving of its goroutines, and three interleavings in which
    an order or a log is lost. *)
From S2P Require Import Prelude Decimal TreeMap Models Window MatchLog OrderBook DepthInv Matching Book Trading Applier.
From S2P Require Import Snapshots BookEquiv Engine EngineInv Observe.
From Stdlib Require Import QArith Lqa.
From stdpp Require Import list.
Open Scope string_scope.
Open Scope list_scope.
Open Scope Z_scope.

(** A step that is taken or has to wait. *)
Definition goes {A} (m : outcome blocked A) : Prop := (exists a, m = Ok a) \/ m = Err Blocked.

Lemma Ok_goes {A} (a : A) : goes (Ok a).
Proof. left. by exists a. Qed.
Lemma wait_goes {A} : goes (Err Blocked : outcome blocked A).
Proof. by right. Qed.
Lemma bind_goes {A B} (m : outcome blocked A) (f : A -> outcome blocked B) : goes m -> (forall a, m = Ok a -> goes (f a)) -> goes (m ≫= f).
Proof. intros [[a ->]| ->] Hf; [by apply Hf|apply wait_goes]. Qed.
Lemma send_goes {A} cap (ch : list A) x : goes (send cap ch x).
Proof. unfold send. case_bool; [apply Ok_goes|apply wait_goes]. Qed.
Lemma recv_goes {A} (ch : list A) : goes (recv ch).
Proof. destruct ch; [apply wait_goes|apply Ok_goes]. Qed.
Lemma mret_goes {A} (a : A) : goes (mret a).
Proof. apply Ok_goes. Qed.
#[export] Hint Resolve Ok_goes wait_goes mret_goes send_goes recv_goes : go.

Section Lemmas.
Context {P : DecimalPkg} {L : DecimalLaws P} {T : TreeMapPkg} {TL : TreeMapLaws T}.

Lemma approvePending_goes seq pending ch : goes (approvePending seq pending ch).
Proof.
  unfold approvePending. destruct pending as [s|]; [|apply Ok_goes]. case_bool; [|apply Ok_goes].
  apply bind_goes; auto with go.
Qed.

(** The part of a sorted list behind a prefix. *)
Lemma sorted_suffix p (d : list offsetOrder) m l topic :
  StronglySorted (fun m m' => oo_Offset m < oo_Offset m') topic ->
  filter (fun x => p <= oo_Offset x) topic = (d ++ [m]) ++ l ->
  filter (fun x => oo_Offset m + 1 <= oo_Offset x) topic = l.
Proof.
  revert p. induction d as [|x d IH]; intros p Hs H; simpl in H.
  - by eapply filter_next.
  - apply (IH (oo_Offset x + 1)); [done|]. by eapply filter_next.
Qed.

Lemma seqZ_take m n k : (n <= k)%nat -> take n (seqZ m (Z.of_nat k)) = seqZ m (Z.of_nat n).
Proof.
  intros H. apply list_eq. intros i. destruct (decide (i < n)%nat) as [Hi|Hi].
  - rewrite lookup_take_lt by done. by rewrite !lookup_seqZ_lt by lia.
  - rewrite lookup_take_ge by lia. by rewrite lookup_seqZ_ge by lia.
Qed.

(** Offsets tell prefixes of a sorted list apart. *)
Lemma prefix_by_offset (d d' l : list offsetOrder) :
  StronglySorted (fun m m' => oo_Offset m < oo_Offset m') ((d ++ d') ++ l) ->
  0 < lastOffset d -> lastOffset (d ++ d') = lastOffset d -> d' = [].
Proof.
  intros Hs Hpos Hl. destruct d' as [|x d'] using rev_ind; [done|exfalso]. clear IHd'.
  rewrite app_assoc, lastOffset_snoc in Hl. unfold lastOffset in Hl, Hpos.
  destruct (last d) as [m|] eqn:Hd; [|done].
  apply StronglySorted_app in Hs as (_ & Hs & _).
  apply StronglySorted_app in Hs as (Hlt & _ & _).
  specialize (Hlt m x (last_Some_elem_of _ _ Hd) ltac:(set_solver)). simpl in Hlt. lia.
Qed.

Lemma work_sorted e0 : StronglySorted (fun m m' => oo_Offset m < oo_Offset m') (e_orderTopic e0) ->
  StronglySorted (fun m m' => oo_Offset m < oo_Offset m') (work e0).
Proof.
  unfold work. induction 1 as [|x topic _ IH Hx]; [constructor|].
  destruct (decide (e_fetchPos e0 <= oo_Offset x)) as [Hp|Hp];
    [rewrite filter_cons_True by done|by rewrite filter_cons_False].
  constructor; [done|]. apply Forall_forall. intros y [_ Hy]%list_elem_of_filter.
  rewrite Forall_forall in Hx. by apply Hx.
Qed.
End Lemmas.

Section Theorems.
Context {P : DecimalPkg} {L : DecimalLaws P} {T : TreeMapPkg} {TL : TreeMapLaws T}.
Context (now : Z -> Instant) (visit : list BookOrder -> list BookOrder).
Implicit Types (e : engine).

(** What a run has added to the topic. *)
Lemma stored_seqs e0 begun early e worked rest all a c : engine_inv now visit e0 begun early e worked rest all a (Some c) ->
  no_overflow e0 all ->
  exists stored, e_logTopic e = e_logTopic e0 ++ stored /\ stored `prefix_of` drop (length early) all /\
    GetSeq <$> stored = seqZ (ob_logSeq (e_OrderBook e0) + Z.of_nat (length early) + 1) (Z.of_nat (length stored)).
Proof.
  intros [] Hno. destruct (ei_commit Hno) as (received & stored & [Et El En _ _]). exists stored. split; [done|].
  assert (Hp : stored `prefix_of` drop (length early) all).
  { rewrite El. destruct (decide (length early <= length received)%nat) as [Hle|Hgt].
    - rewrite drop_app_le, En by done. rewrite <- !app_assoc. by apply prefix_app_r.
    - rewrite drop_ge in En by lia. symmetry in En. apply app_eq_nil in En as [-> _]. apply prefix_nil. }
  split; [done|]. destruct Hno as [H0 Hb]. destruct (numbered_seqZ _ _ _ ei_numbered H0 Hb) as [E _].
  apply list_eq. intros i. rewrite list_lookup_fmap. destruct (stored !! i) as [l|] eqn:Hi; cbn.
  - pose proof (lookup_lt_Some _ _ _ Hi) as Hlt. rewrite lookup_seqZ_lt by lia.
    assert (Hl : all !! (length early + i)%nat = Some l) by (rewrite <- lookup_drop; by eapply prefix_lookup_Some).
    assert (Hs : (GetSeq <$> all) !! (length early + i)%nat = Some (GetSeq l)) by (by rewrite list_lookup_fmap, Hl).
    rewrite E in Hs. apply lookup_seqZ in Hs as [-> _]. f_equal. lia.
  - rewrite lookup_seqZ_ge; [done|]. apply lookup_ge_None in Hi. lia.
Qed.

Lemma life_inv e0 e : lifeOf now visit e0 e -> exists begun early, inv now visit e0 begun early e.
Proof. intros [_ I|e1 e2 begun early _ _ _ _ _ I]; eauto. Qed.

(** C14: in every interleaving of the goroutines of an engine from its creation
    on, the orders are worked one by one in topic order.  Until the committer's
    goroutine has started nothing is added to the log topic; what is worked
    before that moment ([begun], with the logs [early]) never gets there, for
    the committer reads the book's number when it starts and takes those logs
    for duplicates.  From there on the topic receives exactly the logs of the
    work, in order, each once: what it holds beyond its old contents is a prefix
    of the logs after the early ones, numbered without a gap.  If the committer
    starts before the first order is worked, no log is early. *)
Theorem log_topic_contiguous e0 e : (forall l, visit l ≡ₚ l) -> created e0 -> reach now visit e0 e ->
  exists worked all, worked `prefix_of` work e0 /\
    runOrders now (e_OrderBook e0) (oo_Order <$> worked) = Ok (e_OrderBook e, all) /\
    (e_committer e = None /\ e_logTopic e = e_logTopic e0 \/
     exists e1 e2 begun early, reach now visit e0 e1 /\ committerStartStep e1 = Ok e2 /\ reach now visit e2 e /\
       begun `prefix_of` worked /\ runOrders now (e_OrderBook e0) (oo_Order <$> begun) = Ok (e_OrderBook e1, early) /\
       early `prefix_of` all /\
       (no_overflow e0 all -> exists stored, e_logTopic e = e_logTopic e0 ++ stored /\
          stored `prefix_of` drop (length early) all /\
          GetSeq <$> stored = seqZ (ob_logSeq (e_OrderBook e0) + Z.of_nat (length early) + 1) (Z.of_nat (length stored)))).
Proof.
  intros Hv F R. destruct (reach_life now visit e0 e Hv F R) as [Hc (worked & rest & all & a & oc & I)|
    e1 e2 begun early [c Hc] R1 E R2 Hrun (worked & rest & all & a & oc & I)]; pose proof (ei_committer _ _ _ _ _ _ _ _ _ _ _ I) as Eoc;
    rewrite Hc in Eoc; subst oc; exists worked, all; (split; [rewrite (ei_work _ _ _ _ _ _ _ _ _ _ _ I); by apply prefix_app_r|]);
    (split; [apply I|]).
  - left. split; [done|]. apply (ei_commit _ _ _ _ _ _ _ _ _ _ _ I).
  - right. exists e1, e2, begun, early. do 3 (split; [done|]). split; [apply I|]. split; [done|]. split; [apply I|]. by eapply stored_seqs.
Qed.

(** C15: from its creation on, an engine on a topic of orders it can take never
    crashes and never loops: in every state its goroutines can bring it to,
    every step of every goroutine is taken or has to wait on a channel.  The one
    exception is a log store that fails, which is fatal by intention.  (An order
    with an unknown side is none it can take: [unknown_side_stops_engine].) *)
Theorem engine_never_crashes e0 e ev : (forall l, visit l ≡ₚ l) -> created e0 -> reach now visit e0 e ->
  ev <> EvCommitFails -> (exists e', estep now visit ev e = Ok e') \/ estep now visit ev e = Err Blocked.
Proof.
  intros Hv F R Hev. destruct (life_inv _ _ (reach_life now visit e0 e Hv F R)) as (begun & early & worked & rest & all & a & oc & []).
  change (goes (estep now visit ev e)). destruct ev; cbn [estep]; auto with go.
  - unfold fetchStep. destruct (FetchOrder _ _); [|auto with go]. apply bind_goes; auto with go.
  - unfold applyStep. destruct (e_applierAt e); [|auto with go].
    destruct (e_orderCh e) as [|m ch] eqn:Hch; [auto with go|]. cbn [recv mbind outcome_bind].
    assert (Hm : order_ok (oo_Order m)) by (eapply (work_ok visit e0 (id_sorted _ (cr_idle _ F)) (id_orders _ (cr_idle _ F)) Hv); rewrite ?Hch in ei_work; exact ei_work).
    destruct (applyOffsetOrder_ok now _ _ _ ei_book Hm) as (o & a' & logs & -> & _). apply Ok_goes.
  - unfold sendLogStep. destruct (e_applierAt e) as [|[|]]; auto with go. apply bind_goes; auto with go.
  - unfold snapshotRequestStep. destruct (e_applierAt e); [|auto with go].
    apply bind_goes; [auto with go|]. intros [s ch] _. case_bool; [auto with go|].
    destruct (Snapshot_Restore_same visit _ _ Hv ei_book) as (snap & _ & -> & _). cbn [fatalErr].
    apply (bind_goes (Ok snap)); [auto with go|]. intros ? _. apply bind_goes; auto with go.
  - unfold committerStartStep. destruct (e_committer e); auto with go.
  - unfold commitStep. destruct (e_committer e); [|auto with go]. apply bind_goes; [auto with go|]. intros [log ch] _.
    case_bool; [auto with go|]. case_bool; [auto with go|]. apply bind_goes; [apply approvePending_goes|]. intros [] _. auto with go.
  - done.
  - unfold approveStep. destruct (e_committer e); [|auto with go]. apply bind_goes; [auto with go|]. intros [s ch] _.
    case_bool; [|auto with go]. apply bind_goes; auto with go.
  - unfold timerStep. apply bind_goes; auto with go.
  - unfold storeSnapshotStep. apply bind_goes; [auto with go|]. intros [s ch] _. auto with go.
  - unfold storeSnapshotStep. apply bind_goes; [auto with go|]. intros [s ch] _. auto with go.
Qed.

(** Every snapshot that is stored holds the orders and the sequence numbers
    of the book after a prefix of the orders worked, and that prefix's offset;
    the committer has received every log up to its sequence number.  Its windows
    may be those of a later book. *)
Theorem stored_snapshot_is_prefix e0 e e' : (forall l, visit l ≡ₚ l) -> started e0 -> reach now visit e0 e ->
  estep now visit EvStoreSnapshot e = Ok e' ->
  exists d b logs snap s, d `prefix_of` work e0 /\
    runOrders now (e_OrderBook e0) (oo_Order <$> d) = Ok (b, logs) /\ Snapshot visit b = Ok snap /\
    e_snapshotStore e' = Some s /\ es_OrderOffset s = lastOffset d /\
    snap_Orders (es_OrderBookSnapshot s) = snap_Orders snap /\ snapshotLogSeq s = ob_logSeq b /\
    snap_TradeSeq (es_OrderBookSnapshot s) = ob_tradeSeq b /\
    snap_OrderIdWindows (es_OrderBookSnapshot s) = ob_orderIdWindows (e_OrderBook e) /\
    exists c all, e_committer e = Some c /\ (no_overflow e0 all -> snapshotLogSeq s <= c_seq c).
Proof.
  intros Hv S R H. destruct (reach_inv now visit e0 e Hv S R) as (worked & rest & all & a & oc & []).
  simpl in H. unfold storeSnapshotStep in H. destruct (e_snapshotCh e) as [|s ch] eqn:Hch; [done|].
  destruct oc as [c|]; [|by destruct ei_commit as [_ _ Hnone _]; rewrite Hch in Hnone].
  injection H as <-. apply Forall_cons in ei_snapshots as [(d & d' & Ed & b & logs & Erun & Esnap & Eoff) _].
  assert (exists sn, Snapshot visit b = Ok sn /\ snap_LogSeq sn = ob_logSeq b /\ snap_TradeSeq sn = ob_tradeSeq b)
    as (sn & E & El & Et).
  { unfold Snapshot in *. destruct (ob_depths b !! SideSell), (ob_depths b !! SideBuy); try done. eexists. split; [reflexivity|done]. }
  rewrite E in Esnap. injection Esnap as ->.
  exists d, b, logs, (es_OrderBookSnapshot s). eexists. split; [rewrite ei_work, Ed, <- app_assoc; by apply prefix_app_r|].
  do 8 (split; [done|]). exists c, all. split; [done|]. intros Hno.
  destruct (ei_commit Hno) as (received & stored & [_ _ _ _ Hc]). rewrite Hch in Hc. by apply Forall_cons in Hc as [? _].
Qed.

(** C18: a restart from a snapshot that is written before another order is worked
    continues where the engine was: the new engine's book cannot be told from
    the old one, and the orders it works are exactly the rest. *)
Theorem restart_continues e0 e e' s ch : (forall l, visit l ≡ₚ l) -> started e0 -> reach now visit e0 e ->
  e_applierAt e = ApplierSelect -> e_snapshotCh e = s :: ch -> es_OrderOffset s = e_applierOffset e ->
  0 < es_OrderOffset s < i64_half - 1 -> estep now visit EvStoreSnapshot e = Ok e' ->
  exists e1 worked, NewEngine (ob_product (e_OrderBook e)) (e_orderTopic e') (e_logTopic e') (e_snapshotStore e') = Ok e1 /\
    e_OrderBook e1 ≡b e_OrderBook e /\ work e0 = worked ++ work e1 /\
    (exists all, runOrders now (e_OrderBook e0) (oo_Order <$> worked) = Ok (e_OrderBook e, all)).
Proof.
  intros Hv S R Hat Hch Heq Hpos H. destruct (reach_inv now visit e0 e Hv S R) as (worked & rest & all & a & c & []).
  simpl in H. unfold storeSnapshotStep in H. rewrite Hch in H. injection H as <-. rewrite Hat in ei_offset.
  rewrite Hch in ei_snapshots. apply Forall_cons in ei_snapshots as [(d & d' & Ed & b & logs & Erun & Esnap & Eoff) _].
  pose proof (work_sorted e0 (id_sorted _ (st_idle _ S))) as Hsort. rewrite ei_work, Ed in Hsort.
  assert (d' = []) as ->.
  { apply (prefix_by_offset _ _ _ Hsort); [lia|]. rewrite <- Ed. congruence. }
  rewrite app_nil_r in Ed. subst d. rewrite ei_run in Erun. injection Erun as <- <-.
  destruct (Snapshot_Restore_same visit _ _ Hv ei_book) as (snap & o & E & El & Ew & Er & Sa).
  rewrite E in Esnap. injection Esnap as Esnap.
  assert (Hlive : withLiveWindows (e_OrderBook e) s = s).
  { unfold withLiveWindows. destruct s as [sb off]. simpl in *. subst sb. rewrite <- Ew. by destruct snap. }
  cbn [e_orderTopic e_logTopic e_snapshotStore e_setSnapshots]. unfold NewEngine.
  rewrite Hlive, <- Esnap, Er. go_red. eexists _, worked. split; [done|].
  split; [exists a; destruct Sa; constructor; (done || by symmetry)|]. split; [|by exists all].
  rewrite ei_work. f_equal. unfold work. cbn [e_fetchPos e_orderTopic]. rewrite (proj2 (Z.ltb_lt _ _)) by lia.
  rewrite i64_id by (unfold is_i64; lia).
  destruct worked as [|m worked _] using rev_ind; [unfold lastOffset in Eoff; simpl in Eoff; lia|].
  rewrite Eoff, lastOffset_snoc. symmetry. rewrite ei_topic.
  eapply sorted_suffix; [apply (st_idle _ S)|exact ei_work].
Qed.
End Theorems.

(** ** Runs of a small engine *)

Section Runs.
Import Demo.

#[local] Abbreviation run := (erun clock (@rev BookOrder)).

(** Two resting orders; older messages of the topic have been deleted. *)
Definition runOrder1 : Order := order 1 SideBuy OrderTypeLimit GoodTillCanceled 1 10 0.
Definition runOrder2 : Order := order 2 SideSell OrderTypeLimit GoodTillCanceled 3 20 0.
Definition runTopic : list offsetOrder :=
  [{| oo_Offset := 5000; oo_Order := runOrder1 |}; {| oo_Offset := 5001; oo_Order := runOrder2 |}].


(** The engine before and after its committer has started. *)
Definition engineStart : engine := {|
  e_OrderBook := NewOrderBook product; e_fetchPos := 0; e_orderCh := []; e_logCh := []; e_snapshotReqCh := [];
  e_snapshotApproveReqCh := []; e_snapshotCh := []; e_applierAt := ApplierSelect; e_applierOffset := 0;
  e_committer := None; e_snapshotsOffset := 0; e_orderTopic := runTopic; e_logTopic := []; e_snapshotStore := None |}.
Definition engine0 : engine := getOk engineStart (run [EvCommitterStart] engineStart).

Lemma engineStart_new : NewEngine product runTopic [] None = Ok engineStart.
Proof. reflexivity. Qed.

Lemma runTopic_ok : Forall (fun m => order_ok (oo_Order m)) runTopic.
Proof. repeat constructor; simpl; try (unfold u64_size; lia); left; done. Qed.

Lemma engineStart_created : created engineStart.
Proof.
  constructor; [|done]. constructor; try done; [exists ab_empty; apply NewOrderBook_ok|apply runTopic_ok|repeat constructor].
Qed.

Lemma engine0_started : started engine0.
Proof.
  constructor; [|done]. constructor; try done; [exists ab_empty; apply NewOrderBook_ok|apply runTopic_ok|repeat constructor].
Qed.

(** Both orders worked, a snapshot approved. *)
Definition goodRun : list event :=
  [EvFetch; EvApply; EvSendLog; EvSendLog; EvTimer; EvSnapshotRequested; EvCommit; EvApprove].
Definition engine1 : engine := getOk engine0 (run goodRun engine0).

Lemma engine1_run : run goodRun engine0 = Ok engine1.
Proof. apply isOk_get. vm_compute. reflexivity. Qed.

Lemma rev_perm {A} (l : list A) : rev l ≡ₚ l.
Proof. apply Permutation_sym, Permutation_rev. Qed.

Lemma engine1_reach : reach clock (@rev BookOrder) engine0 engine1.
Proof. eapply erun_reach; [constructor|exact engine1_run]. Qed.

Lemma engine1_snapshots : exists s, e_snapshotCh engine1 = [s] /\ es_OrderOffset s = 5000.
Proof.
  assert (es_OrderOffset <$> e_snapshotCh engine1 = [5000]) as H by (vm_compute; reflexivity).
  destruct (e_snapshotCh engine1) as [|s [|]]; try done. exists s. by injection H.
Qed.

(** The same run from the creation on. *)
Lemma engine1_created_reach : reach clock (@rev BookOrder) engineStart engine1.
Proof.
  eapply (erun_reach _ _ (EvCommitterStart :: goodRun)); [constructor|]. change (erun clock (@rev BookOrder) (EvCommitterStart :: goodRun) engineStart)
    with (run goodRun engine0). exact engine1_run.
Qed.

Lemma log_topic_contiguous_witness :
  GetSeq <$> e_logTopic engine1 = [1] /\
  exists worked all, worked `prefix_of` work engineStart /\
    runOrders clock (e_OrderBook engineStart) (oo_Order <$> worked) = Ok (e_OrderBook engine1, all).
Proof.
  split; [vm_compute; reflexivity|].
  destruct (log_topic_contiguous clock (@rev BookOrder) engineStart engine1 rev_perm engineStart_created engine1_created_reach)
    as (worked & all & H1 & H2 & _).
  exists worked, all. split; [exact H1|exact H2].
Defined.

Lemma engine_never_crashes_witness :
  (exists e, estep clock (@rev BookOrder) EvApply engine1 = Ok e) \/ estep clock (@rev BookOrder) EvApply engine1 = Err Blocked.
Proof.
  apply (engine_never_crashes clock (@rev BookOrder) engineStart engine1 EvApply rev_perm engineStart_created engine1_created_reach).
  discriminate.
Defined.

Lemma engine1_store : exists e, estep clock (@rev BookOrder) EvStoreSnapshot engine1 = Ok e.
Proof.
  destruct engine1_snapshots as (s & Hs & _). simpl. unfold storeSnapshotStep. rewrite Hs. by eexists.
Qed.

Lemma stored_snapshot_is_prefix_witness :
  exists e s d, estep clock (@rev BookOrder) EvStoreSnapshot engine1 = Ok e /\ e_snapshotStore e = Some s /\
    d `prefix_of` work engine0 /\ es_OrderOffset s = lastOffset d.
Proof.
  destruct engine1_store as [e He].
  destruct (stored_snapshot_is_prefix clock (@rev BookOrder) engine0 engine1 e rev_perm engine0_started engine1_reach He)
    as (d & b & logs & snap & s & H1 & _ & _ & H2 & H3 & _).
  exists e, s, d. split; [exact He|]. split; [exact H2|]. split; [exact H1|exact H3].
Defined.

Lemma restart_continues_witness :
  exists e e1, estep clock (@rev BookOrder) EvStoreSnapshot engine1 = Ok e /\
    NewEngine (ob_product (e_OrderBook engine1)) (e_orderTopic e) (e_logTopic e) (e_snapshotStore e) = Ok e1 /\
    e_OrderBook e1 ≡b e_OrderBook engine1.
Proof.
  destruct engine1_store as [e He]. destruct engine1_snapshots as (s & Hs & Hoff).
  assert (Hat : e_applierAt engine1 = ApplierSelect) by (vm_compute; reflexivity).
  assert (Happ : es_OrderOffset s = e_applierOffset engine1) by (rewrite Hoff; vm_compute; reflexivity).
  assert (Hpos : 0 < es_OrderOffset s < i64_half - 1) by (rewrite Hoff; unfold i64_half; lia).
  destruct (restart_continues clock (@rev BookOrder) engine0 engine1 e s [] rev_perm engine0_started engine1_reach
    Hat Hs Happ Hpos He) as (e1 & worked & H1 & H2 & _).
  exists e, e1. split; [exact He|]. split; [exact H1|exact H2].
Defined.

(** A committer whose goroutine first runs after the applier has worked an
    order reads a sequence number that is already too high, and drops that
    order's logs as duplicates: log 1 never reaches the topic, log 2 does. *)
Theorem late_committer_loses_log : exists e,
  run [EvFetch; EvApply; EvSendLog; EvSendLog; EvCommitterStart; EvCommit; EvFetch; EvApply; EvSendLog; EvCommit]
    engineStart = Ok e /\
  GetSeq <$> e_logTopic e = [2] /\ e_logCh e = [] /\ ob_logSeq (e_OrderBook e) = 2.
Proof.
  eexists. split; [apply (isOk_get engineStart); vm_compute; reflexivity|].
  split; [vm_compute; reflexivity|]. split; vm_compute; reflexivity.
Qed.

(** A snapshot can be stored while logs before it are still in the
    committer's buffer: the committer counts them as received, not as stored.
    A crash at that point loses them, for the restarted engine's book is
    already past them. *)
Theorem snapshot_before_logs : exists e,
  run [EvFetch; EvApply; EvSendLog; EvSendLog; EvTimer; EvSnapshotRequested; EvFetch; EvApply; EvSendLog;
       EvCommit; EvApprove; EvStoreSnapshot] engine0 = Ok e /\
  e_logTopic e = [] /\ snapshotLogSeq <$> e_snapshotStore e = Some 1 /\
  (fun e1 => ob_logSeq (e_OrderBook e1)) <$> NewEngine product (e_orderTopic e) (e_logTopic e) (e_snapshotStore e) = Ok 1.
Proof.
  eexists. split; [apply (isOk_get engineStart); vm_compute; reflexivity|].
  split; [vm_compute; reflexivity|]. split; vm_compute; reflexivity.
Qed.

(** The engine that is restarted works the rest of the topic. *)
Definition restartRun (e : engine) : outcome blocked engine :=
  e1 ← fatalErr (NewEngine product (e_orderTopic e) (e_logTopic e) (e_snapshotStore e));
  run [EvCommitterStart; EvFetch; EvApply; EvSendLog] e1.

(** The windows of a snapshot are those of the running book.  An order that
    is worked between the snapshot and its storing is therefore in the stored
    windows but not in the stored book; after a crash it is delivered again,
    refused as a duplicate, and lost: neither the book nor the log has it. *)
Theorem shared_windows_lose_order : exists e e2,
  run [EvFetch; EvApply; EvSendLog; EvSendLog; EvTimer; EvSnapshotRequested; EvCommit; EvApprove;
       EvFetch; EvApply; EvStoreSnapshot] engine0 = Ok e /\
  restartRun e = Ok e2 /\ oo_Offset <$> e_orderTopic e2 = [5000; 5001] /\ e_fetchPos e2 = 5002 /\ e_orderCh e2 = [] /\
  GetSeq <$> e_logTopic e2 = [1] /\ e_logCh e2 = [] /\ e_applierAt e2 = ApplierSelect /\
  ob_depths (e_OrderBook e2) !! SideSell ≫= (fun d => d_orders d !! ord_Id runOrder2) = None.
Proof.
  do 2 eexists. split; [apply (isOk_get engineStart); vm_compute; reflexivity|].
  split; [apply (isOk_get engineStart); vm_compute; reflexivity|].
  do 6 (split; [vm_compute; reflexivity|]). vm_compute. reflexivity.
Qed.
End Runs.
