(* ===== verification/Restarts.v ===== *)
(** The engine across restarts, and what the readers of its log topic make of it.

    A process of the engine ends at any moment, in any state its goroutines can
    be in; the next one starts from the snapshot in the store and goes on
    writing to the same log topic.  It works orders again that the one before
    it had worked, so logs are repeated.  [lives] are the log topics and stores
    such a sequence of processes can leave behind, on two conditions without
    which logs are lost; [restart_read_once] shows that every restart then
    succeeds and that an observer of the topic still sees each sequence number
    once. *)
From S2P Require Import Prelude Decimal TreeMap Models Window MatchLog OrderBook DepthInv Matching Book Trading Applier.
From S2P Require Import Snapshots BookEquiv Engine EngineInv LogReader Observe EngineTheorems.
From Stdlib Require Import QArith Lqa.
From stdpp Require Import list.
Open Scope string_scope.
Open Scope list_scope.
Open Scope Z_scope.

Section Restarts.
Context {P : DecimalPkg} {L : DecimalLaws P} {T : TreeMapPkg} {TL : TreeMapLaws T} (product : Product).
Implicit Types (e : engine) (o : orderBook) (s : EngineSnapshot) (logs : list Log).

(** ** Starting from the store *)

(** A store whose snapshot, if it has one, can be restored. *)
Definition restorable (st : option EngineSnapshot) : Prop :=
  match st with
  | None => True
  | Some s => 0 <= snapshotLogSeq s /\
      exists o a, Restore (NewOrderBook product) (es_OrderBookSnapshot s) = Ok o /\ book_ok o a /\
        ob_product o = product /\ ob_logSeq o = snapshotLogSeq s
  end.

(** The sequence number a restart begins with. *)
Definition storeSeq (st : option EngineSnapshot) : Z := match st with None => 0 | Some s => snapshotLogSeq s end.

Lemma NewEngine_restorable orders logs st : restorable st ->
  exists e, NewEngine product orders logs st = Ok e /\ e_committer e = None /\ ob_product (e_OrderBook e) = product /\
    (exists a, book_ok (e_OrderBook e) a) /\ ob_logSeq (e_OrderBook e) = storeSeq st /\ e_logTopic e = logs /\
    e_snapshotStore e = st /\ e_orderTopic e = orders /\ e_orderCh e = [] /\ e_logCh e = [] /\
    e_snapshotApproveReqCh e = [] /\ e_snapshotCh e = [] /\ e_applierAt e = ApplierSelect /\ e_applierOffset e = 0.
Proof.
  unfold NewEngine. destruct st as [s|]; [intros (_ & o & a & -> & B & Ep & Es)|intros _].
  - eexists. split; [reflexivity|]. repeat (split; [first [done|by eexists]|]). done.
  - eexists. split; [reflexivity|]. repeat (split; [first [done|eexists; apply NewOrderBook_ok]|]). done.
Qed.

(** It is as [created] asks. *)
Lemma NewEngine_created orders logs st e0 : restorable st ->
  Forall (fun m => order_ok (oo_Order m)) orders -> StronglySorted (fun m m' => oo_Offset m < oo_Offset m') orders ->
  NewEngine product orders logs st = Ok e0 ->
  created e0 /\ ob_product (e_OrderBook e0) = product /\ ob_logSeq (e_OrderBook e0) = storeSeq st /\
  e_logTopic e0 = logs /\ e_snapshotStore e0 = st.
Proof.
  intros Hst Hok Hs Hn.
  destruct (NewEngine_restorable orders logs st Hst) as (e & Hn' & Ec & Ep & B & Es & El & Est & Eo & E1 & E2 & E3 & E4 & E5 & E6).
  rewrite Hn in Hn'. injection Hn' as <-. split; [|done]. constructor; [|done]. constructor; rewrite ?Eo; done.
Qed.

(** ** What a process leaves in the store *)

(** The windows of a later book refuse what the book refused. *)
Lemma live_windows now visit o a b o' l orders : (forall l, visit l ≡ₚ l) -> book_ok o a -> Forall order_ok orders ->
  Snapshot visit o = Ok b -> runOrders now o orders = Ok (o', l) ->
  exists o1, Restore (NewOrderBook (ob_product o))
      {| snap_ProductId := snap_ProductId b; snap_Orders := snap_Orders b; snap_TradeSeq := snap_TradeSeq b;
         snap_LogSeq := snap_LogSeq b; snap_OrderIdWindows := ob_orderIdWindows o' |} = Ok o1 /\
    book_ok o1 a /\ ob_product o1 = ob_product o /\ ob_logSeq o1 = ob_logSeq o /\ snap_LogSeq b = ob_logSeq o.
Proof.
  intros Hv B Hok Hb Hrun. destruct (runOrders_ok now orders o a B Hok) as (o2 & a2 & l2 & E & B2 & _ & _ & Hmono).
  rewrite Hrun in E. injection E as <- <-.
  assert (B' : book_ok (ob_setWindows o (ob_orderIdWindows o')) a).
  { split; [|apply B]. apply book_repr_windows; [apply B|apply B2|exact Hmono]. }
  destruct (Snapshot_Restore_same visit _ _ Hv B') as (snap & o1 & Es & El & Ew & Er & Sa).
  assert (E' : snap = {| snap_ProductId := snap_ProductId b; snap_Orders := snap_Orders b; snap_TradeSeq := snap_TradeSeq b;
                         snap_LogSeq := snap_LogSeq b; snap_OrderIdWindows := ob_orderIdWindows o' |} /\ snap_LogSeq b = ob_logSeq o).
  { unfold Snapshot in *. cbn [ob_setWindows ob_depths ob_logSeq ob_tradeSeq ob_orderIdWindows] in Es.
    destruct (ob_depths o !! SideSell), (ob_depths o !! SideBuy); try discriminate. injection Hb as <-. injection Es as <-. done. }
  destruct E' as [-> Elog]. exists o1. split; [exact Er|]. split; [apply Sa|].
  split; [by rewrite <- (sa_product _ _ _ Sa)|]. by rewrite <- (sa_logSeq _ _ _ Sa).
Qed.

(** After a run without overflow the book's number is the count of its logs. *)
Lemma run_logSeq now o a orders o' l : book_ok o a -> Forall order_ok orders -> runOrders now o orders = Ok (o', l) ->
  0 <= ob_logSeq o -> ob_logSeq o + Z.of_nat (length l) < i64_half -> ob_logSeq o' = ob_logSeq o + Z.of_nat (length l).
Proof.
  intros B Hok Hrun H0 Hb. destruct (runOrders_ok now orders o a B Hok) as (o2 & a2 & l2 & E & _ & _ & Hn & _).
  rewrite Hrun in E. injection E as <- <-. by apply (numbered_seqZ _ _ _ Hn).
Qed.

(** A run of a beginning of the orders, and its logs. *)
Lemma run_prefix now o d d' o' l : runOrders now o (d ++ d') = Ok (o', l) ->
  exists o1 l1 l2, runOrders now o d = Ok (o1, l1) /\ runOrders now o1 d' = Ok (o', l2) /\ l = l1 ++ l2.
Proof.
  rewrite runOrders_app. intros H. apply bind_Ok in H as ([o1 l1] & H1 & H). apply bind_Ok in H as ([o2 l2] & H2 & H).
  injection H as <- <-. by exists o1, l1, l2.
Qed.

(** Working all orders of the topic would not use up the sequence numbers. *)
Definition numbers_last now e0 : Prop := exists o l,
  runOrders now (e_OrderBook e0) (oo_Order <$> work e0) = Ok (o, l) /\ ob_logSeq (e_OrderBook e0) + Z.of_nat (length l) < i64_half.

Lemma run_no_overflow now visit e0 begun early e worked rest all a c : engine_inv now visit e0 begun early e worked rest all a c ->
  0 <= ob_logSeq (e_OrderBook e0) -> numbers_last now e0 -> no_overflow e0 all.
Proof.
  intros [] H0 (o & l & Hrun & Hl). split; [done|]. rewrite ei_work, fmap_app in Hrun.
  apply run_prefix in Hrun as (o1 & l1 & l2 & Hr & _ & ->). rewrite ei_run in Hr. injection Hr as _ <-. rewrite length_app in Hl. lia.
Qed.

Lemma store_restorable now visit e0 begun early e : (forall l, visit l ≡ₚ l) -> idle e0 -> inv now visit e0 begun early e ->
  ob_product (e_OrderBook e0) = product -> restorable (e_snapshotStore e0) -> 0 <= ob_logSeq (e_OrderBook e0) ->
  numbers_last now e0 -> restorable (e_snapshotStore e).
Proof.
  intros Hv S (worked & rest & all & a & c & I) Hp Hst H0 Hno.
  apply (run_no_overflow _ _ _ _ _ _ _ _ _ _ _ I H0) in Hno. destruct I, ei_store as [->|(s & d & b' & logs' & -> & (d1 & d2 & -> & b & logs & Hd & Hs & _) & Hb' & [d3 ->])]; [done|].
  assert (Hok : forall l l', l ++ l' = (d1 ++ d2) ++ d3 -> Forall order_ok (oo_Order <$> l)).
  { intros l l' El. pose proof (id_orders _ S) as Ho. rewrite Forall_forall in Ho. apply Forall_fmap, Forall_forall. intros m Hm. cbn.
    apply Ho. assert (Hw : m ∈ work e0) by (rewrite ei_work, <- El; set_solver). unfold work in Hw. by apply list_elem_of_filter in Hw as [_ ?]. }
  destruct (id_book _ S) as [a0 B0].
  rewrite !fmap_app in ei_run. rewrite <- app_assoc in ei_run. apply run_prefix in ei_run as (o1 & l1 & l2 & Hd' & _ & Eall).
  rewrite Hd in Hd'. injection Hd' as <- <-. rewrite fmap_app in Hb'. apply run_prefix in Hb' as (o1 & l3 & l4 & Hd' & Hrun & _).
  rewrite Hd in Hd'. injection Hd' as <- <-.
  destruct (runOrders_ok now (oo_Order <$> d1) _ a0 B0 (Hok d1 (d2 ++ d3) ltac:(by rewrite app_assoc))) as (b1 & a1 & lx & Hd' & B1 & Ep1 & _ & _).
  rewrite Hd in Hd'. injection Hd' as <- <-.
  assert (Hok2 : Forall order_ok (oo_Order <$> d2)).
  { specialize (Hok (d1 ++ d2) d3 eq_refl). rewrite fmap_app in Hok. by apply Forall_app in Hok as [_ ?]. }
  destruct (live_windows now visit b a1 _ b' l4 _ Hv B1 Hok2 Hs Hrun) as (o1 & Hr & Bo & Epo & Elo & Esn).
  assert (Hseq : ob_logSeq b = ob_logSeq (e_OrderBook e0) + Z.of_nat (length logs)).
  { eapply run_logSeq; [exact B0|by apply (Hok d1 (d2 ++ d3)); rewrite app_assoc|exact Hd|done|].
    destruct Hno as [_ Hno]. rewrite Eall, length_app in Hno. lia. }
  split; [unfold snapshotLogSeq; cbn; lia|]. exists o1, a1. cbn. rewrite <- Hp, <- Ep1. split; [exact Hr|].
  split; [exact Bo|]. split; [exact Epo|]. unfold snapshotLogSeq. cbn. congruence.
Qed.

(** ** A topic written by one process after the other *)

(** The log topic as its readers find it. *)
Definition messages logs : list logMessage := imap (fun i l => {| lm_Offset := Z.of_nat i; lm_Log := l |}) logs.
Definition maxSeq logs : Z := foldl Z.max 0 (GetSeq <$> logs).

Lemma imap_seqs (f : nat -> Z) logs : lm_Seq <$> imap (fun i l => {| lm_Offset := f i; lm_Log := l |}) logs = GetSeq <$> logs.
Proof. rewrite fmap_imap. unfold compose, lm_Seq. cbn. revert f. induction logs as [|l logs IH]; intros f; [done|]. cbn. f_equal. apply (IH (f ∘ S)). Qed.

Lemma gap_free_app ms1 : forall last ms2, gap_free last ms1 -> gap_free (foldl Z.max last (lm_Seq <$> ms1)) ms2 ->
  gap_free last (ms1 ++ ms2).
Proof. induction ms1 as [|m ms1 IH]; intros last ms2 H1 H2; [done|]. destruct H1 as [Hm H1]. split; [done|]. by apply IH. Qed.

Lemma gap_free_seqZ ms : forall n last, lm_Seq <$> ms = seqZ (n + 1) (Z.of_nat (length ms)) -> n <= last -> gap_free last ms.
Proof.
  induction ms as [|m ms IH]; intros n last H Hn; [done|]. cbn [length] in H. rewrite seqZ_cons in H by lia. injection H as Hm H.
  split; [lia|]. apply (IH (n + 1)); [|lia]. etrans; [exact H|]. f_equal; lia.
Qed.

Lemma maxSeq_app l1 l2 : maxSeq (l1 ++ l2) = foldl Z.max (maxSeq l1) (GetSeq <$> l2).
Proof. unfold maxSeq. by rewrite fmap_app, foldl_app. Qed.

(** The processes of one engine, one after the other: [now], [visit] and the
    order topic may be others each time.  A process can end before its committer
    has started ([lives_waiting]) or, in whatever state, after it; besides good
    orders in the topic and sequence numbers of 63 bits, two things are then
    asked of it.  When its committer starts, the logs worked so far are in the
    topic already: none have been worked, or those that have are repetitions
    (else they are lost, [late_committer_loses_log]).  And at its end the
    snapshot in the store is not ahead of the log topic (else the logs between
    are lost, [snapshot_before_logs]). *)
Inductive lives : list Log -> option EngineSnapshot -> Prop :=
| lives_new : lives [] None
| lives_expired logs st : lives logs st -> lives logs None
| lives_waiting logs st orders now visit e0 e : lives logs st -> (forall l, visit l ≡ₚ l) ->
    Forall (fun m => order_ok (oo_Order m)) orders -> StronglySorted (fun m m' => oo_Offset m < oo_Offset m') orders ->
    NewEngine product orders logs st = Ok e0 -> reach now visit e0 e -> e_committer e = None ->
    lives (e_logTopic e) (e_snapshotStore e)
| lives_process logs st orders now visit e0 e1 e2 e : lives logs st -> (forall l, visit l ≡ₚ l) ->
    Forall (fun m => order_ok (oo_Order m)) orders -> StronglySorted (fun m m' => oo_Offset m < oo_Offset m') orders ->
    NewEngine product orders logs st = Ok e0 -> reach now visit e0 e1 -> committerStartStep e1 = Ok e2 -> reach now visit e2 e ->
    numbers_last now e0 -> ob_logSeq (e_OrderBook e1) <= maxSeq logs -> storeSeq (e_snapshotStore e) <= maxSeq (e_logTopic e) ->
    lives (e_logTopic e) (e_snapshotStore e).

Record topic_ok logs st : Prop := {
  to_store : restorable st;
  to_behind : storeSeq st <= maxSeq logs;
  to_free : gap_free 0 (messages logs);
  to_range : Forall (fun l => 0 < GetSeq l < i64_half) logs;
}.

Lemma seqZ_range m n logs : GetSeq <$> logs = seqZ m n -> 0 < m -> m + n <= i64_half -> Forall (fun l => 0 < GetSeq l < i64_half) logs.
Proof.
  intros E Hm Hn. apply Forall_forall. intros l Hl. assert (H : GetSeq l ∈ seqZ m n) by (rewrite <- E; by apply list_elem_of_fmap_2).
  apply elem_of_seqZ in H. lia.
Qed.

Lemma maxSeq_nonneg logs : 0 <= maxSeq logs.
Proof.
  unfold maxSeq. assert (H : forall l n, 0 <= n -> 0 <= foldl Z.max n l) by (induction l; cbn; intros; [done|auto with lia]).
  by apply H.
Qed.

(** What a process adds to the topic continues it. *)
Lemma process_topic now visit logs e0 e1 e begun early : idle e0 -> inv now visit e0 begun early e ->
  runOrders now (e_OrderBook e0) (oo_Order <$> begun) = Ok (e_OrderBook e1, early) -> 0 <= ob_logSeq (e_OrderBook e0) ->
  is_Some (e_committer e) -> numbers_last now e0 -> e_logTopic e0 = logs -> ob_logSeq (e_OrderBook e1) <= maxSeq logs ->
  gap_free 0 (messages logs) -> Forall (fun l => 0 < GetSeq l < i64_half) logs ->
  gap_free 0 (messages (e_logTopic e)) /\ Forall (fun l => 0 < GetSeq l < i64_half) (e_logTopic e).
Proof.
  intros Hi (worked & rest & all & a & oc & I) Hrun H0 [c Hc] Hno Hl Hle Hfree Hrange.
  pose proof (ei_committer _ _ _ _ _ _ _ _ _ _ _ I) as Eoc. rewrite Hc in Eoc. subst oc.
  pose proof (run_no_overflow _ _ _ _ _ _ _ _ _ _ _ I H0 Hno) as Hno'. pose proof Hno' as [_ Hb].
  destruct (stored_seqs now visit e0 begun early e worked rest all a c I Hno') as (stored & -> & [later Hall] & Eq).
  destruct (ei_early _ _ _ _ _ _ _ _ _ _ _ I) as [all' Eall]. rewrite Eall, drop_app_length in Hall.
  rewrite Eall, Hall, !length_app in Hb. destruct (id_book _ Hi) as [a0 B0].
  assert (Hok : Forall order_ok (oo_Order <$> begun)).
  { destruct (ei_begun _ _ _ _ _ _ _ _ _ _ _ I) as [w Ew]. pose proof (ei_work _ _ _ _ _ _ _ _ _ _ _ I) as Hw. rewrite Ew in Hw.
    pose proof (id_orders _ Hi) as Ho. rewrite Forall_forall in Ho. apply Forall_fmap, Forall_forall. intros m Hm. apply Ho.
    assert (Hin : m ∈ work e0) by (rewrite Hw; set_solver). unfold work in Hin. by apply list_elem_of_filter in Hin as [_ ?]. }
  rewrite <- (run_logSeq now _ _ _ _ _ B0 Hok Hrun H0) in Eq by lia.
  pose proof (run_logSeq now _ _ _ _ _ B0 Hok Hrun H0 ltac:(lia)) as Hseq. rewrite Hl. split.
  - unfold messages. rewrite imap_app. apply gap_free_app; [done|].
    apply (gap_free_seqZ _ (ob_logSeq (e_OrderBook e1))); rewrite imap_seqs; [by rewrite length_imap|exact Hle].
  - apply Forall_app. split; [done|]. eapply seqZ_range; [exact Eq|lia|lia].
Qed.

Lemma lives_ok logs st : lives logs st -> topic_ok logs st.
Proof.
  induction 1 as [|logs st _ IH|logs st orders now visit e0 e _ IH Hv Hok Hs Hn R Hc|
    logs st orders now visit e0 e1 e2 e _ IH Hv Hok Hs Hn R1 Hc R2 Hno Hle Hb]; [split; cbn; done || lia|..];
    destruct IH as [Hst Hbh Hfree Hrange].
  - split; [done|by apply maxSeq_nonneg|done|done].
  - destruct (NewEngine_created _ _ _ _ Hst Hok Hs Hn) as (F & _ & _ & Hl & Hst1).
    destruct (reach_life now visit e0 e Hv F R) as [_ (worked & rest & all & a & oc & I)|? ? ? ? [c Hs'] _ _ _ _ _]; [|by rewrite Hs' in Hc].
    pose proof (ei_committer _ _ _ _ _ _ _ _ _ _ _ I) as Eoc. rewrite Hc in Eoc. subst oc.
    destruct (ei_commit _ _ _ _ _ _ _ _ _ _ _ I) as [-> _ _ ->]. by rewrite Hl, Hst1.
  - destruct (NewEngine_created _ _ _ _ Hst Hok Hs Hn) as (F & Hp & Hseq & Hl & Hst1).
    assert (H0 : 0 <= ob_logSeq (e_OrderBook e0)) by (rewrite Hseq; destruct st as [s|]; [apply Hst|done]).
    destruct (reach_started now visit e0 e1 e2 e Hv F R1 Hc R2) as (begun & early & Hrun & I).
    assert (His : is_Some (e_committer e)).
    { assert (His : is_Some (e_committer e2)).
      { unfold committerStartStep in Hc. destruct (e_committer e1); [done|]. injection Hc as <-. by eexists. }
      clear -R2 His. induction R2; [done|]. by eapply committer_kept. }
    destruct (process_topic now visit logs e0 e1 e begun early (cr_idle _ F) I Hrun H0 His Hno Hl Hle Hfree Hrange) as [Hf Hr].
    split; [|done|done|done]. eapply store_restorable; rewrite ?Hst1; try done. apply (cr_idle _ F).
Qed.
End Restarts.

(** C16: an engine that is stopped and started again any number of times, with
    the snapshot in the store lost any number of times, since Redis drops it
    after seven days.  On two conditions for every process: when its committer
    starts, the logs worked so far are in the topic already (in particular when
    nothing has been worked), and when it is stopped, the snapshot in the store
    is not ahead of the topic.  A process may be stopped in the middle of
    anything else, also before its committer has started.  Then every further
    start succeeds: the snapshot it finds can be restored, whichever later
    windows are stored with it.  And although the log topic holds logs again,
    whatever an observer does with its logs, reading the topic from the
    beginning does it for one log of each number, 1, 2, 3 and so on, without a
    gap up to the last number in the topic. *)
Theorem restart_read_once {P : DecimalPkg} {L : DecimalLaws P} {T : TreeMapPkg} {TL : TreeMapLaws T} product logs st :
  lives product logs st ->
  (forall orders, exists e, NewEngine product orders logs st = Ok e) /\
  forall (S : Type) (O : LogObserver S) (s : S),
    let ms := messages logs in
    rd_observer <$> Run 0 0 ms s = deliverAll (freshLogs 0 ms) s /\
    lm_Seq <$> freshLogs 0 ms = seqZ 1 (Z.of_nat (length (freshLogs 0 ms))) /\
    forall m, m ∈ ms -> exists m', m' ∈ freshLogs 0 ms /\ lm_Seq m' = lm_Seq m.
Proof.
  intros Hl. destruct (lives_ok product _ _ Hl) as [Hst _ Hfree Hrange]. split.
  { intros orders. destruct (NewEngine_restorable product orders logs st Hst) as (e & He & _). by exists e. }
  intros S O s ms. assert (Hm : Forall (fun m => 0 < lm_Seq m < i64_half) ms).
  { apply Forall_forall. intros m Hin. assert (Hs : lm_Seq m ∈ GetSeq <$> logs) by (rewrite <- (imap_seqs Z.of_nat logs); by apply list_elem_of_fmap_2).
    apply list_elem_of_fmap in Hs as (l & -> & Hin'). rewrite Forall_forall in Hrange. by apply Hrange. }
  assert (Hall : filter (fun m => 0 <= lm_Offset m) ms = ms).
  { apply filter_id. intros m Hin. unfold ms, messages in Hin. apply elem_of_lookup_imap in Hin as (i & l & -> & _). cbn. lia. }
  rewrite Forall_forall in Hm. split; [|split].
  - unfold Run. rewrite Hall. apply readerLoop_deliverAll; [done|]. apply Forall_forall. intros m Hin. specialize (Hm m Hin). unfold is_i64, i64_half in *. lia.
  - by apply freshLogs_seqs.
  - intros m Hin. apply freshLogs_complete; [done|done|]. by apply Hm.
Qed.

(** ** The theorem at work *)

Section Witnesses.
Import Demo.
#[local] Abbreviation run := (erun clock (@rev BookOrder)).

(** An observer that keeps the numbers it is shown. *)
#[local] Instance numbers : LogObserver (list Z) := {|
  OnOpenLog l _ seen := Ok (seen ++ [GetSeq (LOpen l)]);
  OnMatchLog l _ seen := Ok (seen ++ [GetSeq (LMatch l)]);
  OnDoneLog l _ seen := Ok (seen ++ [GetSeq (LDone l)]) |}.

(** The first process stores a snapshot after order 1 and is stopped after
    order 2; the second one works order 2 again. *)
Let firstRun : list event := goodRun ++ [EvStoreSnapshot; EvFetch; EvApply; EvSendLog; EvSendLog; EvCommit].
Let stopped : engine := getOk engineStart (run firstRun engine0).
Let restarted : engine := getOk engineStart (NewEngine product runTopic (e_logTopic stopped) (e_snapshotStore stopped)).
Let restarted0 : engine := getOk engineStart (run [EvCommitterStart] restarted).
Let again : engine := getOk engineStart (run [EvFetch; EvApply; EvSendLog; EvSendLog; EvCommit] restarted0).

Lemma runTopic_good : Forall (fun m => order_ok (oo_Order m)) runTopic /\ StronglySorted (fun m m' => oo_Offset m < oo_Offset m') runTopic.
Proof. split; [exact (id_orders _ (cr_idle _ engineStart_created))|exact (id_sorted _ (cr_idle _ engineStart_created))]. Qed.

Lemma erun_life e0 e1 evs e : isOk (run [EvCommitterStart] e0) = true -> e1 = getOk engineStart (run [EvCommitterStart] e0) ->
  isOk (run evs e1) = true -> e = getOk engineStart (run evs e1) -> committerStartStep e0 = Ok e1 /\ reach clock (@rev BookOrder) e1 e.
Proof.
  intros H1 -> H2 ->. apply (isOk_get engineStart) in H1. cbn [erun estep] in H1.
  split.
  - apply bind_Ok in H1 as (e1 & Hs & H1). cbn [erun estep]. rewrite Hs. reflexivity.
  - eapply erun_reach; [apply reach_here|]. by apply isOk_get.
Qed.


Lemma numbers_few e0 : let r := runOrders clock (e_OrderBook e0) (oo_Order <$> work e0) in
  isOk r = true -> ob_logSeq (e_OrderBook e0) + Z.of_nat (length (getOk (e_OrderBook e0, []) r).2) < i64_half -> numbers_last clock e0.
Proof.
  intros r Hr Hl. apply (isOk_get (e_OrderBook e0, [])) in Hr. unfold r in *. eexists _, _. split; [|exact Hl].
  rewrite Hr at 1. f_equal. apply surjective_pairing.
Qed.

Lemma getOk_eq (m : outcome noerr engine) e : e = getOk engineStart m -> isOk m = true -> m = Ok e.
Proof. intros ->. apply isOk_get. Qed.

Lemma two_lives : lives product (e_logTopic again) (e_snapshotStore again).
Proof.
  destruct runTopic_good as [Hok Hs].
  destruct (erun_life engineStart engine0 firstRun stopped) as [Hc1 Hr1]; [vm_compute; reflexivity|reflexivity|vm_compute; reflexivity|reflexivity|].
  destruct (erun_life restarted restarted0 [EvFetch; EvApply; EvSendLog; EvSendLog; EvCommit] again) as [Hc2 Hr2];
    [vm_compute; reflexivity|reflexivity|vm_compute; reflexivity|reflexivity|].
  assert (Hn : NewEngine product runTopic (e_logTopic stopped) (e_snapshotStore stopped) = Ok restarted)
    by (apply getOk_eq; [reflexivity|vm_compute; reflexivity]).
  refine (lives_process product _ _ _ _ _ _ _ _ _ (lives_process product _ _ _ _ _ _ _ _ _ (lives_new product) rev_perm Hok Hs
    engineStart_new (reach_here _ _ _) Hc1 Hr1 _ _ _) rev_perm Hok Hs Hn (reach_here _ _ _) Hc2 Hr2 _ _ _); try (apply numbers_few; vm_compute; reflexivity); vm_compute; discriminate.
Qed.

Lemma restart_read_once_witness :
  GetSeq <$> e_logTopic again = [1; 2; 2] /\
  rd_observer <$> Run 0 0 (messages (e_logTopic again)) ([] : list Z) = deliverAll (freshLogs 0 (messages (e_logTopic again))) [] /\
  deliverAll (freshLogs 0 (messages (e_logTopic again))) ([] : list Z) = Ok [1; 2].
Proof.
  split; [vm_compute; reflexivity|]. split; [|vm_compute; reflexivity].
  exact (proj1 (proj2 (restart_read_once product _ _ two_lives) (list Z) numbers [])).
Defined.

End Witnesses.
