(* ===== verification/BookTheorems.v ===== *)
(** The theorems on the matching book: what [ApplyOrder], [CancelOrder], the
    dry runs of [src/matching/order_book.go] and the applier of
    [src/matching/engine.go] promise, stated on the logs their readers see. *)
From S2P Require Import Prelude Decimal TreeMap Models Window MatchLog OrderBook DepthInv Matching Book Trading Applier Snapshots Observe.
From Stdlib Require Import QArith Lqa.
From stdpp Require Import list.
Open Scope string_scope.
Open Scope list_scope.
Open Scope Z_scope.

Section Theorems.
Context {P : DecimalPkg} {L : DecimalLaws P} {T : TreeMapPkg} {TL : TreeMapLaws T}.
Context (now : Z -> Instant).
Implicit Types (o : orderBook) (a : AbsBook) (order : Order).

(** C1: any stream of well-formed orders, cancellations and order kinds
    included, runs through the applier without a crash and without exhausting
    a loop; the book it ends with represents two sorted lists of open orders
    with distinct ids, its bids stay below its asks, and the logs carry the
    sequence numbers 1, 2, 3, ... without a gap. *)
Theorem runOrders_safe product (orders : list Order) : Forall order_ok orders ->
  exists o a logs, runOrders now (NewOrderBook product) orders = Ok (o, logs) /\
    book_repr o a /\ uncrossed a /\
    (Z.of_nat (length logs) < i64_half ->
     GetSeq <$> logs = seqZ 1 (Z.of_nat (length logs)) /\ ob_logSeq o = Z.of_nat (length logs)).
Proof.
  intros Hok. destruct (runOrders_ok now orders _ _ (NewOrderBook_ok product) Hok)
    as (o & a & logs & E & [R Hu] & _ & Hn & _).
  exists o, a, logs. do 3 (split; [done|]). intros Hlen.
  destruct (numbered_seqZ logs 0 _ Hn) as [-> ->]; [lia|lia|]. split; [done|lia].
Qed.

(** C2: [ApplyOrder] implements the abstract book.  On an order whose id the
    window refuses it does nothing; on any other it writes exactly the logs
    and counters of [absApply], matching against a priority list, and leaves
    a book that represents the result.  It never panics and its loop ends. *)
Theorem ApplyOrder_refines o a order : book_repr o a -> order_ok order ->
  if decide (ws_refused (ob_orderIdWindows o) (ord_Id order)) then ApplyOrder now o order = Ok (o, [])
  else exists o' a' logs, ApplyOrder now o order = Ok (o', logs) /\
    absApply now (ob_product o) a (ob_logSeq o) (ob_tradeSeq o) (takerOf order)
      = Ok (a', logs, ob_logSeq o', ob_tradeSeq o') /\
    book_repr o' a' /\ ws_refused (ob_orderIdWindows o') (ord_Id order).
Proof.
  intros R Hok. destruct (decide _) as [Hr|Hr]; [by eapply ApplyOrder_refused|].
  destruct (ApplyOrder_repr now o a order R Hok Hr) as (o' & a' & logs & ?&?&?&_&_&?&_). by exists o', a', logs.
Qed.

(** C3: price-time priority.  The makers an order trades with are a prefix of
    the opposite side in priority order; each trade is at the maker's price,
    within the taker's limit and the maker's size; a taker that trades a size
    fills every maker but the last; and if some of it is left, it crosses no
    order that is left. *)
Theorem ApplyOrder_priority o a order :
  book_repr o a -> order_ok order -> ~ ws_refused (ob_orderIdWindows o) (ord_Id order) ->
  let opp := Opposite (ord_Side order) in
  exists o' a' logs pre post, ApplyOrder now o order = Ok (o', logs) /\ book_repr o' a' /\
    ab_get a opp = pre ++ post /\ StronglySorted (priority (cmpOf opp)) (pre ++ post) /\
    Forall2 (fun m ml => ml_MakerOrderId ml = bo_OrderId m /\ ml_Price ml = bo_Price m /\
               pricesCross (ord_Side order) (bo_Price (takerOf order)) (bo_Price m) = true /\
               (dval (ml_Size ml) <= dval (bo_Size m))%Q) pre (matchLogs logs) /\
    post `suffix_of` ab_get a' opp /\
    (sizedTaker (takerOf order) = true -> (0 < dval (ord_Size order))%Q ->
      (forall init ml, matchLogs logs = init ++ [ml] ->
         Forall2 (fun m l => dval (ml_Size l) == dval (bo_Size m))%Q (take (length init) pre) init) /\
      ((dsum (ml_Size <$> matchLogs logs) < dval (ord_Size order))%Q ->
         Forall (fun m => pricesCross (ord_Side order) (bo_Price (takerOf order)) (bo_Price m) = false)
           (ab_get a' opp))).
Proof.
  intros R Hok Hr opp. destruct (takerOf_fields order) as (_ & Eside & _ & Esz & _).
  destruct (ApplyOrder_fresh now o a order R Hok Hr)
    as (o' & logs & fills & t' & rest & mlogs & seq & E & _ & HM & _ & Hlogs & _ & R'). cbv zeta in R'. subst opp.
  destruct (book_side_wf o a (Opposite (ord_Side order)) R (valid_Opposite _)) as [Hsort Hres].
  destruct (matches_prefix _ _ _ _ _ _ HM) as (pre & post & Emk & Hpre & Erest).
  eexists o', _, logs, pre, post. split; [exact E|]. split; [exact R'|].
  rewrite after_opp by apply Hok. split; [done|]. rewrite <- Emk. split; [done|]. split; [|split].
  - eapply Forall2_compose; [exact Hpre|exact (matches_cross_all _ _ _ _ _ _ HM)|exact Hlogs|].
    rewrite Eside. intros m f ml [Em Hle] [Hc _] (_ & -> & -> & -> & _). rewrite Em in *. done.
  - rewrite Erest. by apply suffix_app_r.
  - intros Hs Hpos. split.
    + intros init ml Hinit. eapply init_filled; try done; [rewrite Esz; lra|by eapply resting_sizes].
    + intros Hlt. rewrite (log_sizes _ _ _ Hlogs) in Hlt. pose proof (matches_sizes _ _ _ _ _ _ HM Hs) as Hsum.
      rewrite Esz in Hsum.
      destruct (matches_uncrossed _ _ _ _ _ _ HM Hs ltac:(lra) (resting_sizes _ _ Hres)) as (p & Ep & Hhead).
      rewrite Eside in Hhead. apply sorted_uncrossed; [apply Hok| |done].
      rewrite Ep in Hsort. by apply StronglySorted_app in Hsort as (_ & _ & ?).
Qed.

(** C4: conservation.  What a sized order trades and what is left of it add up
    to its size, trades are positive, and the opposite side of the book
    shrinks by exactly the size traded; a limit order's open or done log
    reports what is left. *)
Theorem ApplyOrder_conserves o a order :
  book_repr o a -> order_ok order -> ~ ws_refused (ob_orderIdWindows o) (ord_Id order) ->
  sizedTaker (takerOf order) = true -> (0 <= dval (ord_Size order))%Q ->
  let opp := Opposite (ord_Side order) in
  exists o' a' logs left, ApplyOrder now o order = Ok (o', logs) /\ book_repr o' a' /\
    (dval (ord_Size order) == dsum (ml_Size <$> matchLogs logs) + dval left)%Q /\
    Forall (fun ml => 0 < dval (ml_Size ml))%Q (matchLogs logs) /\ (0 <= dval left)%Q /\
    (dsum (bo_Size <$> ab_get a opp) == dsum (ml_Size <$> matchLogs logs) + dsum (bo_Size <$> ab_get a' opp))%Q /\
    (ord_Type order = OrderTypeLimit ->
      match last logs with
      | Some (LOpen l) => ol_RemainingSize l = left /\ ~ (dval left == 0)%Q
      | Some (LDone l) => dl_RemainingSize l = left /\ (dval left == 0)%Q
      | _ => False
      end).
Proof.
  intros R Hok Hr Hs Hsz opp. destruct (takerOf_fields order) as (_ & Eside & Ety & Esz & _).
  destruct (ApplyOrder_fresh now o a order R Hok Hr)
    as (o' & logs & fills & t' & rest & mlogs & seq & E & _ & HM & El & Hlogs & _ & R'). cbv zeta in R'. subst opp.
  destruct (book_side_wf o a (Opposite (ord_Side order)) R (valid_Opposite _)) as [_ Hres].
  destruct (matches_sized _ _ _ _ _ _ HM Hs ltac:(by rewrite Esz) (resting_sizes _ _ Hres)) as (Hpos & Hleft & _).
  eexists o', _, logs, (bo_Size t'). split; [exact E|]. split; [exact R'|].
  rewrite after_opp by apply Hok. rewrite (log_sizes _ _ _ Hlogs).
  split; [rewrite <- Esz; by eapply matches_sizes|]. split; [|split; [done|split; [by eapply matches_makers|]]].
  - eapply Forall2_Forall_r; [exact Hlogs|]. eapply Forall_impl; [exact Hpos|].
    intros f Hf ml (_&_&_&->&_). done.
  - intros Hlim. destruct (matches_same _ _ _ _ _ _ HM) as (_&_&_&_&Ety'&_).
    rewrite El, last_snoc. unfold finishLog, takerRests, takerDone. rewrite Ety', Ety, Hlim. simpl.
    destruct (dec_GreaterThan (bo_Size t') dec_Zero) eqn:Eg; simpl; (split; [done|]); dec_lra.
Qed.

(** A market buy spends its funds and at most half a unit of the 16th
    decimal place of the highest price it may meet: [Div] rounds, so the bound
    is not zero. *)
Theorem market_buy_funds o a order pmax :
  book_repr o a -> order_ok order -> ~ ws_refused (ob_orderIdWindows o) (ord_Id order) ->
  ord_Type order = OrderTypeMarket -> ord_Side order = SideBuy -> (0 <= dval (ord_Funds order))%Q ->
  0 <= prod_BaseScale (ob_product o) < DivisionPrecision ->
  (0 < pmax)%Q -> Forall (fun m => dval (bo_Price m) <= pmax)%Q (ab_asks a) ->
  exists o' logs, ApplyOrder now o order = Ok (o', logs) /\
    (dsum ((fun ml => dec_Mul (ml_Size ml) (ml_Price ml)) <$> matchLogs logs)
       <= dval (ord_Funds order) + (1 # 2) * ulp DivisionPrecision * pmax)%Q.
Proof.
  intros R Hok Hr Hm Hb Hf Hbs Hp Hmax. destruct (takerOf_fields order) as (_ & _ & _ & _ & Efu & _).
  destruct (ApplyOrder_fresh now o a order R Hok Hr)
    as (o' & logs & fills & t' & rest & mlogs & seq & E & _ & HM & El & Hlogs & _).
  exists o', logs. split; [done|]. rewrite (log_costs _ _ _ Hlogs). rewrite Hb in HM. simpl in HM.
  assert (Hfund : fundedTaker (takerOf order) = true) by (by apply funded_iff).
  pose proof (matches_funds _ _ _ _ _ _ HM Hfund) as Hsum. rewrite Efu in Hsum.
  destruct (book_side_wf o a SideSell R ltac:(by right)) as [Hsort Hres]. simpl in Hsort, Hres.
  pose proof (asks_overspend _ _ _ _ _ _ pmax HM Hfund Hbs Hp ltac:(by rewrite Efu) Hsort Hres Hmax). lra.
Qed.
End Theorems.

(** ** The theorems at work on the demonstration book *)

Section Witnesses.
Import Demo.

(** A limit buy that takes all of one maker and half of the next. *)
Let buy := order 2000 SideBuy OrderTypeLimit GoodTillCanceled 2 101 0.
Let marketBuy := order 2001 SideBuy OrderTypeMarket GoodTillCanceled 0 0 150.
Let sell := order 2002 SideSell OrderTypeLimit ImmediateOrCancel 1 99 0.

Lemma runOrders_safe_witness :
  Forall order_ok [buy; sell; marketBuy] /\
  exists o a logs, runOrders clock (NewOrderBook product) [buy; sell; marketBuy] = Ok (o, logs) /\
    book_repr o a /\ uncrossed a.
Proof.
  assert (Forall order_ok [buy; sell; marketBuy]) as H.
  { repeat constructor; simpl; try (unfold u64_size; lia); by left. }
  split; [exact H|]. destruct (runOrders_safe clock product [buy; sell; marketBuy] H) as (o & a & logs & E & R & U & _).
  exists o, a, logs. split; [exact E|]. split; [exact R|exact U].
Defined.

Lemma ApplyOrder_refines_witness :
  book_repr ob ab /\ order_ok buy /\
  exists o' a' logs, ApplyOrder clock ob buy = Ok (o', logs) /\ book_repr o' a'.
Proof.
  assert (Hok : order_ok buy) by (apply order_ok_limit; [lia|by left|done]).
  split; [apply ob_repr|]. split; [exact Hok|].
  pose proof (ApplyOrder_refines clock ob ab buy (proj1 ob_repr) Hok) as H.
  destruct (decide _) as [Hr|_]; [exfalso; exact (ob_fresh 2000 ltac:(lia) Hr)|].
  destruct H as (o' & a' & logs & E & _ & R & _). exists o', a', logs. split; [exact E|exact R].
Defined.

Lemma ApplyOrder_priority_witness :
  exists o' logs pre post, ApplyOrder clock ob buy = Ok (o', logs) /\ asks = pre ++ post /\
    Forall2 (fun m ml => ml_MakerOrderId ml = bo_OrderId m) pre (matchLogs logs).
Proof.
  assert (Hok : order_ok buy) by (apply order_ok_limit; [lia|by left|done]).
  destruct (ApplyOrder_priority clock ob ab buy (proj1 ob_repr) Hok (ob_fresh 2000 ltac:(lia)))
    as (o' & a' & logs & pre & post & E & _ & Epp & _ & Hf & _).
  exists o', logs, pre, post. split; [exact E|]. split; [exact Epp|].
  eapply Forall2_impl; [exact Hf|]. by intros m ml [? _].
Defined.

Lemma ApplyOrder_conserves_witness :
  exists o' logs left, ApplyOrder clock ob buy = Ok (o', logs) /\
    (2 == dsum (ml_Size <$> matchLogs logs) + dval left)%Q.
Proof.
  assert (Hok : order_ok buy) by (apply order_ok_limit; [lia|by left|done]).
  destruct (ApplyOrder_conserves clock ob ab buy (proj1 ob_repr) Hok (ob_fresh 2000 ltac:(lia)) eq_refl
    ltac:(done)) as (o' & a' & logs & left & E & _ & Hsum & _).
  exists o', logs, left. split; [exact E|exact Hsum].
Defined.

Lemma market_buy_funds_witness :
  exists o' logs, ApplyOrder clock ob marketBuy = Ok (o', logs) /\
    (dsum ((fun ml => dec_Mul (ml_Size ml) (ml_Price ml)) <$> matchLogs logs)
       <= 150 + (1 # 2) * ulp DivisionPrecision * 102)%Q.
Proof.
  assert (Hok : order_ok marketBuy) by (apply order_ok_market; [lia|by left]).
  refine (market_buy_funds clock ob ab marketBuy 102 (proj1 ob_repr) Hok (ob_fresh 2001 ltac:(lia))
    eq_refl eq_refl ltac:(done) _ ltac:(done) _).
  - destruct ob_repr as (_ & _ & -> & _). unfold DivisionPrecision. simpl. lia.
  - simpl. repeat constructor; unfold Qle; simpl; lia.
Defined.
End Witnesses.
