(* ===== verification/OrderKinds.v ===== *)
(** The theorems on time in force, cancellation, resubmission and restart:
    what the applier of [src/matching/engine.go] promises for each kind of
    order, and where it does not keep its word. *)
From S2P Require Import Prelude Decimal TreeMap Models Window MatchLog OrderBook DepthInv Matching Book Trading Applier Snapshots BookEquiv Observe.
From Stdlib Require Import QArith Lqa.
From stdpp Require Import list.
Open Scope string_scope.
Open Scope list_scope.
Open Scope Z_scope.

Section Lemmas.
Context {P : DecimalPkg} {L : DecimalLaws P} {T : TreeMapPkg} {TL : TreeMapLaws T}.
Context (now : Z -> Instant).
Implicit Types (o : orderBook) (a : AbsBook) (order : Order).

Lemma ab_remove_ids a s b : valid_side s -> NoDup (ab_ids a) -> b ∈ ab_get a s ->
  bo_OrderId b ∉ ab_ids (ab_remove a s (bo_OrderId b)).
Proof.
  intros Hs Hn Hb. unfold ab_remove. rewrite (ab_ids_set _ _ _ Hs), elem_of_app.
  rewrite (ab_ids_perm a s Hs) in Hn. apply NoDup_app in Hn as (_ & Hdisj & _).
  intros [Hin|Hin].
  - apply list_elem_of_fmap in Hin as (b' & E & Hin). apply list_elem_of_filter in Hin as [Hne _].
    by apply Hne.
  - apply (Hdisj (bo_OrderId b)); [by apply list_elem_of_fmap_2|done].
Qed.

Lemma ab_ids_shrink a s rest : valid_side s ->
  (bo_OrderId <$> rest) `sublist_of` (bo_OrderId <$> ab_get a s) ->
  forall id, id ∈ ab_ids (ab_set a s rest) -> id ∈ ab_ids a.
Proof.
  intros Hs Hsub id. rewrite (ab_ids_set _ _ _ Hs), (ab_ids_perm a s Hs), !elem_of_app.
  intros [Hin|?]; [left|by right]. by eapply elem_of_sublist.
Qed.

Lemma fresh_not_in o a id : book_repr o a -> ~ ws_refused (ob_orderIdWindows o) id -> id ∉ ab_ids a.
Proof.
  intros R Hr Hin. pose proof (br_dedup _ _ R) as Hd. rewrite Forall_forall in Hd. by destruct (Hd _ Hin).
Qed.

Lemma matches_nil product t ms t' rest : matches product t ms [] t' rest -> t' = t /\ rest = ms /\ stuck t ms.
Proof. intros H. by inversion H. Qed.

(** The head of the queue decides whether a limit order trades. *)
Lemma no_trade_iff product t ms fills t' rest : matches product t ms fills t' rest ->
  sizedTaker t = true -> (0 < dval (bo_Size t))%Q ->
  fills = [] <-> match ms with [] => True | m :: _ => pricesCross (bo_Side t) (bo_Price t) (bo_Price m) = false end.
Proof.
  intros HM Hs Hsz. split.
  - intros ->. destruct (matches_nil _ _ _ _ _ HM) as (_ & _ & Hst). destruct ms as [|m ms]; [done|].
    destruct Hst as [?|[[_ ?]|Hf]]; [done|lra|]. by rewrite (kind_exclusive t Hs) in Hf.
  - intros Hh. inversion HM as [|? m ? ? ? Htr|? m ? ? ? ? ? ? Htr]; subst; [done| |];
      exfalso; pose proof (tr_cross _ _ _ _ _ Htr); congruence.
Qed.

(** A limit order bigger than the whole opposite side rests. *)
Lemma oversize_rests product t side ms fills t' rest : matches product t ms fills t' rest ->
  Forall (resting side) ms -> bo_Type t = OrderTypeLimit ->
  (dsum (bo_Size <$> ms) < dval (bo_Size t))%Q -> takerRests t' = true.
Proof.
  intros HM Hres Hlim Hsz. assert (Hs : sizedTaker t = true) by (unfold sizedTaker; by rewrite Hlim).
  pose proof (matches_sizes _ _ _ _ _ _ HM Hs) as H1. pose proof (matches_makers _ _ _ _ _ _ HM) as H2.
  assert (0 <= dsum (bo_Size <$> rest))%Q as H3.
  { apply dsum_nonneg. apply Forall_fmap, Forall_forall. intros y Hy.
    by eapply (matches_rest_nonneg _ _ _ _ _ _ side y HM). }
  destruct (matches_same _ _ _ _ _ _ HM) as (_&_&_&_&Ety&_). unfold takerRests. rewrite Ety, Hlim. simpl.
  apply GreaterThan_true. dec_lra.
Qed.

Lemma Forall2_logs_nil t fills mls : Forall2 (logOf t) fills mls -> fills = [] <-> mls = [].
Proof. destruct 1; done. Qed.
End Lemmas.

Section Theorems.
Context {P : DecimalPkg} {L : DecimalLaws P} {T : TreeMapPkg} {TL : TreeMapLaws T}.
Context (now : Z -> Instant).
Implicit Types (o : orderBook) (a : AbsBook) (order : Order).

(** C8: [CancelOrder] removes exactly the order it names, reports its whole
    remaining size as cancelled, and changes nothing when the order does not
    rest on its side; either way the id is never accepted again. *)
Theorem CancelOrder_refines o a order : book_repr o a -> order_ok order ->
  exists o' a' logs, CancelOrder now o order = Ok (o', logs) /\ book_repr o' a' /\
    ws_refused (ob_orderIdWindows o') (ord_Id order) /\
    match ab_find a (ord_Side order) (ord_Id order) with
    | None => a' = a /\ logs = []
    | Some b => a' = ab_remove a (ord_Side order) (ord_Id order) /\ (ord_Id order ∉ ab_ids a') /\
        exists l, logs = [LDone l] /\ dl_OrderId l = ord_Id order /\ dl_RemainingSize l = bo_Size b /\
          dl_Reason l = DoneReasonCancelled /\ GetSeq (LDone l) = i64 (ob_logSeq o + 1)
    end.
Proof.
  intros R Hok. destruct (CancelOrder_repr now o a order R (ok_id _ Hok) (ok_side _ Hok))
    as (o' & a' & logs & E & Habs & R' & _ & _ & _ & Hr & _).
  exists o', a', logs. do 3 (split; [done|]). unfold absCancel in Habs.
  destruct (ab_find _ _ _) as [b|] eqn:Hf; injection Habs as <- <- Hs; [|done].
  apply (ab_find_elem now) in Hf as [Hb Eb]. split; [done|]. split.
  - rewrite <- Eb. apply ab_remove_ids; [apply Hok|apply R|done].
  - eexists. by rewrite <- Eb.
Qed.

(** An immediate-or-cancel order leaves nothing of itself in the book, and
    its last log is a done log for it. *)
Theorem IOC_leaves_nothing o a order : book_repr o a -> order_ok order ->
  ~ ws_refused (ob_orderIdWindows o) (ord_Id order) ->
  ord_TimeInForce order = ImmediateOrCancel -> ord_Status order <> OrderStatusCancelling ->
  exists o' a' logs init l, applyOffsetOrder now o order = Ok (o', logs) /\ book_repr o' a' /\
    (ord_Id order ∉ ab_ids a') /\ logs = init ++ [LDone l] /\ dl_OrderId l = ord_Id order.
Proof.
  intros R Hok Hr Htif Hst. destruct (takerOf_fields order) as (Eid & Eside & _).
  destruct (ApplyOrder_fresh now o a order R Hok Hr)
    as (o1 & l1 & fills & t' & rest & mlogs & seq & E1 & Hm & HM & El & _ & _ & R1). cbv zeta in R1.
  unfold applyOffsetOrder. rewrite (proj2 (String.eqb_neq _ _) Hst), Htif. simpl (_ =s? _). cbv iota.
  rewrite E1. go_red.
  destruct (CancelOrder_repr now o1 _ order R1 (ok_id _ Hok) (ok_side _ Hok))
    as (o2 & a2 & l2 & E2 & Habs & R2 & _). rewrite E2. go_red.
  destruct (matches_same _ _ _ _ _ _ HM) as (Eid' & _). rewrite Eid in Eid'.
  assert (Hshrink : ord_Id order ∉ ab_ids (ab_set a (Opposite (ord_Side order)) rest)).
  { intros Hin. apply (fresh_not_in o a (ord_Id order) R Hr). eapply ab_ids_shrink; [apply valid_Opposite| |exact Hin].
    by eapply matchList_rest. }
  unfold absCancel in Habs. destruct (ab_find _ _ _) as [b|] eqn:Hf.
  - apply (ab_find_elem now) in Hf as [Hb Eb]. rewrite <- Eb in Habs. injection Habs as <- <- _.
    eexists o2, _, _, l1, _. split; [done|]. split; [exact R2|]. split; [|split; [done|exact Eb]].
    rewrite <- Eb. apply ab_remove_ids; [apply Hok|apply R1|done].
  - injection Habs as <- <- _. destruct (takerRests t') eqn:Hrest.
    { exfalso. rewrite ab_find_None, ab_get_set_eq in Hf. apply (Hf t'); [|done].
      rewrite rest_insert_perm. set_solver. }
    rewrite app_nil_r. rewrite El. unfold finishLog. rewrite Hrest.
    destruct (takerDone t') as [[t2 rem] reason] eqn:Ed.
    eexists o2, _, _, mlogs, _. split; [done|]. split; [exact R2|]. split; [done|]. split; [done|].
    simpl. rewrite <- Eid'. unfold takerDone in Ed. by destruct (_ =s? _); injection Ed as <- _ _.
Qed.

(** C9: the dry run of fill-or-kill tells the truth about limit orders: it
    answers true exactly when applying the order leaves nothing of it open;
    and for a market order it always answers true. *)
Theorem full_match_predicts o a order : book_repr o a -> order_ok order ->
  ~ ws_refused (ob_orderIdWindows o) (ord_Id order) ->
  exists b o' logs, IsOrderWillFullMatch o order = Ok b /\ ApplyOrder now o order = Ok (o', logs) /\
    (b = true <-> openLogs logs = []) /\ (ord_Type order = OrderTypeMarket -> b = true).
Proof.
  intros R Hok Hr. destruct (takerOf_fields order) as (_ & _ & Ety & _).
  destruct (ApplyOrder_fresh now o a order R Hok Hr)
    as (o' & logs & fills & t' & rest & mlogs & seq & E & Hm & HM & El & _ & Hopen & _).
  destruct (IsOrderWillFullMatch_eq o a order R Hok) as (f2 & t2 & r2 & Hm2 & Eb).
  rewrite Hm in Hm2. injection Hm2 as <- <- <-. exists (negb (takerRests t')), o', logs.
  split; [done|]. split; [done|]. split.
  - rewrite El, openLogs_app, Hopen. unfold finishLog.
    destruct (takerRests t'); [done|]. by destruct (takerDone t') as [[? ?] ?].
  - intros Hmk. destruct (matches_same _ _ _ _ _ _ HM) as (_&_&_&_&Ety'&_).
    unfold takerRests. by rewrite Ety', Ety, Hmk.
Qed.

(** The dry run of a good-till-crossing buy tells the truth: it answers
    true exactly when applying the order trades nothing. *)
Theorem gtx_buy_predicts o a order : book_repr o a -> order_ok order ->
  ~ ws_refused (ob_orderIdWindows o) (ord_Id order) ->
  ord_Side order = SideBuy -> ord_Type order = OrderTypeLimit -> (0 < dval (ord_Size order))%Q ->
  exists b o' logs, IsOrderWillNotMatch o order = Ok b /\ ApplyOrder now o order = Ok (o', logs) /\
    (b = true <-> matchLogs logs = []).
Proof.
  intros R Hok Hr Hb Hlim Hsz. destruct (takerOf_fields order) as (_ & Eside & _ & Esz & _).
  destruct (ApplyOrder_fresh now o a order R Hok Hr)
    as (o' & logs & fills & t' & rest & mlogs & seq & E & Hm & HM & El & Hlogs & _).
  pose proof (IsOrderWillNotMatch_eq o a order R Hok) as En. cbv zeta in En. rewrite Hb in En. simpl in En.
  eexists _, o', logs. split; [exact En|]. split; [done|].
  rewrite <- (Forall2_logs_nil _ _ _ Hlogs), (no_trade_iff _ _ _ _ _ _ HM (limit_sized order Hlim)) by (by rewrite Esz).
  rewrite Eside, Hb. destruct (ab_get a (Opposite SideBuy)) as [|m ms]; simpl; [done|apply negb_true_iff].
Qed.

(** C7: an order that went through the book once is never matched again, no
    matter what the applier does in between: its resubmission leaves the book
    as it is and writes no log. *)
Theorem resubmission_ignored o a order again (orders : list Order) :
  book_ok o a -> order_ok order -> order_ok again -> ord_Id again = ord_Id order -> Forall order_ok orders ->
  exists o1 l1 o2 l2, ApplyOrder now o order = Ok (o1, l1) /\ runOrders now o1 orders = Ok (o2, l2) /\
    ApplyOrder now o2 again = Ok (o2, []).
Proof.
  intros B Hok Hok' Hid Hall.
  assert (exists o1 a1 l1, ApplyOrder now o order = Ok (o1, l1) /\ book_ok o1 a1 /\
            ws_refused (ob_orderIdWindows o1) (ord_Id order)) as (o1 & a1 & l1 & E1 & B1 & Hr).
  { destruct (decide (ws_refused (ob_orderIdWindows o) (ord_Id order))) as [Hr|Hr].
    - exists o, a, []. split; [|done]. eapply ApplyOrder_refused; [apply B|done|done].
    - destruct (ApplyOrder_ok now o a order B Hok) as (o1 & a1 & l1 & E & B1 & _).
      destruct (ApplyOrder_repr now o a order (bk_repr _ _ B) Hok Hr) as (o1' & a1' & l1' & E' & _ & _ & _ & _ & Hs & _).
      rewrite E in E'. injection E' as <- <-. by exists o1, a1, l1. }
  destruct (runOrders_ok now orders o1 a1 B1 Hall) as (o2 & a2 & l2 & E2 & B2 & _ & _ & Hmono).
  exists o1, l1, o2, l2. split; [done|]. split; [done|].
  eapply ApplyOrder_refused; [apply B2|done|]. rewrite Hid. by apply Hmono.
Qed.

(** C6: restarting from a snapshot is invisible.  Whatever order Go visits the
    maps in, a book restored from a snapshot answers every further stream of
    orders with the very same logs as the book the snapshot was taken of. *)
Theorem snapshot_restore_equivalent visit o a (orders : list Order) :
  (forall l, visit l ≡ₚ l) -> book_ok o a -> Forall order_ok orders ->
  exists snap o', Snapshot visit o = Ok snap /\ Restore (NewOrderBook (ob_product o)) snap = Ok o' /\
    book_ok o' a /\
    exists o1 o2 logs, runOrders now o orders = Ok (o1, logs) /\ runOrders now o' orders = Ok (o2, logs) /\ o1 ≡b o2.
Proof.
  intros Hv B Hok. destruct (Snapshot_Restore_same visit o a Hv B) as (snap & o' & E & _ & _ & E' & S).
  exists snap, o'. split; [done|]. split; [done|]. split; [apply S|].
  apply runOrders_same; [by exists a|done].
Qed.

(** An order with a side that is neither buy nor sell crashes the engine
    when the bids do not fill it: the book has no depth to put it in. *)
Theorem invalid_side_crashes o a order : book_repr o a ->
  window_id (ord_Id order) -> ~ ws_refused (ob_orderIdWindows o) (ord_Id order) ->
  ~ valid_side (ord_Side order) -> ord_Type order = OrderTypeLimit ->
  (dsum (bo_Size <$> ab_bids a) < dval (ord_Size order))%Q ->
  ApplyOrder now o order = Panic.
Proof.
  intros R Hid Hr Hs Hlim Hsz. destruct (takerOf_fields order) as (_ & Eside & Ety & Esz & _).
  assert (Hopp : Opposite (ord_Side order) = SideBuy).
  { unfold Opposite. destruct (String.eqb_spec (ord_Side order) SideBuy) as [E|]; [|done].
    exfalso. apply Hs. by left. }
  pose proof (limit_sized order Hlim) as Hsized.
  destruct (dedupPut_fresh o (ord_Id order) (br_windows _ _ R) Hid Hr) as (Ed & Wf & _ & Hmono).
  set (ws := ws_after _ _) in *. pose proof (book_repr_windows o a ws R Wf Hmono) as R1.
  destruct (book_depth _ _ SideBuy R1) as (d & Hd & Rd); [by left|].
  destruct (matchList_total (ob_product o) (ab_get a SideBuy) (takerOf order)) as (fills & t' & rest & Hm & Hsame).
  { by left. }
  { eapply resting_prices, (dr_resting _ _ _ _ Rd). }
  pose proof (matchLoop_refines now (cmpOf SideBuy) (cmpOf_order _) (cmpOf_id _) (ab_get a SideBuy)
    (S (tm_Size (d_queue d))) [] (ob_setWindows o ws) (takerOf order) None d SideBuy fills t' rest) as Href.
  rewrite Eside, Hopp in Href. specialize (Href eq_refl Hd Rd eq_refl ltac:(by left)).
  rewrite (tm_repr_Size _ _ _ (dr_queue _ _ _ _ Rd)), length_fmap in Href. specialize (Href ltac:(lia) Hm).
  destruct (fillLogs _ _ _ _ _ _) as [[logs seq] tseq]. destruct Href as (d' & Hloop & _).
  assert (Hrests : takerRests t' = true).
  { eapply (oversize_rests _ _ SideBuy); [|exact (dr_resting _ _ _ _ Rd)|by rewrite Ety|by rewrite Esz].
    eapply matchList_matches; [by left|apply Rd|done]. }
  unfold ApplyOrder. rewrite Ed. fold (takerOf order). rewrite Eside, Hopp, Hd. go_red.
  rewrite (tm_repr_Size _ _ _ (dr_queue _ _ _ _ Rd)), length_fmap, Hloop. go_red.
  unfold finishTaker. rewrite Hrests. destruct Hsame as (_&_&_&Es&_). rewrite Es, Eside. simpl.
  rewrite lookup_insert_ne, (br_other _ _ R _ Hs); [done|]. intros E. apply Hs. by left.
Qed.
End Theorems.

(** ** The theorems at work on the demonstration book *)

Section Witnesses.
Import Demo.

Let buy := order 2000 SideBuy OrderTypeLimit GoodTillCanceled 2 101 0.
Let cancel := order 14 SideSell OrderTypeLimit GoodTillCanceled 2 100 0.
Let ioc := order 2003 SideBuy OrderTypeLimit ImmediateOrCancel 9 101 0.
Let fok := order 2004 SideSell OrderTypeLimit FillOrKill 9 98 0.
Let odd := order 2005 "hold" OrderTypeLimit GoodTillCanceled 9 101 0.

#[local] Lemma ob_ok : book_ok ob ab.
Proof.
  split; [apply ob_repr|].
  assert (Forall (fun b => Forall (fun k => bo_Price b < bo_Price k)%Q asks) bids) as H by (by repeat constructor).
  intros b k Hb Hk. rewrite Forall_forall in H. specialize (H b Hb). rewrite Forall_forall in H. by apply H.
Qed.

Lemma CancelOrder_refines_witness :
  exists o' a' l, CancelOrder clock ob cancel = Ok (o', [LDone l]) /\ book_repr o' a' /\
    a' = ab_remove ab SideSell 14 /\ dl_RemainingSize l = 2%Q.
Proof.
  assert (Hok : order_ok cancel) by (apply order_ok_limit; [lia|by right|done]).
  destruct (CancelOrder_refines clock ob ab cancel (proj1 ob_repr) Hok) as (o' & a' & logs & E & R & _ & H).
  change (ab_find ab (ord_Side cancel) (ord_Id cancel)) with (Some (rest 14 SideSell 2 100)) in H.
  destruct H as (Ea & _ & l & -> & _ & Hl & _). exists o', a', l.
  split; [exact E|]. split; [exact R|]. split; [exact Ea|exact Hl].
Defined.

Lemma IOC_leaves_nothing_witness :
  exists o' a' logs, applyOffsetOrder clock ob ioc = Ok (o', logs) /\ book_repr o' a' /\ 2003 ∉ ab_ids a'.
Proof.
  assert (Hok : order_ok ioc) by (apply order_ok_limit; [lia|by left|done]).
  assert (Hst : ord_Status ioc <> OrderStatusCancelling) by discriminate.
  destruct (IOC_leaves_nothing clock ob ab ioc (proj1 ob_repr) Hok (ob_fresh 2003 ltac:(lia)) eq_refl Hst)
    as (o' & a' & logs & _ & _ & E & R & Hn & _).
  exists o', a', logs. split; [exact E|]. split; [exact R|exact Hn].
Defined.

Lemma full_match_predicts_witness :
  exists b o' logs, IsOrderWillFullMatch ob fok = Ok b /\ ApplyOrder clock ob fok = Ok (o', logs) /\
    (b = true <-> openLogs logs = []).
Proof.
  assert (Hok : order_ok fok) by (apply order_ok_limit; [lia|by right|done]).
  destruct (full_match_predicts clock ob ab fok (proj1 ob_repr) Hok (ob_fresh 2004 ltac:(lia)))
    as (b & o' & logs & H1 & H2 & H3 & _).
  exists b, o', logs. split; [exact H1|]. split; [exact H2|exact H3].
Defined.

Lemma gtx_buy_predicts_witness :
  exists b o' logs, IsOrderWillNotMatch ob buy = Ok b /\ ApplyOrder clock ob buy = Ok (o', logs) /\
    (b = true <-> matchLogs logs = []).
Proof.
  assert (Hok : order_ok buy) by (apply order_ok_limit; [lia|by left|done]).
  exact (gtx_buy_predicts clock ob ab buy (proj1 ob_repr) Hok (ob_fresh 2000 ltac:(lia)) eq_refl eq_refl ltac:(done)).
Defined.

Lemma resubmission_ignored_witness :
  exists o1 l1 o2 l2, ApplyOrder clock ob buy = Ok (o1, l1) /\ runOrders clock o1 [ioc; cancel] = Ok (o2, l2) /\
    ApplyOrder clock o2 buy = Ok (o2, []).
Proof.
  assert (Hok : order_ok buy) by (apply order_ok_limit; [lia|by left|done]).
  apply (resubmission_ignored clock ob ab buy buy [ioc; cancel] ob_ok Hok Hok eq_refl).
  repeat constructor; simpl; try (unfold u64_size; lia); (by left) || (by right) || (left; done).
Defined.

Lemma snapshot_restore_equivalent_witness :
  exists snap o', Snapshot (@rev BookOrder) ob = Ok snap /\ Restore (NewOrderBook (ob_product ob)) snap = Ok o' /\
    exists o1 o2 logs, runOrders clock ob [buy; ioc] = Ok (o1, logs) /\ runOrders clock o' [buy; ioc] = Ok (o2, logs).
Proof.
  assert (Forall order_ok [buy; ioc]) as Hok.
  { repeat constructor; simpl; try (unfold u64_size; lia); (by left) || (by right) || (left; done). }
  destruct (snapshot_restore_equivalent clock (@rev BookOrder) ob ab [buy; ioc]
    (fun l => Permutation_sym (Permutation_rev l)) ob_ok Hok)
    as (snap & o' & H1 & H2 &_& o1 & o2 & logs & H3 & H4 &_).
  exists snap, o'. split; [exact H1|]. split; [exact H2|]. exists o1, o2, logs. split; [exact H3|exact H4].
Defined.

Lemma invalid_side_crashes_witness : ApplyOrder clock ob odd = Panic.
Proof.
  apply (invalid_side_crashes clock ob ab odd (proj1 ob_repr)).
  - unfold window_id, u64_size. simpl. lia.
  - apply (ob_fresh 2005). lia.
  - intros [H|H]; discriminate.
  - reflexivity.
  - vm_compute. reflexivity.
Defined.

(** ** Where the applier does not keep its word *)

Let gtxSell := order 2006 SideSell OrderTypeLimit GoodTillCrossing 1 (985 # 10) 0.

(** A good-till-crossing sell that crosses the best bid but not the worst
    one is let through, and trades: the dry run asks the bids' queue for its
    last order instead of its first. *)
Theorem gtx_sell_trades : exists o' logs, applyOffsetOrder clock ob gtxSell = Ok (o', logs) /\
  (fun ml => (ml_MakerOrderId ml, ml_Size ml)) <$> matchLogs logs = [(11, 1%Q)].
Proof.
  assert (Hok : order_ok gtxSell) by (apply order_ok_limit; [lia|by right|done]).
  unfold applyOffsetOrder. simpl (_ =s? _). cbv iota.
  rewrite (IsOrderWillNotMatch_eq ob ab gtxSell (proj1 ob_repr) Hok). go_red.
  assert ((if ord_Side gtxSell =s? SideBuy then head (ab_get ab (Opposite (ord_Side gtxSell)))
           else last (ab_get ab (Opposite (ord_Side gtxSell)))) = Some (rest 12 SideBuy 1 98)) as -> by reflexivity.
  assert (negb (pricesCross (ord_Side gtxSell) (bo_Price (takerOf gtxSell)) (bo_Price (rest 12 SideBuy 1 98))) = true)
    as -> by reflexivity.
  destruct (ApplyOrder_repr clock ob ab gtxSell (proj1 ob_repr) Hok (ob_fresh 2006 ltac:(lia)))
    as (o' & a' & logs & -> & H & _).
  exists o', logs. split; [done|]. destruct ob_repr as (_ & _ & Ep & Es & Et). rewrite Ep, Es, Et in H.
  apply (f_equal (fun r => (getOk (ab, [], 0, 0) r).1.1.2)) in H.
  rewrite <- (H : (getOk (ab, [], 0, 0) (absApply clock product ab 9 4 (takerOf gtxSell))).1.1.2 = logs). vm_compute. reflexivity.
Qed.

Let fokAgain := order 11 SideBuy OrderTypeLimit FillOrKill 50 101 0.

(** A fill-or-kill order that is delivered twice and cannot be filled the
    second time is reported as cancelled, whatever became of it the first
    time: [NullifyOrder] drops the window's refusal. *)
Theorem duplicate_kill_reported : ws_refused (ob_orderIdWindows ob) (ord_Id fokAgain) /\
  exists o' l, applyOffsetOrder clock ob fokAgain = Ok (o', [LDone l]) /\ book_repr o' ab /\
    dl_OrderId l = ord_Id fokAgain /\ dl_Reason l = DoneReasonCancelled /\ dl_RemainingSize l = 50%Q.
Proof.
  assert (Hok : order_ok fokAgain) by (apply order_ok_limit; [lia|by left|done]).
  split; [destruct ob_repr as (_ & -> & _); by apply windows_refused|].
  unfold applyOffsetOrder. simpl (_ =s? _). cbv iota.
  destruct (IsOrderWillFullMatch_eq ob ab fokAgain (proj1 ob_repr) Hok) as (f & t' & r & Hm & ->). go_red.
  destruct ob_repr as (R & _ & Ep & _). rewrite Ep in Hm.
  apply (f_equal (fun r => (getOk ([], takerOf fokAgain, []) r).1.2)) in Hm.
  assert (takerRests t' = true) as Hrest.
  { rewrite <- (Hm : (getOk ([], takerOf fokAgain, []) (matchList product (takerOf fokAgain) (ab_get ab (Opposite (ord_Side fokAgain))))).1.2 = t').
    vm_compute. reflexivity. }
  rewrite Hrest. cbn [negb].
  destruct (NullifyOrder_repr clock ob ab fokAgain R (ok_id _ Hok)) as (o' & -> & R' & _).
  eexists o', _. split; [done|]. by split.
Qed.
End Witnesses.
