(* ===== verification/RestTheorems.v ===== *)
(** The REST server: what its requests do to the database, the topics and the
    engine behind them.

    A request only changes the ledger by a transaction of the services and only
    writes orders of the user its cookie names ([request_sound]); requests,
    interleaved with anything the workers do, keep every table well formed, and
    the engine works any order topic without a crash whose orders name sides it
    knows ([requests_feed_engine]); every request is answered, but for a password
    that bcrypt refuses ([serve_answers]); and one order with another side that
    rests stops the engine for good ([unknown_side_stops_engine]). *)
From S2P Require Import Prelude Strconv Decimal TreeMap Models Ledger Settlement LedgerInv OrderInv Transactions.
From S2P Require Import Window MatchLog OrderBook Book Applier OrderKinds LedgerTheorems OrderRows Makers Users Views Rest RestInv.
From S2P Require Import SortedLists RestTotal RestPages Candles RestDemo.
From Stdlib Require Import QArith.
From stdpp Require Import list relations.
Open Scope string_scope.
Open Scope list_scope.
Open Scope Z_scope.

Section Theorems.
Context {P : DecimalPkg} {L : DecimalLaws P} {C : Column} {CL : ColumnLaws L C}.
Context {R : RestPkg} {RL : RestLaws L R} {B : BcryptPkg} {BL : BcryptLaws B} {J : JwtPkg} {JL : JwtLaws J} (JwtSecret : string).
Implicit Types (w : World) (env : Env) (o : Order).

(** A message of user [u]: an order that was just placed and can be read back,
    or the cancellation of a row that could be read and was new, open or
    partial. *)
Definition ownMessage (u : User) w w' o : Prop :=
  ord_UserId o = user_Id u /\
  (ord_Status o = OrderStatusNew /\ GetOrderById (w_db w) (ord_Id o) = None /\
     (exists row, rowOf o row /\ GetOrderById (w_db w') (ord_Id o) = Some row) \/
   exists row, GetOrderById (w_db w) (ord_Id row) = Some row /\ cancellable (ord_Status row) = true /\ o = ord_cancelling row).

Lemma row_by_id db u o : orders_wf (g_order db) -> o ∈ g_order db (GetTableIndexByUserId u) -> GetOrderById db (ord_Id o) = Some o.
Proof.
  intros [Hids Hok] Hin. pose proof (Hok (GetTableIndexByUserId u)) as Hrow. rewrite Forall_forall in Hrow.
  unfold GetOrderById. rewrite (row_id _ _ (Hrow _ Hin)). specialize (Hids (GetTableIndexByUserId u)). clear Hok Hrow.
  induction (g_order db (GetTableIndexByUserId u)) as [|r l IH]; [by apply elem_of_nil in Hin|].
  apply NoDup_cons in Hids as [Hr Hids]. apply elem_of_cons in Hin as [->|Hin]; [by rewrite filter_cons_True|].
  rewrite filter_cons_False; [by apply IH|]. intros E. apply Hr. rewrite E. by apply list_elem_of_fmap_2.
Qed.

(** C32: a request changes the ledger by one transaction of the services at
    most.  What it writes to the order topics are appended messages of the user
    whose valid token it carries: an order it has just placed, whose id was not
    in use and which can be read back, or cancellations of orders of that user
    whose status was new, open or partial.  (Partial is a final status, which
    the handler takes for an open one.)  A request without a valid token writes
    none. *)
Theorem request_sound env r cookie ctx w resp w' : db_wf (w_db w) ->
  serve JwtSecret env r cookie ctx w = Ok (resp, w') ->
  (w_db w' = w_db w \/ ledgerStep (w_db w) (w_db w')) /\
  exists msgs, (forall topic, topicOf w' topic = topicOf w topic ++ filter (goesTo env topic) msgs) /\
    match userOf JwtSecret env w cookie with
    | Some u => Forall (ownMessage u w w') msgs
    | None => msgs = []
    end.
Proof.
  intros Hwf Hrun. apply serve_effect in Hrun; [|done].
  assert (Hnone : w_topics w' = w_topics w -> exists msgs, (forall topic, topicOf w' topic = topicOf w topic ++ filter (goesTo env topic) msgs) /\
    match userOf JwtSecret env w cookie with Some u => Forall (ownMessage u w w') msgs | None => msgs = [] end).
  { intros E. exists []. split; [|by destruct (userOf _ _ _ _)]. intros topic. unfold topicOf. rewrite E, filter_nil. by rewrite app_nil_r. }
  destruct Hrun as [->|req u t Hr Hc ->|req u t Hr _ Hc ->|req u ty tif size price funds o db Hr Huser Hc ->|u rows Huser Hrows ->].
  - split; [by left|by apply Hnone].
  - split; [by left|by apply Hnone].
  - split; [by left|by apply Hnone].
  - subst r. cbn in Huser. destruct (submitOrder_rest env o (w_setDb w db)) as [Ed _]. rewrite Ed. cbn.
    split; [right; by eapply step_place|]. exists [o]. split; [intros topic; by rewrite submitOrder_topic|].
    rewrite Huser. constructor; [|done]. apply PlaceOrder_spec in Hc as (product & fr & s & p & f & id & _ & _ & _ & _ & _ & Hp); [|done].
    destruct (placed_row _ _ _ _ _ Hp) as (row & Hrow & _ & Hn & Hg). split; [apply (placed_user _ _ _ _ _ Hp)|].
    left. split_and!; [apply (placed_status _ _ _ _ _ Hp)|done|]. exists row. split; [done|]. by rewrite Ed.
  - destruct (submitAll_rest env (ord_cancelling <$> rows) w) as [Ed _]. rewrite Ed. split; [by left|].
    exists (ord_cancelling <$> rows). split; [intros topic; apply submitAll_topic|].
    destruct (publicRoute r); [discriminate|]. rewrite Huser. apply Forall_fmap. eapply Forall_impl; [exact Hrows|].
    intros o (Hin & Hu & Hc). split; [exact Hu|]. right. exists o. split_and!; [|done|done].
    eapply row_by_id; [apply (wf_orders _ Hwf)|exact Hin].
Qed.

(** ** The exchange as a transition system *)

(** A request, or work of the services behind. *)
Inductive exchangeStep (sides : Side -> Prop) w w' : Prop :=
| exchange_request env r cookie ctx resp : snowflake (env_generate env) -> namesSide sides r ->
    serve JwtSecret env r cookie ctx w = Ok (resp, w') -> exchangeStep sides w w'
| exchange_work db : workerStep (w_db w) db -> w' = w_setDb w db -> exchangeStep sides w w'.

Lemma exchangeStep_ok sides w w' : world_ok sides w -> exchangeStep sides w w' -> world_ok sides w'.
Proof.
  intros Hok [env r cookie ctx resp Hg Hs Hrun|db Hstep ->]; [by eapply serve_ok|]. destruct Hok as [Hdb Ho Hu Ht].
  split; [|by eapply workerStep_good|done|done]. by eapply ledgerStep_accounted, workerStep_ledger.
Qed.

(** C33: in every run of requests of whatever users, interleaved with the
    transactions of the workers, the tables stay well formed: every row of the
    sharded order tables is in its user's and its id's table and is an order the
    engine can take, but for its side; accounts, bills and users keep their keys
    apart.  The sides in the tables and in the order topics are those the
    requests name ([sides] can be any).  A matching engine started on an order
    topic whose orders are all on a side it knows works it to the end without a
    crash, into a sorted uncrossed book.  (On one with another side it may
    crash: [unknown_side_stops_engine].) *)
Theorem requests_feed_engine {T : TreeMapPkg} {TL : TreeMapLaws T} sides w w' now product : world_ok sides w ->
  rtc (exchangeStep sides) w w' ->
  world_ok sides w' /\
  let topic := topicOf w' (orderTopic (prod_Id product)) in
  (Forall (fun o => valid_side (ord_Side o)) topic ->
   exists (o : orderBook) a logs, runOrders now (NewOrderBook product) topic = Ok (o, logs) /\ book_repr o a /\ uncrossed a) /\
  ((forall side, sides side -> valid_side side) -> Forall (fun o => valid_side (ord_Side o)) topic).
Proof.
  intros Hok Hr. assert (Hok' : world_ok sides w').
  { induction Hr as [|w1 w2 w3 Hs _ IH]; [done|]. apply IH. by eapply exchangeStep_ok. }
  split; [done|]. intros topic. pose proof (ok_topics _ _ Hok' (orderTopic (prod_Id product))) as Ht. fold topic in Ht. split.
  - intros Hside. assert (Hall : Forall order_ok topic).
    { rewrite Forall_forall in *. intros o Ho. apply order_ok_fit. split; [by apply Ht|by apply Hside]. }
    destruct (runOrders_ok now _ _ _ (NewOrderBook_ok product) Hall) as (o & a & logs & E & [Hr' Hu] & _). by exists o, a, logs.
  - intros Hknown. eapply Forall_impl; [exact Ht|]. intros o [_ Ho]. by apply Hknown.
Qed.

(** ** A side the code does not know *)

(** C38: the handler takes any text for a side, and so does [PlaceOrder].  If a
    limit order, good till canceled, with another side than buy and sell is
    accepted, Kafka takes it, the window of the engine's book has not seen its
    id, and it is larger than all the bids of the book the engine has made of
    the topic so far, then the engine crashes on the topic, whatever follows it:
    every restart reads the order again.  (One that the bids fill leaves nothing
    to rest.) *)
Theorem unknown_side_stops_engine {T : TreeMapPkg} {TL : TreeMapLaws T} env ctx u req w resp w' now product a (o : orderBook) logs :
  db_wf (w_db w) -> snowflake (env_generate env) -> ctx_user ctx = Some u -> 0 <= user_Id u ->
  rest_PlaceOrder env ctx (Ok req) w = Ok (resp, w') -> resp_status resp = StatusOK -> (forall o, env_accepts env o = true) ->
  ~ valid_side (sideOf req) -> orDefault (po_Type req) OrderTypeLimit = OrderTypeLimit ->
  orDefault (po_TimeInForce req) GoodTillCanceled = GoodTillCanceled ->
  let topic := orderTopic (po_ProductId req) in
  runOrders now (NewOrderBook product) (topicOf w topic) = Ok (o, logs) -> book_repr o a ->
  exists order, topicOf w' topic = topicOf w topic ++ [order] /\
    (~ ws_refused (ob_orderIdWindows o) (ord_Id order) -> (dsum (bo_Size <$> ab_bids a) < dval (ord_Size order))%Q ->
     forall later, runOrders now (NewOrderBook product) (topicOf w' topic ++ later) = Panic).
Proof.
  intros Hwf Hg Hctx Hid Hrun Hst Hacc Hside Hty Htif topic Hto Ha. unfold rest_PlaceOrder in Hrun. cbn [orReject] in Hrun.
  assert (Hrej : forall A pre (m : outcome string A) k, orReject w pre m k = Ok (resp, w') -> exists x, m = Ok x /\ k x = Ok (resp, w')).
  { intros A pre m k H. destruct m; cbn in H; try discriminate; [by eauto|]. injection H as <- _. discriminate. }
  apply Hrej in Hrun as (x0 & _ & Hrun). apply Hrej in Hrun as (size & _ & Hrun). apply Hrej in Hrun as (price & _ & Hrun).
  apply Hrej in Hrun as (funds & _ & Hrun). unfold currentUser, GetCurrentUser in Hrun. rewrite Hctx in Hrun. cbn [deref mbind outcome_bind] in Hrun.
  rewrite Hty, Htif in Hrun. fold (sideOf req) in Hrun.
  destruct (PlaceOrder _ _ _ _ _ _ _ _ _ _ _ _ _) as [[order db]|e| |] eqn:Hp; [|by injection Hrun as <- _|discriminate..].
  injection Hrun as _ <-. apply PlaceOrder_spec in Hp as (prod & fr & s & p & f & id & _ & Hsd & _ & Hideq & Ho & _); [|done].
  destruct (snowflake_id _ _ Hg Hid) as [Hwin _]. rewrite <- Hideq in Hwin.
  assert (Htopic : topicOf (submitOrder env order (w_setDb w db)) topic = topicOf w topic ++ [order]).
  { rewrite submitOrder_topic, filter_cons_True by (split; [apply Hacc|by rewrite Ho]). done. }
  exists order. split; [exact Htopic|]. intros Hfresh Hlt later. rewrite Htopic, <- app_assoc, runOrders_app, Hto. go_red.
  change ([order] ++ later) with (order :: later). cbn [runOrders].
  assert (Hc : applyOffsetOrder now o order = ApplyOrder now o order) by (unfold applyOffsetOrder; rewrite Ho; reflexivity).
  rewrite Hc, (invalid_side_crashes now o a order Ha); [done| |done|by rewrite Hsd|by rewrite Ho|done]. by rewrite Ho.
Qed.

(** ** Pages *)

(** C35: paging through the orders is complete.  For every query of a signed-in
    user (product, side, statuses and limit as the handler parses them) there
    is one list, newest first, of exactly the user's orders the query selects;
    a client that asks for pages until one is empty, each after the
    [gbe-after] header of the page before, is shown that list, each order once. *)
Theorem orders_pages env ctx w u sts side : db_wf (w_db w) -> env_readError env = None -> ctx_user ctx = Some u ->
  querySide (ctx_Query ctx "side") = Ok side -> parseStatuses (ctx_QueryArray ctx "status") = Ok sts ->
  ctx_Query ctx "before" = "" ->
  Forall (fun o => 0 < ord_Id o < i64_half) (g_order (w_db w) (GetTableIndexByUserId (user_Id u))) ->
  exists l, decreasing ord_Id l /\
    (forall o, o ∈ l <-> o ∈ g_order (w_db w) (GetTableIndexByUserId (user_Id u)) /\ ord_UserId o = user_Id u /\
       (sts = [] \/ ord_Status o ∈ sts) /\ (side = None \/ side = Some (ord_Side o)) /\
       (ctx_Query ctx "productId" = "" \/ ord_ProductId o = ctx_Query ctx "productId")) /\
    forall fuel, (length l < fuel)%nat -> browse fuel env ctx w "" = Ok (newOrderVo <$> l).
Proof.
  intros Hwf Hread Hu Hside Hsts Hb Hids. pose proof (orders_ids _ (wf_orders _ Hwf) (GetTableIndexByUserId (user_Id u))) as Hd.
  exists (selected (w_db w) (user_Id u) sts side (ctx_Query ctx "productId")). split; [by apply selected_decreasing|]. split.
  - intros o. rewrite selected_rows by done. rewrite merge_sort_Permutation. apply selectedRows_elem.
  - intros fuel Hf. by apply (browse_all env ctx w u sts side Hread Hu Hside Hsts Hb Hd Hids fuel [] _ "").
Qed.

(** ** Candles *)

(** The candles of a query. *)
Lemma candle_query env w pid g before after limit fuel T : g ∈ validGranularities -> ticks_wf (g_tick (w_db w)) ->
  (forall j, env_clock env j <= T) -> 0 <= T < 2 ^ 61 -> T + 2 < Z.of_nat fuel -> 0 < limit ->
  exists l newest i, amendTicks fuel (env_clock env) g limit (GetTicksByProductId (w_db w) pid (g / 60) before after limit) = Ok (candleRow <$> l) /\
    (length l <= Z.to_nat limit)%nat /\ (l <> [] -> newest <= env_clock env i /\ env_clock env (S i) < newest + g) /\
    Forall2 (fun tick j => tick_Time tick = newest - Z.of_nat j * g /\
               candleAt (visible (w_db w) pid (g / 60) after) g (tick_Time tick) = Some tick) l (seq 0 (length l)).
Proof.
  intros Hval Hwf HT HTb Hf Hlim.
  set (ticks := GetTicksByProductId _ _ _ _ _ _). assert (Hpre : ticks `prefix_of` visible (w_db w) pid (g / 60) after) by (by apply GetTicks_prefix).
  assert (Hrow : forall k, k ∈ ticks -> k ∈ g_tick (w_db w) /\ ofTick pid (g / 60) k).
  { intros k Hk. apply (visible_elem _ _ _ after). destruct Hpre as [rest ->]. set_solver. }
  assert (Hgpos : 0 < g < 2 ^ 61) by (by apply valid_range).
  destruct (amendTicks_spec fuel (env_clock env) T g limit ticks) as (l & newest & i & E & Hlen & Hnew & HF); try done; [lia| |lia| |].
  { split; [eapply decreasing_prefix; [exact Hpre|by apply visible_decreasing]|].
    intros k k' Hk Hk'. by apply (ticks_grid (w_db w) pid g); auto. }
  { intros k Hk. apply Hrow in Hk as [Hk _]. pose proof (ticks_made _ Hwf) as Hm. rewrite Forall_forall in Hm. by apply (Hm k). }
  exists l, newest, i. split_and!; [exact E|exact Hlen|exact Hnew|].
  eapply Forall2_impl; [exact HF|]. cbn. intros tick j [Hc Ht]. split; [done|]. rewrite Ht. by eapply candleAt_prefix.
Qed.

(** C36: a candle query with a valid granularity [g] is answered, as soon as the
    clock stays below some moment, by candles of consecutive periods of [g]
    seconds, newest first and at most as many as the limit (1000 if there is
    none): the newest is the period the clock was in, and each is the stored
    candle of its period among those before the cursor [after], or, where there
    is none, the flat candle at the close of the newest one before it. *)
Theorem candles_continuous env ctx w fuel T : let g := queryInt (ctx_Query ctx "granularity") in
  g ∈ validGranularities -> ticks_wf (g_tick (w_db w)) -> env_readError env = None ->
  (forall j, env_clock env j <= T) -> 0 <= T < 2 ^ 61 -> T + 2 < Z.of_nat fuel ->
  exists resp l newest i, rest_GetProductCandles fuel env ctx w = Ok (resp, w) /\ resp_status resp = StatusOK /\
    resp_body resp = JCandles (candleRow <$> l) /\ (length l <= 1000)%nat /\
    (0 < queryInt (ctx_Query ctx "limit") <= 1000 -> Z.of_nat (length l) <= queryInt (ctx_Query ctx "limit")) /\
    (l <> [] -> newest <= env_clock env i /\ env_clock env (S i) < newest + g) /\
    Forall2 (fun tick j => tick_Time tick = newest - Z.of_nat j * g /\
               candleAt (visible (w_db w) (ctx_Param ctx "productId") (g / 60) (queryInt (ctx_Query ctx "after"))) g
                 (tick_Time tick) = Some tick)
      l (seq 0 (length l)).
Proof.
  intros g Hval Hwf Hread HT HTb Hf. unfold rest_GetProductCandles. fold g. rewrite (bool_decide_true _ Hval). cbn [negb].
  set (limit := if _ || _ then 1000 else _). assert (Hlim : 0 < limit <= 1000 /\ (0 < queryInt (ctx_Query ctx "limit") <= 1000 -> limit = queryInt (ctx_Query ctx "limit"))).
  { unfold limit. destruct (Z.leb_spec (queryInt (ctx_Query ctx "limit")) 0), (Z.ltb_spec 1000 (queryInt (ctx_Query ctx "limit"))); cbn; lia. }
  unfold read. rewrite Hread. cbn [orFail].
  destruct (candle_query env w (ctx_Param ctx "productId") g (queryInt (ctx_Query ctx "before")) (queryInt (ctx_Query ctx "after")) limit fuel T)
    as (l & newest & i & -> & Hlen & Hnew & HF); try done; [lia|].
  cbn [mbind outcome_bind]. eexists _, l, newest, i. split; [done|]. split_and!; [done|done|lia|lia|done|exact HF].
Qed.

(** The granularities the handler accepts are minutes, but it divides them
    by 60 before it looks for candles, which are stored by minutes too.  So of
    the eleven granularities only 60 is ever answered with candles, and with
    those of one minute. *)
Theorem candles_only_60 env ctx w fuel : ticks_wf (g_tick (w_db w)) -> env_readError env = None ->
  queryInt (ctx_Query ctx "granularity") ∈ validGranularities -> queryInt (ctx_Query ctx "granularity") <> 60 ->
  exists resp, rest_GetProductCandles fuel env ctx w = Ok (resp, w) /\ resp_body resp = JCandles [].
Proof.
  intros Hwf Hread Hval H60. unfold rest_GetProductCandles. rewrite (bool_decide_true _ Hval). cbn [negb].
  unfold read. rewrite Hread. cbn [orFail]. destruct (valid_cases _ Hval) as [?|[_ Hm]]; [done|].
  set (ticks := GetTicksByProductId _ _ _ _ _ _). assert (E : ticks = []).
  { destruct ticks as [|k l] eqn:Ht; [done|]. exfalso.
    assert (Hk : k ∈ visible (w_db w) (ctx_Param ctx "productId") (queryInt (ctx_Query ctx "granularity") / 60) (queryInt (ctx_Query ctx "after"))).
    { destruct (GetTicks_prefix (w_db w) (ctx_Param ctx "productId") (queryInt (ctx_Query ctx "granularity") / 60)
        (queryInt (ctx_Query ctx "before")) (queryInt (ctx_Query ctx "after"))
        (if (queryInt (ctx_Query ctx "limit") <=? 0) || (1000 <? queryInt (ctx_Query ctx "limit")) then 1000 else queryInt (ctx_Query ctx "limit")) Hwf) as [rest ->].
      fold ticks. rewrite Ht. set_solver. }
    apply visible_elem in Hk as [Hk [_ Hg]]. pose proof (ticks_made _ Hwf) as Hall. rewrite Forall_forall in Hall.
    destruct (Hall k Hk) as [Hin _]. by rewrite Hg in Hin. }
  rewrite E. eexists. split; reflexivity.
Qed.
(** ** Answers *)

(** A candle query is answered once its clock stays below some moment. *)
Definition clockBounded env r w : Prop := forall fuel, r = GET_product_candles fuel ->
  ticks_wf (g_tick (w_db w)) /\ exists T, (forall j, env_clock env j <= T) /\ 0 <= T < 2 ^ 61 /\ T + 2 < Z.of_nat fuel.

(** C37: every request to a well-formed world gets an answer: whatever its
    texts, its token, the state of the database and of Kafka, its handler
    neither crashes nor loops, the candle query included, if the clock stays
    below some moment during its loop.  The one exception is the hash of a
    password of more than 72 bytes: then a sign-up with a new email crashes the
    handler, which checks that a password is not too short, but not that it is
    not too long. *)
Theorem serve_answers sides env r cookie ctx w : snowflake (env_generate env) -> boundOk r -> world_ok sides w -> clockBounded env r w ->
  ((forall p, hashedPassword r = Some p -> (String.length p <= 72)%nat) ->
   exists resp w', serve JwtSecret env r cookie ctx w = Ok (resp, w')) /\
  (forall req, r = POST_users (Ok req) -> (72 < String.length (su_Password req))%nat ->
   GetUserByEmail (w_users w) (su_Email req) = None -> serve JwtSecret env r cookie ctx w = Panic).
Proof.
  intros Hg Hb Hok Hc. split.
  - intros Hp. assert (Hcandles : (forall fuel, r <> GET_product_candles fuel) \/ exists resp w', serve JwtSecret env r cookie ctx w = Ok (resp, w')).
    { destruct r; try (by left; intros ? ?). right. destruct (Hc fuel eq_refl) as (Hwf & T & HT & HTb & Hf).
      unfold serve. cbn [publicRoute handle]. unfold rest_GetProductCandles.
      case_bool_decide as Hval; cbn [negb]; [|by eexists _, _]. unfold read. destruct (env_readError env); [by eexists _, _|]. cbn [orFail].
      set (limit := if _ || _ then 1000 else _). assert (Hlim : 0 < limit).
      { unfold limit. destruct (_ || _) eqn:E; [lia|]. apply orb_false_iff in E as [E _]. apply Z.leb_gt in E. exact E. }
      edestruct (candle_query env w) as (l & newest & i & -> & _); try done. by eexists _, _. }
    destruct Hcandles as [Hno|?]; [|done]. destruct (serve_total JwtSecret env r cookie ctx w Hg Hb (ok_users _ _ Hok) Hno Hp) as [H1 H2].
    destruct (serve _ _ _ _ _ _) as [[resp w']|[]| |]; [by eauto|done..].
  - intros req -> Hlen Hnew. unfold serve. cbn [publicRoute handle]. unfold SignUp. cbn [orReject]. unfold CreateUser.
    destruct (Nat.ltb_spec (String.length (su_Password req)) 6); [lia|]. rewrite Hnew. unfold hashPassword.
    by rewrite (proj2 (generate_error _ _)).
Qed.
End Theorems.

(** ** The theorems at work *)

Section Witnesses.
Import RestDemo.
#[local] Existing Instance SortedList.pkg.
#[local] Existing Instance SortedList.laws.

Lemma list_singleton_eq {A} (x y : A) : [x] = [y] -> x = y.
Proof. by intros [= ->]. Qed.

Lemma snowflake_env now : snowflake (env_generate (env now)).
Proof. exact generate_snowflake. Qed.

Lemma buyRun_ok : buyRun = Ok ((answer buyRun).1, w1).
Proof. apply answer_ok. vm_compute. reflexivity. Qed.

Lemma w1_ok : world_ok valid_side w1.
Proof. eapply (serve_ok secret); [exact (snowflake_env 1)| |exact (w0_ok valid_side)|exact buyRun_ok]. by left. Qed.

Lemma request_sound_witness :
  buyRun = Ok ((answer buyRun).1, w1) /\ length (topicOf w1 "matching_order_BTC-USDT") = 1%nat /\
  (w_db w1 = w_db w0 \/ ledgerStep (w_db w0) (w_db w1)).
Proof.
  split; [exact buyRun_ok|]. split; [vm_compute; reflexivity|].
  exact (proj1 (request_sound secret (env 1) _ (token 7) ctx0 w0 _ w1 (ok_db _ _ (w0_ok valid_side)) buyRun_ok)).
Defined.

Lemma requests_feed_engine_witness :
  rtc (exchangeStep secret valid_side) w0 w1 /\
  exists o a logs, runOrders (fun n => n) (NewOrderBook product) (topicOf w1 (orderTopic (prod_Id product))) = Ok (o, logs) /\
    book_repr o a /\ uncrossed a.
Proof.
  assert (Hstep : rtc (exchangeStep secret valid_side) w0 w1).
  { apply rtc_once. eapply exchange_request; [exact (snowflake_env 1)| |exact buyRun_ok]. by left. }
  split; [exact Hstep|].
  destruct (requests_feed_engine secret valid_side w0 w1 (fun n => n) product (w0_ok valid_side) Hstep) as (_ & Hruns & Hsides).
  apply Hruns, Hsides. intros side Hside. exact Hside.
Defined.

Lemma unknown_side_stops_engine_witness : exists order,
  topicOf (answer oddRun).2 "matching_order_BTC-USDT" = [order] /\
  runOrders (fun n => n) (NewOrderBook product) (topicOf (answer oddRun).2 "matching_order_BTC-USDT") = Panic.
Proof.
  assert (E : oddRun = Ok ((answer oddRun).1, (answer oddRun).2)) by (apply answer_ok; vm_compute; reflexivity).
  destruct (unknown_side_stops_engine (env 1) ctx9 (user 9 "nine@x") (placeReq "hold" "10") w0 _ _ (fun n => n) product ab_empty
    (NewOrderBook product) [] (ok_db _ _ (w0_ok valid_side)) (snowflake_env 1) eq_refl ltac:(done) E eq_refl (fun _ => eq_refl)
    ltac:(intros [H|H]; discriminate H) eq_refl eq_refl eq_refl (NewOrderBook_repr product)) as (order & Ht & Hp).
  set (topic := orderTopic (po_ProductId (placeReq "hold" "10"))) in *.
  change (topicOf w0 topic ++ [order]) with [order] in Ht.
  assert (Hid : ord_Id <$> topicOf (answer oddRun).2 topic = [sellId]) by (vm_compute; reflexivity).
  assert (Hsz : ord_Size <$> topicOf (answer oddRun).2 topic = [1.0000%Q]) by (vm_compute; reflexivity).
  rewrite Ht in Hid, Hsz. apply list_singleton_eq in Hid, Hsz. exists order. split; [exact Ht|].
  rewrite <- (app_nil_r (topicOf _ _)). apply Hp.
  - rewrite Hid. apply (bool_decide_unpack _). vm_compute. exact I.
  - change (ord_Size order) with (ord_Size order : Dec). rewrite Hsz. vm_compute. reflexivity.
Defined.

Lemma serve_answers_witness : exists resp w', serve secret (env 1) (POST_orders (Ok (placeReq "buy" "10"))) (token 7) ctx0 w0 = Ok (resp, w').
Proof.
  refine (proj1 (serve_answers secret valid_side (env 1) (POST_orders (Ok (placeReq "buy" "10"))) (token 7) ctx0 w0 (snowflake_env 1) _ (w0_ok valid_side) _) _).
  - split; discriminate.
  - intros fuel Hr. discriminate Hr.
  - intros p. discriminate.
Defined.

Let ctx7 := withUser ctx0 (user 7 "seven@x").

Lemma orders_pages_witness : exists l, length l = 1%nat /\ decreasing ord_Id l /\
  forall fuel, (1 < fuel)%nat -> browse fuel (env 2) ctx7 w1 "" = Ok (newOrderVo <$> l).
Proof.
  destruct (orders_pages (env 2) ctx7 w1 (user 7 "seven@x") [] None (ok_db _ _ w1_ok) eq_refl eq_refl eq_refl eq_refl eq_refl) as (l & Hd & _ & Hb).
  { apply (bool_decide_unpack _). vm_compute. exact I. }
  assert (E : forall n, length (getOk [] (browse (S (S (S n))) (env 2) ctx7 w1 "")) = 1%nat) by (intros n; vm_compute; reflexivity).
  specialize (E (length l)). rewrite Hb in E by lia. cbn [getOk] in E. rewrite length_fmap in E.
  exists l. split; [exact E|]. split; [exact Hd|]. intros fuel Hf. apply Hb. rewrite E. exact Hf.
Defined.

Lemma candles_continuous_witness : exists resp l newest,
  rest_GetProductCandles 510 (env 2) (candleCtx "60" "3") wTicks = Ok (resp, wTicks) /\ resp_body resp = JCandles (candleRow <$> l) /\
  (l <> [] -> newest <= 500 /\ 500 < newest + 60) /\ Z.of_nat (length l) <= 3.
Proof.
  destruct (candles_continuous (env 2) (candleCtx "60" "3") wTicks 510 500) as (resp & l & newest & i & H1 & _ & H2 & _ & H3 & H4 & _).
  - apply (bool_decide_unpack _). vm_compute. exact I.
  - exact ticks_ok.
  - reflexivity.
  - intros j. cbn. lia.
  - lia.
  - lia.
  - exists resp, l, newest. split; [exact H1|]. split; [exact H2|]. split; [exact H4|]. apply H3. vm_compute. split; [reflexivity|discriminate].
Defined.

Lemma candles_only_60_witness : exists resp,
  rest_GetProductCandles 510 (env 2) (candleCtx "1" "3") wTicks = Ok (resp, wTicks) /\ resp_body resp = JCandles [].
Proof.
  apply candles_only_60; [exact ticks_ok|reflexivity| |vm_compute; discriminate].
  apply (bool_decide_unpack _). vm_compute. exact I.
Defined.
End Witnesses.
