(* ===== verification/PushBook.v ===== *)
(** The book the push server keeps: [src/pushing/order_book.go].

    The push server has no access to the matching engine's book.  It follows the
    matching log and keeps a book of its own, [pushBook]: the resting orders by
    id, and the price levels of each side, from which it publishes [Level2Change]s
    and snapshots.  The map of levels holds pointers, and a level is changed
    through its pointer; a level is its map's value under its own price, so the
    model puts the changed level back under that price. *)
From S2P Require Import Prelude Decimal TreeMap Models MatchLog.
From stdpp Require Import gmap list.
Open Scope string_scope.
Open Scope list_scope.
Open Scope Z_scope.

(** A row of a snapshot: price, size and number of orders; [None] is a row of
    the array that was never set. *)
Definition levelRow : Type := option (string * string * Z).

Section PushBook.
Context {P : DecimalPkg} {T : TreeMapPkg}.

Record PriceLevel := { pl_Price : Dec; pl_Size : Dec; pl_OrderCount : Z }.

(** [type orderBook] of the package [pushing]. *)
Record pushBook := {
  pb_productId : string;
  pb_seq : Z;
  pb_logOffset : Z;
  pb_logSeq : Z;
  pb_depths : gmap string (TreeMap Dec PriceLevel);
  pb_orders : gmap Z BookOrder;
}.

Record Level2Change := { lc_Seq : Z; lc_ProductId : string; lc_Side : string; lc_Price : string; lc_Size : string }.

Definition newOrderBook (productId : string) : pushBook := {|
  pb_productId := productId; pb_seq := 0; pb_logOffset := 0; pb_logSeq := 0;
  pb_depths := <[SideSell := tm_NewWith DecimalAscComparator]> (<[SideBuy := tm_NewWith DecimalDescComparator]> ∅);
  pb_orders := ∅ |}.

(** The order as the push server stores it: four fields are set. *)
Definition pushOrder (orderId : Z) (size : Dec) (side : Side) (price : Dec) : BookOrder := {|
  bo_OrderId := orderId; bo_UserId := 0; bo_Size := size; bo_Funds := dec_Zero; bo_Price := price;
  bo_Side := side; bo_Type := ""; bo_TimeInForce := "" |}.

(** The end of [saveOrder]: the counters, and the change that is published. *)
Definition changed (s : pushBook) (logOffset logSeq : Z) (side : Side) (levels : TreeMap Dec PriceLevel)
    (orders : gmap Z BookOrder) (level : PriceLevel) : option Level2Change * pushBook :=
  let seq := i64 (pb_seq s + 1) in
  (Some {| lc_Seq := seq; lc_ProductId := pb_productId s; lc_Side := side;
           lc_Price := dec_String (pl_Price level); lc_Size := dec_String (pl_Size level) |},
   {| pb_productId := pb_productId s; pb_seq := seq; pb_logOffset := logOffset; pb_logSeq := logSeq;
      pb_depths := <[side := levels]> (pb_depths s); pb_orders := orders |}).

(** The level of a new order: a new one, or one order more. *)
Definition levelWith (found : option PriceLevel) (price newSize : Dec) : PriceLevel :=
  match found with
  | None => {| pl_Price := price; pl_Size := newSize; pl_OrderCount := 1 |}
  | Some l => {| pl_Price := pl_Price l; pl_Size := dec_Add (pl_Size l) newSize; pl_OrderCount := i64 (pl_OrderCount l + 1) |}
  end.

Definition saveOrder (s : pushBook) (logOffset logSeq orderId : Z) (newSize price : Dec) (side : Side)
    : outcome noerr (option Level2Change * pushBook) :=
  if dec_LessThan newSize dec_Zero then Panic
  else
    match pb_orders s !! orderId with
    | None =>
        if dec_IsZero newSize then mret (None, s)
        else
          let orders := <[orderId := pushOrder orderId newSize side price]> (pb_orders s) in
          priceLevels ← deref (pb_depths s !! side);
          let changedLevel := levelWith (tm_Get priceLevels price) price newSize in
          mret (changed s logOffset logSeq side (tm_Put priceLevels (pl_Price changedLevel) changedLevel) orders changedLevel)
    | Some order =>
        let decrSize := dec_Sub (bo_Size order) newSize in
        let removed := dec_IsZero newSize in
        let orders := if removed then delete (bo_OrderId order) (pb_orders s)
                      else <[orderId := bo_setSize order newSize]> (pb_orders s) in
        priceLevels ← deref (pb_depths s !! side);
        l ← deref (tm_Get priceLevels price);
        let size := dec_Sub (pl_Size l) decrSize in
        let changedLevel := {| pl_Price := pl_Price l; pl_Size := size;
                               pl_OrderCount := if negb (dec_IsZero size) && removed then i64 (pl_OrderCount l - 1)
                                                else pl_OrderCount l |} in
        let levels := if dec_IsZero size then tm_Remove priceLevels price
                      else tm_Put priceLevels (pl_Price changedLevel) changedLevel in
        mret (changed s logOffset logSeq side levels orders changedLevel)
    end.

(** *** Snapshots *)

Record OrderBookLevel2Snapshot := {
  l2_ProductId : string;
  l2_Seq : Z;
  l2_Asks : list levelRow;
  l2_Bids : list levelRow;
}.

Definition rowOfLevel (v : PriceLevel) : levelRow :=
  Some (dec_String (pl_Price v), dec_String (pl_Size v), pl_OrderCount v).

(** [for itr, i := ...; itr.Next() && i < levels; i++] *)
Fixpoint fillRows (fuel : nat) (t : TreeMap Dec PriceLevel) (pos : option Dec) (i levels : Z) (rows : list levelRow)
    : outcome noerr (list levelRow) :=
  match fuel with
  | O => Diverge
  | S fuel =>
      match tm_Next t pos with
      | None => mret rows
      | Some (k, v) =>
          if i <? levels then
            _ ← deref (indexed rows i);
            fillRows fuel t (Some k) (i + 1) levels (<[Z.to_nat i := rowOfLevel v]> rows)
          else mret rows
      end
  end.

Definition sideRows (t : TreeMap Dec PriceLevel) (levels : Z) : outcome noerr (list levelRow) :=
  let size := Z.of_nat (tm_Size t) in
  fillRows (S (tm_Size t)) t None 0 levels (replicate (Z.to_nat (MinInt levels size)) None).

Definition SnapshotLevel2 (s : pushBook) (levels : Z) : outcome noerr OrderBookLevel2Snapshot :=
  asks ← deref (pb_depths s !! SideSell);
  bids ← deref (pb_depths s !! SideBuy);
  bidRows ← sideRows bids levels;
  askRows ← sideRows asks levels;
  mret {| l2_ProductId := pb_productId s; l2_Seq := pb_seq s; l2_Asks := askRows; l2_Bids := bidRows |}.

Record OrderBookFullSnapshot := {
  fs_ProductId : string;
  fs_Seq : Z;
  fs_LogOffset : Z;
  fs_LogSeq : Z;
  fs_Orders : list BookOrder;
}.

(** [visit] is the order in which Go visits the map. *)
Definition SnapshotFull (visit : list BookOrder -> list BookOrder) (s : pushBook) : OrderBookFullSnapshot := {|
  fs_ProductId := pb_productId s; fs_Seq := pb_seq s; fs_LogOffset := pb_logOffset s; fs_LogSeq := pb_logSeq s;
  fs_Orders := visit (map_to_list (pb_orders s)).*2 |}.

Fixpoint saveOrders (s : pushBook) (orders : list BookOrder) : outcome noerr pushBook :=
  match orders with
  | [] => mret s
  | order :: orders =>
      '(_, s) ← saveOrder s 0 0 (bo_OrderId order) (bo_Size order) (bo_Price order) (bo_Side order);
      saveOrders s orders
  end.

Definition RestoreFull (s : pushBook) (snapshot : OrderBookFullSnapshot) : outcome noerr pushBook :=
  s ← saveOrders s (fs_Orders snapshot);
  mret {| pb_productId := fs_ProductId snapshot; pb_seq := fs_Seq snapshot; pb_logOffset := fs_LogOffset snapshot;
          pb_logSeq := fs_LogSeq snapshot; pb_depths := pb_depths s; pb_orders := pb_orders s |}.

(** ** The logs applied to it: [OrderBookStream.runApplier] *)

(** The [switch] of the applier.  [None]: the loop goes on at once, the log
    changed nothing. *)
Definition applyLog (s : pushBook) (log : Log) (offset : Z) : outcome noerr (option (option Level2Change * pushBook)) :=
  match log with
  | LDone l =>
      match pb_orders s !! dl_OrderId l with
      | None => mret None
      | Some order =>
          let newSize := dec_Sub (bo_Size order) (dl_RemainingSize l) in
          r ← saveOrder s offset (base_Sequence (dl_Base l)) (dl_OrderId l) newSize (dl_Price l) (dl_Side l);
          mret (Some r)
      end
  | LOpen l =>
      r ← saveOrder s offset (base_Sequence (ol_Base l)) (ol_OrderId l) (ol_RemainingSize l) (ol_Price l) (ol_Side l);
      mret (Some r)
  | LMatch l =>
      match pb_orders s !! ml_MakerOrderId l with
      | None => Panic
      | Some order =>
          let newSize := dec_Sub (bo_Size order) (ml_Size l) in
          r ← saveOrder s offset (base_Sequence (ml_Base l)) (ml_MakerOrderId l) newSize (ml_Price l) (ml_Side l);
          mret (Some r)
      end
  end.

(** The book after a log, and the change, if any. *)
Definition followLog (s : pushBook) (log : Log) (offset : Z) : outcome noerr (list Level2Change * pushBook) :=
  r ← applyLog s log offset;
  mret match r with
       | Some (Some c, s) => ([c], s)
       | Some (None, s) => ([], s)
       | None => ([], s)
       end.

Fixpoint followLogs (s : pushBook) (logs : list (Log * Z)) : outcome noerr (list Level2Change * pushBook) :=
  match logs with
  | [] => mret ([], s)
  | (log, offset) :: logs =>
      '(cs, s) ← followLog s log offset;
      '(cs', s) ← followLogs s logs;
      mret (cs ++ cs', s)
  end.
End PushBook.
