(* ===== verification/PushInv.v ===== *)
(** The push server's book holds what the matching engine's book holds.

    [push_repr m a]: the book [m] has the resting orders of the abstract book
    [a], and each price level of it has the sum of the sizes and the number of
    the orders at its price.  [saveOrder] keeps it when an order is added
    ([saveOrder_add]) and when the size of one is set ([saveOrder_set]). *)
From S2P Require Import Prelude Decimal TreeMap Models MatchLog OrderBook DepthInv Book PushBook.
From Stdlib Require Import QArith Lqa.
From stdpp Require Import gmap list.
Open Scope string_scope.
Open Scope list_scope.
Open Scope Z_scope.

Section Levels.
Context {P : DecimalPkg} {L : DecimalLaws P}.
Implicit Types (lo : list BookOrder) (p q : Dec).

(** The orders of a list at one price. *)
Definition atPrice p (b : BookOrder) : Prop := (dval (bo_Price b) == dval p)%Q.
#[export] Instance atPrice_dec p b : Decision (atPrice p b).
Proof. unfold atPrice. destruct (Qeq_dec (dval (bo_Price b)) (dval p)); [by left|by right]. Defined.
Definition levelOrders p lo : list BookOrder := filter (atPrice p) lo.

Definition unfilled (b : BookOrder) : Prop := (0 < dval (bo_Size b))%Q.

Lemma levelOrders_eq p q lo : (dval p == dval q)%Q -> levelOrders p lo = levelOrders q lo.
Proof. intros H. apply list_filter_iff. intros b. unfold atPrice. by rewrite H. Qed.
Lemma levelOrders_perm p lo lo' : lo ≡ₚ lo' -> levelOrders p lo ≡ₚ levelOrders p lo'.
Proof. intros H. unfold levelOrders. by rewrite H. Qed.
Lemma levelOrders_app p l1 l2 : levelOrders p (l1 ++ l2) = levelOrders p l1 ++ levelOrders p l2.
Proof. apply filter_app. Qed.
Lemma levelOrders_at p b lo : atPrice p b -> levelOrders p (b :: lo) = b :: levelOrders p lo.
Proof. intros. by apply filter_cons_True. Qed.
Lemma levelOrders_off p b lo : ~ atPrice p b -> levelOrders p (b :: lo) = levelOrders p lo.
Proof. intros. by apply filter_cons_False. Qed.
Lemma elem_levelOrders p b lo : b ∈ levelOrders p lo <-> atPrice p b /\ b ∈ lo.
Proof. apply list_elem_of_filter. Qed.

Lemma unfilled_sum lo : Forall unfilled lo -> (0 <= dsum (bo_Size <$> lo))%Q /\ (lo <> [] -> (0 < dsum (bo_Size <$> lo))%Q).
Proof.
  induction 1 as [|b lo Hb _ [IH _]]; [by split|]. rewrite fmap_cons, dsum_cons. unfold unfilled in Hb.
  split; [lra|]. intros _. lra.
Qed.

(** A level of the orders [lo]. *)
Record level_ok lo (e : Dec * PriceLevel) : Prop := {
  lv_price : pl_Price e.2 = e.1;
  lv_orders : levelOrders e.1 lo <> [];
  lv_size : (dval (pl_Size e.2) == dsum (bo_Size <$> levelOrders e.1 lo))%Q;
  lv_count : pl_OrderCount e.2 = i64 (Z.of_nat (length (levelOrders e.1 lo)));
}.

Record levels_ok lo (l : list (Dec * PriceLevel)) : Prop := {
  ls_levels : Forall (level_ok lo) l;
  ls_all b : b ∈ lo -> exists e, e ∈ l /\ (dval e.1 == dval (bo_Price b))%Q;
}.

Lemma level_ok_perm lo lo' e : levelOrders e.1 lo ≡ₚ levelOrders e.1 lo' -> level_ok lo e -> level_ok lo' e.
Proof.
  intros Hp [Hpr Ho Hs Hc]. split; [done| | |].
  - intros H. rewrite H in Hp. by apply Permutation_nil_r in Hp.
  - rewrite Hs. apply dsum_perm. by rewrite Hp.
  - by rewrite Hc, Hp.
Qed.

Lemma levels_ok_perm lo lo' l : lo ≡ₚ lo' -> levels_ok lo l -> levels_ok lo' l.
Proof.
  intros Hp [Hl Ha]. split.
  - eapply Forall_impl; [exact Hl|]. intros e. apply level_ok_perm. by apply levelOrders_perm.
  - intros b Hb. apply Ha. by rewrite Hp.
Qed.

(** *** The map of levels *)

Context (cmp : Dec -> Dec -> Z) (C : CmpOrder cmp) (Ceq : forall a b, cmp a b = 0 <-> (dval a == dval b)%Q).

Lemma levels_get_Some lo l b p : sl_sorted cmp l -> levels_ok lo l -> b ∈ lo -> atPrice p b ->
  exists k v, sl_get cmp p l = Some v /\ level_ok lo (k, v) /\ (dval k == dval p)%Q.
Proof.
  intros Hs [Hl Ha] Hb Hp. destruct (Ha b Hb) as ([k v] & Hin & Hk). unfold atPrice in Hp. simpl in Hk.
  exists k, v. assert (Hkp : (dval k == dval p)%Q) by (rewrite Hk; exact Hp). split; [|split; [|done]].
  - apply (sl_get_Some cmp C); [done|]. exists k. split; [done|]. apply Ceq. by symmetry.
  - rewrite Forall_forall in Hl. by apply Hl.
Qed.

Lemma levels_get_cases lo l p : sl_sorted cmp l -> levels_ok lo l ->
  (sl_get cmp p l = None /\ levelOrders p lo = []) \/
  exists k v, sl_get cmp p l = Some v /\ level_ok lo (k, v) /\ (dval k == dval p)%Q.
Proof.
  intros Hs Hl. destruct (sl_get cmp p l) as [v|] eqn:Hget; [right|left].
  - apply (sl_get_Some cmp C) in Hget as (k & Hin & Hk); [|done]. exists k, v. split; [done|]. split.
    + pose proof (ls_levels _ _ Hl) as Hf. rewrite Forall_forall in Hf. by apply Hf.
    + symmetry. by apply Ceq.
  - split; [done|]. apply filter_none. intros b Hb Hp.
    destruct (levels_get_Some _ _ _ _ Hs Hl Hb Hp) as (k & v & Hv & _). congruence.
Qed.

Lemma levels_put lo lo' l p v : sl_sorted cmp l -> levels_ok lo l ->
  (forall q, ~ (dval q == dval p)%Q -> levelOrders q lo' ≡ₚ levelOrders q lo) ->
  (dval (pl_Price v) == dval p)%Q -> level_ok lo' (pl_Price v, v) ->
  levels_ok lo' (sl_put cmp (pl_Price v) v l).
Proof.
  intros Hs [Hl Ha] Hother Hp Hv. split.
  - apply Forall_forall. intros e He. apply (elem_sl_put cmp C) in He as [->|[He Hne]]; [done| |done].
    rewrite Forall_forall in Hl. apply (level_ok_perm lo); [|by apply Hl]. symmetry. apply Hother.
    intros E. apply Hne, Ceq. by rewrite Hp, E.
  - intros b Hb. destruct (decide (atPrice p b)) as [Hat|Hoff].
    + exists (pl_Price v, v). split; [|unfold atPrice in Hat; simpl; by rewrite Hp, Hat].
      apply (elem_sl_put cmp C); [done|by left].
    + assert (Hb' : b ∈ levelOrders (bo_Price b) lo).
      { rewrite <- Hother by exact Hoff. apply elem_levelOrders. split; [by unfold atPrice|done]. }
      apply elem_levelOrders in Hb' as [_ Hb']. destruct (Ha b Hb') as (e & He & Hk).
      exists e. split; [|done]. apply (elem_sl_put cmp C); [done|]. right. split; [done|].
      intros E. apply Ceq in E. apply Hoff. unfold atPrice. by rewrite <- Hk, <- E.
Qed.

Lemma levels_drop lo lo' l p : sl_sorted cmp l -> levels_ok lo l ->
  (forall q, ~ (dval q == dval p)%Q -> levelOrders q lo' ≡ₚ levelOrders q lo) -> levelOrders p lo' = [] ->
  levels_ok lo' (sl_remove cmp p l).
Proof.
  intros Hs [Hl Ha] Hother Hp. split.
  - apply Forall_forall. intros e He. apply (elem_sl_remove cmp C) in He as [He Hne]; [|done].
    rewrite Forall_forall in Hl. apply (level_ok_perm lo); [|by apply Hl]. symmetry. apply Hother.
    intros E. apply Hne, Ceq. by rewrite E.
  - intros b Hb. destruct (decide (atPrice p b)) as [Hat|Hoff].
    + exfalso. assert (b ∈ levelOrders p lo') as Hin by (by apply elem_levelOrders). rewrite Hp in Hin. inversion Hin.
    + assert (Hb' : b ∈ levelOrders (bo_Price b) lo).
      { rewrite <- Hother by exact Hoff. apply elem_levelOrders. split; [by unfold atPrice|done]. }
      apply elem_levelOrders in Hb' as [_ Hb']. destruct (Ha b Hb') as (e & He & Hk).
      exists e. split; [|done]. apply (elem_sl_remove cmp C); [done|]. split; [done|].
      intros E. apply Ceq in E. apply Hoff. unfold atPrice. by rewrite <- Hk, <- E.
Qed.
End Levels.

(** ** The book *)

Section DecCmp.
Context {P : DecimalPkg} {L : DecimalLaws P}.

Definition levelCmp (s : Side) : Dec -> Dec -> Z := if s =s? SideBuy then DecimalDescComparator else DecimalAscComparator.

Lemma dec_Cmp_order : CmpOrder DecimalAscComparator.
Proof.
  unfold DecimalAscComparator. split.
  - intros a. apply Cmp_zero. reflexivity.
  - intros a b. by rewrite Cmp_neg, Cmp_pos.
  - intros a b c H1 H2. apply Z.nlt_ge. rewrite Cmp_pos. apply Z.nlt_ge in H1, H2. rewrite Cmp_pos in H1, H2. lra.
Qed.
Lemma levelCmp_order s : CmpOrder (levelCmp s).
Proof.
  unfold levelCmp. destruct (s =s? SideBuy); [|apply dec_Cmp_order]. destruct dec_Cmp_order as [Hr Ha Ht].
  unfold DecimalDescComparator, DecimalAscComparator in *. split; [done| |].
  - intros a b. apply Ha.
  - intros a b c H1 H2. by apply (Ht c b a).
Qed.
Lemma levelCmp_eq s a b : levelCmp s a b = 0 <-> (dval a == dval b)%Q.
Proof.
  unfold levelCmp, DecimalDescComparator, DecimalAscComparator. destruct (s =s? SideBuy); rewrite Cmp_zero; [|done].
  split; by symmetry.
Qed.
End DecCmp.

Section Repr.
Context {P : DecimalPkg} {L : DecimalLaws P} {T : TreeMapPkg} {TL : TreeMapLaws T}.
Implicit Types (m : pushBook) (a : AbsBook).

(** An order of the matching engine as the push server stores it. *)
Definition trim (b : BookOrder) : BookOrder := pushOrder (bo_OrderId b) (bo_Size b) (bo_Side b) (bo_Price b).

Definition side_repr (s : Side) (t : TreeMap Dec PriceLevel) (lo : list BookOrder) : Prop :=
  exists l, tm_repr (levelCmp s) t l /\ levels_ok lo l.

Record push_repr m a : Prop := {
  pr_side s : valid_side s -> exists t, pb_depths m !! s = Some t /\ side_repr s t (ab_get a s);
  pr_other s : ~ valid_side s -> pb_depths m !! s = None;
  pr_orders id b' : pb_orders m !! id = Some b' <->
    exists b, b ∈ ab_bids a ++ ab_asks a /\ bo_OrderId b = id /\ b' = trim b;
  pr_ids : NoDup (ab_ids a);
  pr_sides s : valid_side s -> Forall (fun b => bo_Side b = s /\ unfilled b) (ab_get a s);
}.

Lemma elem_side a s b : valid_side s -> b ∈ ab_get a s -> b ∈ ab_bids a ++ ab_asks a.
Proof. intros Hs Hb. rewrite (ab_all_perm a s Hs). set_solver. Qed.

Lemma push_lookup m a s b : push_repr m a -> valid_side s -> b ∈ ab_get a s -> pb_orders m !! bo_OrderId b = Some (trim b).
Proof. intros R Hs Hb. apply (pr_orders _ _ R). exists b. split; [by eapply elem_side|done]. Qed.

Lemma push_lookup_None m a id : push_repr m a -> id ∉ ab_ids a -> pb_orders m !! id = None.
Proof.
  intros R Hid. destruct (pb_orders m !! id) as [b'|] eqn:E; [|done].
  apply (pr_orders _ _ R) in E as (b & Hb & <- & _). exfalso. apply Hid. unfold ab_ids. by apply list_elem_of_fmap_2.
Qed.

Lemma newOrderBook_repr pid : push_repr (newOrderBook pid) ab_empty.
Proof.
  split.
  - intros s [-> | ->]; (eexists; split; [reflexivity|]); exists []; (split; [apply tm_repr_New|]).
    all: split; [constructor|]; intros b Hb; inversion Hb.
  - intros s Hs. simpl. rewrite !lookup_insert_ne; [apply lookup_empty|..]; intros <-; apply Hs; [by left|by right].
  - intros id b'. simpl. rewrite lookup_empty. split; [done|]. intros (b & Hb & _). inversion Hb.
  - constructor.
  - intros s [-> | ->]; constructor.
Qed.

(** The book after one side has changed. *)
Lemma push_repr_set m a s t lo orders off seq n : push_repr m a -> valid_side s -> side_repr s t lo ->
  NoDup (ab_ids (ab_set a s lo)) -> Forall (fun b => bo_Side b = s /\ unfilled b) lo ->
  (forall id b', orders !! id = Some b' <-> exists b, b ∈ lo ++ ab_get a (Opposite s) /\ bo_OrderId b = id /\ b' = trim b) ->
  push_repr {| pb_productId := pb_productId m; pb_seq := n; pb_logOffset := off; pb_logSeq := seq;
               pb_depths := <[s := t]> (pb_depths m); pb_orders := orders |} (ab_set a s lo).
Proof.
  intros R Hs Ht Hn Hlo Ho. split; simpl.
  - intros s' Hs'. destruct (decide (s = s')) as [<-|Hne].
    + exists t. rewrite lookup_insert_eq, ab_get_set_eq. done.
    + rewrite lookup_insert_ne, ab_get_set_ne by done. by apply (pr_side _ _ R).
  - intros s' Hs'. rewrite lookup_insert_ne by (by intros <-). by apply (pr_other _ _ R).
  - intros id b'. rewrite Ho. apply exist_proper. intros b. rewrite (ab_all_perm _ s Hs), ab_get_set_eq.
    rewrite ab_get_set_ne; [done|done|apply valid_Opposite|]. by apply not_eq_sym, Opposite_ne.
  - done.
  - intros s' Hs'. destruct (decide (s = s')) as [<-|Hne].
    + by rewrite ab_get_set_eq.
    + rewrite ab_get_set_ne by done. by apply (pr_sides _ _ R).
Qed.
End Repr.

(** ** [saveOrder] *)

Section Save.
Context {P : DecimalPkg} {L : DecimalLaws P} {T : TreeMapPkg} {TL : TreeMapLaws T}.
Implicit Types (m : pushBook) (a : AbsBook).

(** What a change says: the new size of the level of price [p], whose orders are now those of [lo];
    the other levels are as they were with the orders of [lo0]. *)
Definition change_of m (s : Side) (p : Dec) (lo0 lo : list BookOrder) (c : Level2Change) : Prop :=
  lc_Seq c = i64 (pb_seq m + 1) /\ lc_ProductId c = pb_productId m /\ lc_Side c = s /\
  (forall q, ~ (dval q == dval p)%Q -> levelOrders q lo ≡ₚ levelOrders q lo0) /\
  exists k size, lc_Price c = dec_String k /\ lc_Size c = dec_String size /\ (dval k == dval p)%Q /\
    (dval size == dsum (bo_Size <$> levelOrders p lo))%Q.

(** The counters after a change. *)
Definition counted m (off seq : Z) m' : Prop :=
  pb_productId m' = pb_productId m /\ pb_seq m' = i64 (pb_seq m + 1) /\ pb_logOffset m' = off /\ pb_logSeq m' = seq.

Lemma ab_ids_side a s lo : valid_side s -> ab_ids (ab_set a s lo) ≡ₚ (bo_OrderId <$> lo) ++ (bo_OrderId <$> ab_get a (Opposite s)).
Proof.
  intros Hs. unfold ab_ids. rewrite (ab_all_perm _ s Hs), fmap_app, ab_get_set_eq, ab_get_set_ne; [done|done|apply valid_Opposite|].
  by apply not_eq_sym, Opposite_ne.
Qed.

Lemma saveOrder_add m a off seq s b lo : push_repr m a -> valid_side s -> bo_Side b = s -> unfilled b ->
  bo_OrderId b ∉ ab_ids a -> lo ≡ₚ b :: ab_get a s ->
  exists c m', saveOrder m off seq (bo_OrderId b) (bo_Size b) (bo_Price b) s = Ok (Some c, m') /\
    push_repr m' (ab_set a s lo) /\ counted m off seq m' /\ change_of m s (bo_Price b) (ab_get a s) lo c.
Proof.
  intros R Hs Hside Hpos Hid Hlo. unfold saveOrder. unfold unfilled in Hpos.
  destruct (dec_LessThan (bo_Size b) dec_Zero) eqn:E1; [exfalso; dec_lra|].
  rewrite (push_lookup_None _ _ _ R Hid). destruct (dec_IsZero (bo_Size b)) eqn:E2; [exfalso; dec_lra|].
  destruct (pr_side _ _ R s Hs) as (t & Ht & l & Rt & Hl). rewrite Ht. go_red.
  rewrite (tm_repr_Get _ (levelCmp_order s) _ _ _ Rt).
  set (p := bo_Price b). set (v := levelWith _ _ _).
  assert (Hother : forall q, ~ (dval q == dval p)%Q -> levelOrders q lo ≡ₚ levelOrders q (ab_get a s)).
  { intros q Hq. rewrite (levelOrders_perm _ _ _ Hlo), levelOrders_off; [done|]. intros E. apply Hq. symmetry. exact E. }
  assert (Hat : levelOrders p lo ≡ₚ b :: levelOrders p (ab_get a s)).
  { by rewrite (levelOrders_perm _ _ _ Hlo), levelOrders_at by (unfold atPrice; reflexivity). }
  assert (Hvp : (dval (pl_Price v) == dval p)%Q /\ (dval (pl_Size v) == dsum (bo_Size <$> levelOrders p lo))%Q /\
    pl_OrderCount v = i64 (Z.of_nat (length (levelOrders p lo)))).
  { assert (Hsum : (dsum (bo_Size <$> levelOrders p lo) == dval (bo_Size b) + dsum (bo_Size <$> levelOrders p (ab_get a s)))%Q).
    { rewrite <- dsum_cons, <- fmap_cons. apply dsum_perm. by rewrite Hat. }
    rewrite Hsum, (Permutation_length Hat). cbn [length]. unfold v, levelWith.
    destruct (levels_get_cases _ (levelCmp_order s) (levelCmp_eq s) _ _ p (tr_sorted _ _ _ Rt) Hl)
      as [[-> Hnil]|(k & w & -> & [Hk Ho Hsz Hc] & Hkp)]; cbn [pl_Price pl_Size pl_OrderCount].
    - rewrite Hnil. simpl. split; [reflexivity|]. split; [lra|done].
    - simpl in Hk, Hsz, Hc. rewrite Hk. split; [done|]. rewrite (levelOrders_eq k p) in Hsz, Hc by done. split; [dec_lra|].
      rewrite Hc, i64_add. f_equal. lia. }
  destruct Hvp as (Hvp & Hvs & Hvc). do 2 eexists. split; [reflexivity|]. split; [|split; [done|]].
  - eapply push_repr_set; [done|done| | | |].
    + exists (sl_put (levelCmp s) (pl_Price v) v l). split; [apply tm_repr_Put; [apply levelCmp_order|done]|].
      eapply levels_put; [apply levelCmp_order|apply levelCmp_eq|apply (tr_sorted _ _ _ Rt)|exact Hl|exact Hother|done|].
      split; simpl; [done| | |]; rewrite (levelOrders_eq _ p) by done; [|done|done].
      intros E. rewrite E in Hat. by apply Permutation_nil_cons in Hat.
    + rewrite (ab_ids_side a s lo Hs), Hlo. simpl. pose proof (pr_ids _ _ R) as Hn. rewrite <- (ab_set_get a s) in Hn, Hid.
      rewrite ab_ids_side in Hn by done. constructor; [|done]. by rewrite ab_ids_side in Hid.
    + rewrite Hlo. constructor; [done|]. by apply (pr_sides _ _ R).
    + intros id b'. destruct (decide (bo_OrderId b = id)) as [<-|Hne].
      * rewrite lookup_insert_eq. split.
        -- intros [= <-]. exists b. rewrite Hlo. split; [set_solver|]. split; [done|]. unfold trim. by rewrite Hside.
        -- intros (b0 & Hb0 & Eid & ->). rewrite Hlo in Hb0. apply elem_of_app in Hb0 as [Hb0|Hb0].
           ++ apply elem_of_cons in Hb0 as [->|Hb0]; [unfold trim; by rewrite Hside|]. exfalso. apply Hid. rewrite <- Eid.
              unfold ab_ids. apply list_elem_of_fmap_2. by eapply elem_side.
           ++ exfalso. apply Hid. rewrite <- Eid. unfold ab_ids. apply list_elem_of_fmap_2.
              eapply elem_side; [apply valid_Opposite|done].
      * rewrite lookup_insert_ne, (pr_orders _ _ R) by done. apply exist_proper. intros b0. rewrite Hlo, (ab_all_perm a s Hs).
        split; [set_solver|]. intros (Hb0 & <- & ->). simpl in Hb0. apply elem_of_cons in Hb0 as [->|?]; [done|]. done.
  - split; [done|]. split; [done|]. split; [done|]. split; [exact Hother|]. exists (pl_Price v), (pl_Size v). done.
Qed.

(** The orders at a price, around one of them. *)
Lemma levelOrders_mid q l1 b l2 :
  levelOrders q (l1 ++ b :: l2) ≡ₚ (if decide (atPrice q b) then [b] else []) ++ levelOrders q (l1 ++ l2).
Proof.
  rewrite !levelOrders_app. destruct (decide (atPrice q b)) as [H|H]; simpl.
  - rewrite levelOrders_at by done. by rewrite Permutation_middle.
  - by rewrite levelOrders_off.
Qed.

Lemma keepIfOpen_cases b size l1 l2 : (0 <= dval size)%Q ->
  dec_IsZero size = true /\ (dval size == 0)%Q /\ l1 ++ keepIfOpen (bo_setSize b size) ++ l2 = l1 ++ l2 \/
  dec_IsZero size = false /\ (0 < dval size)%Q /\
    l1 ++ keepIfOpen (bo_setSize b size) ++ l2 = l1 ++ bo_setSize b size :: l2.
Proof.
  intros Hpos. unfold keepIfOpen. cbn [bo_Size bo_setSize]. destruct (dec_IsZero size) eqn:E; [left|right]; dec_prop; [done|].
  split; [done|]. split; [lra|done].
Qed.

(** The orders that are left, by id. *)
Lemma orders_set m a s l1 b l2 size : push_repr m a -> valid_side s -> ab_get a s = l1 ++ b :: l2 -> (0 <= dval size)%Q ->
  let lo := l1 ++ keepIfOpen (bo_setSize b size) ++ l2 in
  let orders := if dec_IsZero size then delete (bo_OrderId b) (pb_orders m)
                else <[bo_OrderId b := bo_setSize (trim b) size]> (pb_orders m) in
  NoDup (ab_ids (ab_set a s lo)) /\ Forall (fun x => bo_Side x = s /\ unfilled x) lo /\
  forall id b', orders !! id = Some b' <-> exists x, x ∈ lo ++ ab_get a (Opposite s) /\ bo_OrderId x = id /\ b' = trim x.
Proof.
  intros R Hs Hl Hpos lo orders. pose proof (pr_ids _ _ R) as Hn. rewrite <- (ab_set_get a s), ab_ids_side, Hl in Hn by done.
  rewrite <- Permutation_middle in Hn. cbn [fmap list_fmap app] in Hn. apply NoDup_cons in Hn as [Hid Hn].
  assert (Hne : forall x, x ∈ l1 ++ l2 ++ ab_get a (Opposite s) -> bo_OrderId x <> bo_OrderId b).
  { intros x Hx E. apply Hid. rewrite <- E, <- fmap_app. apply list_elem_of_fmap_2. set_solver. }
  pose proof (pr_sides _ _ R s Hs) as Hf. rewrite Hl in Hf. apply Forall_app in Hf as [Hf1 [[Hside Hb] Hf2]%Forall_cons].
  assert (Hrest : forall id b', id <> bo_OrderId b -> pb_orders m !! id = Some b' <->
    exists x, x ∈ l1 ++ l2 ++ ab_get a (Opposite s) /\ bo_OrderId x = id /\ b' = trim x).
  { intros id b' Hid'. rewrite (pr_orders _ _ R). apply exist_proper. intros x. rewrite (ab_all_perm a s Hs), Hl.
    split; [|set_solver]. intros (Hx & <- & ->). split; [|done].
    rewrite <- app_assoc in Hx. simpl in Hx. apply elem_of_app in Hx as [?|[->|?]%elem_of_cons]; [set_solver|done|set_solver]. }
  subst lo orders. destruct (keepIfOpen_cases b size l1 l2 Hpos) as [(Hz & _ & ->)|(Hz & Hp & ->)]; rewrite Hz.
  - split; [by rewrite ab_ids_side|]. split; [by apply Forall_app|]. intros id b'. rewrite <- app_assoc.
    destruct (decide (id = bo_OrderId b)) as [->|Hid']; [|by rewrite lookup_delete_ne, Hrest].
    rewrite lookup_delete_eq. split; [done|]. intros (x & Hx & E & _). by apply Hne in Hx.
  - split; [|split].
    + rewrite ab_ids_side by done. rewrite <- Permutation_middle. cbn [fmap list_fmap app]. by constructor.
    + apply Forall_app. split; [done|]. constructor; [done|done].
    + intros id b'. destruct (decide (id = bo_OrderId b)) as [->|Hid'].
      * rewrite lookup_insert_eq. split.
        -- intros [= <-]. exists (bo_setSize b size). split; [set_solver|done].
        -- intros (x & Hx & E & ->). rewrite <- app_assoc in Hx. simpl in Hx.
           apply elem_of_app in Hx as [?|[->|?]%elem_of_cons]; [|done|]; exfalso; apply (Hne x); set_solver.
      * rewrite lookup_insert_ne, Hrest by done. apply exist_proper. intros x. split; [set_solver|].
        intros (Hx & <- & ->). split; [|done]. rewrite <- app_assoc in Hx. simpl in Hx.
        apply elem_of_app in Hx as [?|[->|?]%elem_of_cons]; [set_solver|done|set_solver].
Qed.

Lemma saveOrder_set m a off seq s l1 b l2 size : push_repr m a -> valid_side s -> ab_get a s = l1 ++ b :: l2 ->
  (0 <= dval size)%Q -> let lo := l1 ++ keepIfOpen (bo_setSize b size) ++ l2 in
  exists c m', saveOrder m off seq (bo_OrderId b) size (bo_Price b) s = Ok (Some c, m') /\
    push_repr m' (ab_set a s lo) /\ counted m off seq m' /\ change_of m s (bo_Price b) (ab_get a s) lo c.
Proof.
  intros R Hs Hl Hpos lo. destruct (orders_set m a s l1 b l2 size R Hs Hl Hpos) as (Hn & Hf & Ho).
  assert (Hb : b ∈ ab_get a s) by (rewrite Hl; set_solver).
  unfold saveOrder. destruct (dec_LessThan size dec_Zero) eqn:E1; [exfalso; dec_lra|].
  rewrite (push_lookup _ _ _ _ R Hs Hb). destruct (pr_side _ _ R s Hs) as (t & Ht & l & Rt & Hlv). rewrite Ht. go_red.
  rewrite (tm_repr_Get _ (levelCmp_order s) _ _ _ Rt). set (p := bo_Price b).
  destruct (levels_get_Some _ (levelCmp_order s) (levelCmp_eq s) _ _ b p (tr_sorted _ _ _ Rt) Hlv Hb) as (k & v & Hv & [Hk _ Hsz Hc] & Hkp);
    [unfold atPrice; reflexivity|]. rewrite Hv. go_red. simpl in Hk, Hsz, Hc. rewrite (levelOrders_eq k p) in Hsz, Hc by done.
  cbn [bo_Size bo_OrderId trim pushOrder]. set (v' := {| pl_Price := pl_Price v |}).
  assert (Hother : forall q, ~ (dval q == dval p)%Q -> levelOrders q lo ≡ₚ levelOrders q (ab_get a s)).
  { intros q Hq. assert (Hoff : forall x, bo_Price x = p -> ~ atPrice q x) by (intros x Hx E; apply Hq; unfold atPrice in E; by rewrite Hx in E).
    rewrite Hl, levelOrders_mid, decide_False by (by apply Hoff). simpl. subst lo.
    destruct (keepIfOpen_cases b size l1 l2 Hpos) as [(_ & _ & ->)|(_ & _ & ->)]; [done|].
    by rewrite levelOrders_mid, decide_False by (by apply Hoff). }
  set (rest := levelOrders p (l1 ++ l2)).
  assert (Hold : levelOrders p (ab_get a s) ≡ₚ b :: rest).
  { rewrite Hl, levelOrders_mid, decide_True; [done|]. unfold atPrice. reflexivity. }
  assert (Hrest : Forall unfilled rest).
  { pose proof (pr_sides _ _ R s Hs) as Hall. rewrite Hl in Hall. apply Forall_forall. intros x [_ Hx]%elem_levelOrders.
    rewrite Forall_forall in Hall. apply Hall. set_solver. }
  assert (Hsize : (dval (pl_Size v') == dval size + dsum (bo_Size <$> rest))%Q).
  { rewrite (dsum_perm _ (bo_Size <$> (b :: rest))) in Hsz by (by rewrite Hold). rewrite fmap_cons, dsum_cons in Hsz.
    simpl. dec_lra. }
  rewrite (Permutation_length Hold) in Hc. cbn [length] in Hc. pose proof (unfilled_sum _ Hrest) as [Hr0 Hr1].
  assert (Hnew : (dval size == 0)%Q /\ dec_IsZero size = true /\ levelOrders p lo = rest \/
                 (0 < dval size)%Q /\ dec_IsZero size = false /\ levelOrders p lo ≡ₚ bo_setSize b size :: rest).
  { subst lo. destruct (keepIfOpen_cases b size l1 l2 Hpos) as [(? & ? & ->)|(? & ? & ->)]; [by left|right].
    split; [done|]. split; [done|]. rewrite levelOrders_mid, decide_True; [done|]. unfold atPrice. reflexivity. }
  assert (Hnsum : (dsum (bo_Size <$> levelOrders p lo) == dval size + dsum (bo_Size <$> rest))%Q).
  { destruct Hnew as [(? & _ & ->)|(_ & _ & Hp)]; [lra|]. rewrite (dsum_perm _ (bo_Size <$> (bo_setSize b size :: rest))) by (by rewrite Hp).
    reflexivity. }
  do 2 eexists. split; [reflexivity|]. split; [|split; [done|]].
  - eapply push_repr_set; [done|done| |done|done|exact Ho].
    change (dec_Sub (pl_Size v) (dec_Sub (bo_Size b) size)) with (pl_Size v'). destruct (dec_IsZero (pl_Size v')) eqn:Ez; dec_prop.
    + exists (sl_remove (levelCmp s) p l). split; [apply tm_repr_Remove; [apply levelCmp_order|done]|].
      eapply levels_drop; [apply levelCmp_order|apply levelCmp_eq|apply (tr_sorted _ _ _ Rt)|exact Hlv|exact Hother|].
      destruct Hnew as [(? & _ & ->)|(? & _ & _)]; [|lra].
      destruct (decide (rest = [])) as [->|Hne]; [done|]. specialize (Hr1 Hne). lra.
    + exists (sl_put (levelCmp s) (pl_Price v') v' l). split; [apply tm_repr_Put; [apply levelCmp_order|done]|].
      eapply levels_put; [apply levelCmp_order|apply levelCmp_eq|apply (tr_sorted _ _ _ Rt)|exact Hlv|exact Hother|cbn; by rewrite Hk|].
      assert (Hpk : (dval (pl_Price v') == dval p)%Q) by (cbn; by rewrite Hk).
      split; cbn [fst snd]; [done| | |]; rewrite (levelOrders_eq _ p) by done.
      * intros E. rewrite E in Hnsum. simpl in Hnsum. lra.
      * by rewrite Hsize, Hnsum.
      * cbn [pl_OrderCount v']. destruct Hnew as [(Hz & -> & ->)|(Hp0 & -> & ->)].
        -- rewrite Hc, andb_true_r. change (dec_Sub (pl_Size v) (dec_Sub (bo_Size b) size)) with (pl_Size v').
           destruct (dec_IsZero (pl_Size v')) eqn:Ez'; dec_prop; [done|]. cbn [negb].
           replace (i64 (Z.of_nat (S (length rest))) - 1) with (i64 (Z.of_nat (S (length rest))) + -1) by lia.
           rewrite i64_add. f_equal. lia.
        -- by rewrite andb_false_r, Hc.
  - split; [done|]. split; [done|]. split; [done|]. split; [exact Hother|]. exists (pl_Price v'), (pl_Size v'). split; [done|]. split; [done|].
    split; [cbn; by rewrite Hk|]. by rewrite Hsize, Hnsum.
Qed.
End Save.

(** ** What a subscriber sees *)

(** The levels as a subscriber keeps them: the size of a side and a price, in print. *)
Abbreviation level2View := (gmap (string * string) string).

Section View.
Context {P : DecimalPkg} {L : DecimalLaws P} {T : TreeMapPkg}.

(** A change sets the size of a level; size zero removes it. *)
Definition applyChange (v : level2View) (c : Level2Change) : level2View :=
  if decide (lc_Size c = dec_String dec_Zero) then delete (lc_Side c, lc_Price c) v
  else <[(lc_Side c, lc_Price c) := lc_Size c]> v.
Definition replay (v : level2View) (cs : list Level2Change) : level2View := foldl applyChange v cs.

(** The view shows the sum of the sizes at each price of each side, and nothing where there are no orders. *)
Definition shows (f : Side -> list BookOrder) (v : level2View) : Prop :=
  forall s q, valid_side s ->
    match levelOrders q (f s) with
    | [] => v !! (s, dec_String q) = None
    | lo => exists size, v !! (s, dec_String q) = Some (dec_String size) /\ (dval size == dsum (bo_Size <$> lo))%Q
    end.

Lemma shows_perm f g v : (forall s, valid_side s -> f s ≡ₚ g s) -> shows f v -> shows g v.
Proof.
  intros Hfg Hv s q Hs. specialize (Hv s q Hs). pose proof (levelOrders_perm q _ _ (Hfg s Hs)) as Hp.
  destruct (levelOrders q (f s)) as [|b lo], (levelOrders q (g s)) as [|b' lo']; [done|by apply Permutation_nil_cons in Hp| |].
  { symmetry in Hp. by apply Permutation_nil_cons in Hp. }
  destruct Hv as (size & Hv & Hsum). exists size. split; [done|]. rewrite Hsum. apply dsum_perm. by rewrite Hp.
Qed.

(** An empty level has no size, and no other level has none. *)
Lemma level_zero q lo : Forall unfilled lo -> (dsum (bo_Size <$> levelOrders q lo) == 0)%Q <-> levelOrders q lo = [].
Proof.
  intros Hlo. assert (Hf : Forall unfilled (levelOrders q lo)).
  { apply Forall_forall. intros b [_ Hb]%elem_levelOrders. rewrite Forall_forall in Hlo. by apply Hlo. }
  destruct (unfilled_sum _ Hf) as [_ Hpos]. split.
  - intros E. destruct (levelOrders q lo); [done|]. specialize (Hpos ltac:(done)). lra.
  - intros ->. reflexivity.
Qed.

Lemma applyChange_shows m a s p lo c v : valid_side s -> Forall unfilled lo -> change_of m s p (ab_get a s) lo c ->
  shows (ab_get a) v -> shows (ab_get (ab_set a s lo)) (applyChange v c).
Proof.
  intros Hs Hlo (_ & _ & Es & Hother & k & size & Ek & Ez & Hk & Hsum) Hv s' q Hs'.
  assert (Hd : (s' = s /\ (dval q == dval p)%Q) \/ ~ (s' = s /\ (dval q == dval p)%Q))
    by (destruct (decide (s' = s)), (Qeq_dec (dval q) (dval p)); tauto).
  destruct Hd as [[-> Hq]|Hne].
  - rewrite ab_get_set_eq, (levelOrders_eq q p) by done.
    assert (dec_String q = dec_String k) as -> by (apply dec_String_val; by rewrite Hq, Hk).
    pose proof (level_zero p lo Hlo) as Hz.
    assert (Hzero : dec_String size = dec_String dec_Zero <-> levelOrders p lo = []).
    { rewrite <- Hz, dec_String_val, dval_Zero. split; intros E; lra. }
    unfold applyChange. rewrite Es, Ek, Ez.
    destruct (decide (dec_String size = dec_String dec_Zero)) as [E0|E0].
    + apply Hzero in E0. rewrite E0. apply lookup_delete_eq.
    + destruct (levelOrders p lo) as [|b rest] eqn:E; [by destruct E0; apply Hzero|].
      exists size. split; [apply lookup_insert_eq|done].
  - assert (Hkey : (s', dec_String q) <> (s, dec_String k)).
    { intros [= -> E]. apply Hne. split; [done|]. apply dec_String_val in E. by rewrite E, Hk. }
    assert (Hlook : applyChange v c !! (s', dec_String q) = v !! (s', dec_String q)).
    { unfold applyChange. rewrite Es, Ek. case_decide; [by rewrite lookup_delete_ne|by rewrite lookup_insert_ne]. }
    rewrite Hlook. specialize (Hv s' q Hs'). destruct (decide (s' = s)) as [->|Hss].
    + assert (Hp : levelOrders q lo ≡ₚ levelOrders q (ab_get a s)) by (apply Hother; tauto). rewrite ab_get_set_eq.
      destruct (levelOrders q (ab_get a s)) as [|b rest], (levelOrders q lo) as [|b' rest'];
        [done|by symmetry in Hp; apply Permutation_nil_cons in Hp|by apply Permutation_nil_cons in Hp|].
      destruct Hv as (sz & Hv & Hsz). exists sz. split; [done|]. rewrite Hsz. apply dsum_perm. by rewrite Hp.
    + rewrite ab_get_set_ne by (done || by apply not_eq_sym). exact Hv.
Qed.
End View.
