(* ===== verification/PushView.v ===== *)
(** What the snapshots of the push book say.

    [SnapshotLevel2_rows]: a level 2 snapshot lists the best levels of each
    side, in order.  [snapshot_shows]: if it is long enough, a subscriber that
    starts from it sees the sum of the sizes of the orders at every price. *)
From S2P Require Import Prelude Decimal TreeMap Models MatchLog OrderBook DepthInv Book PushBook PushInv.
From Stdlib Require Import QArith Lqa.
From stdpp Require Import gmap list.
Open Scope string_scope.
Open Scope list_scope.
Open Scope Z_scope.

Section Rows.
Context {P : DecimalPkg} {L : DecimalLaws P} {T : TreeMapPkg} {TL : TreeMapLaws T}.
Context (s : Side) (t : TreeMap Dec PriceLevel) (l : list (Dec * PriceLevel)) (R : tm_repr (levelCmp s) t l).
Context (n : Z) (Hn : 0 <= n).

Definition rows (k : list (Dec * PriceLevel)) : list levelRow := (fun e => rowOfLevel e.2) <$> k.

Lemma next_after pre post : l = pre ++ post -> sl_next (levelCmp s) (fst <$> last pre) l = head post.
Proof.
  intros ->. destruct pre as [|e0 pre0] eqn:E0 using rev_ind; [apply sl_next_None|clear E0 IHpre0].
  rewrite last_snoc. cbn [fmap option_fmap option_map]. pose proof (tr_sorted _ _ _ R) as Hs.
  unfold sl_sorted in Hs. apply StronglySorted_app in Hs as (Hcross & Hpre & _).
  apply (sl_next_app _ (levelCmp_order s)).
  - apply StronglySorted_app in Hpre as (Hlt & _ & _). apply Forall_app. split.
    + apply Forall_forall. intros e He. specialize (Hlt e e0 He ltac:(set_solver)). unfold sl_lt in Hlt. lia.
    + repeat constructor. rewrite (cmp_refl (levelCmp_order s)). lia.
  - apply Forall_forall. intros e He. apply (Hcross e0 e); set_solver.
Qed.

Lemma fillRows_spec post : forall pre fuel rs, l = pre ++ post -> (length post < fuel)%nat -> Z.of_nat (length pre) <= n ->
  rs = rows pre ++ replicate (Nat.min (Z.to_nat n) (length l) - length pre) None ->
  fillRows fuel t (fst <$> last pre) (Z.of_nat (length pre)) n rs = Ok (rows (take (Z.to_nat n) l)).
Proof.
  induction post as [|[k v] post IH]; intros pre fuel rs El Hf Hi ->; (destruct fuel as [|fuel]; [simpl in Hf; lia|]); simpl.
  - rewrite (tm_repr_Next _ (levelCmp_order s) _ _ _ R), (next_after pre []) by done. simpl.
    rewrite app_nil_r in El. subst l. rewrite take_ge by lia.
    replace (Nat.min _ _ - _)%nat with O by lia. by rewrite app_nil_r.
  - rewrite (tm_repr_Next _ (levelCmp_order s) _ _ _ R), (next_after pre ((k, v) :: post)) by done. simpl.
    assert (Hlen : length l = (length pre + S (length post))%nat) by (rewrite El, length_app; done).
    destruct (Z.ltb_spec (Z.of_nat (length pre)) n) as [Hlt|Hge].
    + set (rs := rows pre ++ _). assert (Hrs : (length pre < length rs)%nat).
      { unfold rs. rewrite length_app, length_replicate. unfold rows. rewrite length_fmap. lia. }
      destruct (lookup_lt_is_Some_2 rs (length pre) Hrs) as [r Hr].
      assert (Hix : indexed rs (Z.of_nat (length pre)) = Some r) by (apply indexed_Some; rewrite Nat2Z.id; split; [lia|done]).
      rewrite Hix. go_red. rewrite Nat2Z.id.
      specialize (IH (pre ++ [(k, v)]) fuel (<[length pre := rowOfLevel v]> rs)).
      rewrite last_snoc, length_app in IH. simpl in IH. replace (Z.of_nat (length pre + 1)) with (Z.of_nat (length pre) + 1) in IH by lia.
      apply IH; [by rewrite <- app_assoc|simpl in Hf; lia|lia|].
      unfold rs, rows. rewrite insert_app_r_alt by (by rewrite length_fmap). rewrite length_fmap, Nat.sub_diag, fmap_app, <- app_assoc. f_equal.
      replace (Nat.min (Z.to_nat n) (length l) - length pre)%nat with (S (Nat.min (Z.to_nat n) (length l) - (length pre + 1))) by lia. done.
    + f_equal. replace (Nat.min _ _ - _)%nat with O by lia. rewrite app_nil_r, El.
      assert (Z.to_nat n = length pre) as -> by lia. by rewrite take_app_length.
Qed.

Lemma sideRows_spec : sideRows t n = Ok (rows (take (Z.to_nat n) l)).
Proof.
  unfold sideRows. rewrite (tm_repr_Size _ _ _ R).
  apply (fillRows_spec l []); [done|simpl; lia|simpl; lia|]. simpl. rewrite Nat.sub_0_r. f_equal. unfold MinInt. case_bool; lia.
Qed.
End Rows.

Section View.
Context {P : DecimalPkg} {L : DecimalLaws P} {T : TreeMapPkg} {TL : TreeMapLaws T}.
Implicit Types (l : list (Dec * PriceLevel)).

(** The view a subscriber starts with. *)
Definition rowsView (s : Side) (rs : list levelRow) : list (string * string * string) :=
  omap (fun r => match r with Some (price, size, _) => Some ((s, price), size) | None => None end) rs.
Definition viewOf (snapshot : OrderBookLevel2Snapshot) : level2View :=
  list_to_map (rowsView SideBuy (l2_Bids snapshot) ++ rowsView SideSell (l2_Asks snapshot)).

Definition levelCount (m : pushBook) (s : Side) : Z := Z.of_nat (default O (tm_Size <$> pb_depths m !! s)).

Definition rowKey (s : Side) (e : Dec * PriceLevel) : string * string * string :=
  ((s, dec_String (pl_Price e.2)), dec_String (pl_Size e.2)).

Lemma rowsView_rows s l : rowsView s (rows l) = rowKey s <$> l.
Proof. induction l as [|e l IH]; [done|]. cbn. f_equal. exact IH. Qed.

Lemma rowKeys_NoDup s lo l : sl_sorted (levelCmp s) l -> Forall (level_ok lo) l -> NoDup (fst <$> (rowKey s <$> l)).
Proof.
  induction 1 as [|e l Hs IH He]; intros Hl; [constructor|]. apply Forall_cons in Hl as [[Hp _ _ _] Hl]. rewrite !fmap_cons.
  constructor; [|by apply IH]. rewrite <- list_fmap_compose, list_elem_of_fmap. intros (x & E & Hx). injection E as E.
  apply dec_String_val in E. rewrite Forall_forall in He, Hl. specialize (He x Hx). destruct (Hl x Hx) as [Hpx _ _ _].
  unfold sl_lt in He. assert (levelCmp s e.1 x.1 = 0) as E0 by (apply levelCmp_eq; by rewrite <- Hp, <- Hpx). lia.
Qed.

Lemma side_shows s lo l q : sl_sorted (levelCmp s) l -> levels_ok lo l ->
  match levelOrders q lo with
  | [] => forall size, ((s, dec_String q), size) ∉ (rowKey s <$> l)
  | lo' => exists size, ((s, dec_String q), dec_String size) ∈ (rowKey s <$> l) /\ (dval size == dsum (bo_Size <$> lo'))%Q
  end.
Proof.
  intros Hs [Hl Ha]. rewrite Forall_forall in Hl. destruct (levelOrders q lo) as [|b rest] eqn:E.
  - intros size (e & Ek & He)%list_elem_of_fmap. injection Ek as Ek _. apply dec_String_val in Ek.
    destruct (Hl e He) as [Hp Ho _ _]. apply Ho. rewrite (levelOrders_eq _ q); [done|]. by rewrite <- Hp, Ek.
  - assert (Hb : b ∈ levelOrders q lo) by (rewrite E; set_solver). apply elem_levelOrders in Hb as [Hat Hb].
    destruct (Ha b Hb) as (e & He & Ek). destruct (Hl e He) as [Hp _ Hsz _]. unfold atPrice in Hat.
    assert (Heq : (dval e.1 == dval q)%Q) by (by rewrite Ek, Hat). exists (pl_Size e.2). split.
    + apply list_elem_of_fmap. exists e. split; [|done]. unfold rowKey. do 2 f_equal. apply dec_String_val. by rewrite Hp, Heq.
    + by rewrite Hsz, (levelOrders_eq _ q), E.
Qed.

Lemma SnapshotLevel2_seq m n snapshot : SnapshotLevel2 m n = Ok snapshot -> l2_Seq snapshot = pb_seq m.
Proof.
  unfold SnapshotLevel2. intros (t1 & _ & (t2 & _ & (r1 & _ & (r2 & _ & [= <-])%bind_Ok)%bind_Ok)%bind_Ok)%bind_Ok. done.
Qed.

Lemma snapshot_shows m a n snapshot : push_repr m a -> SnapshotLevel2 m n = Ok snapshot ->
  (forall s, valid_side s -> levelCount m s <= n) -> shows (ab_get a) (viewOf snapshot).
Proof.
  intros R Hsnap Hn. unfold SnapshotLevel2 in Hsnap.
  destruct (pr_side _ _ R SideSell ltac:(by right)) as (ta & Ea & la & Ra & La).
  destruct (pr_side _ _ R SideBuy ltac:(by left)) as (tb & Eb & lb & Rb & Lb).
  assert (Hna : Z.of_nat (length la) <= n).
  { specialize (Hn SideSell ltac:(by right)). unfold levelCount in Hn. rewrite Ea in Hn. simpl in Hn. by rewrite (tm_repr_Size _ _ _ Ra) in Hn. }
  assert (Hnb : Z.of_nat (length lb) <= n).
  { specialize (Hn SideBuy ltac:(by left)). unfold levelCount in Hn. rewrite Eb in Hn. simpl in Hn. by rewrite (tm_repr_Size _ _ _ Rb) in Hn. }
  rewrite Ea, Eb in Hsnap. cbn [deref mbind outcome_bind] in Hsnap.
  rewrite (sideRows_spec _ _ _ Ra n), (sideRows_spec _ _ _ Rb n), !take_ge in Hsnap by lia.
  cbn [mbind outcome_bind] in Hsnap. injection Hsnap as <-. unfold viewOf. cbn [l2_Bids l2_Asks]. rewrite !rowsView_rows.
  assert (Hkeys : NoDup (fst <$> (rowKey SideBuy <$> lb) ++ (rowKey SideSell <$> la))).
  { rewrite fmap_app. apply NoDup_app. split; [eapply rowKeys_NoDup; [apply Rb|apply Lb]|]. split; [|eapply rowKeys_NoDup; [apply Ra|apply La]].
    intros k Hb Ha. rewrite <- list_fmap_compose in Hb, Ha. apply list_elem_of_fmap in Hb as (x & -> & _), Ha as (y & E & _). discriminate E. }
  intros s q Hs.
  assert (Hside : exists l, levels_ok (ab_get a s) l /\ sl_sorted (levelCmp s) l /\
    forall size, ((s, dec_String q), size) ∈ (rowKey SideBuy <$> lb) ++ (rowKey SideSell <$> la) <-> ((s, dec_String q), size) ∈ (rowKey s <$> l)).
  { assert (Hoff : forall s' l size, s <> s' -> ((s, dec_String q), size) ∉ (rowKey s' <$> l)).
    { intros s' l size Hne (x & E & _)%list_elem_of_fmap. injection E as E _. done. }
    destruct Hs as [-> | ->]; [exists lb|exists la]; (split; [done|]); (split; [apply Rb || apply Ra|]); intros size; rewrite elem_of_app.
    - split; [intros [?|Hx]; [done|by apply Hoff in Hx]|auto].
    - split; [intros [Hx|?]; [by apply Hoff in Hx|done]|auto]. }
  destruct Hside as (l & Hl & Hsort & Hmem). pose proof (side_shows s (ab_get a s) l q Hsort Hl) as Hshow.
  destruct (levelOrders q (ab_get a s)) as [|b rest].
  - apply not_elem_of_list_to_map_1. intros (x & E & Hx)%list_elem_of_fmap. destruct x as [k size]. simpl in E. subst k.
    apply Hmem in Hx. by apply Hshow in Hx.
  - destruct Hshow as (size & Hin & Hsum). exists size. split; [|done]. apply elem_of_list_to_map_1; [done|]. by apply Hmem.
Qed.
End View.
