(* ===== verification/PushMirror.v ===== *)
(** The push server's book follows the matching engine's.

    [follows a logs a']: a push book that holds what the abstract book [a]
    holds takes the logs without a panic and then holds what [a'] holds.  Every
    operation of the matching engine's book is followed by the logs it writes
    ([ApplyOrder_followed] and the like), so the push server's book mirrors it
    after every order. *)
From S2P Require Import Prelude Decimal TreeMap Models Window MatchLog OrderBook DepthInv Matching Book Trading Applier PushBook PushInv.
From Stdlib Require Import QArith Lqa.
From stdpp Require Import gmap list.
Open Scope string_scope.
Open Scope list_scope.
Open Scope Z_scope.

Section Follow.
Context {P : DecimalPkg} {L : DecimalLaws P} {T : TreeMapPkg} {TL : TreeMapLaws T}.
Implicit Types (m : pushBook) (a : AbsBook).

(** The changes count on from [n] to [n']. *)
Fixpoint changesTo (n : Z) (cs : list Level2Change) (n' : Z) : Prop :=
  match cs with [] => n' = n | c :: cs => lc_Seq c = i64 (n + 1) /\ changesTo (lc_Seq c) cs n' end.

Lemma changesTo_app n cs1 n1 cs2 n2 : changesTo n cs1 n1 -> changesTo n1 cs2 n2 -> changesTo n (cs1 ++ cs2) n2.
Proof.
  revert n. induction cs1 as [|c cs1 IH]; intros n; simpl; [by intros ->|]. intros [? ?] ?. split; [done|]. by apply IH.
Qed.

Lemma changesTo_app_inv n cs1 n1 cs2 n2 : changesTo n cs1 n1 -> changesTo n (cs1 ++ cs2) n2 -> changesTo n1 cs2 n2.
Proof. revert n. induction cs1 as [|c cs1 IH]; intros n; simpl; [by intros ->|]. intros [? ?] [? ?]. by eapply IH. Qed.

Lemma changesTo_seq n cs n' i c : changesTo n cs n' -> 0 <= n -> n + Z.of_nat (length cs) < i64_half ->
  cs !! i = Some c -> lc_Seq c = n + 1 + Z.of_nat i.
Proof.
  revert n i. induction cs as [|c0 cs IH]; intros n i Hc Hn Hlen Hi; [done|]. destruct Hc as [Hs Hc]. simpl in Hlen.
  rewrite i64_id in Hs by (unfold is_i64, i64_half in *; lia). destruct i as [|i]; [injection Hi as <-; lia|].
  rewrite Hs in Hc. rewrite (IH _ _ Hc) by (done || lia). lia.
Qed.

Lemma changesTo_last n cs n' : changesTo n cs n' -> 0 <= n -> n + Z.of_nat (length cs) < i64_half -> n' = n + Z.of_nat (length cs).
Proof.
  revert n. induction cs as [|c0 cs IH]; intros n Hc Hn Hlen; simpl in *; [lia|]. destruct Hc as [Hs Hc].
  rewrite i64_id in Hs by (unfold is_i64, i64_half in *; lia). rewrite Hs in Hc. rewrite (IH _ Hc); lia.
Qed.

(** The logs are taken; the book and every subscriber's view that showed [a] then show [a']. *)
Definition followed a m (logs : list (Log * Z)) a' : Prop :=
  exists cs m', followLogs m logs = Ok (cs, m') /\ push_repr m' a' /\ changesTo (pb_seq m) cs (pb_seq m') /\
    forall v, shows (ab_get a) v -> shows (ab_get a') (replay v cs).

Definition followsTo a (logs : list Log) a' : Prop :=
  forall m ologs, push_repr m a -> ologs.*1 = logs -> followed a m ologs a'.

(** So do their beginnings: between two logs, too, the book is that of some orders. *)
Definition follows a (logs : list Log) a' : Prop :=
  followsTo a logs a' /\ forall pre, pre `prefix_of` logs -> exists a1, followsTo a pre a1.

Lemma followsTo_nil a : followsTo a [] a.
Proof. intros m [|] R E; [|done]. by exists [], m. Qed.
Lemma follows_nil a : follows a [] a.
Proof. split; [apply followsTo_nil|]. intros pre ->%prefix_nil_inv. exists a. apply followsTo_nil. Qed.

Lemma followLogs_app m l1 l2 : followLogs m (l1 ++ l2) =
  ('(cs, m) ← followLogs m l1; '(cs', m) ← followLogs m l2; mret (cs ++ cs', m)).
Proof.
  revert m. induction l1 as [|[l off] l1 IH]; intros m; simpl.
  - destruct (followLogs m l2) as [[? ?]| | |]; done.
  - destruct (followLog m l off) as [[cs1 m1]| | |]; go_red; [|done..].
    rewrite IH. destruct (followLogs m1 l1) as [[cs2 m2]| | |]; go_red; [|done..].
    destruct (followLogs m2 l2) as [[cs3 m3]| | |]; go_red; [|done..]. by rewrite app_assoc.
Qed.

Lemma followsTo_app a1 l1 a2 l2 a3 : followsTo a1 l1 a2 -> followsTo a2 l2 a3 -> followsTo a1 (l1 ++ l2) a3.
Proof.
  intros H1 H2 m ologs R E. apply fmap_app_inv in E as (o1 & o2 & -> & -> & ->).
  destruct (H1 m o1 R eq_refl) as (cs1 & m1 & E1 & R1 & C1 & V1). destruct (H2 m1 o2 R1 eq_refl) as (cs2 & m2 & E2 & R2 & C2 & V2).
  exists (cs1 ++ cs2), m2. rewrite followLogs_app, E1. go_red. rewrite E2. split; [done|]. split; [done|].
  split; [by eapply changesTo_app|]. intros v Hv. unfold replay. rewrite foldl_app. by apply V2, V1.
Qed.

Lemma prefix_app_cases {A} (pre l1 l2 : list A) : pre `prefix_of` l1 ++ l2 ->
  pre `prefix_of` l1 \/ exists k, pre = l1 ++ k /\ k `prefix_of` l2.
Proof.
  revert pre. induction l1 as [|x l1 IH]; intros pre Hp; [right; by exists pre|].
  destruct pre as [|y pre]; [left; apply prefix_nil|]. pose proof (prefix_cons_inv_1 _ _ _ _ Hp) as ->.
  apply prefix_cons_inv_2, IH in Hp as [Hp|(k & -> & Hk)]; [left; by apply prefix_cons|right; by exists k].
Qed.

Lemma follows_app a1 l1 a2 l2 a3 : follows a1 l1 a2 -> follows a2 l2 a3 -> follows a1 (l1 ++ l2) a3.
Proof.
  intros [H1 P1] [H2 P2]. split; [by eapply followsTo_app|].
  intros pre [Hp|(k & -> & Hk)]%prefix_app_cases; [by apply P1|].
  destruct (P2 k Hk) as [a Ha]. exists a. by eapply followsTo_app.
Qed.

(** One log that changes nothing, or changes one level. *)
Definition changes_to m a c m' a' : Prop :=
  push_repr m' a' /\ (lc_Seq c = i64 (pb_seq m + 1) /\ pb_seq m' = lc_Seq c) /\
  forall v, shows (ab_get a) v -> shows (ab_get a') (applyChange v c).

Lemma follows_one a l a' : (forall m off, push_repr m a ->
    (followLog m l off = Ok ([], m) /\ a' = a) \/
    (exists c m', followLog m l off = Ok ([c], m') /\ changes_to m a c m' a')) ->
  follows a [l] a'.
Proof.
  intros H. assert (Hto : followsTo a [l] a').
  2:{ split; [done|]. intros [|l0 pre] Hp; [exists a; apply followsTo_nil|]. apply prefix_cons_inv_1 in Hp as E0.
      apply prefix_cons_inv_2, prefix_nil_inv in Hp as ->. subst l0. by exists a'. }
  intros m [|[l' off] [|]] R E; [done| |done]. injection E as ->. unfold followed. simpl.
  destruct (H m off R) as [[-> ->]|(c & m' & -> & R' & [Ec Em] & Hv)]; go_red.
  - by exists [], m.
  - exists [c], m'. split; [done|]. split; [done|]. split; [simpl; by rewrite Em, Ec|exact Hv].
Qed.

(** A change through [saveOrder]. *)
Lemma saved_change m a off seq s p lo c m' : valid_side s -> push_repr m' (ab_set a s lo) ->
  counted m off seq m' -> change_of m s p (ab_get a s) lo c -> changes_to m a c m' (ab_set a s lo).
Proof.
  intros Hs R' (_ & E & _) Hc. split; [done|]. split; [by destruct Hc as [-> _]; rewrite E|].
  intros v. apply (applyChange_shows m a s p lo); [done| |done].
  pose proof (pr_sides _ _ R' s Hs) as Hf. rewrite ab_get_set_eq in Hf. eapply Forall_impl; [exact Hf|]. by intros b [_ ?].
Qed.

Lemma follow_match a s l1 b l2 (l : MatchLog) : valid_side s -> ab_get a s = l1 ++ b :: l2 ->
  ml_MakerOrderId l = bo_OrderId b -> ml_Price l = bo_Price b -> ml_Side l = s -> (dval (ml_Size l) <= dval (bo_Size b))%Q ->
  follows a [LMatch l] (ab_set a s (l1 ++ keepIfOpen (bo_setSize b (dec_Sub (bo_Size b) (ml_Size l))) ++ l2)).
Proof.
  intros Hs El Eid Ep Es Hle. apply follows_one. intros m off R. right. unfold followLog, applyLog. rewrite Eid, Ep, Es.
  rewrite (push_lookup _ _ s b R Hs) by (rewrite El; set_solver). cbn [bo_Size trim pushOrder].
  destruct (saveOrder_set m a off (base_Sequence (ml_Base l)) s l1 b l2 (dec_Sub (bo_Size b) (ml_Size l)) R Hs El) as (c & m' & -> & R' & Hc & Hch);
    [dec_lra|]. go_red. exists c, m'. split; [done|]. by eapply saved_change.
Qed.

Lemma follow_done_absent a (l : DoneLog) : dl_OrderId l ∉ ab_ids a -> follows a [LDone l] a.
Proof.
  intros Hid. apply follows_one. intros m off R. left. unfold followLog, applyLog.
  by rewrite (push_lookup_None _ _ _ R Hid).
Qed.

Lemma follow_cancel a s l1 b l2 (l : DoneLog) : valid_side s -> ab_get a s = l1 ++ b :: l2 ->
  dl_OrderId l = bo_OrderId b -> dl_Price l = bo_Price b -> dl_Side l = s -> dl_RemainingSize l = bo_Size b ->
  follows a [LDone l] (ab_set a s (l1 ++ l2)).
Proof.
  intros Hs El Eid Ep Es Er. apply follows_one. intros m off R. right. unfold followLog, applyLog. rewrite Eid, Ep, Es, Er.
  rewrite (push_lookup _ _ s b R Hs) by (rewrite El; set_solver). cbn [bo_Size trim pushOrder].
  destruct (saveOrder_set m a off (base_Sequence (dl_Base l)) s l1 b l2 (dec_Sub (bo_Size b) (bo_Size b)) R Hs El) as (c & m' & -> & R' & Hc & Hch);
    [dec_lra|]. go_red. exists c, m'. split; [done|].
  unfold keepIfOpen in R', Hch. assert (Hz : dec_IsZero (dec_Sub (bo_Size b) (bo_Size b)) = true) by (apply IsZero_true; dec_lra).
  cbn [bo_Size bo_setSize] in R', Hch. rewrite Hz in R', Hch. by eapply saved_change.
Qed.

Lemma follow_open a s b lo (l : OpenLog) : valid_side s -> bo_Side b = s -> unfilled b -> bo_OrderId b ∉ ab_ids a ->
  lo ≡ₚ b :: ab_get a s -> ol_OrderId l = bo_OrderId b -> ol_Price l = bo_Price b -> ol_Side l = s -> ol_RemainingSize l = bo_Size b ->
  follows a [LOpen l] (ab_set a s lo).
Proof.
  intros Hs Hside Hpos Hid Hlo Eid Ep Es Er. apply follows_one. intros m off R. right. unfold followLog, applyLog. rewrite Eid, Ep, Es, Er.
  destruct (saveOrder_add m a off (base_Sequence (ol_Base l)) s b lo R Hs Hside Hpos Hid Hlo) as (c & m' & -> & R' & Hc & Hch).
  go_red. exists c, m'. split; [done|]. by eapply saved_change.
Qed.
End Follow.

(** ** The operations of the matching engine's book *)

Section Engine.
Context {P : DecimalPkg} {L : DecimalLaws P} {T : TreeMapPkg} {TL : TreeMapLaws T}.
Context (now : Z -> Instant).
Implicit Types (o : orderBook) (a : AbsBook).

Lemma ab_set_set a s l l' : ab_set (ab_set a s l) s l' = ab_set a s l'.
Proof. unfold ab_set. by destruct (s =s? SideBuy). Qed.

(** The logs of one trade: the match, and the end of the maker if it is filled. *)
Definition tradeLogs (pid : string) (t m : BookOrder) (size : Dec) (s1 t1 : Z) : list Log :=
  LMatch (newMatchLog (now s1) s1 pid t1 t m (bo_Price m) size) ::
  (if dec_IsZero (bo_Size m)
   then [LDone (newDoneLog (now (i64 (s1 + 1))) (i64 (s1 + 1)) pid m (bo_Size m) DoneReasonFilled)] else []).

Lemma fillLogs_trade pid t m size fills seq tseq logs seq' tseq' :
  fillLogs now pid t seq tseq ((m, size) :: fills) = (logs, seq', tseq') ->
  exists logs' s, logs = tradeLogs pid t m size (i64 (seq + 1)) (i64 (tseq + 1)) ++ logs' /\
    fillLogs now pid t s (i64 (tseq + 1)) fills = (logs', seq', tseq').
Proof.
  simpl. unfold tradeLogs. destruct (dec_IsZero (bo_Size m)).
  all: destruct (fillLogs _ _ _ _ _ fills) as [[logs1 s1] t1] eqn:E; intros [= <- <- <-]; by eexists _, _.
Qed.

Lemma follow_trade a opp kept m ms pid t size s1 t1 : valid_side opp -> NoDup (ab_ids a) -> resting opp m ->
  ab_get a opp = kept ++ m :: ms -> (dval size <= dval (bo_Size m))%Q ->
  let m' := bo_setSize m (dec_Sub (bo_Size m) size) in
  follows a (tradeLogs pid t m' size s1 t1) (ab_set a opp (kept ++ keepIfOpen m' ++ ms)).
Proof.
  intros Hv Hn (Hside & _) El Hle m'. apply (follows_app _ [_] (ab_set a opp (kept ++ keepIfOpen m' ++ ms))).
  - by apply (follow_match a opp kept m ms).
  - unfold keepIfOpen. destruct (dec_IsZero (bo_Size m')); [|apply follows_nil].
    apply follow_done_absent. simpl. rewrite ab_ids_side by done.
    rewrite <- (ab_set_get a opp), ab_ids_side, El, <- Permutation_middle in Hn by done.
    cbn [fmap list_fmap app] in Hn. by apply NoDup_cons in Hn as [? _].
Qed.

Lemma push_ids_shrink a s lo : valid_side s -> NoDup (ab_ids a) ->
  (bo_OrderId <$> lo) `sublist_of` (bo_OrderId <$> ab_get a s) ->
  NoDup (ab_ids (ab_set a s lo)) /\ (forall id, id ∈ ab_ids (ab_set a s lo) -> id ∈ ab_ids a).
Proof.
  intros Hs Hn Hsub. rewrite <- (ab_set_get a s) in Hn. rewrite ab_ids_side in Hn by done.
  assert (Hsub' : (bo_OrderId <$> lo) ++ (bo_OrderId <$> ab_get a (Opposite s)) `sublist_of`
    (bo_OrderId <$> ab_get a s) ++ (bo_OrderId <$> ab_get a (Opposite s))) by (by apply sublist_app).
  split.
  - rewrite ab_ids_side by done. by eapply sublist_NoDup.
  - intros id. rewrite ab_ids_side by done. intros Hid. rewrite <- (ab_set_get a s), ab_ids_side by done.
    by eapply elem_of_sublist.
Qed.

Lemma keepIfOpen_sublist m size ms : (bo_OrderId <$> keepIfOpen (bo_setSize m size) ++ ms) `sublist_of` (bo_OrderId <$> m :: ms).
Proof.
  rewrite fmap_app. unfold keepIfOpen. destruct (dec_IsZero _); simpl; [by apply sublist_cons|done].
Qed.

Lemma follows_fills product pid t0 opp ms : valid_side opp -> forall t kept a seq tseq fills t' rest logs seq' tseq',
  takerKind t -> NoDup (ab_ids a) -> Forall (resting opp) ms -> ab_get a opp = kept ++ ms ->
  matchList product t ms = Ok (fills, t', rest) -> fillLogs now pid t0 seq tseq fills = (logs, seq', tseq') ->
  follows a logs (ab_set a opp (kept ++ rest)).
Proof.
  intros Hv. induction ms as [|m ms IH]; intros t kept a seq tseq fills t' rest logs seq' tseq' Hk Hn Hres El Hm Hlogs.
  { simpl in Hm. injection Hm as <- <- <-. injection Hlogs as <- <- <-. rewrite <- El, ab_set_get. apply follows_nil. }
  pose proof Hres as [Hrm Hrms]%Forall_cons. simpl in Hm.
  assert (Hstop : follows a [] (ab_set a opp (kept ++ m :: ms))) by (rewrite <- El, ab_set_get; apply follows_nil).
  destruct (pricesCross _ _ _); cbn [negb] in Hm; [|injection Hm as <- <- <-; by injection Hlogs as <- <- <-].
  destruct (calcTradeSize_ok (E:=noerr) t m product Hk) as (t1 & size & c & ex & Hc & Hsame & Hle); [apply Hrm|].
  rewrite Hc in Hm. cbn [mbind outcome_bind] in Hm.
  destruct (dec_IsZero size) eqn:Hz; [injection Hm as <- <- <-; by injection Hlogs as <- <- <-|].
  assert (Hle' : (dval size <= dval (bo_Size m))%Q) by (dec_prop; destruct Hle; [done|done]).
  set (m' := bo_setSize m (dec_Sub (bo_Size m) size)) in *.
  assert (Htrade : forall s1 t1, follows a (tradeLogs pid t0 m' size s1 t1) (ab_set a opp (kept ++ keepIfOpen m' ++ ms)))
    by (intros; by apply follow_trade).
  destruct (takerSpent t1).
  - injection Hm as <- <- <-. apply fillLogs_trade in Hlogs as (logs' & s & -> & Hl). injection Hl as <- _ _.
    rewrite app_nil_r. apply Htrade.
  - destruct (matchList product t1 ms) as [[[fs t2] ms2]| | |] eqn:Hrec; [|done..]. injection Hm as <- <- <-.
    apply fillLogs_trade in Hlogs as (logs' & s & -> & Hl). eapply follows_app; [apply Htrade|].
    destruct (push_ids_shrink a opp (kept ++ keepIfOpen m' ++ ms) Hv Hn) as [Hn' _].
    { rewrite El, !(fmap_app _ kept). apply sublist_app; [done|apply keepIfOpen_sublist]. }
    replace (ab_set a opp (kept ++ keepIfOpen m' ++ ms2))
      with (ab_set (ab_set a opp (kept ++ keepIfOpen m' ++ ms)) opp ((kept ++ keepIfOpen m') ++ ms2))
      by (by rewrite ab_set_set, <- app_assoc).
    eapply (IH t1 (kept ++ keepIfOpen m')); [by eapply takerKind_same|done|done| |exact Hrec|exact Hl].
    by rewrite ab_get_set_eq, <- app_assoc.
Qed.

(** What the push book follows of one step of the applier. *)
Definition step_followed o a (id : Z) (res : outcome noerr (orderBook * list Log)) : Prop :=
  exists o' a' logs, res = Ok (o', logs) /\ book_repr o' a' /\ follows a logs a' /\
    forall x, x ∈ ab_ids a' -> x = id \/ x ∈ ab_ids a.

Lemma book_side o a s : book_repr o a -> valid_side s -> Forall (resting s) (ab_get a s).
Proof. intros R Hs. destruct (book_depth o a s R Hs) as (d & _ & Rd). apply Rd. Qed.

Lemma follow_finish a order pid seq t' : order_ok order -> sameTaker (takerOf order) t' -> ord_Id order ∉ ab_ids a ->
  follows a [finishLog now pid seq t']
    (if takerRests t' then ab_set a (bo_Side t') (rest_insert (cmpOf (bo_Side t')) t' (ab_get a (bo_Side t'))) else a).
Proof.
  intros Hok Hsame Hid. unfold finishLog. pose proof Hsame as (Eid & _ & _ & Es & _).
  destruct (takerOf_fields order) as (Eid' & Es' & _). rewrite Eid' in Eid. rewrite Es' in Es.
  destruct (takerRests t') eqn:Hr.
  - destruct (takerRests_resting order t' Hok Hsame Hr) as (Hside & _ & Hsz & _).
    apply (follow_open a (bo_Side t') t'); [rewrite Es; apply Hok|done|exact Hsz|by rewrite Eid|apply rest_insert_perm|done..].
  - assert (Hdone : bo_OrderId (takerDone t').1.1 = ord_Id order).
    { unfold takerDone. by destruct (bo_Type t' =s? OrderTypeMarket). }
    destruct (takerDone t') as [[t2 remaining] reason]. apply follow_done_absent. simpl in *. by rewrite Hdone.
Qed.

Lemma ApplyOrder_followed o a order : book_repr o a -> order_ok order -> step_followed o a (ord_Id order) (ApplyOrder now o order).
Proof.
  intros R Hok. destruct (decide (ws_refused (ob_orderIdWindows o) (ord_Id order))) as [Hr|Hr].
  { rewrite (ApplyOrder_refused now o a order) by done. exists o, a, []. split; [done|]. split; [done|]. split; [apply follows_nil|by right]. }
  destruct (ApplyOrder_repr now o a order R Hok Hr) as (o' & a' & logs & -> & Habs & R' & _).
  exists o', a', logs. split; [done|]. split; [done|].
  assert (Hid : ord_Id order ∉ ab_ids a).
  { intros Hin. pose proof (br_dedup _ _ R) as Hd. rewrite Forall_forall in Hd. by apply Hd in Hin as [_ ?]. }
  unfold absApply in Habs. destruct (takerOf_fields order) as (_ & Es & _).
  apply bind_Ok in Habs as ([[fills t'] rest] & Hm & Habs). set (opp := Opposite (bo_Side (takerOf order))) in *.
  assert (Hv : valid_side opp) by apply valid_Opposite.
  assert (Hp : Forall (fun m => 0 < dval (bo_Price m))%Q (ab_get a opp)).
  { eapply Forall_impl; [by eapply book_side|]. by intros m (_ & _ & _ & ?). }
  destruct (matchList_total (ob_product o) _ _ (takerOf_kind order Hok) Hp) as (fills' & t2 & rest' & Hm' & Hsame).
  rewrite Hm' in Hm. injection Hm as -> -> ->.
  destruct (push_ids_shrink a opp rest Hv (br_ids _ _ R) (matchList_rest _ _ _ _ _ _ Hm')) as [Hn Hsub].
  destruct (fillLogs _ _ _ _ _ _) as [[mlogs s1] t1] eqn:El. injection Habs as <- <- _ _. split.
  - eapply follows_app.
    + apply (follows_fills (ob_product o) (prod_Id (ob_product o)) (takerOf order) opp (ab_get a opp) Hv (takerOf order) [] a
        (ob_logSeq o) (ob_tradeSeq o) fills t' rest mlogs s1 t1); [by apply takerOf_kind|apply R|by eapply book_side|done|done|done].
    + apply (follow_finish _ order); [done|done|]. intros Hin. by apply Hsub in Hin.
  - intros x Hx. destruct (takerRests t') eqn:Hrest; [|right; by apply Hsub].
    destruct (takerRests_resting order t' Hok Hsame Hrest) as (Hside & _). pose proof Hsame as (Eid & _).
    assert (Hvs : valid_side (bo_Side t')) by (rewrite Hside; apply Hok).
    rewrite ab_ids_side, rest_insert_perm in Hx by done. rewrite fmap_cons in Hx. cbn [app] in Hx.
    apply elem_of_cons in Hx as [->|Hx]; [left; rewrite Eid; apply takerOf_fields|right]. apply Hsub.
    rewrite <- (ab_set_get (ab_set a opp rest) (bo_Side t')). by rewrite ab_ids_side.
Qed.

Lemma CancelOrder_followed o a order : book_repr o a -> order_ok order -> step_followed o a (ord_Id order) (CancelOrder now o order).
Proof.
  intros R Hok. destruct (CancelOrder_repr now o a order R (ok_id _ Hok) (ok_side _ Hok)) as (o' & a' & logs & -> & Habs & R' & _).
  exists o', a', logs. split; [done|]. split; [done|]. unfold absCancel in Habs. pose proof (ok_side _ Hok) as Hs.
  destruct (ab_find a (ord_Side order) (ord_Id order)) as [b|] eqn:Hf; injection Habs as <- <- _.
  - apply (ab_find_elem now) in Hf as [Hb Eid]. apply list_elem_of_split in Hb as (l1 & l2 & El).
    assert (Hn : NoDup (bo_OrderId <$> ab_get a (ord_Side order))).
    { pose proof (br_ids _ _ R) as Hn. rewrite <- (ab_set_get a (ord_Side order)), ab_ids_side in Hn by done.
      by apply NoDup_app in Hn as [? _]. }
    destruct (ab_remove_split a (ord_Side order) b l1 l2 Hn El) as [Erm _]. rewrite <- Eid, Erm. split.
    + eapply follow_cancel; [done|exact El|done|done| |done]. simpl.
      pose proof (book_side o a _ R Hs) as Hres. rewrite El in Hres. apply Forall_app in Hres as [_ [[? _] _]%Forall_cons]. done.
    + intros x Hx. right. revert Hx. apply push_ids_shrink; [done|apply R|]. rewrite El, !fmap_app.
      apply sublist_app; [done|]. by apply sublist_cons.
  - split; [apply follows_nil|by right].
Qed.

Lemma NullifyOrder_followed o a order : book_repr o a -> order_ok order -> ord_Id order ∉ ab_ids a ->
  step_followed o a (ord_Id order) (NullifyOrder now o order).
Proof.
  intros R Hok Hid. destruct (NullifyOrder_repr now o a order R (ok_id _ Hok)) as (o' & -> & R' & _).
  do 3 eexists. split; [done|]. split; [exact R'|]. split; [by apply follow_done_absent|by right].
Qed.

(** An order the applier may kill. *)
Definition mayKill (order : Order) : Prop :=
  ord_Status order <> OrderStatusCancelling /\ (ord_TimeInForce order = GoodTillCrossing \/ ord_TimeInForce order = FillOrKill).

Lemma applyOffsetOrder_followed o a order : book_repr o a -> order_ok order -> (mayKill order -> ord_Id order ∉ ab_ids a) ->
  step_followed o a (ord_Id order) (applyOffsetOrder now o order).
Proof.
  intros R Hok Hkill. unfold applyOffsetOrder.
  destruct (String.eqb_spec (ord_Status order) OrderStatusCancelling) as [Hc|Hc]; [by apply CancelOrder_followed|].
  destruct (String.eqb_spec (ord_TimeInForce order) ImmediateOrCancel) as [Ht|_].
  { destruct (ApplyOrder_followed o a order R Hok) as (o1 & a1 & l1 & -> & R1 & F1 & I1). go_red.
    destruct (CancelOrder_followed o1 a1 order R1 Hok) as (o2 & a2 & l2 & -> & R2 & F2 & I2). go_red.
    exists o2, a2, (l1 ++ l2). split; [done|]. split; [done|]. split; [by eapply follows_app|].
    intros x Hx. apply I2 in Hx as [?|Hx]; [by left|by apply I1]. }
  destruct (String.eqb_spec (ord_TimeInForce order) GoodTillCrossing) as [Ht|_].
  { rewrite (IsOrderWillNotMatch_eq o a order) by done. go_red.
    case_bool; [by apply ApplyOrder_followed|apply NullifyOrder_followed; [done|done|apply Hkill; by split; [|left]]]. }
  destruct (String.eqb_spec (ord_TimeInForce order) FillOrKill) as [Ht|_].
  { destruct (IsOrderWillFullMatch_eq o a order) as (fills & t' & rest & _ & ->); [done|done|]. go_red.
    case_bool; [by apply ApplyOrder_followed|apply NullifyOrder_followed; [done|done|apply Hkill; by split; [|right]]]. }
  case_bool; [by apply ApplyOrder_followed|]. exists o, a, []. split; [done|]. split; [done|]. split; [apply follows_nil|by right].
Qed.

(** No order that may be killed has the id of an order before it. *)
Fixpoint killsFresh (seen : list Z) (orders : list Order) : Prop :=
  match orders with
  | [] => True
  | x :: orders => (mayKill x -> ord_Id x ∉ seen) /\ killsFresh (ord_Id x :: seen) orders
  end.

Lemma runOrders_followed orders : forall o a seen, book_repr o a -> Forall order_ok orders ->
  (forall id, id ∈ ab_ids a -> id ∈ seen) -> killsFresh seen orders ->
  exists o' a' logs, runOrders now o orders = Ok (o', logs) /\ book_repr o' a' /\ follows a logs a'.
Proof.
  induction orders as [|x orders IH]; intros o a seen R Hok Hseen Hk; simpl.
  { exists o, a, []. split; [done|]. split; [done|apply follows_nil]. }
  apply Forall_cons in Hok as [Hx Hok]. destruct Hk as [Hkx Hk].
  destruct (applyOffsetOrder_followed o a x R Hx) as (o1 & a1 & l1 & -> & R1 & F1 & I1); [intros Hm Hin; by apply Hkx, Hseen|]. go_red.
  destruct (IH o1 a1 (ord_Id x :: seen) R1 Hok) as (o2 & a2 & l2 & -> & R2 & F2); [|done|].
  - intros id Hid. apply I1 in Hid as [->|Hid]; [set_solver|]. apply elem_of_cons. right. by apply Hseen.
  - go_red. exists o2, a2, (l1 ++ l2). split; [done|]. split; [done|]. by eapply follows_app.
Qed.
End Engine.
