(* ===== verification/PushEquiv.v ===== *)
(** Push books that cannot be told apart, and snapshots of them.

    Two books are the same, [m1 ≡p m2], if they have the same orders and
    counters, and levels of the same values: a price may be written [1.0] in one
    and [1] in the other.  Whatever logs follow, they publish the same changes
    ([followLogs_same]) and take the same snapshots ([SnapshotLevel2_same]), and
    a book restored from a full snapshot is the same as the one the snapshot was
    taken of ([RestoreFull_same]). *)
From S2P Require Import Prelude Decimal TreeMap Models MatchLog OrderBook DepthInv Book PushBook PushInv.
From Stdlib Require Import QArith Lqa.
From stdpp Require Import gmap list.
Open Scope string_scope.
Open Scope list_scope.
Open Scope Z_scope.

Section Same.
Context {P : DecimalPkg} {L : DecimalLaws P} {T : TreeMapPkg} {TL : TreeMapLaws T}.
Implicit Types (m : pushBook) (l : list (Dec * PriceLevel)).

(** Levels of the same values. *)
Record same_level (e1 e2 : Dec * PriceLevel) : Prop := {
  sm_key : e1.1 ≡d e2.1;
  sm_price : pl_Price e1.2 ≡d pl_Price e2.2;
  sm_size : pl_Size e1.2 ≡d pl_Size e2.2;
  sm_count : pl_OrderCount e1.2 = pl_OrderCount e2.2;
}.

#[export] Instance same_level_equivalence : Equivalence same_level.
Proof.
  split.
  - intros e. split; reflexivity.
  - intros e1 e2 []. split; by symmetry.
  - intros e1 e2 e3 [] []. split; (etransitivity; [eassumption|done]).
Qed.

Definition same_side (s : Side) (t1 t2 : TreeMap Dec PriceLevel) : Prop :=
  exists l1 l2, tm_repr (levelCmp s) t1 l1 /\ tm_repr (levelCmp s) t2 l2 /\ Forall2 same_level l1 l2.

Record same_push m1 m2 : Prop := {
  sp_productId : pb_productId m1 = pb_productId m2;
  sp_seq : pb_seq m1 = pb_seq m2;
  sp_logOffset : pb_logOffset m1 = pb_logOffset m2;
  sp_logSeq : pb_logSeq m1 = pb_logSeq m2;
  sp_orders : pb_orders m1 = pb_orders m2;
  sp_depths s : option_Forall2 (same_side s) (pb_depths m1 !! s) (pb_depths m2 !! s);
}.

#[export] Instance levelCmp_proper s : Proper (deq ==> deq ==> eq) (levelCmp s).
Proof. intros a b H c d H'. unfold levelCmp, DecimalDescComparator, DecimalAscComparator. by destruct (s =s? SideBuy); rewrite H, H'. Qed.

(** *** The map operations *)

Lemma same_put s k1 k2 v1 v2 l1 l2 : k1 ≡d k2 -> same_level (k1, v1) (k2, v2) -> Forall2 same_level l1 l2 ->
  Forall2 same_level (sl_put (levelCmp s) k1 v1 l1) (sl_put (levelCmp s) k2 v2 l2).
Proof.
  intros Hk Hv. induction 1 as [|[k v] [k' v'] l1 l2 Hl Hls IH]; simpl; [by apply Forall2_cons|].
  pose proof (sm_key _ _ Hl) as Hkk. simpl in Hkk.
  assert (levelCmp s k1 k = levelCmp s k2 k') as -> by (by rewrite Hk, Hkk).
  case_bool; [by repeat apply Forall2_cons_2|]. case_bool; by apply Forall2_cons_2.
Qed.

Lemma same_remove s k1 k2 l1 l2 : k1 ≡d k2 -> Forall2 same_level l1 l2 ->
  Forall2 same_level (sl_remove (levelCmp s) k1 l1) (sl_remove (levelCmp s) k2 l2).
Proof.
  intros Hk. induction 1 as [|[k v] [k' v'] l1 l2 Hl Hls IH]; simpl; [constructor|].
  pose proof (sm_key _ _ Hl) as Hkk. simpl in Hkk.
  assert (levelCmp s k1 k = levelCmp s k2 k') as -> by (by rewrite Hk, Hkk). case_bool; [done|by constructor].
Qed.

Lemma same_get s k l1 l2 : Forall2 same_level l1 l2 ->
  option_Forall2 (fun v1 v2 => same_level (k, v1) (k, v2)) (sl_get (levelCmp s) k l1) (sl_get (levelCmp s) k l2).
Proof.
  induction 1 as [|[k1 v1] [k2 v2] l1 l2 Hl Hls IH]; simpl; [constructor|].
  pose proof (sm_key _ _ Hl) as Hkk. simpl in Hkk.
  assert (levelCmp s k k1 = levelCmp s k k2) as -> by (by rewrite Hkk). case_bool; [|done]. constructor.
  destruct Hl. by split.
Qed.

Lemma same_rowOf e1 e2 : same_level e1 e2 -> rowOfLevel e1.2 = rowOfLevel e2.2.
Proof. intros [_ Hp Hs Hc]. unfold rowOfLevel. by rewrite Hc, (proj2 (dec_String_val _ _) Hp), (proj2 (dec_String_val _ _) Hs). Qed.

(** *** [saveOrder] *)

Definition same_result (r1 r2 : outcome noerr (option Level2Change * pushBook)) : Prop :=
  match r1, r2 with
  | Ok (c1, m1), Ok (c2, m2) => c1 = c2 /\ same_push m1 m2
  | Panic, Panic => True
  | _, _ => False
  end.

Lemma changed_same m1 m2 off seq s t1 t2 orders v1 v2 : same_push m1 m2 -> same_side s t1 t2 ->
  pl_Price v1 ≡d pl_Price v2 -> pl_Size v1 ≡d pl_Size v2 ->
  same_result (Ok (changed m1 off seq s t1 orders v1)) (Ok (changed m2 off seq s t2 orders v2)).
Proof.
  intros [Ep Es _ _ _ Hd] Ht Hp Hs. split.
  - by rewrite Es, Ep, (proj2 (dec_String_val _ _) Hp), (proj2 (dec_String_val _ _) Hs).
  - split; simpl; [done|by rewrite Es|done|done|done|]. intros s'. destruct (decide (s = s')) as [<-|Hne].
    + rewrite !lookup_insert_eq. by constructor.
    + by rewrite !lookup_insert_ne.
Qed.

Lemma saveOrder_same m1 m2 off seq id size price s : same_push m1 m2 ->
  same_result (saveOrder m1 off seq id size price s) (saveOrder m2 off seq id size price s).
Proof.
  intros H. pose proof (sp_depths _ _ H s) as Hd. unfold saveOrder. rewrite (sp_orders _ _ H).
  destruct (dec_LessThan size dec_Zero); [done|].
  destruct (pb_orders m2 !! id) as [order|] eqn:Ho.
  - inversion Hd as [t1 t2 (l1 & l2 & R1 & R2 & Hl) E1 E2|]; go_red; [|done].
    rewrite (tm_repr_Get _ (levelCmp_order s) _ _ _ R1), (tm_repr_Get _ (levelCmp_order s) _ _ _ R2).
    destruct (same_get s price _ _ Hl) as [v1 v2 [_ Hp Hs Hc]|]; go_red; [|done]. simpl in Hp, Hs, Hc.
    set (d := dec_Sub (bo_Size order) size). assert (Hsz : dec_Sub (pl_Size v1) d ≡d dec_Sub (pl_Size v2) d) by (by rewrite Hs).
    assert (dec_IsZero (dec_Sub (pl_Size v1) d) = dec_IsZero (dec_Sub (pl_Size v2) d)) as -> by (by rewrite Hsz).
    rewrite Hc. apply changed_same; [done| |done|done].
    destruct (dec_IsZero (dec_Sub (pl_Size v2) d)).
    + do 2 eexists. split; [apply tm_repr_Remove; [apply levelCmp_order|done]|].
      split; [apply tm_repr_Remove; [apply levelCmp_order|done]|]. by apply same_remove.
    + do 2 eexists. split; [apply tm_repr_Put; [apply levelCmp_order|done]|].
      split; [apply tm_repr_Put; [apply levelCmp_order|done]|]. by apply same_put.
  - destruct (dec_IsZero size); [done|].
    inversion Hd as [t1 t2 (l1 & l2 & R1 & R2 & Hl) E1 E2|]; go_red; [|done].
    rewrite (tm_repr_Get _ (levelCmp_order s) _ _ _ R1), (tm_repr_Get _ (levelCmp_order s) _ _ _ R2).
    set (w1 := levelWith (sl_get (levelCmp s) price l1) price size). set (w2 := levelWith (sl_get (levelCmp s) price l2) price size).
    assert (Hf : same_level (pl_Price w1, w1) (pl_Price w2, w2)).
    { unfold w1, w2, levelWith. destruct (same_get s price _ _ Hl) as [v1 v2 [_ Hp Hs Hc]|]; simpl in *; split; simpl; try done.
      - by rewrite Hs.
      - by rewrite Hc. }
    apply changed_same; [done| |apply Hf|apply Hf]. do 2 eexists.
    split; [apply tm_repr_Put; [apply levelCmp_order|done]|]. split; [apply tm_repr_Put; [apply levelCmp_order|done]|].
    apply same_put; [apply Hf|done|done].
Qed.

(** *** Logs *)

Definition same_follow (r1 r2 : outcome noerr (list Level2Change * pushBook)) : Prop :=
  match r1, r2 with
  | Ok (cs1, m1), Ok (cs2, m2) => cs1 = cs2 /\ same_push m1 m2
  | Panic, Panic => True
  | _, _ => False
  end.

Lemma followLog_same m1 m2 g off : same_push m1 m2 -> same_follow (followLog m1 g off) (followLog m2 g off).
Proof.
  intros H. unfold followLog, applyLog. rewrite (sp_orders _ _ H).
  assert (Hsave : forall seq id size price s,
    same_follow (r ← (r ← saveOrder m1 off seq id size price s; mret (Some r));
                 mret match r with Some (Some c, s) => ([c], s) | Some (None, s) => ([], s) | None => ([], m1) end)
                (r ← (r ← saveOrder m2 off seq id size price s; mret (Some r));
                 mret match r with Some (Some c, s) => ([c], s) | Some (None, s) => ([], s) | None => ([], m2) end)).
  { intros seq id size price s. pose proof (saveOrder_same m1 m2 off seq id size price s H) as Hs.
    destruct (saveOrder m1 off seq id size price s) as [[c1 n1]| | |], (saveOrder m2 off seq id size price s) as [[c2 n2]| | |]; try done.
    destruct Hs as [-> Hn]. go_red. by destruct c2. }
  destruct g as [g|g|g]; [apply Hsave| |].
  - destruct (pb_orders m2 !! ml_MakerOrderId g) as [order|]; [apply Hsave|done].
  - destruct (pb_orders m2 !! dl_OrderId g) as [order|]; [apply Hsave|done].
Qed.

Lemma followLogs_same ologs : forall m1 m2, same_push m1 m2 -> same_follow (followLogs m1 ologs) (followLogs m2 ologs).
Proof.
  induction ologs as [|[g off] ologs IH]; intros m1 m2 H; simpl; [done|].
  pose proof (followLog_same m1 m2 g off H) as Hl.
  destruct (followLog m1 g off) as [[c1 n1]| | |], (followLog m2 g off) as [[c2 n2]| | |]; try done.
  destruct Hl as [-> Hn]. go_red. specialize (IH n1 n2 Hn).
  destruct (followLogs n1 ologs) as [[d1 k1]| | |], (followLogs n2 ologs) as [[d2 k2]| | |]; try done.
  destruct IH as [-> Hk]. done.
Qed.

(** *** Level 2 snapshots *)

Lemma same_next s pos1 pos2 l1 l2 : option_Forall2 deq pos1 pos2 -> Forall2 same_level l1 l2 ->
  option_Forall2 same_level (sl_next (levelCmp s) pos1 l1) (sl_next (levelCmp s) pos2 l2).
Proof.
  intros Hpos. induction 1 as [|[k1 v1] [k2 v2] l1 l2 Hl Hls IH]; simpl; [constructor|].
  pose proof (sm_key _ _ Hl) as Hkk. simpl in Hkk. destruct Hpos as [p1 p2 Hp|]; [|by constructor].
  assert (levelCmp s k1 p1 = levelCmp s k2 p2) as -> by (by rewrite Hkk, Hp). case_bool; [by constructor|done].
Qed.

Lemma fillRows_same s t1 t2 l1 l2 levels : tm_repr (levelCmp s) t1 l1 -> tm_repr (levelCmp s) t2 l2 -> Forall2 same_level l1 l2 ->
  forall fuel pos1 pos2 i rows, option_Forall2 deq pos1 pos2 -> fillRows fuel t1 pos1 i levels rows = fillRows fuel t2 pos2 i levels rows.
Proof.
  intros R1 R2 Hl. induction fuel as [|fuel IH]; intros pos1 pos2 i rows Hpos; simpl; [done|].
  rewrite (tm_repr_Next _ (levelCmp_order s) _ _ _ R1), (tm_repr_Next _ (levelCmp_order s) _ _ _ R2).
  destruct (same_next s _ _ _ _ Hpos Hl) as [[k1 v1] [k2 v2] Hkv|]; [|done]. case_bool; [|done].
  destruct (indexed rows i); go_red; [|done]. pose proof (same_rowOf _ _ Hkv) as Hrow. simpl in Hrow. rewrite Hrow.
  apply IH. constructor. apply Hkv.
Qed.

Lemma SnapshotLevel2_same m1 m2 levels : same_push m1 m2 -> SnapshotLevel2 m1 levels = SnapshotLevel2 m2 levels.
Proof.
  intros H. unfold SnapshotLevel2, sideRows. rewrite (sp_productId _ _ H), (sp_seq _ _ H).
  destruct (sp_depths _ _ H SideSell) as [t1 t2 (l1 & l2 & R1 & R2 & Hl)|]; go_red; [|done].
  destruct (sp_depths _ _ H SideBuy) as [u1 u2 (k1 & k2 & Q1 & Q2 & Hk)|]; go_red; [|done].
  rewrite (tm_repr_Size _ _ _ R1), (tm_repr_Size _ _ _ R2), (Forall2_length _ _ _ Hl).
  rewrite (tm_repr_Size _ _ _ Q1), (tm_repr_Size _ _ _ Q2), (Forall2_length _ _ _ Hk).
  rewrite (fillRows_same _ _ _ _ _ levels R1 R2 Hl _ None None) by constructor.
  by rewrite (fillRows_same _ _ _ _ _ levels Q1 Q2 Hk _ None None) by constructor.
Qed.

(** *** The levels of a book are determined by its orders *)

Lemma levels_unique s lo1 lo2 l1 l2 : sl_sorted (levelCmp s) l1 -> sl_sorted (levelCmp s) l2 ->
  Forall (level_ok lo1) l1 -> Forall (level_ok lo2) l2 ->
  (forall q, (dsum (bo_Size <$> levelOrders q lo1) == dsum (bo_Size <$> levelOrders q lo2))%Q /\
             length (levelOrders q lo1) = length (levelOrders q lo2)) ->
  (forall e, e ∈ l1 -> exists e', e' ∈ l2 /\ e'.1 ≡d e.1) -> (forall e, e ∈ l2 -> exists e', e' ∈ l1 /\ e'.1 ≡d e.1) ->
  Forall2 same_level l1 l2.
Proof.
  intros S1. revert l2. induction S1 as [|e1 l1 S1 IH H1]; intros l2 S2 O1 O2 Hlo C12 C21.
  { destruct l2 as [|e2 l2]; [constructor|]. destruct (C21 e2) as (e & He & _); [set_solver|]. inversion He. }
  destruct l2 as [|e2 l2]; [destruct (C12 e1) as (e & He & _); [set_solver|inversion He]|].
  apply StronglySorted_inv in S2 as [S2 H2]. rewrite Forall_forall in H1, H2. unfold sl_lt in H1, H2.
  assert (Hself : forall d d', d ≡d d' -> levelCmp s d d' = 0) by (intros; by apply levelCmp_eq).
  assert (Hkey : e1.1 ≡d e2.1).
  { destruct (C12 e1) as (x & Hx & Ex); [set_solver|]. destruct (C21 e2) as (y & Hy & Ey); [set_solver|].
    apply elem_of_cons in Hx as [->|Hx]; [by symmetry|]. apply elem_of_cons in Hy as [->|Hy]; [done|].
    exfalso. specialize (H2 _ Hx). specialize (H1 _ Hy). apply Hself in Ex, Ey.
    pose proof (levelCmp_order s) as Co. pose proof (cmp_lt_trans _ Co e2.1 x.1 e1.1). pose proof (cmp_lt_trans _ Co e1.1 y.1 e2.1).
    pose proof (cmp_anti Co e1.1 e2.1). lia. }
  apply Forall_cons in O1 as [[P1 _ Z1 N1] O1]. apply Forall_cons in O2 as [[P2 _ Z2 N2] O2].
  constructor.
  - destruct (Hlo e1.1) as [Hs Hn]. split; [done|by rewrite P1, P2| |].
    + unfold deq. rewrite Z1, Z2, Hs. by rewrite (levelOrders_eq _ _ _ Hkey).
    + by rewrite N1, N2, Hn, (levelOrders_eq _ _ _ Hkey).
  - pose proof (levelCmp_order s) as Co. apply IH; [done|done|done|done| |].
    + intros e He. destruct (C12 e) as (x & Hx & Ex); [set_solver|]. apply elem_of_cons in Hx as [->|Hx]; [|by exists x].
      exfalso. specialize (H1 _ He). assert (e1.1 ≡d e.1) as E by (by rewrite Hkey). apply Hself in E. lia.
    + intros e He. destruct (C21 e) as (x & Hx & Ex); [set_solver|]. apply elem_of_cons in Hx as [->|Hx]; [|by exists x].
      exfalso. specialize (H2 _ He). assert (e2.1 ≡d e.1) as E by (by rewrite <- Hkey). apply Hself in E. lia.
Qed.
End Same.
Infix "≡p" := same_push (at level 70, no associativity) : go_scope.

(** ** Full snapshots *)

Section Restore.
Context {P : DecimalPkg} {L : DecimalLaws P} {T : TreeMapPkg} {TL : TreeMapLaws T}.
Implicit Types (m : pushBook) (a : AbsBook) (bs : list BookOrder).

Definition addTo a (b : BookOrder) : AbsBook := ab_set a (bo_Side b) (b :: ab_get a (bo_Side b)).

Lemma saveOrders_repr bs : forall m a, push_repr m a -> Forall (fun b => valid_side (bo_Side b) /\ unfilled b) bs ->
  NoDup (bo_OrderId <$> bs) -> (forall b, b ∈ bs -> bo_OrderId b ∉ ab_ids a) ->
  exists m', saveOrders m bs = Ok m' /\ push_repr m' (foldl addTo a bs).
Proof.
  induction bs as [|b bs IH]; intros m a R Hbs Hn Hid; simpl; [by exists m|].
  apply Forall_cons in Hbs as [[Hs Hb] Hbs]. rewrite fmap_cons in Hn. apply NoDup_cons in Hn as [Hbn Hn].
  destruct (saveOrder_add m a 0 0 (bo_Side b) b (b :: ab_get a (bo_Side b)) R Hs eq_refl Hb) as (c & m1 & -> & R1 & _);
    [apply Hid; set_solver|done|]. go_red. apply IH; [exact R1|done|done|].
  intros x Hx. unfold addTo. rewrite ab_ids_side by done. rewrite fmap_cons. cbn [app]. intros [E|Hin]%elem_of_cons.
  - apply Hbn. rewrite <- E. by apply list_elem_of_fmap_2.
  - apply (Hid x); [set_solver|]. rewrite <- (ab_set_get a (bo_Side b)). by rewrite ab_ids_side.
Qed.

Lemma addTo_side s bs : valid_side s -> forall a, Forall (fun b => valid_side (bo_Side b)) bs ->
  ab_get (foldl addTo a bs) s ≡ₚ ab_get a s ++ filter (fun b => bo_Side b = s) bs.
Proof.
  intros Hs. induction bs as [|b bs IH]; intros a Hv; simpl; [by rewrite app_nil_r|].
  apply Forall_cons in Hv as [Hb Hv]. rewrite IH by done. unfold addTo.
  destruct (decide (bo_Side b = s)) as [<-|Hne].
  - rewrite ab_get_set_eq, filter_cons_True by done. apply Permutation_middle.
  - by rewrite ab_get_set_ne, filter_cons_False.
Qed.

Lemma levelOrders_trim q lo : levelOrders q (trim <$> lo) = trim <$> levelOrders q lo.
Proof.
  induction lo as [|b lo IH]; [done|]. rewrite fmap_cons. destruct (decide (atPrice q b)) as [H|H].
  - rewrite !levelOrders_at by done. by rewrite fmap_cons, IH.
  - by rewrite !levelOrders_off.
Qed.

(** The stored orders of one side. *)
Lemma stored_side m a s : push_repr m a -> valid_side s ->
  filter (fun b => bo_Side b = s) (map_to_list (pb_orders m)).*2 ≡ₚ trim <$> ab_get a s.
Proof.
  intros R Hs. assert (Hids : bo_OrderId <$> (map_to_list (pb_orders m)).*2 = (map_to_list (pb_orders m)).*1).
  { rewrite <- list_fmap_compose. apply list_fmap_ext. intros i [id b'] Hi. simpl. apply list_elem_of_lookup_2, elem_of_map_to_list in Hi.
    apply (pr_orders _ _ R) in Hi as (b & _ & <- & ->). done. }
  apply NoDup_Permutation.
  - apply NoDup_filter. apply (NoDup_fmap_1 bo_OrderId). rewrite Hids. apply NoDup_fst_map_to_list.
  - apply (NoDup_fmap_1 bo_OrderId). rewrite <- list_fmap_compose. change (bo_OrderId ∘ trim) with bo_OrderId.
    pose proof (pr_ids _ _ R) as Hn. rewrite <- (ab_set_get a s), ab_ids_side in Hn by done. by apply NoDup_app in Hn as [? _].
  - intros b'. rewrite list_elem_of_filter, !list_elem_of_fmap. split.
    + intros [Hside ([id x] & -> & Hx)]. simpl in *. apply elem_of_map_to_list, (pr_orders _ _ R) in Hx as (b & Hb & _ & ->).
      exists b. split; [done|]. rewrite (ab_all_perm a s Hs) in Hb. apply elem_of_app in Hb as [?|Hb]; [done|].
      pose proof (pr_sides _ _ R _ (valid_Opposite s)) as Hf. rewrite Forall_forall in Hf. destruct (Hf b Hb) as [E _].
      simpl in Hside. rewrite Hside in E. exfalso. by apply (Opposite_ne s Hs).
    + intros (b & -> & Hb). pose proof (pr_sides _ _ R s Hs) as Hf. rewrite Forall_forall in Hf. split; [apply (Hf b Hb)|].
      exists (bo_OrderId b, trim b). split; [done|]. apply elem_of_map_to_list. by eapply push_lookup.
Qed.

Lemma stored_ok m a b' : push_repr m a -> b' ∈ (map_to_list (pb_orders m)).*2 -> valid_side (bo_Side b') /\ unfilled b'.
Proof.
  intros R. rewrite list_elem_of_fmap. intros ([id x] & -> & Hx). apply elem_of_map_to_list, (pr_orders _ _ R) in Hx as (b & Hb & _ & ->).
  assert (Hok : forall s, valid_side s -> b ∈ ab_get a s -> valid_side (bo_Side b) /\ unfilled b).
  { intros s Hs Hin. pose proof (pr_sides _ _ R s Hs) as Hf. rewrite Forall_forall in Hf. destruct (Hf b Hin) as [-> ?]. done. }
  rewrite (ab_all_perm a SideBuy) in Hb by (by left). apply elem_of_app in Hb as [Hb|Hb]; eapply Hok; try exact Hb; [by left|apply valid_Opposite].
Qed.

Lemma RestoreFull_same pid visit m a : (forall l, visit l ≡ₚ l) -> push_repr m a ->
  exists m', RestoreFull (newOrderBook pid) (SnapshotFull visit m) = Ok m' /\ m' ≡p m.
Proof.
  intros Hv R. set (bs := visit (map_to_list (pb_orders m)).*2).
  assert (Hok : Forall (fun b => valid_side (bo_Side b) /\ unfilled b) bs).
  { apply Forall_forall. intros b Hb. unfold bs in Hb. rewrite Hv in Hb. by eapply stored_ok. }
  assert (Hids : bo_OrderId <$> bs ≡ₚ (map_to_list (pb_orders m)).*1).
  { unfold bs. rewrite Hv, <- list_fmap_compose. apply Permutation_refl'. apply list_fmap_ext. intros i [id b'] Hi. simpl.
    apply list_elem_of_lookup_2, elem_of_map_to_list in Hi. apply (pr_orders _ _ R) in Hi as (b & _ & <- & ->). done. }
  destruct (saveOrders_repr bs _ _ (newOrderBook_repr pid) Hok) as (m1 & Hs & R1).
  { rewrite Hids. apply NoDup_fst_map_to_list. }
  { intros b _. apply not_elem_of_nil. }
  unfold RestoreFull. cbn [fs_Orders SnapshotFull]. fold bs. rewrite Hs. go_red. eexists. split; [done|].
  set (a1 := foldl addTo ab_empty bs) in *.
  assert (Hside : forall s, valid_side s -> ab_get a1 s ≡ₚ trim <$> ab_get a s).
  { intros s Hvs. unfold a1. rewrite addTo_side; [|done|by eapply Forall_impl; [exact Hok|intros ? [? _]]].
    replace (ab_get ab_empty s) with (@nil BookOrder) by (by destruct Hvs as [-> | ->]). simpl. unfold bs. rewrite Hv. by apply stored_side. }
  assert (Hall : forall b, b ∈ ab_bids a1 ++ ab_asks a1 <-> exists x, x ∈ ab_bids a ++ ab_asks a /\ b = trim x).
  { intros b. rewrite (ab_all_perm a1 SideBuy) by (by left).
    rewrite (Hside SideBuy), (Hside (Opposite SideBuy)) by first [by left|apply valid_Opposite].
    rewrite <- fmap_app, list_elem_of_fmap. apply exist_proper. intros x. rewrite (ab_all_perm a SideBuy) by (by left). tauto. }
  split; try done; simpl.
  - apply map_eq. intros id. apply option_eq. intros b'. rewrite (pr_orders _ _ R1), (pr_orders _ _ R). split.
    + intros (b & Hb & <- & ->). apply Hall in Hb as (x & Hx & ->). by exists x.
    + intros (x & Hx & <- & ->). exists (trim x). split; [apply Hall; by exists x|done].
  - intros s. destruct (decide (valid_side s)) as [Hvs|Hvs].
    + destruct (pr_side _ _ R1 s Hvs) as (t1 & -> & l1 & T1 & [L1 A1]).
      destruct (pr_side _ _ R s Hvs) as (t & -> & l & T0 & [L0 A0]). constructor. exists l1, l. split; [done|]. split; [done|].
      assert (Hlo : forall q, levelOrders q (ab_get a1 s) ≡ₚ trim <$> levelOrders q (ab_get a s)).
      { intros q. rewrite (levelOrders_perm q _ _ (Hside s Hvs)). by rewrite levelOrders_trim. }
      assert (Hmem : forall q b lo l, b ∈ levelOrders q lo -> (forall b, b ∈ lo -> exists e, e ∈ l /\ (dval e.1 == dval (bo_Price b))%Q) ->
        exists e, e ∈ (l : list (Dec * PriceLevel)) /\ e.1 ≡d q).
      { intros q b lo k [Hat Hb]%elem_levelOrders Ha. destruct (Ha b Hb) as (e & He & Ee). exists e. split; [done|].
        unfold deq. by rewrite Ee. }
      apply (levels_unique s (ab_get a1 s) (ab_get a s)); [apply T1|apply T0|done|done| | |].
      * intros q. split; [|by rewrite Hlo, length_fmap]. rewrite (dsum_perm _ (bo_Size <$> (trim <$> levelOrders q (ab_get a s)))) by (by rewrite Hlo).
        by rewrite <- list_fmap_compose.
      * intros e He. rewrite Forall_forall in L1. destruct (L1 e He) as [_ Ho _ _].
        destruct (levelOrders e.1 (ab_get a1 s)) as [|b rest] eqn:E; [done|].
        assert (Hb : b ∈ trim <$> levelOrders e.1 (ab_get a s)) by (rewrite <- Hlo, E; set_solver).
        apply list_elem_of_fmap in Hb as (x & _ & Hx). by eapply Hmem.
      * intros e He. rewrite Forall_forall in L0. destruct (L0 e He) as [_ Ho _ _].
        destruct (levelOrders e.1 (ab_get a s)) as [|b rest] eqn:E; [done|].
        assert (Hb : trim b ∈ levelOrders e.1 (ab_get a1 s)) by (rewrite Hlo, E; set_solver). by eapply Hmem.
    + rewrite (pr_other _ _ R1), (pr_other _ _ R) by done. constructor.
Qed.
End Restore.
