(* ===== verification/Messages.v ===== *)
(** What the push server sends: [src/pushing/message.go].

    The channels a client can subscribe to and the messages that are published
    on them.  [Level2Change] is in [PushBook.v]; it is what the order book stream
    publishes for a client's level 2 writer, and is never sent to a client as it
    is. *)
From S2P Require Import Prelude Decimal Models PushBook.
From stdpp Require Import strings list pretty.
Open Scope string_scope.
Open Scope list_scope.
Open Scope Z_scope.

Definition Channel := string.

Definition ChannelTicker : Channel := "ticker".
Definition ChannelMatch : Channel := "match".
Definition ChannelTrade : Channel := "trade".
Definition ChannelLevel2 : Channel := "level2".
Definition ChannelFunds : Channel := "funds".
Definition ChannelOrder : Channel := "order".
Definition ChannelCandles1m : Channel := "candles_1m".
Definition ChannelCandles3m : Channel := "candles_3m".
Definition ChannelCandles5m : Channel := "candles_5m".
Definition ChannelCandles15m : Channel := "candles_15m".
Definition ChannelCandles30m : Channel := "candles_30m".
Definition ChannelCandles60m : Channel := "candles_60m".
Definition ChannelCandles120m : Channel := "candles_120m".
Definition ChannelCandles240m : Channel := "candles_240m".
Definition ChannelCandles360m : Channel := "candles_360m".
Definition ChannelCandles720m : Channel := "candles_720m".
Definition ChannelCandles1440m : Channel := "candles_1440m".

(** [fmt.Sprintf("%v:%v:%v", ...)] and the like. *)
Definition Format (t : Channel) (productId : string) (userId : Z) : string := t +:+ ":" +:+ productId +:+ ":" +:+ pretty userId.
Definition FormatWithUserId (t : Channel) (userId : Z) : string := t +:+ ":" +:+ pretty userId.
Definition FormatWithProductId (t : Channel) (productId : string) : string := t +:+ ":" +:+ productId.
Definition CandlesFormatWithGranularityProductId (granularity : Z) (productId : string) : string :=
  "candles_" +:+ pretty granularity +:+ "m:" +:+ productId.

Record Request := {
  req_Type : string;
  req_ProductIds : list string;
  req_CurrencyIds : list string;
  req_Channels : list string;
  req_Token : string;
}.

Definition Level2TypeSnapshot : string := "snapshot".
Definition Level2TypeUpdate : string := "l2update".

Record Level2SnapshotMessage := {
  lsm_Type : string;
  lsm_ProductId : string;
  lsm_Bids : list levelRow;
  lsm_Asks : list levelRow;
}.

Record Level2UpdateMessage := {
  lum_Type : string;
  lum_ProductId : string;
  lum_Changes : list (string * string * string);
}.

Record MatchMessage := {
  mm_Type : string;
  mm_TradeSeq : Z;
  mm_Sequence : Z;
  mm_Time : Z;
  mm_ProductId : string;
  mm_Price : string;
  mm_Size : string;
  mm_MakerOrderId : string;
  mm_TakerOrderId : string;
  mm_Side : string;
}.

Record TickerMessage := {
  tm_Type : string;
  tm_TradeSeq : Z;
  tm_Sequence : Z;
  tm_Time : Z;
  tm_ProductId : string;
  tm_Price : string;
  tm_Side : string;
  tm_LastSize : string;
  tm_BestBid : string;
  tm_BestAsk : string;
  tm_Volume24h : string;
  tm_Volume30d : string;
  tm_QuoteVolume24h : string;
  tm_QuoteVolume30d : string;
  tm_Low24h : string;
  tm_High24h : string;
  tm_Open24h : string;
  tm_Close24h : string;
}.

Record CandlesMessage := {
  cm_Type : string;
  cm_ProductId : string;
  cm_Time : Z;
  cm_Open : string;
  cm_Close : string;
  cm_Low : string;
  cm_High : string;
  cm_Volume : string;
}.

Record FundsMessage := {
  fm_Type : string;
  fm_Sequence : Z;
  fm_UserId : string;
  fm_Currency : string;
  fm_Available : string;
  fm_Hold : string;
}.

Record OrderMessage := {
  om_UserId : Z;
  om_Type : string;
  om_Sequence : Z;
  om_Id : string;
  om_Price : string;
  om_Size : string;
  om_Funds : string;
  om_ProductId : string;
  om_Side : string;
  om_OrderType : string;
  om_CreatedAt : string;
  om_FillFees : string;
  om_FilledSize : string;
  om_ExecutedValue : string;
  om_Status : string;
  om_Settled : bool;
}.

Record TradeMessage := {
  tr_Type : string;
  tr_Time : string;
  tr_ProductId : string;
  tr_Price : string;
  tr_Size : string;
  tr_MakerOrderId : string;
  tr_TakerOrderId : string;
  tr_Side : string;
}.

(** What the channels carry, [interface{}] in the code.  All are pointers, but
    only a ticker is changed after it was published: [MTicker] is its address. *)
Inductive Message :=
| MLevel2Change (m : Level2Change)
| MLevel2Snapshot (m : Level2SnapshotMessage)
| MLevel2Update (m : Level2UpdateMessage)
| MMatch (m : MatchMessage)
| MTicker (ref : Z)
| MCandles (m : CandlesMessage)
| MFunds (m : FundsMessage)
| MOrder (m : OrderMessage)
| MTrade (m : TradeMessage).
