(* ===== verification/Hub.v ===== *)
(** Subscriptions and clients of the push server: [src/pushing/subscription.go]
    and [client.go].

    A [Client] is one websocket connection with its goroutines: a reader that
    works requests, a writer that takes messages from [writeCh] and sends them
    or, for a level 2 change, passes them on to [l2ChangeCh], and the level 2
    writer that turns changes into snapshots and updates and sends these to
    [writeCh].  A send waits while its channel is full; what a goroutine has in
    hand while it waits is part of the client.  The maps of the code hold pointers to clients; here they hold
    the clients' ids, which are unique, and [h_clients] is the store behind the
    pointers.  The mutexes make [subscribe] and [unsubscribe] steps of their own;
    [publish] and [close] are here what they do when nothing comes in between,
    [Publishing] has their single steps. *)
From S2P Require Import Prelude Decimal Models PushBook Messages.
From stdpp Require Import gmap strings list pretty.
Open Scope string_scope.
Open Scope list_scope.
Open Scope Z_scope.

Definition writeChannelSize : Z := 256.
Definition l2ChangeChannelSize : Z := 512.

(** The level 2 writer's state for one product. *)
Record l2state := { l2s_resendSnapshot : bool; l2s_changes : list Level2Change; l2s_lastSeq : Z }.

(** What is written to a connection: a message, with its ticker as it then is. *)
Inductive sentMessage := Sent (m : Message) | SentTicker (m : TickerMessage).

Record Client := {
  c_writeCh : list Message;
  c_l2ChangeCh : list Level2Change;
  c_channels : gset string;
  c_forwarding : option Level2Change;  (** what the writer is sending to [l2ChangeCh] *)
  c_states : gmap string l2state;      (** local to [runL2ChangeWriter] *)
  c_pushing : list Message;            (** what the level 2 writer is sending to [writeCh] *)
  c_asking : option Level2Change;      (** what it is sending to [l2ChangeCh] *)
  c_sent : list sentMessage;           (** written to the connection *)
}.

Definition NewClient : Client := {|
  c_writeCh := []; c_l2ChangeCh := []; c_channels := ∅; c_forwarding := None;
  c_states := ∅; c_pushing := []; c_asking := None; c_sent := [] |}.

Definition c_setWriteCh (c : Client) ch : Client := {|
  c_writeCh := ch; c_l2ChangeCh := c_l2ChangeCh c; c_channels := c_channels c; c_forwarding := c_forwarding c;
  c_states := c_states c; c_pushing := c_pushing c; c_asking := c_asking c; c_sent := c_sent c |}.
Definition c_setL2ChangeCh (c : Client) ch : Client := {|
  c_writeCh := c_writeCh c; c_l2ChangeCh := ch; c_channels := c_channels c; c_forwarding := c_forwarding c;
  c_states := c_states c; c_pushing := c_pushing c; c_asking := c_asking c; c_sent := c_sent c |}.
Definition c_setChannels (c : Client) chs : Client := {|
  c_writeCh := c_writeCh c; c_l2ChangeCh := c_l2ChangeCh c; c_channels := chs; c_forwarding := c_forwarding c;
  c_states := c_states c; c_pushing := c_pushing c; c_asking := c_asking c; c_sent := c_sent c |}.
Definition c_setForwarding (c : Client) l : Client := {|
  c_writeCh := c_writeCh c; c_l2ChangeCh := c_l2ChangeCh c; c_channels := c_channels c; c_forwarding := l;
  c_states := c_states c; c_pushing := c_pushing c; c_asking := c_asking c; c_sent := c_sent c |}.
Definition c_setState (c : Client) pid st : Client := {|
  c_writeCh := c_writeCh c; c_l2ChangeCh := c_l2ChangeCh c; c_channels := c_channels c; c_forwarding := c_forwarding c;
  c_states := <[pid := st]> (c_states c); c_pushing := c_pushing c; c_asking := c_asking c; c_sent := c_sent c |}.
Definition c_setPushing (c : Client) msgs : Client := {|
  c_writeCh := c_writeCh c; c_l2ChangeCh := c_l2ChangeCh c; c_channels := c_channels c; c_forwarding := c_forwarding c;
  c_states := c_states c; c_pushing := msgs; c_asking := c_asking c; c_sent := c_sent c |}.
Definition c_setAsking (c : Client) l : Client := {|
  c_writeCh := c_writeCh c; c_l2ChangeCh := c_l2ChangeCh c; c_channels := c_channels c; c_forwarding := c_forwarding c;
  c_states := c_states c; c_pushing := c_pushing c; c_asking := l; c_sent := c_sent c |}.
Definition c_addSent (c : Client) m : Client := {|
  c_writeCh := c_writeCh c; c_l2ChangeCh := c_l2ChangeCh c; c_channels := c_channels c; c_forwarding := c_forwarding c;
  c_states := c_states c; c_pushing := c_pushing c; c_asking := c_asking c; c_sent := c_sent c ++ [m] |}.

(** ** subscription.go *)

Abbreviation subscription := (gmap string (gset Z)).

Definition newSubscription : subscription := ∅.

Definition sub_subscribe (s : subscription) (channel : string) (id : Z) : bool * subscription :=
  let ids := default ∅ (s !! channel) in
  if decide (id ∈ ids) then (false, <[channel := ids]> s) else (true, <[channel := {[id]} ∪ ids]> s).

Definition sub_unsubscribe (s : subscription) (channel : string) (id : Z) : bool * subscription :=
  match s !! channel with
  | None => (false, s)
  | Some ids => if decide (id ∈ ids) then (true, <[channel := ids ∖ {[id]}]> s) else (false, s)
  end.

(** [publish], uninterrupted.  A full client misses the message. *)
Definition offer (c : Client) (msg : Message) : Client :=
  if Z.of_nat (length (c_writeCh c)) <? writeChannelSize then c_setWriteCh c (c_writeCh c ++ [msg]) else c.

Definition publishTo (clients : gmap Z Client) (ids : gset Z) (msg : Message) : gmap Z Client :=
  map_imap (fun id c => Some (if decide (id ∈ ids) then offer c msg else c)) clients.

(** What the streams and the clients share: the subscription, the clients, and
    the package's variables [lastLevel2Snapshots] and [lastTickers].  The tickers
    are in a store of their own. *)
Record hub := {
  h_subscribers : subscription;
  h_clients : gmap Z Client;
  h_lastLevel2Snapshots : gmap string OrderBookLevel2Snapshot;
  h_lastTickers : gmap string Z;
  h_tickers : gmap Z TickerMessage;
}.

Definition h_setSubscribers (h : hub) s : hub := {| h_subscribers := s; h_clients := h_clients h;
  h_lastLevel2Snapshots := h_lastLevel2Snapshots h; h_lastTickers := h_lastTickers h; h_tickers := h_tickers h |}.
Definition h_setClients (h : hub) cs : hub := {| h_subscribers := h_subscribers h; h_clients := cs;
  h_lastLevel2Snapshots := h_lastLevel2Snapshots h; h_lastTickers := h_lastTickers h; h_tickers := h_tickers h |}.
Definition h_setLevel2 (h : hub) pid snapshot : hub := {| h_subscribers := h_subscribers h; h_clients := h_clients h;
  h_lastLevel2Snapshots := <[pid := snapshot]> (h_lastLevel2Snapshots h); h_lastTickers := h_lastTickers h; h_tickers := h_tickers h |}.
Definition h_setTicker (h : hub) pid ref ticker : hub := {| h_subscribers := h_subscribers h; h_clients := h_clients h;
  h_lastLevel2Snapshots := h_lastLevel2Snapshots h; h_lastTickers := <[pid := ref]> (h_lastTickers h);
  h_tickers := <[ref := ticker]> (h_tickers h) |}.

Definition publish (h : hub) (channel : string) (msg : Message) : hub :=
  match h_subscribers h !! channel with
  | None => h
  | Some ids => h_setClients h (publishTo (h_clients h) ids msg)
  end.

(** ** client.go: subscribing *)

(** [&Level2Change{ProductId: productId}]: the request for a snapshot. *)
Definition askSnapshot (productId : string) : Level2Change :=
  {| lc_Seq := 0; lc_ProductId := productId; lc_Side := ""; lc_Price := ""; lc_Size := "" |}.

Definition h_update (h : hub) (id : Z) (c : Client) : hub := h_setClients h (<[id := c]> (h_clients h)).

Definition addClient (h : hub) (id : Z) : hub := h_update h id NewClient.

Definition subscribe (h : hub) (id : Z) (c : Client) (channel : string) : bool * hub :=
  if decide (channel ∈ c_channels c) then (false, h)
  else
    let '(ok, subs) := sub_subscribe (h_subscribers h) channel id in
    let h := h_setSubscribers h subs in
    (ok, if ok then h_update h id (c_setChannels c ({[channel]} ∪ c_channels c)) else h).

Definition unsubscribe (h : hub) (id : Z) (c : Client) (channel : string) : hub :=
  let '(ok, subs) := sub_unsubscribe (h_subscribers h) channel id in
  let h := h_setSubscribers h subs in
  if ok then h_update h id (c_setChannels c (c_channels c ∖ {[channel]})) else h.

(** [close] leaves [c.channels] as it is. *)
Definition close (h : hub) (id : Z) (c : Client) : hub :=
  h_setSubscribers h (set_fold (fun channel s => (sub_unsubscribe s channel id).2) (h_subscribers h) (c_channels c)).

(** *** The requests *)

Section Requests.
(** [service.CheckToken] ([CheckToken] of [Users], which the clients do not
    need): an error, or the id of the user, or no user. *)
Context (CheckToken : string -> outcome unit (option Z)).

(** [getLastTicker] of [ticker_stream.go]: the address. *)
Definition getLastTicker (h : hub) (productId : string) : option Z := h_lastTickers h !! productId.

(** One step of the loops of [onSub], on a client that exists. *)
Definition withClient {A} (h : hub) (id : Z) (f : Client -> outcome blocked A) : outcome blocked A :=
  match h_clients h !! id with Some c => f c | None => Err Blocked end.

Definition subscribeOnly (h : hub) (id : Z) (channel : string) : outcome blocked hub :=
  withClient h id (fun c => mret (subscribe h id c channel).2).

(** [case ChannelLevel2] *)
Definition subscribeLevel2 (h : hub) (id : Z) (productId : string) : outcome blocked hub :=
  withClient h id (fun c =>
    let '(ok, h) := subscribe h id c (FormatWithProductId ChannelLevel2 productId) in
    if ok : bool then
      withClient h id (fun c =>
        ch ← send l2ChangeChannelSize (c_l2ChangeCh c) (askSnapshot productId);
        mret (h_update h id (c_setL2ChangeCh c ch)))
    else mret h).

(** [case ChannelTicker] *)
Definition subscribeTicker (h : hub) (id : Z) (productId : string) : outcome blocked hub :=
  withClient h id (fun c =>
    let '(ok, h) := subscribe h id c (FormatWithProductId ChannelTicker productId) in
    if ok : bool then
      match getLastTicker h productId with
      | None => mret h
      | Some ticker =>
          withClient h id (fun c =>
            ch ← send writeChannelSize (c_writeCh c) (MTicker ticker);
            mret (h_update h id (c_setWriteCh c ch)))
      end
    else mret h).

(** The channels whose names are formatted with the product alone. *)
Definition productChannels : list Channel :=
  [ChannelMatch; ChannelCandles1m; ChannelCandles3m; ChannelCandles5m; ChannelCandles15m; ChannelCandles30m;
   ChannelCandles60m; ChannelCandles120m; ChannelCandles240m; ChannelCandles360m; ChannelCandles720m; ChannelCandles1440m].

(** The [switch] of [onSub] on a product and a channel.  [user] is the user of
    the token; [user.Id] of no user is a nil dereference. *)
Definition onSubChannel (h : hub) (id : Z) (user : option Z) (productId : string) (channel : Channel) : outcome blocked hub :=
  let userId := default 0 user in
  if channel =s? ChannelLevel2 then subscribeLevel2 h id productId
  else if channel =s? ChannelTrade then uid ← deref user; subscribeOnly h id (Format ChannelTrade productId uid)
  else if channel =s? ChannelTicker then subscribeTicker h id productId
  else if channel =s? ChannelOrder then subscribeOnly h id (Format ChannelOrder productId userId)
  else if decide (channel ∈ productChannels) then subscribeOnly h id (FormatWithProductId channel productId)
  else mret h.

Definition onSubCurrency (h : hub) (id : Z) (user : option Z) (channel : Channel) : outcome blocked hub :=
  if channel =s? ChannelFunds then subscribeOnly h id (FormatWithUserId ChannelFunds (default 0 user)) else mret h.

(** A loop over a slice. *)
Fixpoint forEach {A} (f : hub -> A -> outcome blocked hub) (l : list A) (h : hub) : outcome blocked hub :=
  match l with [] => mret h | x :: l => h ← f h x; forEach f l h end.

(** An error of the token is logged and the request ignored. *)
Definition onSub (h : hub) (id : Z) (req : Request) : outcome blocked hub :=
  match CheckToken (req_Token req) with
  | Ok user =>
      h ← forEach (fun h _ => forEach (fun h channel => onSubCurrency h id user channel) (req_Channels req) h) (req_CurrencyIds req) h;
      forEach (fun h productId => forEach (fun h channel => onSubChannel h id user productId channel) (req_Channels req) h)
        (req_ProductIds req) h
  | Err _ => mret h
  | Panic => Panic
  | Diverge => Diverge
  end.

Definition unsubscribeOnly (h : hub) (id : Z) (channel : string) : outcome blocked hub :=
  withClient h id (fun c => mret (unsubscribe h id c channel)).

Definition onUnSubChannel (h : hub) (id : Z) (user : option Z) (productId : string) (channel : Channel) : outcome blocked hub :=
  let userId := default 0 user in
  if channel =s? ChannelLevel2 then unsubscribeOnly h id (FormatWithProductId ChannelLevel2 productId)
  else if channel =s? ChannelTrade then uid ← deref user; unsubscribeOnly h id (Format ChannelTrade productId uid)
  else if channel =s? ChannelTicker then unsubscribeOnly h id (FormatWithProductId ChannelTicker productId)
  else if channel =s? ChannelOrder then unsubscribeOnly h id (Format ChannelOrder productId userId)
  else if decide (channel ∈ productChannels) then unsubscribeOnly h id (FormatWithProductId channel productId)
  else mret h.

Definition onUnSubCurrency (h : hub) (id : Z) (user : option Z) (channel : Channel) : outcome blocked hub :=
  if channel =s? ChannelFunds then unsubscribeOnly h id (FormatWithUserId ChannelFunds (default 0 user)) else mret h.

Definition onUnSub (h : hub) (id : Z) (req : Request) : outcome blocked hub :=
  match CheckToken (req_Token req) with
  | Ok user =>
      h ← forEach (fun h _ => forEach (fun h channel => onUnSubCurrency h id user channel) (req_Channels req) h) (req_CurrencyIds req) h;
      forEach (fun h productId => forEach (fun h channel => onUnSubChannel h id user productId channel) (req_Channels req) h)
        (req_ProductIds req) h
  | Err _ => mret h
  | Panic => Panic
  | Diverge => Diverge
  end.

Definition onMessage (h : hub) (id : Z) (req : Request) : outcome blocked hub :=
  if req_Type req =s? "subscribe" then onSub h id req
  else if req_Type req =s? "unsubscribe" then onUnSub h id req
  else mret h.
End Requests.

(** ** client.go: writing *)

(** [runWriter]: it takes a message and writes it to the connection, or sends it
    on to the level 2 writer. *)
Definition writeStep (tickers : gmap Z TickerMessage) (c : Client) : outcome blocked Client :=
  match c_forwarding c with
  | Some l =>
      ch ← send l2ChangeChannelSize (c_l2ChangeCh c) l;
      mret (c_setForwarding (c_setL2ChangeCh c ch) None)
  | None =>
      '(msg, ch) ← recv (c_writeCh c);
      let c := c_setWriteCh c ch in
      match msg with
      | MLevel2Change l => mret (c_setForwarding c (Some l))
      | MTicker ref => ticker ← deref (tickers !! ref); mret (c_addSent c (SentTicker ticker))
      | _ => mret (c_addSent c (Sent msg))
      end
  end.

(** What the level 2 writer does with one change: the new state, what it sends,
    and whether it asks itself for a snapshot.  [more] messages are waiting. *)
Definition l2Handle (snapshot : option OrderBookLevel2Snapshot) (more : Z) (st : l2state) (l2Change : Level2Change)
    : l2state * list Message * bool :=
  if l2s_resendSnapshot st || (lc_Seq l2Change =? 0) then
    match snapshot with
    | None => (st, [], false)
    | Some snapshot =>
        if l2_Seq snapshot <? l2s_lastSeq st then (st, [], false)
        else ({| l2s_resendSnapshot := false; l2s_changes := l2s_changes st; l2s_lastSeq := l2_Seq snapshot |},
              [MLevel2Snapshot {| lsm_Type := Level2TypeSnapshot; lsm_ProductId := lc_ProductId l2Change;
                                  lsm_Bids := l2_Bids snapshot; lsm_Asks := l2_Asks snapshot |}], false)
    end
  else if lc_Seq l2Change <=? l2s_lastSeq st then (st, [], false)
  else if negb (lc_Seq l2Change =? i64 (l2s_lastSeq st + 1)) then
    ({| l2s_resendSnapshot := true; l2s_changes := []; l2s_lastSeq := lc_Seq l2Change |}, [], more =? 0)
  else
    let changes := l2s_changes st ++ [l2Change] in
    if (0 <? more) && (Z.of_nat (length changes) <? 10) then
      ({| l2s_resendSnapshot := l2s_resendSnapshot st; l2s_changes := changes; l2s_lastSeq := lc_Seq l2Change |}, [], false)
    else
      ({| l2s_resendSnapshot := l2s_resendSnapshot st; l2s_changes := []; l2s_lastSeq := lc_Seq l2Change |},
       [MLevel2Update {| lum_Type := Level2TypeUpdate; lum_ProductId := lc_ProductId l2Change;
                         lum_Changes := (fun c => (lc_Side c, lc_Price c, lc_Size c)) <$> changes |}], false).

(** [stateOf] *)
Definition stateOf (c : Client) (productId : string) : l2state :=
  default {| l2s_resendSnapshot := true; l2s_changes := []; l2s_lastSeq := 0 |} (c_states c !! productId).

(** [runL2ChangeWriter]: it sends what it has to send, or takes the next change. *)
Definition l2Step (snapshots : gmap string OrderBookLevel2Snapshot) (c : Client) : outcome blocked Client :=
  match c_pushing c, c_asking c with
  | msg :: msgs, _ =>
      ch ← send writeChannelSize (c_writeCh c) msg;
      mret (c_setPushing (c_setWriteCh c ch) msgs)
  | [], Some l =>
      ch ← send l2ChangeChannelSize (c_l2ChangeCh c) l;
      mret (c_setAsking (c_setL2ChangeCh c ch) None)
  | [], None =>
      '(l2Change, ch) ← recv (c_l2ChangeCh c);
      let pid := lc_ProductId l2Change in
      let '(st, msgs, ask) := l2Handle (snapshots !! pid) (Z.of_nat (length ch)) (stateOf c pid) l2Change in
      let c := c_setState (c_setL2ChangeCh c ch) pid st in
      mret (c_setAsking (c_setPushing c msgs) (if ask : bool then Some (askSnapshot pid) else None))
  end.
