(* ===== verification/Level2.v ===== *)
(** The level 2 writer of a client: [runL2ChangeWriter] of
    [src/pushing/client.go].

    The order book stream numbers its changes; a client that subscribes gets a
    snapshot and then the changes after it.  [sees hist v msgs v'] says that a
    client whose book is at change [v] can work [msgs]: a snapshot sets it to the
    snapshot's number, and an update holds exactly the changes that follow.
    [l2Run_sees] shows that this is what the level 2 writer sends, whatever
    changes it misses or gets twice, as long as no snapshot is sent while
    changes are held back. *)
From S2P Require Import Prelude Decimal Models PushBook Messages Hub.
From stdpp Require Import gmap strings list.
Open Scope string_scope.
Open Scope list_scope.
Open Scope Z_scope.

(** What one pass of the writer's loop finds. *)
Record l2input := { in_snapshot : option OrderBookLevel2Snapshot; in_more : Z; in_change : Level2Change }.

Fixpoint l2Run (st : l2state) (ins : list l2input) : l2state * list Message :=
  match ins with
  | [] => (st, [])
  | i :: ins =>
      let '(st, msgs, _) := l2Handle (in_snapshot i) (in_more i) st (in_change i) in
      let '(st, msgs') := l2Run st ins in
      (st, msgs ++ msgs')
  end.

(** A request for a snapshot finds changes held back only if the snapshot is
    missing or too old to be sent. *)
Fixpoint calm (st : l2state) (ins : list l2input) : Prop :=
  match ins with
  | [] => True
  | i :: ins => (lc_Seq (in_change i) = 0 -> forall s, in_snapshot i = Some s -> l2s_lastSeq st <= l2_Seq s -> l2s_changes st = []) /\
                calm (l2Handle (in_snapshot i) (in_more i) st (in_change i)).1.1 ins
  end.

Definition freshL2 : l2state := {| l2s_resendSnapshot := true; l2s_changes := []; l2s_lastSeq := 0 |}.

Section Sees.
(** The stream's changes by number. *)
Context (hist : Z -> Level2Change).
(** The numbers the stream has reached, and what is known of its snapshots. *)
Context (reached : Z -> Prop) (good : OrderBookLevel2Snapshot -> Prop).

Definition updateRow (c : Level2Change) : string * string * string := (lc_Side c, lc_Price c, lc_Size c).
Definition changesAfter (n : Z) (k : nat) : list Level2Change := hist <$> seqZ (n + 1) (Z.of_nat k).

Definition snapshotOf (s : OrderBookLevel2Snapshot) (m : Level2SnapshotMessage) : Prop :=
  lsm_Bids m = l2_Bids s /\ lsm_Asks m = l2_Asks s.

Inductive sees : option Z -> list Message -> option Z -> Prop :=
| sees_nil v : sees v [] v
| sees_snapshot v s m msgs v' : good s -> snapshotOf s m -> sees (Some (l2_Seq s)) msgs v' -> sees v (MLevel2Snapshot m :: msgs) v'
| sees_update n k m msgs v' : lum_Changes m = updateRow <$> changesAfter n k -> reached (n + Z.of_nat k) ->
    sees (Some (n + Z.of_nat k)) msgs v' -> sees (Some n) (MLevel2Update m :: msgs) v'.

Lemma sees_app v1 l1 v2 l2 v3 : sees v1 l1 v2 -> sees v2 l2 v3 -> sees v1 (l1 ++ l2) v3.
Proof. induction 1; intros; simpl; [done|..]; econstructor; eauto. Qed.

(** A number that can be counted on from. *)
Definition countable (n : Z) : Prop := 0 <= n < i64_half - 1.

(** The changes that arrive, and the snapshots that are found. *)
Definition input_ok (i : l2input) : Prop :=
  countable (lc_Seq (in_change i)) /\
  (lc_Seq (in_change i) <> 0 -> in_change i = hist (lc_Seq (in_change i)) /\ reached (lc_Seq (in_change i))) /\
  (forall s, in_snapshot i = Some s -> countable (l2_Seq s) /\ good s).

(** The state of the writer, for a client at [v]: what is buffered follows [v]. *)
Definition state_ok (st : l2state) (v : option Z) : Prop :=
  countable (l2s_lastSeq st) /\
  (l2s_resendSnapshot st = true -> l2s_changes st = []) /\
  (l2s_resendSnapshot st = false -> exists n, v = Some n /\ l2s_lastSeq st = n + Z.of_nat (length (l2s_changes st)) /\
     l2s_changes st = changesAfter n (length (l2s_changes st))).

Lemma changesAfter_snoc n k : changesAfter n (S k) = changesAfter n k ++ [hist (n + Z.of_nat (S k))].
Proof.
  unfold changesAfter. replace (Z.of_nat (S k)) with (Z.of_nat k + 1) by lia.
  rewrite seqZ_app by lia. rewrite fmap_app. f_equal. rewrite (seqZ_cons (n + 1 + Z.of_nat k)) by lia.
  rewrite fmap_cons. f_equal. f_equal. lia.
Qed.

Lemma l2Handle_sees i st v : input_ok i -> state_ok st v ->
  (lc_Seq (in_change i) = 0 -> forall s, in_snapshot i = Some s -> l2s_lastSeq st <= l2_Seq s -> l2s_changes st = []) ->
  exists v', sees v (l2Handle (in_snapshot i) (in_more i) st (in_change i)).1.2 v' /\
    state_ok (l2Handle (in_snapshot i) (in_more i) st (in_change i)).1.1 v'.
Proof.
  intros (Hseq & Hhist & Hsnap) (Hlast & Hre & Hok) Hcalm. unfold l2Handle.
  destruct (l2s_resendSnapshot st || (lc_Seq (in_change i) =? 0)) eqn:E1.
  { destruct (in_snapshot i) as [s|]; [|exists v; split; [constructor|done]]. destruct (Hsnap s eq_refl) as [Hcs Hgs].
    destruct (Z.ltb_spec (l2_Seq s) (l2s_lastSeq st)); [exists v; split; [constructor|done]|].
    assert (Hnil : l2s_changes st = []).
    { apply orb_true_iff in E1 as [E1|E1]; [by apply Hre|]. apply Z.eqb_eq in E1. by apply (Hcalm E1 s). }
    exists (Some (l2_Seq s)). cbn [fst snd]. split; [econstructor; [exact Hgs|by split|constructor]|].
    split; [done|]. split; [done|]. intros _. exists (l2_Seq s). simpl. rewrite Hnil. simpl.
    split; [done|]. split; [lia|]. unfold changesAfter. by rewrite seqZ_nil by lia. }
  apply orb_false_iff in E1 as [E1 E0]. apply Z.eqb_neq in E0. destruct (Hok E1) as (n & -> & El & Ec).
  destruct (Z.leb_spec (lc_Seq (in_change i)) (l2s_lastSeq st)); [exists (Some n); split; [constructor|done]|].
  rewrite i64_id by (unfold countable, is_i64, i64_half in *; lia).
  destruct (Z.eqb_spec (lc_Seq (in_change i)) (l2s_lastSeq st + 1)) as [Es|Es]; cbn [negb].
  2:{ exists (Some n). split; [constructor|]. by split. }
  assert (Hch : l2s_changes st ++ [in_change i] = changesAfter n (S (length (l2s_changes st)))).
  { rewrite changesAfter_snoc, <- Ec. destruct (Hhist E0) as [-> _]. do 3 f_equal. rewrite Es, El. lia. }
  case_bool; cbn [fst snd].
  - exists (Some n). split; [constructor|]. split; [done|]. split; [by rewrite E1|]. intros _. exists n. simpl.
    rewrite length_app. simpl. split; [done|]. split; [lia|]. rewrite Nat.add_1_r. exact Hch.
  - exists (Some (n + Z.of_nat (S (length (l2s_changes st))))). rewrite Hch. split.
    + econstructor; [done| |constructor]. destruct (Hhist E0) as [_ Hr]. rewrite Es, El in Hr.
      by replace (n + _) with (n + Z.of_nat (length (l2s_changes st)) + 1) by lia.
    + split; [done|]. split; [done|]. intros _. eexists. split; [done|]. simpl. split; [lia|].
      unfold changesAfter. by rewrite seqZ_nil by lia.
Qed.

Lemma l2Run_sees ins : forall st v, Forall input_ok ins -> state_ok st v -> calm st ins ->
  exists v', sees v (l2Run st ins).2 v' /\ state_ok (l2Run st ins).1 v'.
Proof.
  induction ins as [|i ins IH]; intros st v Hin Hst Hc; simpl; [exists v; split; [constructor|done]|].
  apply Forall_cons in Hin as [Hi Hin]. destruct Hc as [Hc0 Hc].
  destruct (l2Handle_sees i st v Hi Hst Hc0) as (v1 & S1 & St1).
  destruct (l2Handle _ _ _ _) as [[st1 msgs1] ask]. cbn [fst snd] in *.
  destruct (IH st1 v1 Hin St1 Hc) as (v2 & S2 & St2). destruct (l2Run st1 ins) as [st2 msgs2]. cbn [fst snd] in *.
  exists v2. split; [by eapply sees_app|done].
Qed.

Lemma freshL2_ok : state_ok freshL2 None.
Proof. split; [done|]. split; [done|]. intros H. discriminate H. Qed.
End Sees.
