(* ===== verification/ClientView.v ===== *)
(** What a client that works its messages has on its screen.

    [clientView] works the level 2 messages of one product: a snapshot replaces
    the view, a row of an update sets or removes a level.  A view is compared
    with the one that has worked every change from the first on
    ([agree]); [view_follows] joins [Level2.v] and [PushMirror.v]. *)
From S2P Require Import Prelude Decimal TreeMap Models MatchLog OrderBook DepthInv Book PushBook PushInv PushView PushMirror Messages Hub Level2.
From stdpp Require Import gmap strings list.
Open Scope string_scope.
Open Scope list_scope.
Open Scope Z_scope.

Section Client.
Context {P : DecimalPkg} {L : DecimalLaws P} {T : TreeMapPkg} {TL : TreeMapLaws T}.
Implicit Types (v w : level2View).

Definition applyRow v (row : string * string * string) : level2View :=
  let '(side, price, size) := row in
  if decide (size = dec_String dec_Zero) then delete (side, price) v else <[(side, price) := size]> v.

Definition viewMessage (v : option level2View) (msg : Message) : option level2View :=
  match msg with
  | MLevel2Snapshot m => Some (list_to_map (rowsView SideBuy (lsm_Bids m) ++ rowsView SideSell (lsm_Asks m)))
  | MLevel2Update m => (fun w => foldl applyRow w (lum_Changes m)) <$> v
  | _ => v
  end.
Definition clientView (msgs : list Message) : option level2View := foldl viewMessage None msgs.

Lemma applyRows_changes v cs : foldl applyRow v (updateRow <$> cs) = replay v cs.
Proof. revert v. induction cs as [|c cs IH]; intros v; [done|]. rewrite fmap_cons. simpl. apply IH. Qed.

(** *** Views that show the same levels *)

Definition agree v w : Prop := forall s q, valid_side s -> v !! (s, dec_String q) = w !! (s, dec_String q).

Lemma agree_applyChange v w c : agree v w -> agree (applyChange v c) (applyChange w c).
Proof.
  intros H s q Hs. unfold applyChange. destruct (decide _).
  - destruct (decide ((lc_Side c, lc_Price c) = (s, dec_String q))) as [->|]; [by rewrite !lookup_delete_eq|].
    rewrite !lookup_delete_ne by done. by apply H.
  - destruct (decide ((lc_Side c, lc_Price c) = (s, dec_String q))) as [->|]; [by rewrite !lookup_insert_eq|].
    rewrite !lookup_insert_ne by done. by apply H.
Qed.

Lemma agree_replay v w cs : agree v w -> agree (replay v cs) (replay w cs).
Proof. revert v w. induction cs as [|c cs IH]; intros v w H; [done|]. simpl. by apply IH, agree_applyChange. Qed.

Lemma agree_shows f v w : agree v w -> shows f w -> shows f v.
Proof. intros H Hw s q Hs. rewrite (H s q Hs). by apply Hw. Qed.

Lemma shows_agree f v w : shows f v -> shows f w -> agree v w.
Proof.
  intros Hv Hw s q Hs. specialize (Hv s q Hs). specialize (Hw s q Hs). destruct (levelOrders q (f s)) as [|b lo].
  - by rewrite Hv, Hw.
  - destruct Hv as (x & -> & Ex), Hw as (y & -> & Ey). f_equal. apply dec_String_val. by rewrite Ex, Ey.
Qed.

(** *** The changes by number *)

Definition histOf (cs : list Level2Change) (n : Z) : Level2Change :=
  default (askSnapshot "") (cs !! Z.to_nat (n - 1)).

Lemma histOf_after cs n k : (n + k <= length cs)%nat -> changesAfter (histOf cs) (Z.of_nat n) k = take k (drop n cs).
Proof.
  revert n. induction k as [|k IH]; intros n Hn; [by rewrite take_0; unfold changesAfter; rewrite seqZ_nil by lia|].
  unfold changesAfter. rewrite seqZ_cons by lia. rewrite fmap_cons.
  replace (Z.pred (Z.of_nat (S k))) with (Z.of_nat k) by lia.
  replace (Z.succ (Z.of_nat n + 1)) with (Z.of_nat (S n) + 1) by lia.
  change (histOf cs <$> seqZ (Z.of_nat (S n) + 1) (Z.of_nat k)) with (changesAfter (histOf cs) (Z.of_nat (S n)) k).
  rewrite IH by lia. unfold histOf. replace (Z.to_nat (Z.of_nat n + 1 - 1)) with n by lia.
  destruct (lookup_lt_is_Some_2 cs n) as [c Hc]; [lia|]. by rewrite Hc, (drop_S _ _ _ Hc).
Qed.

(** *** What the messages make of the view *)

Definition upTo (cs : list Level2Change) (n : Z) : level2View := replay ∅ (take (Z.to_nat n) cs).
Definition inRange (cs : list Level2Change) (n : Z) : Prop := 0 <= n <= Z.of_nat (length cs).
Definition rightSnapshot (cs : list Level2Change) (s : OrderBookLevel2Snapshot) : Prop :=
  inRange cs (l2_Seq s) /\ agree (viewOf s) (upTo cs (l2_Seq s)).

Definition viewAt (cs : list Level2Change) (n : option Z) (view : option level2View) : Prop :=
  match n with
  | None => view = None
  | Some n => inRange cs n /\ exists w, view = Some w /\ agree w (upTo cs n)
  end.

Lemma sees_view cs n msgs n' : sees (histOf cs) (inRange cs) (rightSnapshot cs) n msgs n' ->
  forall view, viewAt cs n view -> viewAt cs n' (foldl viewMessage view msgs).
Proof.
  induction 1 as [n|n s m msgs n' [Hr Hag] [Eb Ea] _ IH|n k m msgs n' Em Hr _ IH]; intros view Hview; simpl; [done| |].
  - apply IH. split; [done|]. eexists. split; [done|]. rewrite Eb, Ea. exact Hag.
  - apply IH. destruct Hview as (Hn & w & -> & Hw). split; [done|]. eexists. split; [done|]. rewrite Em, applyRows_changes.
    unfold upTo, inRange in *. replace n with (Z.of_nat (Z.to_nat n)) at 1 by lia. rewrite histOf_after by lia.
    replace (Z.to_nat (n + Z.of_nat k)) with (Z.to_nat n + k)%nat by lia.
    rewrite <- take_take_drop. unfold replay. rewrite foldl_app. by apply agree_replay.
Qed.

(** The inputs of a level 2 writer that is fed by the stream. *)
Definition fed (cs : list Level2Change) (i : l2input) : Prop :=
  (in_change i ∈ cs \/ lc_Seq (in_change i) = 0) /\ (forall s, in_snapshot i = Some s -> rightSnapshot cs s).

Lemma fed_input_ok cs n' i : changesTo 0 cs n' -> Z.of_nat (length cs) < i64_half - 1 -> fed cs i ->
  input_ok (histOf cs) (inRange cs) (rightSnapshot cs) i.
Proof.
  intros Hc Hlen [Hch Hs]. assert (Hin : lc_Seq (in_change i) <> 0 -> exists k, cs !! k = Some (in_change i) /\
    lc_Seq (in_change i) = 1 + Z.of_nat k /\ (k < length cs)%nat).
  { intros H0. destruct Hch as [Hch|Hch]; [|done]. apply list_elem_of_lookup in Hch as [k Hk]. exists k. split; [done|].
    split; [|by eapply lookup_lt_Some]. apply (changesTo_seq _ _ _ _ _ Hc) in Hk; lia. }
  split; [|split].
  - destruct (decide (lc_Seq (in_change i) = 0)) as [->|H0]; [done|]. destruct (Hin H0) as (k & _ & Ek & Hk). unfold countable. lia.
  - intros H0. destruct (Hin H0) as (k & Hk & Ek & Hlt). rewrite Ek. unfold histOf, inRange. split; [|lia].
    replace (Z.to_nat (1 + Z.of_nat k - 1)) with k by lia. by rewrite Hk.
  - intros s Es. split; [|by apply Hs]. destruct (Hs s Es) as [Hr _]. unfold inRange, countable in *. lia.
Qed.

(** The view of a client that is fed so is that of all changes up to a number. *)
Lemma fed_view cs n' ins : changesTo 0 cs n' -> Z.of_nat (length cs) < i64_half - 1 -> Forall (fed cs) ins -> calm freshL2 ins ->
  exists n, viewAt cs n (clientView (l2Run freshL2 ins).2) /\ state_ok (histOf cs) (l2Run freshL2 ins).1 n.
Proof.
  intros Hc Hlen Hins Hcalm.
  destruct (l2Run_sees (histOf cs) (inRange cs) (rightSnapshot cs) ins freshL2 None) as (n & Hsees & Hst); [|apply freshL2_ok|done|].
  - eapply Forall_impl; [exact Hins|]. intros i. by apply fed_input_ok with n'.
  - exists n. split; [by eapply sees_view|done].
Qed.
End Client.
