(* ===== verification/HubRun.v ===== *)
(** The push server's clients and streams together: every interleaving of their
    steps, as a run of [hubStep].

    An event is one atomic step of one goroutine: what [Client.subscribe],
    [unsubscribe] and [close] do under the client's mutex, one send of a reader,
    a [publish], a step of a client's writers, a store of a stream in the
    package's variables.  [HubAccess.onMessage_runs] shows that a request is a
    run of such steps.  A [publish] and a [close] are one step each here;
    [Publishing] takes them apart. *)
From S2P Require Import Prelude Decimal Models PushBook Messages Hub.
From stdpp Require Import gmap strings list.
Open Scope string_scope.
Open Scope list_scope.
Open Scope Z_scope.

Inductive hubEvent :=
| EvConnect (id : Z)
| EvSubscribe (id : Z) (channel : string)
| EvUnsubscribe (id : Z) (channel : string)
| EvClose (id : Z)
| EvAsk (id : Z) (productId : string)
| EvTicker (id : Z) (ref : Z)
| EvPublish (channel : string) (msg : Message)
| EvWrite (id : Z)
| EvLevel2 (id : Z)
| EvSetLevel2 (productId : string) (snapshot : OrderBookLevel2Snapshot)
| EvSetTicker (productId : string) (ref : Z) (ticker : TickerMessage).

Definition newHub : hub := {|
  h_subscribers := newSubscription; h_clients := ∅; h_lastLevel2Snapshots := ∅; h_lastTickers := ∅; h_tickers := ∅ |}.

(** A step of one client's goroutines. *)
Definition clientStep (h : hub) (id : Z) (f : Client -> outcome blocked Client) : outcome blocked hub :=
  withClient h id (fun c => c ← f c; mret (h_update h id c)).

Definition askStep (productId : string) (c : Client) : outcome blocked Client :=
  ch ← send l2ChangeChannelSize (c_l2ChangeCh c) (askSnapshot productId); mret (c_setL2ChangeCh c ch).
Definition tickerStep (ref : Z) (c : Client) : outcome blocked Client :=
  ch ← send writeChannelSize (c_writeCh c) (MTicker ref); mret (c_setWriteCh c ch).

Definition hubStep (ev : hubEvent) (h : hub) : outcome blocked hub :=
  match ev with
  | EvConnect id => if decide (h_clients h !! id = None) then mret (addClient h id) else Err Blocked
  | EvSubscribe id channel => subscribeOnly h id channel
  | EvUnsubscribe id channel => unsubscribeOnly h id channel
  | EvClose id => withClient h id (fun c => mret (close h id c))
  | EvAsk id productId => clientStep h id (askStep productId)
  | EvTicker id ref => clientStep h id (tickerStep ref)
  | EvPublish channel msg => mret (publish h channel msg)
  | EvWrite id => clientStep h id (writeStep (h_tickers h))
  | EvLevel2 id => clientStep h id (l2Step (h_lastLevel2Snapshots h))
  | EvSetLevel2 productId snapshot => mret (h_setLevel2 h productId snapshot)
  | EvSetTicker productId ref ticker => mret (h_setTicker h productId ref ticker)
  end.

Fixpoint hubRun (h : hub) (evs : list hubEvent) : outcome blocked hub :=
  match evs with [] => mret h | ev :: evs => h ← hubStep ev h; hubRun h evs end.

Lemma hubRun_app h l1 l2 : hubRun h (l1 ++ l2) = (h ← hubRun h l1; hubRun h l2).
Proof. revert h. induction l1 as [|ev l1 IH]; intros h; simpl; [done|]. destruct (hubStep ev h); go_red; [apply IH|done..]. Qed.

Lemma hubRun_snoc h l ev h' : hubRun h (l ++ [ev]) = Ok h' -> exists h1, hubRun h l = Ok h1 /\ hubStep ev h1 = Ok h'.
Proof.
  rewrite hubRun_app. intros (h1 & -> & E)%bind_Ok. exists h1. split; [done|]. simpl in E.
  apply bind_Ok in E as (h2 & -> & [= ->]). done.
Qed.

Lemma withClient_Ok {A} h id (f : Client -> outcome blocked A) r :
  withClient h id f = Ok r -> exists c, h_clients h !! id = Some c /\ f c = Ok r.
Proof. unfold withClient. destruct (h_clients h !! id) as [c|]; [by exists c|done]. Qed.

Lemma clientStep_Ok h id f h' : clientStep h id f = Ok h' ->
  exists c c', h_clients h !! id = Some c /\ f c = Ok c' /\ h' = h_update h id c'.
Proof.
  intros (c & Hc & E)%withClient_Ok. apply bind_Ok in E as (c' & E & [= <-]). by exists c, c'.
Qed.

(** ** The subscriptions *)

Definition inChannel (s : subscription) (id : Z) (channel : string) : Prop :=
  exists ids, s !! channel = Some ids /\ id ∈ ids.

Definition client_ok (c : Client) : Prop :=
  Z.of_nat (length (c_writeCh c)) <= writeChannelSize /\ Z.of_nat (length (c_l2ChangeCh c)) <= l2ChangeChannelSize.

Lemma inChannel_ids s i ch : inChannel s i ch <-> i ∈ default (∅ : gset Z) (s !! ch).
Proof. unfold inChannel. destruct (s !! ch) as [ids|]; simpl; [naive_solver|]. split; [by intros (? & ? & _)|set_solver]. Qed.

Lemma sub_subscribe_in s id channel i ch :
  inChannel (sub_subscribe s channel id).2 i ch <-> inChannel s i ch \/ (i = id /\ ch = channel).
Proof.
  rewrite !inChannel_ids. unfold sub_subscribe. destruct (decide (id ∈ _)) as [Hin|Hin]; simpl.
  all: destruct (decide (ch = channel)) as [->|Hne]; [rewrite lookup_insert_eq|rewrite lookup_insert_ne by done]; simpl.
  - split; [by left|]. by intros [?|[-> _]].
  - split; [by left|]. by intros [?|[_ ?]].
  - set_solver.
  - split; [by left|]. by intros [?|[_ ?]].
Qed.

Lemma sub_unsubscribe_in s id channel i ch :
  inChannel (sub_unsubscribe s channel id).2 i ch <-> inChannel s i ch /\ ~ (i = id /\ ch = channel).
Proof.
  rewrite !inChannel_ids. unfold sub_unsubscribe. destruct (s !! channel) as [ids|] eqn:E; [destruct (decide (id ∈ ids)) as [Hin|Hin]|]; simpl.
  - destruct (decide (ch = channel)) as [->|Hne]; [rewrite lookup_insert_eq, E|rewrite lookup_insert_ne by done]; simpl; [set_solver|].
    split; [|by intros [? _]]. intros H. split; [done|]. by intros [_ ?].
  - split; [|by intros [? _]]. intros H. split; [done|]. intros [-> ->]. rewrite E in H. done.
  - split; [|by intros [? _]]. intros H. split; [done|]. intros [-> ->]. rewrite E in H. set_solver.
Qed.

Lemma close_in h id c i ch : inChannel (h_subscribers (close h id c)) i ch <->
  inChannel (h_subscribers h) i ch /\ ~ (i = id /\ ch ∈ c_channels c).
Proof.
  unfold close. simpl.
  apply (set_fold_ind_L (fun s X => inChannel s i ch <-> inChannel (h_subscribers h) i ch /\ ~ (i = id /\ ch ∈ X))).
  - split; [|by intros [? _]]. intros H. split; [done|]. intros [_ Hch]. by apply not_elem_of_empty in Hch.
  - intros channel X s Hn IH. rewrite sub_unsubscribe_in, IH, elem_of_union, elem_of_singleton. tauto.
Qed.

Lemma sub_subscribe_ok s id channel : (sub_subscribe s channel id).1 = true <-> ~ inChannel s id channel.
Proof. rewrite inChannel_ids. unfold sub_subscribe. destruct (decide (id ∈ _)); simpl; [|done]. split; [done|]. intros H. by destruct H. Qed.

Lemma sub_unsubscribe_ok s id channel : (sub_unsubscribe s channel id).1 = true <-> inChannel s id channel.
Proof.
  rewrite inChannel_ids. unfold sub_unsubscribe. destruct (s !! channel) as [ids|]; simpl; [|split; [done|set_solver]].
  by destruct (decide (id ∈ ids)).
Qed.

(** *** The steps that leave the subscriptions as they are *)

(** The clients keep their channels, and their queues are bounded. *)
Definition same_channels (cs cs' : gmap Z Client) : Prop :=
  forall id, option_Forall2 (fun c c' => c_channels c = c_channels c' /\ (client_ok c -> client_ok c')) (cs !! id) (cs' !! id).

Lemma same_channels_refl cs : same_channels cs cs.
Proof. intros id. destruct (cs !! id); by constructor. Qed.

Lemma same_channels_update cs id c c' : cs !! id = Some c -> c_channels c = c_channels c' -> (client_ok c -> client_ok c') ->
  same_channels cs (<[id := c']> cs).
Proof.
  intros Hid Hch Hok i. destruct (decide (i = id)) as [->|Hne].
  - rewrite lookup_insert_eq, Hid. by constructor.
  - rewrite lookup_insert_ne by done. apply same_channels_refl.
Qed.

Lemma offer_ok c msg : c_channels c = c_channels (offer c msg) /\ (client_ok c -> client_ok (offer c msg)).
Proof.
  unfold offer, client_ok, writeChannelSize. case_bool; [|done]. simpl. rewrite length_app. simpl. split; [done|lia].
Qed.

Lemma publish_same h channel msg : same_channels (h_clients h) (h_clients (publish h channel msg)).
Proof.
  unfold publish. destruct (h_subscribers h !! channel) as [ids|]; [|apply same_channels_refl].
  intros id. simpl. unfold publishTo. rewrite map_lookup_imap. destruct (h_clients h !! id) as [c|]; constructor.
  destruct (decide (id ∈ ids)); [apply offer_ok|done].
Qed.

Lemma send_length {A} cap (ch ch' : list A) x : send cap ch x = Ok ch' -> Z.of_nat (length ch') <= cap.
Proof. unfold send. destruct (Z.ltb_spec (Z.of_nat (length ch)) cap); [|done]. intros [= <-]. rewrite length_app. simpl. lia. Qed.

Lemma recv_Ok {A} (ch ch' : list A) x : recv ch = Ok (x, ch') -> ch = x :: ch'.
Proof. destruct ch; [done|]. by intros [= -> ->]. Qed.


(** ** The steps of a client's goroutines *)

(** A step of a client's own that keeps its channels and its queues bounded. *)
Definition keeps (f : Client -> outcome blocked Client) : Prop :=
  forall c c', f c = Ok c' -> c_channels c = c_channels c' /\ (client_ok c -> client_ok c').

Lemma askStep_keeps pid : keeps (askStep pid).
Proof. intros c c' (ch & Hs & [= <-])%bind_Ok. split; [done|]. intros [? _]. split; [done|]. by apply send_length in Hs. Qed.

Lemma tickerStep_keeps ref : keeps (tickerStep ref).
Proof. intros c c' (ch & Hs & [= <-])%bind_Ok. split; [done|]. intros [_ ?]. split; [|done]. by apply send_length in Hs. Qed.

Lemma writeStep_keeps tickers : keeps (writeStep tickers).
Proof.
  intros c c'. unfold writeStep. destruct (c_forwarding c) as [l|].
  - intros (ch & Hs & [= <-])%bind_Ok. split; [done|]. intros [? _]. split; [done|]. by apply send_length in Hs.
  - intros ([msg ch] & Hr%recv_Ok & E)%bind_Ok.
    assert (c_channels c' = c_channels c /\ c_writeCh c' = ch /\ c_l2ChangeCh c' = c_l2ChangeCh c) as (-> & E1 & E2).
    { destruct msg; simpl in E; try (by injection E as <-). apply bind_Ok in E as (t & _ & [= <-]). done. }
    split; [done|]. unfold client_ok. rewrite E1, E2, Hr. simpl. lia.
Qed.

Lemma l2Step_keeps snapshots : keeps (l2Step snapshots).
Proof.
  intros c c'. unfold l2Step. destruct (c_pushing c) as [|msg msgs]; [destruct (c_asking c) as [l|]|].
  - intros (ch & Hs & [= <-])%bind_Ok. split; [done|]. intros [? _]. split; [done|]. by apply send_length in Hs.
  - intros ([l ch] & Hr%recv_Ok & E)%bind_Ok. destruct (l2Handle _ _ _ _) as [[st msgs] ask]. injection E as <-.
    split; [done|]. unfold client_ok. simpl. rewrite Hr. simpl. lia.
  - intros (ch & Hs & [= <-])%bind_Ok. split; [done|]. intros [_ ?]. split; [|done]. by apply send_length in Hs.
Qed.
