(* ===== verification/Publishing.v ===== *)
(** Publishing as the goroutines of the push server do it: [publish] of
    [src/pushing/subscription.go] and [close] of [client.go], step by step.

    [publish] holds the read lock of the subscription from its first to its last
    step, so several can run at once.  It goes through the clients of its
    channel; of each it first reads how many messages are queued and then, if
    that was fewer than the queue takes, sends, and the send waits if the queue
    has become full in between.  [subscribe] and [unsubscribe] of the
    subscription need the write lock and so wait until no publish is running;
    [close] takes it anew for every channel of its client, and holds the mutex
    of the client all the time.  A server is the hub with the publishes and the
    closings that are under way; its runs are the interleavings of all of them
    with the steps of [HubRun].  [server_ok] ties its state to what the history
    says of every client and channel. *)
From S2P Require Import Prelude Decimal Models PushBook Messages Hub HubRun.
From stdpp Require Import gmap strings list.
Open Scope string_scope.
Open Scope list_scope.
Open Scope Z_scope.

(** A running [publish]: the clients it has still to visit, the one it has found
    room at and is sending to; and, for the theorems, those it has sent to and
    those it has passed over. *)
Record publisher := {
  pu_channel : string;
  pu_msg : Message;
  pu_todo : list Z;
  pu_sending : option Z;
  pu_sent : list Z;
  pu_skipped : list Z;
}.

(** The hub, the publishes that hold the read lock, and the channels that the
    clients being closed have still to leave. *)
Record server := { sv_hub : hub; sv_publishers : gmap Z publisher; sv_closing : gmap Z (gset string) }.

Definition newServer : server := {| sv_hub := newHub; sv_publishers := ∅; sv_closing := ∅ |}.

Definition sv_setHub (s : server) (h : hub) : server := {| sv_hub := h; sv_publishers := sv_publishers s; sv_closing := sv_closing s |}.
Definition sv_setPublisher (s : server) p u : server := {|
  sv_hub := sv_hub s; sv_publishers := <[p := u]> (sv_publishers s); sv_closing := sv_closing s |}.
Definition sv_setClosing (s : server) cl : server := {| sv_hub := sv_hub s; sv_publishers := sv_publishers s; sv_closing := cl |}.

Definition subscribersOf (h : hub) (channel : string) : gset Z := default ∅ (h_subscribers h !! channel).

(** The write lock can be taken. *)
Definition unlocked (s : server) : bool := bool_decide (sv_publishers s = ∅).

Definition withPublisher (s : server) (p : Z) (f : publisher -> outcome blocked server) : outcome blocked server :=
  match sv_publishers s !! p with Some u => f u | None => Err Blocked end.

(** [s.mu.RLock()] and the start of the loop, in the order [order] of the map. *)
Definition publishStart (p : Z) (channel : string) (msg : Message) (order : list Z) (s : server) : outcome blocked server :=
  if bool_decide (sv_publishers s !! p = None) && bool_decide (NoDup order) &&
     bool_decide (list_to_set order = subscribersOf (sv_hub s) channel)
  then mret (sv_setPublisher s p {| pu_channel := channel; pu_msg := msg; pu_todo := order; pu_sending := None; pu_sent := []; pu_skipped := [] |})
  else Err Blocked.

(** [if len(c.writeCh) < writeChannelSize] *)
Definition publishTest (p : Z) (s : server) : outcome blocked server :=
  withPublisher s p (fun u =>
    match pu_sending u, pu_todo u with
    | None, id :: todo =>
        withClient (sv_hub s) id (fun c =>
          mret (sv_setPublisher s p
            (if Z.of_nat (length (c_writeCh c)) <? writeChannelSize then
               {| pu_channel := pu_channel u; pu_msg := pu_msg u; pu_todo := todo; pu_sending := Some id;
                  pu_sent := pu_sent u; pu_skipped := pu_skipped u |}
             else
               {| pu_channel := pu_channel u; pu_msg := pu_msg u; pu_todo := todo; pu_sending := None;
                  pu_sent := pu_sent u; pu_skipped := pu_skipped u ++ [id] |})))
    | _, _ => Err Blocked
    end).

(** [c.writeCh <- msg] *)
Definition publishSend (p : Z) (s : server) : outcome blocked server :=
  withPublisher s p (fun u =>
    match pu_sending u with
    | Some id =>
        withClient (sv_hub s) id (fun c =>
          ch ← send writeChannelSize (c_writeCh c) (pu_msg u);
          mret (sv_setPublisher (sv_setHub s (h_update (sv_hub s) id (c_setWriteCh c ch))) p
            {| pu_channel := pu_channel u; pu_msg := pu_msg u; pu_todo := pu_todo u; pu_sending := None;
               pu_sent := pu_sent u ++ [id]; pu_skipped := pu_skipped u |}))
    | None => Err Blocked
    end).

(** [defer s.mu.RUnlock()] *)
Definition publishReturn (p : Z) (s : server) : outcome blocked server :=
  withPublisher s p (fun u =>
    match pu_sending u, pu_todo u with
    | None, [] => mret {| sv_hub := sv_hub s; sv_publishers := delete p (sv_publishers s); sv_closing := sv_closing s |}
    | _, _ => Err Blocked
    end).

(** [close]: it takes the client's mutex, ... *)
Definition closeStart (id : Z) (s : server) : outcome blocked server :=
  withClient (sv_hub s) id (fun c =>
    if bool_decide (sv_closing s !! id = None) then mret (sv_setClosing s (<[id := c_channels c]> (sv_closing s))) else Err Blocked).

(** ... leaves the channels of the client one by one ... *)
Definition closeLeave (id : Z) (channel : string) (s : server) : outcome blocked server :=
  match sv_closing s !! id with
  | Some channels =>
      if bool_decide (channel ∈ channels) && unlocked s then
        mret (sv_setClosing (sv_setHub s (h_setSubscribers (sv_hub s) (sub_unsubscribe (h_subscribers (sv_hub s)) channel id).2))
                (<[id := channels ∖ {[channel]}]> (sv_closing s)))
      else Err Blocked
  | None => Err Blocked
  end.

(** ... and gives the mutex back. *)
Definition closeEnd (id : Z) (s : server) : outcome blocked server :=
  match sv_closing s !! id with
  | Some channels => if bool_decide (channels = ∅) then mret (sv_setClosing s (delete id (sv_closing s))) else Err Blocked
  | None => Err Blocked
  end.

(** The client's book-keeping has the channel, so [Client.subscribe] returns
    before it needs the lock. *)
Definition known (h : hub) (id : Z) (channel : string) : bool :=
  match h_clients h !! id with Some c => bool_decide (channel ∈ c_channels c) | None => false end.

(** The locks an atomic step needs: the client's mutex and the write lock. *)
Definition mayRun (s : server) (ev : hubEvent) : bool :=
  match ev with
  | EvSubscribe id channel => bool_decide (sv_closing s !! id = None) && (known (sv_hub s) id channel || unlocked s)
  | EvUnsubscribe id _ => bool_decide (sv_closing s !! id = None) && unlocked s
  | EvPublish _ _ | EvClose _ => false
  | _ => true
  end.

Inductive serverEvent :=
| SvHub (ev : hubEvent)
| SvPublish (p : Z) (channel : string) (msg : Message) (order : list Z)
| SvTest (p : Z)
| SvSend (p : Z)
| SvReturn (p : Z)
| SvClose (id : Z)
| SvLeave (id : Z) (channel : string)
| SvClosed (id : Z).

Definition serverStep (ev : serverEvent) (s : server) : outcome blocked server :=
  match ev with
  | SvHub ev => if mayRun s ev then h ← hubStep ev (sv_hub s); mret (sv_setHub s h) else Err Blocked
  | SvPublish p channel msg order => publishStart p channel msg order s
  | SvTest p => publishTest p s
  | SvSend p => publishSend p s
  | SvReturn p => publishReturn p s
  | SvClose id => closeStart id s
  | SvLeave id channel => closeLeave id channel s
  | SvClosed id => closeEnd id s
  end.

Fixpoint serverRun (s : server) (evs : list serverEvent) : outcome blocked server :=
  match evs with [] => mret s | ev :: evs => s ← serverStep ev s; serverRun s evs end.

Lemma serverRun_app s l1 l2 : serverRun s (l1 ++ l2) = (s ← serverRun s l1; serverRun s l2).
Proof. revert s. induction l1 as [|ev l1 IH]; intros s; simpl; [done|]. destruct (serverStep ev s); go_red; [apply IH|done..]. Qed.

Lemma serverRun_snoc s l ev s' : serverRun s (l ++ [ev]) = Ok s' -> exists s1, serverRun s l = Ok s1 /\ serverStep ev s1 = Ok s'.
Proof.
  rewrite serverRun_app. intros (s1 & -> & E)%bind_Ok. exists s1. split; [done|]. simpl in E.
  by apply bind_Ok in E as (s2 & -> & [= ->]).
Qed.

(** ** What the history says of a client and a channel *)

(** A client is no member of a channel, or a member, or was one when it was
    closed; then [c.channels] keeps the channel, and it can never come back. *)
Inductive membership := Outside | Member | Closed.
#[export] Instance membership_eq_dec : EqDecision membership.
Proof. solve_decision. Defined.

Definition memberNext (id : Z) (channel : string) (was : membership) (ev : serverEvent) : membership :=
  match ev with
  | SvHub (EvSubscribe i ch) =>
      if decide (i = id /\ ch = channel) then match was with Outside => Member | _ => was end else was
  | SvHub (EvUnsubscribe i ch) =>
      if decide (i = id /\ ch = channel) then match was with Member => Outside | _ => was end else was
  | SvLeave i ch =>
      if decide (i = id /\ ch = channel) then match was with Member => Closed | _ => was end else was
  | _ => was
  end.
Definition memberAfter (evs : list serverEvent) (id : Z) (channel : string) : membership :=
  foldl (memberNext id channel) Outside evs.

Lemma memberAfter_snoc evs ev id channel : memberAfter (evs ++ [ev]) id channel = memberNext id channel (memberAfter evs id channel) ev.
Proof. unfold memberAfter. by rewrite foldl_app. Qed.

(** ** The invariant *)

(** The clients a publish has visited or will visit. *)
Definition covered (u : publisher) : list Z := pu_sent u ++ pu_skipped u ++ option_list (pu_sending u) ++ pu_todo u.

Record hub_ok (mem : Z -> string -> membership) (h : hub) : Prop := {
  hk_subs id channel : inChannel (h_subscribers h) id channel <-> mem id channel = Member;
  hk_known id channel : mem id channel <> Outside -> is_Some (h_clients h !! id);
  hk_channels id c channel : h_clients h !! id = Some c -> (channel ∈ c_channels c <-> mem id channel <> Outside);
  hk_queues : map_Forall (fun _ => client_ok) (h_clients h);
}.

Definition publisher_ok (mem : Z -> string -> membership) (u : publisher) : Prop :=
  NoDup (covered u) /\ forall id, id ∈ covered u <-> mem id (pu_channel u) = Member.

Record server_ok (mem : Z -> string -> membership) (s : server) : Prop := {
  so_hub : hub_ok mem (sv_hub s);
  so_publishers : map_Forall (fun _ => publisher_ok mem) (sv_publishers s);
}.

Lemma newServer_ok : server_ok (memberAfter []) newServer.
Proof.
  split; [split; simpl|apply map_Forall_empty].
  - intros id channel. split; [|done]. intros (ids & E & _). unfold newSubscription in E. by rewrite lookup_empty in E.
  - done.
  - intros id c channel E. by rewrite lookup_empty in E.
  - apply map_Forall_empty.
Qed.

Lemma hub_ok_ext mem mem' h : (forall id channel, mem' id channel = mem id channel) -> hub_ok mem h -> hub_ok mem' h.
Proof. intros E [H1 H2 H3 H4]. split; intros *; rewrite ?E; [apply H1|apply H2|apply H3|apply H4]. Qed.

Lemma publishers_ext mem mem' (us : gmap Z publisher) : (forall id channel, mem' id channel = mem id channel) ->
  map_Forall (fun _ => publisher_ok mem) us -> map_Forall (fun _ => publisher_ok mem') us.
Proof. intros E H p u Hu. destruct (H p u Hu) as [H1 H2]. split; [done|]. intros id. by rewrite E. Qed.

(** *** Steps that change no membership *)

Lemma hub_ok_same mem h h' : hub_ok mem h -> h_subscribers h' = h_subscribers h -> same_channels (h_clients h) (h_clients h') ->
  hub_ok mem h'.
Proof.
  intros [Hs Hk Hc Hq] Es Hsame. split.
  - intros. by rewrite Es.
  - intros id channel [c Hid]%Hk. specialize (Hsame id). rewrite Hid in Hsame. inversion Hsame; subst. by eexists.
  - intros id c' channel Hid. specialize (Hsame id). rewrite Hid in Hsame. inversion Hsame as [c ? [Ech _] E|]; subst. rewrite <- Ech. by apply Hc.
  - intros id c' Hid. specialize (Hsame id). rewrite Hid in Hsame. inversion Hsame as [c ? [_ E] E1|]; subst. apply E, (Hq id). done.
Qed.

Lemma clientStep_ok mem h id f h' : hub_ok mem h -> keeps f -> clientStep h id f = Ok h' -> hub_ok mem h'.
Proof.
  intros Hok Hf (c & c' & Hid & E & ->)%clientStep_Ok. destruct (Hf _ _ E) as [H1 H2].
  apply (hub_ok_same mem h); [done..|]. by apply (same_channels_update _ id c).
Qed.

Lemma addClient_ok mem h id : hub_ok mem h -> h_clients h !! id = None -> hub_ok mem (addClient h id).
Proof.
  intros [Hs Hk Hc Hq] Hnone. split; [done|..].
  - intros i channel [c Hi]%Hk. simpl. rewrite lookup_insert_ne by congruence. by eexists.
  - intros i c channel. simpl. destruct (decide (i = id)) as [->|]; [rewrite lookup_insert_eq|rewrite lookup_insert_ne by done; apply Hc].
    intros [= <-]. split; [set_solver|]. intros [c Hi]%Hk. congruence.
  - apply map_Forall_insert_2; [|done]. split; simpl; unfold writeChannelSize, l2ChangeChannelSize; lia.
Qed.

(** *** Steps that change a membership *)

Definition after (mem : Z -> string -> membership) (ev : serverEvent) (id : Z) (channel : string) : membership :=
  memberNext id channel (mem id channel) ev.

(** A client's [channels], replaced. *)
Lemma hub_ok_channels mem mem' h id c channels subs : hub_ok mem h -> h_clients h !! id = Some c ->
  (forall i ch, inChannel subs i ch <-> mem' i ch = Member) -> (forall i ch, i <> id -> mem' i ch = mem i ch) ->
  (forall ch, ch ∈ channels <-> mem' id ch <> Outside) ->
  hub_ok mem' (h_update (h_setSubscribers h subs) id (c_setChannels c channels)).
Proof.
  intros [Hs Hk Hc Hq] Hid Hsubs Hother Hch. split; simpl; [exact Hsubs|..].
  - intros i ch. destruct (decide (i = id)) as [->|]; [by rewrite lookup_insert_eq; eexists|rewrite lookup_insert_ne by done].
    rewrite Hother by done. apply Hk.
  - intros i c' ch. destruct (decide (i = id)) as [->|]; [rewrite lookup_insert_eq; intros [= <-]; apply Hch|].
    rewrite lookup_insert_ne by done. rewrite Hother by done. apply Hc.
  - apply map_Forall_insert_2; [|done]. exact (Hq id c Hid).
Qed.

Lemma subscribe_ok mem h id channel c : hub_ok mem h -> h_clients h !! id = Some c ->
  hub_ok (after mem (SvHub (EvSubscribe id channel))) (subscribe h id c channel).2.
Proof.
  intros Hok Hid. pose proof Hok as [Hs Hk Hc Hq]. unfold subscribe, after. destruct (decide (channel ∈ c_channels c)) as [Hin|Hin]; simpl.
  - eapply hub_ok_ext; [|exact Hok]. intros i ch. simpl. destruct (decide _) as [[<- <-]|]; [|done].
    apply (Hc id c) in Hin; [|done]. by destruct (mem id channel).
  - assert (Hout : mem id channel = Outside).
    { destruct (decide (mem id channel = Outside)) as [|Hne]; [done|]. exfalso. by apply Hin, (Hc id c). }
    pose proof (sub_subscribe_in (h_subscribers h) id channel) as Hsi. pose proof (sub_subscribe_ok (h_subscribers h) id channel) as Hsok.
    destruct (sub_subscribe (h_subscribers h) channel id) as [ok subs]. simpl in Hsi, Hsok.
    assert (ok = true) as -> by (apply Hsok; rewrite Hs; congruence). apply (hub_ok_channels mem _ h id c); [done..| | |].
    + intros i ch. rewrite Hsi, Hs. simpl. destruct (decide _) as [[<- <-]|Hne]; [rewrite Hout; naive_solver|naive_solver].
    + intros i ch Hne. simpl. by rewrite decide_False by naive_solver.
    + intros ch. simpl. rewrite elem_of_union, elem_of_singleton, (Hc id c ch Hid).
      destruct (decide _) as [[_ <-]|Hne]; [rewrite Hout; naive_solver|naive_solver].
Qed.

Lemma unsubscribe_ok mem h id channel c : hub_ok mem h -> h_clients h !! id = Some c ->
  hub_ok (after mem (SvHub (EvUnsubscribe id channel))) (unsubscribe h id c channel).
Proof.
  intros Hok Hid. pose proof Hok as [Hs Hk Hc Hq]. unfold unsubscribe, after.
  pose proof (sub_unsubscribe_in (h_subscribers h) id channel) as Hsi. pose proof (sub_unsubscribe_ok (h_subscribers h) id channel) as Hsok.
  destruct (sub_unsubscribe (h_subscribers h) channel id) as [ok subs]. simpl in Hsi, Hsok. rewrite (Hs id channel) in Hsok.
  assert (Hsubs : forall i ch, inChannel subs i ch <-> memberNext i ch (mem i ch) (SvHub (EvUnsubscribe id channel)) = Member).
  { intros i ch. rewrite Hsi, Hs. simpl. destruct (decide _) as [[<- <-]|Hne]; [|naive_solver]. destruct (mem id channel); naive_solver. }
  destruct ok.
  - assert (Hmem : mem id channel = Member) by (by apply Hsok). apply (hub_ok_channels mem _ h id c); [done..| |].
    + intros i ch Hne. simpl. by rewrite decide_False by naive_solver.
    + intros ch. simpl. rewrite elem_of_difference, elem_of_singleton, (Hc id c ch Hid).
      destruct (decide _) as [[_ <-]|Hne]; [rewrite Hmem; naive_solver|naive_solver].
  - assert (Hext : forall i ch, memberNext i ch (mem i ch) (SvHub (EvUnsubscribe id channel)) = mem i ch).
    { intros i ch. simpl. destruct (decide _) as [[<- <-]|]; [|done]. destruct (mem id channel); try done. by discriminate (proj2 Hsok eq_refl). }
    split; [exact Hsubs|..]; intros *; rewrite ?Hext; [apply Hk|apply Hc|apply Hq].
Qed.

Lemma leave_ok mem h id channel : hub_ok mem h ->
  hub_ok (after mem (SvLeave id channel)) (h_setSubscribers h (sub_unsubscribe (h_subscribers h) channel id).2).
Proof.
  intros [Hs Hk Hc Hq].
  assert (Hout : forall i ch, memberNext i ch (mem i ch) (SvLeave id channel) <> Outside <-> mem i ch <> Outside).
  { intros i ch. simpl. destruct (decide _) as [[<- <-]|]; [|done]. by destruct (mem id channel). }
  unfold after. split; simpl h_subscribers; simpl h_clients.
  - intros i ch. rewrite sub_unsubscribe_in, Hs. simpl. destruct (decide _) as [[<- <-]|Hne]; [|naive_solver]. destruct (mem id channel); naive_solver.
  - intros i ch. rewrite Hout. apply Hk.
  - intros i c ch. rewrite Hout. apply Hc.
  - exact Hq.
Qed.

(** *** Every step *)

(** The write lock keeps the members as they are while something is published. *)
Lemma unlocked_ok s mem : unlocked s = true -> map_Forall (fun _ => publisher_ok mem) (sv_publishers s).
Proof. intros ->%bool_decide_eq_true. apply map_Forall_empty. Qed.

Lemma publisher_update mem (us : gmap Z publisher) p u u' : map_Forall (fun _ => publisher_ok mem) us -> us !! p = Some u ->
  pu_channel u' = pu_channel u -> covered u' ≡ₚ covered u -> map_Forall (fun _ => publisher_ok mem) (<[p := u']> us).
Proof.
  intros H Hu Ech Ecov. apply map_Forall_insert_2; [|done]. destruct (H p u Hu) as [Hnd Hmem]. split; [by rewrite Ecov|].
  intros id. by rewrite Ecov, Ech.
Qed.

Lemma hubStep_ok mem ev s h : server_ok mem s -> mayRun s ev = true -> hubStep ev (sv_hub s) = Ok h ->
  server_ok (after mem (SvHub ev)) (sv_setHub s h).
Proof.
  intros [Hok Hp] Hmay E. pose proof Hok as [_ _ Hc _].
  assert (Hplain : (forall i ch b, memberNext i ch b (SvHub ev) = b) -> hub_ok mem h -> server_ok (after mem (SvHub ev)) (sv_setHub s h)).
  { intros Hn Hh. split; [eapply hub_ok_ext; [|exact Hh]|eapply publishers_ext; [|exact Hp]]; intros; apply Hn. }
  destruct ev; simpl in E, Hmay; try done.
  - destruct (decide _) as [Hnone|]; [|done]. injection E as <-. apply Hplain; [done|]. by apply addClient_ok.
  - apply withClient_Ok in E as (c & Hid & [= <-]). split; [by apply subscribe_ok|].
    apply andb_true_iff in Hmay as [_ [Hkn|Hun]%orb_true_iff]; [|by apply unlocked_ok].
    eapply publishers_ext; [|exact Hp]. unfold known in Hkn. rewrite Hid in Hkn. apply bool_decide_eq_true in Hkn. apply (Hc id c) in Hkn; [|done].
    intros i ch. unfold after. simpl. destruct (decide _) as [[<- <-]|]; [|done]. by destruct (mem id channel).
  - apply withClient_Ok in E as (c & Hid & [= <-]). split; [by apply unsubscribe_ok|].
    apply andb_true_iff in Hmay as [_ Hun]. by apply unlocked_ok.
  - apply Hplain; [done|]. by eapply clientStep_ok; [..|exact E]; [|apply askStep_keeps].
  - apply Hplain; [done|]. by eapply clientStep_ok; [..|exact E]; [|apply tickerStep_keeps].
  - apply Hplain; [done|]. by eapply clientStep_ok; [..|exact E]; [|apply writeStep_keeps].
  - apply Hplain; [done|]. by eapply clientStep_ok; [..|exact E]; [|apply l2Step_keeps].
  - injection E as <-. apply Hplain; [done|]. eapply hub_ok_same; [exact Hok|done|apply same_channels_refl].
  - injection E as <-. apply Hplain; [done|]. eapply hub_ok_same; [exact Hok|done|apply same_channels_refl].
Qed.

Lemma withPublisher_Ok s p f s' : withPublisher s p f = Ok s' -> exists u, sv_publishers s !! p = Some u /\ f u = Ok s'.
Proof. unfold withPublisher. destruct (sv_publishers s !! p) as [u|]; [by exists u|done]. Qed.

Lemma subscribersOf_in h id channel : id ∈ subscribersOf h channel <-> inChannel (h_subscribers h) id channel.
Proof. by rewrite inChannel_ids. Qed.

(** What the three steps of a publish do. *)
Lemma publishStart_Ok p channel msg order s s' : publishStart p channel msg order s = Ok s' ->
  sv_publishers s !! p = None /\ NoDup order /\ (forall id, id ∈ order <-> inChannel (h_subscribers (sv_hub s)) id channel) /\
  s' = sv_setPublisher s p {| pu_channel := channel; pu_msg := msg; pu_todo := order; pu_sending := None; pu_sent := []; pu_skipped := [] |}.
Proof.
  unfold publishStart. intros E. case_bool; [|done]. apply andb_true_iff in Eb as [[H1 H2]%andb_true_iff H3].
  apply bool_decide_eq_true in H1, H2, H3. injection E as <-. split; [done|]. split; [done|]. split; [|done].
  intros id. rewrite <- subscribersOf_in, <- H3. by rewrite elem_of_list_to_set.
Qed.

Lemma publishTest_Ok p s s' : publishTest p s = Ok s' -> exists u id todo c u',
  sv_publishers s !! p = Some u /\ pu_sending u = None /\ pu_todo u = id :: todo /\ h_clients (sv_hub s) !! id = Some c /\
  s' = sv_setPublisher s p u' /\ pu_channel u' = pu_channel u /\ pu_msg u' = pu_msg u /\ pu_todo u' = todo /\ pu_sent u' = pu_sent u /\
  (Z.of_nat (length (c_writeCh c)) < writeChannelSize /\ pu_sending u' = Some id /\ pu_skipped u' = pu_skipped u \/
   writeChannelSize <= Z.of_nat (length (c_writeCh c)) /\ pu_sending u' = None /\ pu_skipped u' = pu_skipped u ++ [id]).
Proof.
  intros (u & Hu & E)%withPublisher_Ok. destruct (pu_sending u) eqn:Es; [done|]. destruct (pu_todo u) as [|id todo] eqn:Et; [done|].
  apply withClient_Ok in E as (c & Hc & [= <-]). exists u, id, todo, c. eexists. do 4 (split; [done|]). split; [reflexivity|].
  destruct (Z.ltb_spec (Z.of_nat (length (c_writeCh c))) writeChannelSize); simpl; naive_solver.
Qed.

Lemma publishSend_Ok p s s' : publishSend p s = Ok s' -> exists u id c,
  sv_publishers s !! p = Some u /\ pu_sending u = Some id /\ h_clients (sv_hub s) !! id = Some c /\
  Z.of_nat (length (c_writeCh c)) < writeChannelSize /\
  s' = sv_setPublisher (sv_setHub s (h_update (sv_hub s) id (c_setWriteCh c (c_writeCh c ++ [pu_msg u])))) p
         {| pu_channel := pu_channel u; pu_msg := pu_msg u; pu_todo := pu_todo u; pu_sending := None;
            pu_sent := pu_sent u ++ [id]; pu_skipped := pu_skipped u |}.
Proof.
  intros (u & Hu & E)%withPublisher_Ok. destruct (pu_sending u) as [id|] eqn:Es; [|done].
  apply withClient_Ok in E as (c & Hc & E). apply bind_Ok in E as (ch & Hs & [= <-]). unfold send in Hs.
  destruct (Z.ltb_spec (Z.of_nat (length (c_writeCh c))) writeChannelSize); [|done]. injection Hs as <-. by exists u, id, c.
Qed.

Lemma publishReturn_Ok p s s' : publishReturn p s = Ok s' -> exists u,
  sv_publishers s !! p = Some u /\ pu_sending u = None /\ pu_todo u = [] /\
  s' = {| sv_hub := sv_hub s; sv_publishers := delete p (sv_publishers s); sv_closing := sv_closing s |}.
Proof.
  intros (u & Hu & E)%withPublisher_Ok. exists u. destruct (pu_sending u); [done|]. destruct (pu_todo u); [|done].
  injection E as <-. done.
Qed.

Lemma serverStep_ok mem ev s s' : server_ok mem s -> serverStep ev s = Ok s' -> server_ok (after mem ev) s'.
Proof.
  intros Hok E. pose proof Hok as [Hh Hp]. destruct ev; simpl in E.
  - case_bool; [|done]. apply bind_Ok in E as (h & E & [= <-]). by apply hubStep_ok.
  - apply publishStart_Ok in E as (_ & Hnd & Hin & ->). split; [exact Hh|]. apply map_Forall_insert_2; [|exact Hp].
    split; [exact Hnd|]. intros id. unfold covered. simpl. rewrite Hin. apply Hh.
  - apply publishTest_Ok in E as (u & id & todo & c & u' & Hu & Es & Et & _ & -> & E1 & E2 & E3 & E4 & E5). split; [exact Hh|].
    eapply publisher_update; [exact Hp|exact Hu|done|]. unfold covered. rewrite E3, E4, Es, Et.
    destruct E5 as [(_ & -> & ->)|(_ & -> & ->)]; simpl; [done|]. by rewrite <- app_assoc.
  - apply publishSend_Ok in E as (u & id & c & Hu & Es & Hc & Hlen & ->). split.
    + simpl. eapply hub_ok_same; [exact Hh|done|]. apply (same_channels_update _ id c); [done|done|].
      unfold client_ok. simpl. rewrite length_app. simpl. lia.
    + eapply publisher_update; [exact Hp|exact Hu|done|]. unfold covered. simpl. rewrite Es. simpl. solve_Permutation.
  - apply publishReturn_Ok in E as (u & _ & _ & _ & ->). split; [exact Hh|]. by apply map_Forall_delete.
  - apply withClient_Ok in E as (c & _ & E). case_bool; [|done]. injection E as <-. by split.
  - unfold closeLeave in E. destruct (sv_closing s !! id); [|done]. case_bool; [|done]. injection E as <-.
    apply andb_true_iff in Eb as [_ Hun]. split; [by apply leave_ok|]. by apply unlocked_ok.
  - unfold closeEnd in E. destruct (sv_closing s !! id); [|done]. case_bool; [|done]. injection E as <-. by split.
Qed.

Lemma serverRun_ok evs : forall s, serverRun newServer evs = Ok s -> server_ok (memberAfter evs) s.
Proof.
  induction evs as [|ev evs IH] using rev_ind; intros s E; [injection E as <-; apply newServer_ok|].
  apply serverRun_snoc in E as (s1 & E1 & E). destruct (serverStep_ok _ _ _ _ (IH s1 E1) E) as [Hh Hp].
  split; [eapply hub_ok_ext; [|exact Hh]|eapply publishers_ext; [|exact Hp]]; intros; apply memberAfter_snoc.
Qed.

(** ** What a publish has done *)

(** At some moment of the run the publish [u] has put its message at the end
    of the queue of the client, which had room, and has changed no other client. *)
Definition wasSent (evs : list serverEvent) (p : Z) (u : publisher) (id : Z) : Prop :=
  exists evs1 evs2 s1 s2 u1 c, evs = evs1 ++ SvSend p :: evs2 /\
    serverRun newServer evs1 = Ok s1 /\ serverStep (SvSend p) s1 = Ok s2 /\
    sv_publishers s1 !! p = Some u1 /\ pu_sending u1 = Some id /\ pu_msg u1 = pu_msg u /\
    h_clients (sv_hub s1) !! id = Some c /\ Z.of_nat (length (c_writeCh c)) < writeChannelSize /\
    h_clients (sv_hub s2) = <[id := c_setWriteCh c (c_writeCh c ++ [pu_msg u])]> (h_clients (sv_hub s1)).

(** At some moment it has come to the client, whose queue was full. *)
Definition wasFull (evs : list serverEvent) (p : Z) (u : publisher) (id : Z) : Prop :=
  exists evs1 evs2 s1 u1 c, evs = evs1 ++ SvTest p :: evs2 /\ serverRun newServer evs1 = Ok s1 /\
    sv_publishers s1 !! p = Some u1 /\ head (pu_todo u1) = Some id /\ pu_msg u1 = pu_msg u /\
    h_clients (sv_hub s1) !! id = Some c /\ writeChannelSize <= Z.of_nat (length (c_writeCh c)).

Definition publisher_did (evs : list serverEvent) (p : Z) (u : publisher) : Prop :=
  (forall id, id ∈ pu_sent u -> wasSent evs p u id) /\ (forall id, id ∈ pu_skipped u -> wasFull evs p u id).

Lemma wasSent_app evs ev p u u' id : pu_msg u' = pu_msg u -> wasSent evs p u id -> wasSent (evs ++ [ev]) p u' id.
Proof.
  intros Em (evs1 & evs2 & s1 & s2 & u1 & c & -> & H). exists evs1, (evs2 ++ [ev]), s1, s2, u1, c. rewrite Em. split; [|exact H].
  by rewrite <- app_assoc.
Qed.
Lemma wasFull_app evs ev p u u' id : pu_msg u' = pu_msg u -> wasFull evs p u id -> wasFull (evs ++ [ev]) p u' id.
Proof.
  intros Em (evs1 & evs2 & s1 & u1 & c & -> & H). exists evs1, (evs2 ++ [ev]), s1, u1, c. rewrite Em. split; [|exact H].
  by rewrite <- app_assoc.
Qed.

Lemma publisher_did_app evs ev p u u' : publisher_did evs p u -> pu_msg u' = pu_msg u -> pu_sent u' = pu_sent u ->
  pu_skipped u' = pu_skipped u -> publisher_did (evs ++ [ev]) p u'.
Proof.
  intros [H1 H2] Em E1 E2. split; intros id; [rewrite E1|rewrite E2]; intros Hid; [eapply wasSent_app|eapply wasFull_app]; eauto.
Qed.

Lemma serverRun_did evs : forall s, serverRun newServer evs = Ok s -> map_Forall (publisher_did evs) (sv_publishers s).
Proof.
  induction evs as [|ev evs IH] using rev_ind; intros s E; [injection E as <-; apply map_Forall_empty|].
  apply serverRun_snoc in E as (s1 & E1 & E). specialize (IH s1 E1).
  assert (Hsame : map_Forall (publisher_did (evs ++ [ev])) (sv_publishers s1)).
  { intros p u Hu. by eapply publisher_did_app; [apply IH|..]. }
  destruct ev; simpl in E.
  - case_bool; [|done]. apply bind_Ok in E as (h & _ & [= <-]). exact Hsame.
  - apply publishStart_Ok in E as (_ & _ & _ & ->). apply map_Forall_insert_2; [|exact Hsame]. split; intros id Hid; inversion Hid.
  - pose proof E as E0. apply publishTest_Ok in E as (u & id & todo & c & u' & Hu & Es & Et & Hc & -> & _ & Em & _ & E4 & E5).
    apply map_Forall_insert_2; [|exact Hsame]. destruct (Hsame p u Hu) as [H1 H2]. split; intros i Hi.
    + rewrite E4 in Hi. destruct (IH p u Hu) as [H _]. by eapply wasSent_app; [|apply H].
    + destruct (IH p u Hu) as [_ H]. destruct E5 as [(_ & _ & E5)|(Hlen & _ & E5)]; rewrite E5 in Hi; [by eapply wasFull_app; [|apply H]|].
      apply elem_of_app in Hi as [Hi|Hi%list_elem_of_singleton]; [by eapply wasFull_app; [|apply H]|]. subst i.
      exists evs, [], s1, u, c. rewrite Et. naive_solver.
  - pose proof E as E0. apply publishSend_Ok in E as (u & id & c & Hu & Es & Hc & Hlen & ->).
    apply map_Forall_insert_2; [|exact Hsame]. destruct (IH p u Hu) as [H1 H2]. split; simpl; intros i Hi.
    + apply elem_of_app in Hi as [Hi|Hi%list_elem_of_singleton]; [by eapply wasSent_app; [|apply H1]|]. subst i.
      exists evs, [], s1. eexists _, u, c. do 2 (split; [done|]). split; [exact E0|]. done.
    + by eapply wasFull_app; [|apply H2].
  - apply publishReturn_Ok in E as (u & _ & _ & _ & ->). by apply map_Forall_delete.
  - apply withClient_Ok in E as (c & _ & E). case_bool; [|done]. injection E as <-. exact Hsame.
  - unfold closeLeave in E. destruct (sv_closing s1 !! id); [|done]. case_bool; [|done]. injection E as <-. exact Hsame.
  - unfold closeEnd in E. destruct (sv_closing s1 !! id); [|done]. case_bool; [|done]. injection E as <-. exact Hsame.
Qed.

(** Whose step changes a client's queue: a publish that sends to it, or its own. *)
Definition queueStep (s : server) (ev : serverEvent) (id : Z) (ch ch' : list Message) : Prop :=
  match ev with
  | SvSend p => exists u, sv_publishers s !! p = Some u /\
      if decide (pu_sending u = Some id) then ch' = ch ++ [pu_msg u] else ch' = ch
  | SvHub (EvTicker i _) | SvHub (EvWrite i) | SvHub (EvLevel2 i) => i <> id -> ch' = ch
  | _ => ch' = ch
  end.

Lemma clientStep_queue h i f h' id c : clientStep h i f = Ok h' -> h_clients h !! id = Some c ->
  exists c', h_clients h' !! id = Some c' /\ (i <> id -> c_writeCh c' = c_writeCh c) /\
    ((forall c1 c2, f c1 = Ok c2 -> c_writeCh c2 = c_writeCh c1) -> c_writeCh c' = c_writeCh c).
Proof.
  intros (c1 & c2 & H1 & E & ->)%clientStep_Ok Hc. simpl. destruct (decide (i = id)) as [->|Hne].
  - rewrite lookup_insert_eq. exists c2. split; [done|]. split; [done|]. intros Hf. rewrite (Hf _ _ E). congruence.
  - rewrite lookup_insert_ne by done. by exists c.
Qed.

Lemma update_queue h i c1 chs id c : h_clients h !! i = Some c1 -> h_clients h !! id = Some c ->
  exists c', h_clients (h_update h i (c_setChannels c1 chs)) !! id = Some c' /\ c_writeCh c' = c_writeCh c.
Proof.
  intros H1 Hc. simpl. destruct (decide (i = id)) as [->|]; [rewrite lookup_insert_eq|rewrite lookup_insert_ne by done; by exists c].
  assert (c1 = c) as -> by congruence. by eexists.
Qed.

Lemma serverStep_queue ev s s' id c : serverStep ev s = Ok s' -> h_clients (sv_hub s) !! id = Some c ->
  exists c', h_clients (sv_hub s') !! id = Some c' /\ queueStep s ev id (c_writeCh c) (c_writeCh c').
Proof.
  intros E Hc. destruct ev; simpl in E.
  - case_bool; [|done]. apply bind_Ok in E as (h & E & [= <-]). destruct ev; simpl in E; try done; cbn [sv_hub sv_setHub queueStep].
    + destruct (decide _); [|done]. injection E as <-. simpl. rewrite lookup_insert_ne by congruence. by exists c.
    + apply withClient_Ok in E as (c1 & H1 & [= <-]). unfold subscribe. destruct (decide _); [by exists c|].
      destruct (sub_subscribe _ _ _) as [[] subs]; [|by exists c]. by apply (update_queue (h_setSubscribers (sv_hub s) subs)).
    + apply withClient_Ok in E as (c1 & H1 & [= <-]). unfold unsubscribe.
      destruct (sub_unsubscribe _ _ _) as [[] subs]; [|by exists c]. by apply (update_queue (h_setSubscribers (sv_hub s) subs)).
    + destruct (clientStep_queue _ _ _ _ id c E Hc) as (c' & Hc' & _ & H). exists c'. split; [done|]. apply H.
      intros c1 c2 (ch & _ & [= <-])%bind_Ok. done.
    + destruct (clientStep_queue _ _ _ _ id c E Hc) as (c' & Hc' & H & _). by exists c'.
    + destruct (clientStep_queue _ _ _ _ id c E Hc) as (c' & Hc' & H & _). by exists c'.
    + destruct (clientStep_queue _ _ _ _ id c E Hc) as (c' & Hc' & H & _). by exists c'.
    + injection E as <-. by exists c.
    + injection E as <-. by exists c.
  - apply publishStart_Ok in E as (_ & _ & _ & ->). by exists c.
  - apply publishTest_Ok in E as (u & i & todo & c1 & u' & _ & _ & _ & _ & -> & _). by exists c.
  - apply publishSend_Ok in E as (u & i & c1 & Hu & Es & H1 & _ & ->). simpl. destruct (decide (i = id)) as [->|Hne].
    + rewrite lookup_insert_eq. assert (c1 = c) as -> by congruence. eexists. split; [done|]. exists u. split; [done|].
      by rewrite decide_True.
    + rewrite lookup_insert_ne by done. exists c. split; [done|]. exists u. split; [done|]. rewrite decide_False by congruence. done.
  - apply publishReturn_Ok in E as (u & _ & _ & _ & ->). by exists c.
  - apply withClient_Ok in E as (c1 & _ & E). case_bool; [|done]. injection E as <-. by exists c.
  - unfold closeLeave in E. destruct (sv_closing s !! id0); [|done]. case_bool; [|done]. injection E as <-. by exists c.
  - unfold closeEnd in E. destruct (sv_closing s !! id0); [|done]. case_bool; [|done]. injection E as <-. by exists c.
Qed.

(** ** A publish and a close that nothing interrupts *)

(** The clients [todo], offered the message one after the other. *)
Lemma publish_loop p msg todo : forall s u, sv_publishers s !! p = Some u -> pu_todo u = todo -> pu_sending u = None -> pu_msg u = msg ->
  NoDup todo -> (forall id, id ∈ todo -> is_Some (h_clients (sv_hub s) !! id)) ->
  exists evs u', Forall (fun ev => ev = SvTest p \/ ev = SvSend p) evs /\ pu_todo u' = [] /\ pu_sending u' = None /\
    serverRun s evs = Ok (sv_setPublisher (sv_setHub s (h_setClients (sv_hub s) (publishTo (h_clients (sv_hub s)) (list_to_set todo) msg))) p u').
Proof.
  induction todo as [|id todo IH]; intros s u Hu Et Es Em Hnd Hcl.
  { exists [], u. do 3 (split; [done|]). simpl. f_equal. destruct s as [h ps cl]. unfold sv_setPublisher, sv_setHub. simpl in *.
    f_equal; [|by rewrite insert_id]. destruct h. unfold h_setClients. simpl. f_equal. apply map_eq. intros i. unfold publishTo.
    rewrite map_lookup_imap. by destruct (h_clients !! i). }
  apply NoDup_cons in Hnd as [Hid Hnd]. destruct (Hcl id) as [c Hc]; [set_solver|].
  assert (Hstep : exists evs u', Forall (fun ev => ev = SvTest p \/ ev = SvSend p) evs /\ pu_todo u' = todo /\ pu_sending u' = None /\ pu_msg u' = msg /\
    serverRun s evs = Ok (sv_setPublisher (sv_setHub s (h_update (sv_hub s) id (offer c msg))) p u')).
  { unfold offer. destruct (Z.ltb_spec (Z.of_nat (length (c_writeCh c))) writeChannelSize) as [Hl|Hl].
    - exists [SvTest p; SvSend p], {| pu_channel := pu_channel u; pu_msg := pu_msg u; pu_todo := todo; pu_sending := None;
        pu_sent := pu_sent u ++ [id]; pu_skipped := pu_skipped u |}.
      split; [repeat (constructor; auto)|]. do 3 (split; [done|]). cbn [serverRun serverStep].
      unfold publishTest, withPublisher, withClient. rewrite Hu, Es, Et, Hc, (proj2 (Z.ltb_lt _ _) Hl). go_red.
      unfold publishSend, withPublisher. cbn [sv_publishers sv_setPublisher]. rewrite lookup_insert_eq. cbn [pu_sending].
      unfold withClient. cbn [sv_hub sv_setPublisher]. rewrite Hc. unfold send. rewrite (proj2 (Z.ltb_lt _ _) Hl). go_red.
      cbn [pu_channel pu_msg pu_todo pu_sent pu_skipped]. rewrite Em. unfold sv_setPublisher, sv_setHub. cbn [sv_hub sv_publishers sv_closing].
      by rewrite insert_insert_eq.
    - exists [SvTest p], {| pu_channel := pu_channel u; pu_msg := pu_msg u; pu_todo := todo; pu_sending := None;
        pu_sent := pu_sent u; pu_skipped := pu_skipped u ++ [id] |}.
      split; [repeat (constructor; auto)|]. do 3 (split; [done|]). cbn [serverRun serverStep].
      unfold publishTest, withPublisher, withClient. rewrite Hu, Es, Et, Hc, (proj2 (Z.ltb_ge _ _) Hl). go_red.
      unfold sv_setPublisher, sv_setHub. cbn [sv_hub sv_publishers sv_closing]. do 2 f_equal.
      destruct (sv_hub s). unfold h_update, h_setClients. simpl in *. by rewrite insert_id. }
  destruct Hstep as (evs1 & u1 & F1 & T1 & S1 & M1 & R1).
  destruct (IH (sv_setPublisher (sv_setHub s (h_update (sv_hub s) id (offer c msg))) p u1) u1) as (evs2 & u2 & F2 & T2 & S2 & R2); try done.
  { cbn. by rewrite lookup_insert_eq. }
  { intros i Hi. simpl. destruct (decide (i = id)) as [->|]; [by rewrite lookup_insert_eq; eexists|]. rewrite lookup_insert_ne by done.
    apply Hcl. set_solver. }
  exists (evs1 ++ evs2), u2. split; [by apply Forall_app|]. do 2 (split; [done|]). rewrite serverRun_app, R1. go_red. rewrite R2. f_equal.
  unfold sv_setPublisher, sv_setHub. simpl. rewrite insert_insert_eq. f_equal. unfold h_update, h_setClients. simpl. f_equal.
  apply map_eq. intros i. unfold publishTo. rewrite !map_lookup_imap. destruct (decide (i = id)) as [->|Hne].
  - rewrite lookup_insert_eq, Hc. simpl. rewrite decide_False by (by rewrite elem_of_list_to_set). by rewrite decide_True by set_solver.
  - rewrite lookup_insert_ne by done. destruct (h_clients (sv_hub s) !! i) as [ci|]; [|done]. simpl. f_equal. apply decide_ext. set_solver.
Qed.

(** Without another step in between, a publish is [Hub.publish]. *)
Theorem publish_uninterrupted s mem p channel msg order : server_ok mem s -> sv_publishers s !! p = None ->
  NoDup order -> list_to_set order = subscribersOf (sv_hub s) channel ->
  exists evs, Forall (fun ev => ev = SvTest p \/ ev = SvSend p) evs /\
    serverRun s (SvPublish p channel msg order :: evs ++ [SvReturn p]) = Ok (sv_setHub s (publish (sv_hub s) channel msg)).
Proof.
  intros [[Hs Hk _ _] _] Hp Hnd Hset. set (u := {| pu_channel := channel; pu_msg := msg; pu_todo := order; pu_sending := None; pu_sent := []; pu_skipped := [] |}).
  destruct (publish_loop p msg order (sv_setPublisher s p u) u) as (evs & u' & F & T & S & R); try done.
  { apply lookup_insert_eq. }
  { intros id Hid. apply Hk with channel. intros Hout.
    assert (Hin : id ∈ subscribersOf (sv_hub s) channel) by (rewrite <- Hset; by rewrite elem_of_list_to_set).
    apply subscribersOf_in, Hs in Hin. congruence. }
  exists evs. split; [done|]. cbn [serverRun serverStep]. unfold publishStart. rewrite !bool_decide_eq_true_2 by done. cbn [andb]. go_red.
  fold u. rewrite serverRun_app, R. go_red. cbn [serverRun serverStep]. unfold publishReturn, withPublisher.
  cbn [sv_publishers sv_setPublisher]. rewrite lookup_insert_eq, S, T. go_red. f_equal.
  unfold sv_setHub. cbn [sv_hub sv_publishers sv_closing sv_setPublisher]. rewrite !delete_insert_eq, delete_id by done. f_equal.
  unfold publish. unfold subscribersOf in Hset. rewrite Hset. destruct (h_subscribers (sv_hub s) !! channel) as [ids|]; [done|]. simpl.
  destruct (sv_hub s). unfold h_setClients. simpl. f_equal. apply map_eq. intros i. unfold publishTo. rewrite map_lookup_imap.
  by destruct (h_clients !! i).
Qed.

(** The channels a client leaves one after the other. *)
Lemma close_loop id leaving : forall s channels, sv_closing s !! id = Some channels -> unlocked s = true ->
  NoDup leaving -> list_to_set leaving = channels ->
  serverRun s (SvLeave id <$> leaving) = Ok (sv_setClosing (sv_setHub s (h_setSubscribers (sv_hub s)
    (foldl (fun subs channel => (sub_unsubscribe subs channel id).2) (h_subscribers (sv_hub s)) leaving))) (<[id := ∅]> (sv_closing s))).
Proof.
  induction leaving as [|channel leaving IH]; intros s channels Hc Hun Hnd Hset; cbn [serverRun fmap list_fmap foldl].
  { simpl in Hset. subst channels. unfold sv_setClosing, sv_setHub. destruct s as [h ps cl]. simpl in *. rewrite insert_id by done. by destruct h. }
  apply NoDup_cons in Hnd as [Hin Hnd]. cbn [serverStep]. unfold closeLeave. rewrite Hc, Hun. rewrite bool_decide_eq_true_2 by set_solver.
  cbn [andb]. go_red. rewrite (IH _ (channels ∖ {[channel]})); cbn [sv_closing sv_setClosing sv_setHub sv_hub sv_publishers]; [|by rewrite lookup_insert_eq|done|done|set_solver].
  rewrite insert_insert_eq. done.
Qed.

(** Without another step in between, a close is [Hub.close]. *)
Theorem close_uninterrupted s id c : h_clients (sv_hub s) !! id = Some c -> sv_closing s !! id = None -> unlocked s = true ->
  exists leaving, serverRun s (SvClose id :: (SvLeave id <$> leaving) ++ [SvClosed id]) = Ok (sv_setHub s (close (sv_hub s) id c)).
Proof.
  intros Hc Hcl Hun. exists (rev (elements (c_channels c))). cbn [serverRun serverStep]. unfold closeStart, withClient. rewrite Hc.
  rewrite bool_decide_eq_true_2 by done. go_red. rewrite serverRun_app.
  rewrite (close_loop id _ _ (c_channels c)); [|apply lookup_insert_eq|done| |].
  - go_red. cbn [serverRun serverStep]. unfold closeEnd. cbn [sv_closing sv_setClosing sv_setHub]. rewrite lookup_insert_eq.
    rewrite bool_decide_eq_true_2 by done. go_red. f_equal. unfold sv_setClosing, sv_setHub. cbn [sv_hub sv_publishers sv_closing].
    rewrite !delete_insert_eq, delete_id by done. f_equal. unfold close. f_equal. unfold set_fold. simpl.
    induction (elements (c_channels c)) as [|x l IH]; [done|]. simpl. rewrite foldl_app. simpl. by rewrite IH.
  - rewrite <- (Permutation_rev (elements _)). apply NoDup_elements.
  - rewrite <- (Permutation_rev (elements _)). apply list_to_set_elements_L.
Qed.
