(* ===== verification/HubAccess.v ===== *)
(** What a request can do: [onSub] and [onUnSub] of [src/pushing/client.go].

    [onMessage_runs]: a request that is worked is a run of the steps of
    [HubRun.v], all of its client, and the channels it subscribes to that carry
    a user's own data are those of the token's user. *)
From S2P Require Import Prelude Decimal Models PushBook Messages Hub HubRun.
From Stdlib Require Import Ascii.
From stdpp Require Import gmap strings list pretty.
Open Scope string_scope.
Open Scope list_scope.
Open Scope Z_scope.

(** ** The names of the channels *)

Definition chars : string -> list ascii := String.list_ascii_of_string.

Lemma chars_app s1 s2 : chars (s1 +:+ s2) = chars s1 ++ chars s2.
Proof. induction s1 as [|c s1 IH]; [done|]. unfold chars in *. simpl. by rewrite IH. Qed.

Lemma chars_inj s1 s2 : chars s1 = chars s2 -> s1 = s2.
Proof.
  intros H. rewrite <- (String.string_of_list_ascii_of_string s1), <- (String.string_of_list_ascii_of_string s2).
  unfold chars in H. by rewrite H.
Qed.

(** A number has no colon in it. *)
Definition noColon (s : string) : Prop := ":"%char ∉ chars s.

Lemma pretty_N_go_noColon x s : noColon s -> noColon (pretty_N_go x s).
Proof.
  revert s. induction (N.lt_wf_0 x) as [x _ IH]; intros s Hs. destruct (decide (x = 0%N)) as [->|Hx]; [done|].
  rewrite pretty_N_go_step by lia. apply IH; [apply N.div_lt; lia|].
  unfold noColon, chars in *. simpl. rewrite elem_of_cons. intros [Hc|Hc]; [|done].
  unfold pretty_N_char in Hc. by repeat case_match.
Qed.

Lemma pretty_N_noColon (x : N) : noColon (pretty x).
Proof.
  unfold pretty, pretty_N. destruct (decide _).
  - unfold noColon. simpl. set_solver.
  - apply pretty_N_go_noColon. unfold noColon. simpl. set_solver.
Qed.

Lemma pretty_Z_noColon (x : Z) : noColon (pretty x).
Proof.
  destruct x as [|p|p]; [unfold noColon; simpl; set_solver|apply (pretty_N_noColon (Npos p))|].
  assert (pretty (Zneg p) = "-" +:+ pretty (Npos p)) as -> by done.
  unfold noColon. rewrite chars_app, elem_of_app. intros [H|H]; [simpl in H; set_solver|by apply (pretty_N_noColon (Npos p))].
Qed.

Lemma tail_unique {A} (x : A) a1 a2 d1 d2 : x ∉ d1 -> x ∉ d2 -> a1 ++ x :: d1 = a2 ++ x :: d2 -> d1 = d2.
Proof.
  intros H1 H2. revert a2. induction a1 as [|y a1 IH]; intros [|z a2]; simpl.
  - by intros [= ->].
  - intros [= <- ->]. set_solver.
  - intros [= -> <-]. set_solver.
  - intros [= _ E]. by apply (IH a2).
Qed.

(** The user is what stands after the last colon. *)
Lemma user_suffix s1 s2 (u v : Z) : s1 +:+ ":" +:+ pretty u = s2 +:+ ":" +:+ pretty v -> u = v.
Proof.
  intros E. apply (f_equal chars) in E. rewrite !chars_app in E. apply tail_unique in E; [|apply pretty_Z_noColon..].
  apply chars_inj in E. by apply (inj pretty).
Qed.

(** The channels that carry the data of one user. *)
Definition privateTo (v : Z) (channel : string) : Prop :=
  (exists productId, channel = Format ChannelOrder productId v \/ channel = Format ChannelTrade productId v) \/
  channel = FormatWithUserId ChannelFunds v.

Definition privateOnly (u : Z) (channel : string) : Prop := forall v, privateTo v channel -> v = u.

Lemma string_app_assoc (s1 s2 s3 : string) : (s1 +:+ s2) +:+ s3 = s1 +:+ s2 +:+ s3.
Proof. induction s1 as [|c s1 IH]; [done|]. simpl. unfold String.app in *. simpl. by rewrite IH. Qed.

Lemma private_suffix v channel : privateTo v channel -> exists s, channel = s +:+ ":" +:+ pretty v.
Proof.
  intros [(pid & [-> | ->]) | ->]; unfold Format, FormatWithUserId; [exists (ChannelOrder +:+ ":" +:+ pid)|exists (ChannelTrade +:+ ":" +:+ pid)|by exists ChannelFunds].
  all: by rewrite !string_app_assoc.
Qed.

Lemma suffix_private u s : privateOnly u (s +:+ ":" +:+ pretty u).
Proof. intros v (s' & E)%private_suffix. symmetry. by apply user_suffix in E. Qed.

Lemma private_prefix v channel : privateTo v channel -> exists s, channel ∈ ["order:" +:+ s; "trade:" +:+ s; "funds:" +:+ s].
Proof. intros [(pid & [-> | ->]) | ->]; eexists; [left|right; left|right; right; left]. Qed.

Lemma product_private u channel productId : channel ∈ [ChannelLevel2; ChannelTicker] ++ productChannels ->
  privateOnly u (FormatWithProductId channel productId).
Proof.
  intros Hc v (s & Hp)%private_prefix. exfalso. revert Hc Hp. unfold FormatWithProductId.
  rewrite elem_of_app, !elem_of_cons. unfold productChannels. rewrite !elem_of_cons, !elem_of_nil.
  intros Hc. destruct_or!; subst channel; intros Hp; destruct_or!; try discriminate Hp; done.
Qed.

(** ** The steps of a request *)

Definition requestEvent (id u : Z) (ev : hubEvent) : Prop :=
  match ev with
  | EvSubscribe i channel => i = id /\ privateOnly u channel
  | EvUnsubscribe i _ | EvAsk i _ | EvTicker i _ => i = id
  | _ => False
  end.

Definition runs (id u : Z) (h : hub) (r : outcome blocked hub) : Prop :=
  forall h', r = Ok h' -> exists evs, hubRun h evs = Ok h' /\ Forall (requestEvent id u) evs.

Lemma runs_ret id u h : runs id u h (mret h).
Proof. intros h' [= <-]. by exists []. Qed.

Lemma runs_step id u h ev r : hubStep ev h = r -> requestEvent id u ev -> runs id u h r.
Proof. intros Hs He h' Hr. exists [ev]. rewrite <- Hs in Hr. simpl. rewrite Hr. split; [done|by constructor]. Qed.

Lemma runs_cons id u h ev h1 r : hubStep ev h = Ok h1 -> requestEvent id u ev -> runs id u h1 r -> runs id u h r.
Proof. intros Hs He Hr h' (evs & E & Hevs)%Hr. exists (ev :: evs). simpl. rewrite Hs. split; [done|by constructor]. Qed.

Lemma runs_bind id u h r f : runs id u h r -> (forall h', runs id u h' (f h')) -> runs id u h (h' ← r; f h').
Proof.
  intros Hr Hf h' (h1 & E & (evs2 & E2 & He2)%Hf)%bind_Ok. apply Hr in E as (evs1 & E1 & He1).
  exists (evs1 ++ evs2). rewrite hubRun_app, E1. split; [done|by apply Forall_app].
Qed.

Lemma runs_forEach {A} id u (f : hub -> A -> outcome blocked hub) l h :
  (forall h x, runs id u h (f h x)) -> runs id u h (forEach f l h).
Proof. intros Hf. revert h. induction l as [|x l IH]; intros h; simpl; [apply runs_ret|by apply runs_bind]. Qed.

(** A subscription and what follows it. *)
Lemma runs_subscribe id u h channel f : privateOnly u channel ->
  (forall h, runs id u h (f h)) ->
  runs id u h (withClient h id (fun c => let '(ok, h) := subscribe h id c channel in if ok : bool then f h else mret h)).
Proof.
  intros Hp Hf h' (c & Hc & E)%withClient_Ok. assert (Hstep : hubStep (EvSubscribe id channel) h = Ok (subscribe h id c channel).2).
  { simpl. unfold subscribeOnly, withClient. by rewrite Hc. }
  destruct (subscribe h id c channel) as [ok h1]. simpl in Hstep.
  apply (runs_cons id u h (EvSubscribe id channel) h1 _ Hstep (conj eq_refl Hp)) in E; [done|]. destruct ok; [apply Hf|apply runs_ret].
Qed.

Lemma subscribeLevel2_runs id u h productId : runs id u h (subscribeLevel2 h id productId).
Proof.
  apply (runs_subscribe id u h _ (fun h => _)); [by apply product_private, (bool_decide_unpack _)|]. intros h1.
  apply (runs_step id u h1 (EvAsk id productId)); [|done]. simpl. unfold clientStep, withClient, askStep.
  destruct (h_clients h1 !! id) as [c|]; [|done]. by destruct (send _ (c_l2ChangeCh c) _).
Qed.

Lemma subscribeTicker_runs id u h productId : runs id u h (subscribeTicker h id productId).
Proof.
  apply (runs_subscribe id u h _ (fun h => _)); [by apply product_private, (bool_decide_unpack _)|]. intros h1.
  destruct (getLastTicker h1 productId) as [ref|]; [|apply runs_ret].
  apply (runs_step id u h1 (EvTicker id ref)); [|done]. simpl. unfold clientStep, withClient, tickerStep.
  destruct (h_clients h1 !! id) as [c|]; [|done]. by destruct (send _ (c_writeCh c) _).
Qed.

Lemma runs_subscribeOnly id u h channel : privateOnly u channel -> runs id u h (subscribeOnly h id channel).
Proof. intros. by apply (runs_step id u h (EvSubscribe id channel)). Qed.
Lemma runs_unsubscribeOnly id u h channel : runs id u h (unsubscribeOnly h id channel).
Proof. by apply (runs_step id u h (EvUnsubscribe id channel)). Qed.

Lemma onSubChannel_runs id h user productId channel : runs id (default 0 user) h (onSubChannel h id user productId channel).
Proof.
  assert (Hf : forall t, Format t productId (default 0 user) = (t +:+ ":" +:+ productId) +:+ ":" +:+ pretty (default 0 user))
    by (intros; unfold Format; by rewrite !string_app_assoc).
  unfold onSubChannel. case_bool; [apply subscribeLevel2_runs|]. case_bool.
  { destruct user as [uid|]; [|done]. apply runs_subscribeOnly. simpl in *. rewrite Hf. apply suffix_private. }
  case_bool; [apply subscribeTicker_runs|]. case_bool; [apply runs_subscribeOnly; rewrite Hf; apply suffix_private|].
  destruct (decide _); [|apply runs_ret]. apply runs_subscribeOnly, product_private. set_solver.
Qed.

Lemma onSubCurrency_runs id h user channel : runs id (default 0 user) h (onSubCurrency h id user channel).
Proof. unfold onSubCurrency. case_bool; [apply runs_subscribeOnly, suffix_private|apply runs_ret]. Qed.

Lemma onUnSubChannel_runs id u h user productId channel : runs id u h (onUnSubChannel h id user productId channel).
Proof.
  unfold onUnSubChannel. do 4 (case_bool; [first [apply runs_unsubscribeOnly|destruct user; [apply runs_unsubscribeOnly|done]]|]).
  destruct (decide _); [apply runs_unsubscribeOnly|apply runs_ret].
Qed.

Lemma onUnSubCurrency_runs id u h user channel : runs id u h (onUnSubCurrency h id user channel).
Proof. unfold onUnSubCurrency. case_bool; [apply runs_unsubscribeOnly|apply runs_ret]. Qed.

Section Request.
Context (CheckToken : string -> outcome unit (option Z)).

Lemma onMessage_runs id h req user : CheckToken (req_Token req) = Ok user ->
  runs id (default 0 user) h (onMessage CheckToken h id req).
Proof.
  intros Hu. unfold onMessage, onSub, onUnSub. rewrite Hu.
  repeat case_bool; [| |apply runs_ret]; (apply runs_bind; intros; apply runs_forEach; intros; apply runs_forEach; intros).
  - apply onSubCurrency_runs.
  - apply onSubChannel_runs.
  - apply onUnSubCurrency_runs.
  - apply onUnSubChannel_runs.
Qed.

(** A token that is refused leaves everything as it is. *)
Lemma onMessage_refused id h req e : CheckToken (req_Token req) = Err e -> onMessage CheckToken h id req = Ok h.
Proof. intros Hu. unfold onMessage, onSub, onUnSub. rewrite Hu. by repeat case_bool. Qed.
End Request.

(** What such a run can add to the subscriptions. *)
Lemma requestEvent_adds id u h ev h' i ch : hubStep ev h = Ok h' -> requestEvent id u ev ->
  inChannel (h_subscribers h') i ch -> inChannel (h_subscribers h) i ch \/ (i = id /\ privateOnly u ch).
Proof.
  destruct ev; simpl; intros E He; try done.
  - destruct He as [-> Hp]. apply withClient_Ok in E as (c & Hc & [= <-]). unfold subscribe.
    destruct (decide _); [by left|]. pose proof (sub_subscribe_in (h_subscribers h) id channel i ch) as Hsi.
    destruct (sub_subscribe _ _ _) as [[] subs]; simpl in *; rewrite Hsi; naive_solver.
  - subst. apply withClient_Ok in E as (c & Hc & [= <-]). unfold unsubscribe.
    pose proof (sub_unsubscribe_in (h_subscribers h) id channel i ch) as Hsi.
    destruct (sub_unsubscribe _ _ _) as [[] subs]; simpl in *; rewrite Hsi; naive_solver.
  - apply clientStep_Ok in E as (c & c' & _ & _ & ->). by left.
  - apply clientStep_Ok in E as (c & c' & _ & _ & ->). by left.
Qed.

Lemma request_adds id u evs : forall h h' i ch, hubRun h evs = Ok h' -> Forall (requestEvent id u) evs ->
  inChannel (h_subscribers h') i ch -> inChannel (h_subscribers h) i ch \/ (i = id /\ privateOnly u ch).
Proof.
  induction evs as [|ev evs IH]; intros h h' i ch E He Hin; [injection E as <-; by left|].
  simpl in E. apply bind_Ok in E as (h1 & E1 & E). apply Forall_cons in He as [He Hes].
  destruct (IH _ _ _ _ E Hes Hin) as [H|H]; [|by right]. by eapply requestEvent_adds.
Qed.
