(* ===== verification/Streams.v ===== *)
(** The streams of the push server: [order_book_stream.go], [match_stream.go],
    [ticker_stream.go] and [redis_stream.go] of [src/pushing].

    A stream observes the matching log of one product, or a Redis topic, and
    publishes on the hub.  [OrderBookStream] has three goroutines: the log
    reader's callbacks put the logs in [logCh], the applier works them on the
    push book, and a third one stores its full snapshots. *)
From S2P Require Import Prelude Decimal TreeMap Models MatchLog OrderBook LogReader Ledger PushBook Messages Hub.
From stdpp Require Import gmap strings list pretty.
Open Scope string_scope.
Open Scope list_scope.
Open Scope Z_scope.

Section Streams.
Context {P : DecimalPkg} {T : TreeMapPkg}.

(** ** order_book_stream.go *)

Definition pushLogChCap : Z := 1000.
Definition pushSnapshotChCap : Z := 100.

Record OrderBookStream := {
  os_productId : string;
  os_orderBook : pushBook;
  os_sending : list (Log * Z);                             (** a callback's send *)
  os_logCh : list (Log * Z);
  os_lastLevel2Snapshot : option OrderBookLevel2Snapshot;  (** local to the applier *)
  os_lastFullSnapshot : option OrderBookFullSnapshot;
  os_unsent : option OrderBookFullSnapshot;                (** what the applier is sending to [snapshotCh] *)
  os_unpublished : option Level2Change;                    (** what it has still to publish *)
  os_snapshotCh : list OrderBookFullSnapshot;
  os_stored : option OrderBookFullSnapshot;                (** the snapshot store *)
}.

Definition newOrderBookStream (productId : string) (stored : option OrderBookFullSnapshot) : outcome noerr OrderBookStream :=
  let book := newOrderBook productId in
  book ← match stored with Some snapshot => RestoreFull book snapshot | None => mret book end;
  mret {| os_productId := productId; os_orderBook := book; os_sending := []; os_logCh := []; os_lastLevel2Snapshot := None;
          os_lastFullSnapshot := None; os_unsent := None; os_unpublished := None; os_snapshotCh := []; os_stored := stored |}.

(** Where [Start] tells the log reader to read: the sequence number and the offset. *)
Definition streamStart (s : OrderBookStream) : Z * Z :=
  let logOffset := pb_logOffset (os_orderBook s) in
  (pb_logSeq (os_orderBook s), if 0 <? logOffset then i64 (logOffset + 1) else logOffset).

Definition os_setSending (s : OrderBookStream) sending ch : OrderBookStream := {|
  os_productId := os_productId s; os_orderBook := os_orderBook s; os_sending := sending; os_logCh := ch;
  os_lastLevel2Snapshot := os_lastLevel2Snapshot s; os_lastFullSnapshot := os_lastFullSnapshot s; os_unsent := os_unsent s;
  os_unpublished := os_unpublished s; os_snapshotCh := os_snapshotCh s; os_stored := os_stored s |}.

(** The callbacks: each sends its log to [logCh]. *)
Definition onLog (log : Log) (offset : Z) (s : OrderBookStream) : outcome noerr OrderBookStream :=
  mret (os_setSending s [(log, offset)] (os_logCh s)).
#[export] Instance OrderBookStream_observer : LogObserver OrderBookStream := {|
  OnOpenLog l := onLog (LOpen l); OnMatchLog l := onLog (LMatch l); OnDoneLog l := onLog (LDone l) |}.

Definition sendLog (s : OrderBookStream) : outcome blocked OrderBookStream :=
  match os_sending s with
  | [] => Err Blocked
  | x :: rest => ch ← send pushLogChCap (os_logCh s) x; mret (os_setSending s rest ch)
  end.

Definition getLastLevel2Snapshot (h : hub) (productId : string) : option OrderBookLevel2Snapshot := h_lastLevel2Snapshots h !! productId.

Section Applier.
Context (visit : list BookOrder -> list BookOrder).

(** [SnapshotLevel2(1000)], kept and put in [lastLevel2Snapshots]. *)
Definition takeLevel2 (productId : string) (book : pushBook) (h : hub) : outcome blocked (option OrderBookLevel2Snapshot * hub) :=
  snapshot ← fatalErr (SnapshotLevel2 book 1000);
  mret (Some snapshot, h_setLevel2 h productId snapshot).

(** The applier is in its [select]. *)
Definition os_idle (s : OrderBookStream) : bool := negb (isSome (os_unsent s)) && negb (isSome (os_unpublished s)).

(** A pass of [runApplier] on a log: the book, the level 2 snapshot, the full
    snapshot, which it then has to send, and the change, which it then has to
    publish. *)
Definition applierStep (s : OrderBookStream) (h : hub) : outcome blocked (OrderBookStream * hub) :=
  if os_idle s then
    '((log, offset), ch) ← recv (os_logCh s);
    r ← fatalErr (applyLog (os_orderBook s) log offset);
    match r with
    | None => mret (os_setSending s (os_sending s) ch, h)
    | Some (l2Change, book) =>
        let pid := os_productId s in
        '(lastLevel2, h) ←
          (if match os_lastLevel2Snapshot s with None => true | Some last => 10 <? i64 (pb_seq book - l2_Seq last) end
           then takeLevel2 pid book h else mret (os_lastLevel2Snapshot s, h));
        let '(lastFull, unsent) :=
          if match os_lastFullSnapshot s with None => true | Some last => 10000 <? i64 (pb_seq book - fs_Seq last) end
          then let full := SnapshotFull visit book in (Some full, Some full)
          else (os_lastFullSnapshot s, None) in
        mret ({| os_productId := pid; os_orderBook := book; os_sending := os_sending s; os_logCh := ch;
                 os_lastLevel2Snapshot := lastLevel2; os_lastFullSnapshot := lastFull; os_unsent := unsent; os_unpublished := l2Change;
                 os_snapshotCh := os_snapshotCh s; os_stored := os_stored s |}, h)
    end
  else Err Blocked.
End Applier.

(** The rest of the pass: [s.snapshotCh <- lastFullSnapshot], which waits while
    the channel is full, and then [s.sub.publish]. *)
Definition applierFinish (s : OrderBookStream) (h : hub) : outcome blocked (OrderBookStream * hub) :=
  match os_unsent s, os_unpublished s with
  | Some full, _ =>
      sch ← send pushSnapshotChCap (os_snapshotCh s) full;
      mret ({| os_productId := os_productId s; os_orderBook := os_orderBook s; os_sending := os_sending s; os_logCh := os_logCh s;
               os_lastLevel2Snapshot := os_lastLevel2Snapshot s; os_lastFullSnapshot := os_lastFullSnapshot s; os_unsent := None;
               os_unpublished := os_unpublished s; os_snapshotCh := sch; os_stored := os_stored s |}, h)
  | None, Some c =>
      mret ({| os_productId := os_productId s; os_orderBook := os_orderBook s; os_sending := os_sending s; os_logCh := os_logCh s;
               os_lastLevel2Snapshot := os_lastLevel2Snapshot s; os_lastFullSnapshot := os_lastFullSnapshot s; os_unsent := None;
               os_unpublished := None; os_snapshotCh := os_snapshotCh s; os_stored := os_stored s |},
            publish h (FormatWithProductId ChannelLevel2 (os_productId s)) (MLevel2Change c))
  | None, None => Err Blocked
  end.

(** [case <-time.After(200 * time.Millisecond)] *)
Definition applierTimer (s : OrderBookStream) (h : hub) : outcome blocked (OrderBookStream * hub) :=
  if os_idle s then
    if match os_lastLevel2Snapshot s with None => true | Some last => l2_Seq last <? pb_seq (os_orderBook s) end
    then '(lastLevel2, h) ← takeLevel2 (os_productId s) (os_orderBook s) h;
         mret ({| os_productId := os_productId s; os_orderBook := os_orderBook s; os_sending := os_sending s; os_logCh := os_logCh s;
                  os_lastLevel2Snapshot := lastLevel2; os_lastFullSnapshot := os_lastFullSnapshot s; os_unsent := os_unsent s;
                  os_unpublished := os_unpublished s; os_snapshotCh := os_snapshotCh s; os_stored := os_stored s |}, h)
    else mret (s, h)
  else Err Blocked.

(** [runSnapshots]: a store that fails is logged. *)
Definition storeStep (storeOk : bool) (s : OrderBookStream) : outcome blocked OrderBookStream :=
  '(snapshot, ch) ← recv (os_snapshotCh s);
  mret {| os_productId := os_productId s; os_orderBook := os_orderBook s; os_sending := os_sending s; os_logCh := os_logCh s;
          os_lastLevel2Snapshot := os_lastLevel2Snapshot s; os_lastFullSnapshot := os_lastFullSnapshot s; os_unsent := os_unsent s;
          os_unpublished := os_unpublished s; os_snapshotCh := ch; os_stored := if storeOk then Some snapshot else os_stored s |}.

(** ** match_stream.go *)

(** [log.Time.Unix()] *)
Definition Unix (t : Instant) : Z := t / 10 ^ 9.

Definition matchMessage (log : MatchLog) : MatchMessage := {|
  mm_Type := "match"; mm_TradeSeq := ml_TradeSeq log; mm_Sequence := base_Sequence (ml_Base log);
  mm_Time := Unix (base_Time (ml_Base log)); mm_ProductId := base_ProductId (ml_Base log);
  mm_Price := dec_String (ml_Price log); mm_Size := dec_String (ml_Size log);
  mm_MakerOrderId := pretty (ml_MakerOrderId log); mm_TakerOrderId := pretty (ml_TakerOrderId log); mm_Side := ml_Side log |}.

Definition MatchStream_OnMatchLog (log : MatchLog) (h : hub) : hub :=
  publish h (FormatWithProductId ChannelMatch (base_ProductId (ml_Base log))) (MMatch (matchMessage log)).

(** ** ticker_stream.go *)

Definition intervalSec : Z := 1.

Record TickerStream := { ts_productId : string; ts_lastTickerTime : Z; ts_lastCandlesTime : Z }.

Definition newTickerStream (productId : string) (now : Z) : TickerStream :=
  {| ts_productId := productId; ts_lastTickerTime := now - intervalSec; ts_lastCandlesTime := 0 |}.

Definition emptyTick : Tick := {|
  tick_Id := 0; tick_CreatedAt := 0; tick_UpdatedAt := 0; tick_ProductId := ""; tick_Granularity := 0; tick_Time := 0;
  tick_Open := dec_Zero; tick_High := dec_Zero; tick_Low := dec_Zero; tick_Close := dec_Zero; tick_Volume := dec_Zero;
  tick_QuoteVolume := dec_Zero; tick_LogOffset := 0; tick_LogSeq := 0 |}.

(** The [else] of [mergeTicks]: assignments to fields of [t]. *)
Definition tick_merge (t tick : Tick) : Tick := {|
  tick_Id := tick_Id t; tick_CreatedAt := tick_CreatedAt t; tick_UpdatedAt := tick_UpdatedAt t; tick_ProductId := tick_ProductId t;
  tick_Granularity := tick_Granularity t; tick_Time := tick_Time t;
  tick_Open := tick_Open tick; tick_High := dec_Max (tick_High t) (tick_High tick); tick_Low := dec_Min (tick_Low t) (tick_Low tick);
  tick_Close := tick_Close tick; tick_Volume := dec_Add (tick_Volume t) (tick_Volume tick);
  tick_QuoteVolume := dec_Add (tick_QuoteVolume t) (tick_QuoteVolume tick);
  tick_LogOffset := tick_LogOffset t; tick_LogSeq := tick_LogSeq t |}.

Definition mergeNext (t : option Tick) (tick : Tick) : option Tick :=
  match t with None => Some tick | Some t => Some (tick_merge t tick) end.

(** [ticks[len(ticks)-1-i]]: from the last to the first. *)
Definition mergeTicks (ticks : list Tick) : option Tick := foldl mergeNext None (reverse ticks).

(** [now i]: what the clock reads in the pass [i] of the loop. *)
Definition mergeIntervalTicks (now : nat -> Z) (ticks : list Tick) (interval : Z) : option Tick :=
  foldl (fun t '(i, tick) => if tick_Time tick <? now i - interval then t else mergeNext t tick) None (imap pair (reverse ticks)).

Definition bestOf (rows : list levelRow) : string :=
  match rows with Some (price, _, _) :: _ => price | None :: _ => "<nil>" | [] => "" end.

Definition getBestBidAsk (h : hub) (productId : string) : string * string :=
  match getLastLevel2Snapshot h productId with
  | None => ("", "")
  | Some snapshot => (bestOf (l2_Bids snapshot), bestOf (l2_Asks snapshot))
  end.

(** [now24] and [now30]: the clock's readings of the two loops.  [None] if a read
    of the database fails. *)
Definition newTickerMessage (s : TickerStream) (db : option Db) (h : hub) (now24 now30 : nat -> Z) (log : MatchLog) : option TickerMessage :=
  db ← db;
  let tick24h := default emptyTick (mergeIntervalTicks now24 (GetTicksByProductId db (ts_productId s) (1 * 60) 0 0 24) (24 * 3600)) in
  let tick30d := default emptyTick (mergeIntervalTicks now30 (GetTicksByProductId db (ts_productId s) (24 * 60) 0 0 30) (30 * 86400)) in
  let '(bestBid, bestAsk) := getBestBidAsk h (ts_productId s) in
  Some {| tm_Type := "ticker"; tm_TradeSeq := ml_TradeSeq log; tm_Sequence := base_Sequence (ml_Base log);
     tm_Time := Unix (base_Time (ml_Base log)); tm_ProductId := base_ProductId (ml_Base log); tm_Price := dec_String (ml_Price log);
     tm_Side := ml_Side log; tm_LastSize := dec_String (ml_Size log); tm_BestBid := bestBid; tm_BestAsk := bestAsk;
     tm_Volume24h := dec_String (tick_Volume tick24h); tm_Volume30d := dec_String (tick_Volume tick30d);
     tm_QuoteVolume24h := dec_String (tick_QuoteVolume tick24h); tm_QuoteVolume30d := dec_String (tick_QuoteVolume tick30d);
     tm_Low24h := dec_String (tick_Low tick24h); tm_High24h := dec_String (tick_High tick24h);
     tm_Open24h := dec_String (tick_Open tick24h); tm_Close24h := dec_String (tick_Close tick24h) |}.

(** Not called; [now] is the last reading of the clock. *)
Definition getLastTickerOnSubscribed (productId : string) (db : option Db) (h : hub) (now24 now30 : nat -> Z) (now : Z) : option TickerMessage :=
  db ← db;
  let tick24h := default emptyTick (mergeIntervalTicks now24 (GetTicksByProductId db productId (1 * 60) 0 0 24) (24 * 3600)) in
  let tick30d := default emptyTick (mergeIntervalTicks now30 (GetTicksByProductId db productId (24 * 60) 0 0 30) (30 * 86400)) in
  let '(bestBid, bestAsk) := getBestBidAsk h productId in
  Some {| tm_Type := "ticker"; tm_TradeSeq := 0; tm_Sequence := 0; tm_Time := now; tm_ProductId := productId;
          tm_Price := dec_String (tick_Close tick24h); tm_Side := ""; tm_LastSize := ""; tm_BestBid := bestBid; tm_BestAsk := bestAsk;
          tm_Volume24h := dec_String (tick_Volume tick24h); tm_Volume30d := dec_String (tick_Volume tick30d);
          tm_QuoteVolume24h := dec_String (tick_QuoteVolume tick24h); tm_QuoteVolume30d := dec_String (tick_QuoteVolume tick30d);
          tm_Low24h := dec_String (tick_Low tick24h); tm_High24h := dec_String (tick_High tick24h);
          tm_Open24h := dec_String (tick_Open tick24h); tm_Close24h := dec_String (tick_Close tick24h) |}.

(** The assignments to the last ticker, in place. *)
Definition ticker_update (t : TickerMessage) (log : MatchLog) (bestBid bestAsk : string) : TickerMessage := {|
  tm_Type := tm_Type t; tm_TradeSeq := ml_TradeSeq log; tm_Sequence := base_Sequence (ml_Base log);
  tm_Time := Unix (base_Time (ml_Base log)); tm_ProductId := base_ProductId (ml_Base log); tm_Price := dec_String (ml_Price log);
  tm_Side := ml_Side log; tm_LastSize := dec_String (ml_Size log); tm_BestBid := bestBid; tm_BestAsk := bestAsk;
  tm_Volume24h := tm_Volume24h t; tm_Volume30d := tm_Volume30d t; tm_QuoteVolume24h := tm_QuoteVolume24h t;
  tm_QuoteVolume30d := tm_QuoteVolume30d t; tm_Low24h := tm_Low24h t; tm_High24h := tm_High24h t;
  tm_Open24h := tm_Open24h t; tm_Close24h := tm_Close24h t |}.

Definition publishTicker (h : hub) (productId : string) (ref : Z) (ticker : TickerMessage) : hub :=
  publish (h_setTicker h productId ref ticker) (FormatWithProductId ChannelTicker productId) (MTicker ref).

(** The first part of [OnMatchLog]; [now] are its own readings of the clock, in
    seconds, in the order in which they are taken.  A new ticker gets a new
    address; the last one is changed where it is.  [None] is an early return. *)
Definition onTicker (now now24 now30 : nat -> Z) (db : option Db) (log : MatchLog) (s : TickerStream) (h : hub)
    : option (TickerStream * hub) :=
  let pid := base_ProductId (ml_Base log) in
  if intervalSec <? now 0%nat - ts_lastTickerTime s then
    ticker ← newTickerMessage s db h now24 now30 log;
    Some ({| ts_productId := ts_productId s; ts_lastTickerTime := now 1%nat; ts_lastCandlesTime := ts_lastCandlesTime s |},
          publishTicker h pid (Z.of_nat (size (h_tickers h))) ticker)
  else
    ref ← getLastTicker h pid;
    t ← h_tickers h !! ref;
    let '(bestBid, bestAsk) := getBestBidAsk h pid in
    Some (s, publishTicker h pid ref (ticker_update t log bestBid bestAsk)).

(** [OnMatchLog]: the boolean tells whether the candles are going to be published. *)
Definition TickerStream_OnMatchLog (now now24 now30 : nat -> Z) (db : option Db) (log : MatchLog) (s : TickerStream) (h : hub)
    : TickerStream * hub * bool :=
  match onTicker now now24 now30 db log s h with
  | None => (s, h, false)
  | Some (s, h) =>
      if intervalSec <? now 2%nat - ts_lastCandlesTime s then
        ({| ts_productId := ts_productId s; ts_lastTickerTime := ts_lastTickerTime s; ts_lastCandlesTime := now 3%nat |}, h, true)
      else (s, h, false)
  end.

(** The goroutine that publishes the candles a second later. *)
Definition newCandlesMessage (granularity : Z) (productId : string) (tick : Tick) : CandlesMessage := {|
  cm_Type := "candles_" +:+ pretty granularity +:+ "m"; cm_ProductId := productId; cm_Time := tick_Time tick;
  cm_Open := dec_String (tick_Open tick); cm_Close := dec_String (tick_Close tick); cm_Low := dec_String (tick_Low tick);
  cm_High := dec_String (tick_High tick); cm_Volume := dec_String (tick_Volume tick) |}.

(** The last tick of each granularity. *)
Definition GetLastTicksAllByProductId (db : Db) (productId : string) : list Tick :=
  let rows := filter (fun t => tick_ProductId t = productId) (g_tick db) in
  filter (fun t => Forall (fun r => tick_Granularity r = tick_Granularity t -> tick_Time r <= tick_Time t) rows) rows.

Definition publishCandles (productId : string) (ticks : list Tick) (h : hub) : hub :=
  foldl (fun h tick => publish h (CandlesFormatWithGranularityProductId (tick_Granularity tick) productId)
                         (MCandles (newCandlesMessage (tick_Granularity tick) productId tick))) h ticks.

(** ** redis_stream.go *)

Section Redis.
(** [time.Time.Format(time.RFC3339)] *)
Context (RFC3339 : Instant -> string).

Definition onOrder (order : Order) (h : hub) : hub :=
  publish h (Format ChannelOrder (ord_ProductId order) (ord_UserId order)) (MOrder {|
    om_UserId := ord_UserId order; om_Type := "order"; om_Sequence := 0; om_Id := pretty (ord_Id order);
    om_Price := dec_String (ord_Price order); om_Size := dec_String (ord_Size order); om_Funds := "0";
    om_ProductId := ord_ProductId order; om_Side := ord_Side order; om_OrderType := ord_Type order;
    om_CreatedAt := RFC3339 (ord_CreatedAt order); om_FillFees := dec_String (ord_FillFees order);
    om_FilledSize := dec_String (ord_FilledSize order); om_ExecutedValue := dec_String (ord_ExecutedValue order);
    om_Status := ord_Status order; om_Settled := ord_Settled order |}).

Definition onAccount (account : Account) (h : hub) : hub :=
  publish h (FormatWithUserId ChannelFunds (acc_UserId account)) (MFunds {|
    fm_Type := "funds"; fm_Sequence := 0; fm_UserId := pretty (acc_UserId account); fm_Currency := acc_Currency account;
    fm_Available := dec_String (acc_Available account); fm_Hold := dec_String (acc_Hold account) |}).

Definition tradeMessage (trade : Trade) : TradeMessage := {|
  tr_Type := "trade"; tr_Time := RFC3339 (trade_Time trade); tr_ProductId := trade_ProductId trade;
  tr_Price := dec_String (trade_Price trade); tr_Size := dec_String (trade_Size trade);
  tr_MakerOrderId := pretty (trade_MakerOrderId trade); tr_TakerOrderId := pretty (trade_TakerOrderId trade);
  tr_Side := trade_Side trade |}.

(** To the maker, then to the taker. *)
Definition onTrade (trade : Trade) (h : hub) : hub :=
  let h := publish h (Format ChannelTrade (trade_ProductId trade) (trade_MakerUserId trade)) (MTrade (tradeMessage trade)) in
  publish h (Format ChannelTrade (trade_ProductId trade) (trade_TakerUserId trade)) (MTrade (tradeMessage trade)).
End Redis.
End Streams.
