(* ===== verification/StreamRun.v ===== *)
(** The order book stream's goroutines together:
    [src/pushing/order_book_stream.go].

    A step of the system is one of the log reader's callback, its send to
    [logCh], the applier's work on a log, its send of a full snapshot and its
    publishing, its timer, a pass of the snapshot goroutine, or any step of the
    hub that is not the stream's.  [stream_ok] holds in every
    run: the logs are worked one by one in order, their changes are published
    in order, and every snapshot is one of the book after a beginning of the
    logs. *)
From S2P Require Import Prelude Decimal TreeMap Models MatchLog OrderBook LogReader PushBook PushInv PushView PushMirror Messages Hub HubRun Ledger Streams.
From stdpp Require Import gmap strings list.
Open Scope string_scope.
Open Scope list_scope.
Open Scope Z_scope.

(** ** What a log does to any book *)

Section Shape.
Context {P : DecimalPkg} {L : DecimalLaws P} {T : TreeMapPkg} {TL : TreeMapLaws T}.
Implicit Types (m : pushBook).

(** The levels of both sides are sorted. *)
Definition push_wf m : Prop :=
  forall s, valid_side s -> exists t l, pb_depths m !! s = Some t /\ tm_repr (levelCmp s) t l.

(** What a log leaves: the same book, or the next change and the log's place. *)
Definition logged m (off : Z) (log : Log) (cs : list Level2Change) m' : Prop :=
  (cs = [] /\ m' = m) \/
  exists c, cs = [c] /\ lc_Seq c = i64 (pb_seq m + 1) /\ pb_seq m' = lc_Seq c /\
    pb_logOffset m' = off /\ pb_logSeq m' = GetSeq log.

Lemma saveOrder_logged m off seq id size price s r m' : saveOrder m off seq id size price s = Ok (r, m') ->
  (push_wf m -> push_wf m') /\
  ((r = None /\ m' = m) \/ exists c, r = Some c /\ lc_Seq c = i64 (pb_seq m + 1) /\ pb_seq m' = lc_Seq c /\
    pb_logOffset m' = off /\ pb_logSeq m' = seq).
Proof.
  assert (Hch : forall t t' orders l, pb_depths m !! s = Some t ->
    (forall k, tm_repr (levelCmp s) t k -> exists k', tm_repr (levelCmp s) t' k') ->
    Ok (E := noerr) (changed m off seq s t' orders l) = Ok (r, m') ->
    (push_wf m -> push_wf m') /\ ((r = None /\ m' = m) \/ exists c, r = Some c /\ lc_Seq c = i64 (pb_seq m + 1) /\
      pb_seq m' = lc_Seq c /\ pb_logOffset m' = off /\ pb_logSeq m' = seq)).
  { intros t t' orders l Ht Hr [= <- <-]. split; [|right; eexists; split; [done|]; done].
    intros Hwf s' Hs'. simpl. destruct (decide (s = s')) as [<-|]; [rewrite lookup_insert_eq|rewrite lookup_insert_ne by done; by apply Hwf].
    destruct (Hwf s Hs') as (t0 & l0 & Ht0 & Rt0). assert (t0 = t) as -> by congruence. destruct (Hr _ Rt0) as [k' ?]. by exists t', k'. }
  unfold saveOrder. destruct (dec_LessThan size dec_Zero); [done|]. destruct (pb_orders m !! id) as [order|].
  - destruct (pb_depths m !! s) as [t|] eqn:Ht; go_red; [|done]. destruct (tm_Get t price) as [l|]; go_red; [|done].
    apply (Hch t); [done|]. intros k Hk. destruct (dec_IsZero (dec_Sub _ _)).
    + eexists. apply tm_repr_Remove; [apply levelCmp_order|done].
    + eexists. apply tm_repr_Put; [apply levelCmp_order|done].
  - destruct (dec_IsZero size).
    + intros [= <- <-]. split; [done|]. by left.
    + destruct (pb_depths m !! s) as [t|] eqn:Ht; go_red; [|done]. apply (Hch t); [done|].
      intros k Hk. eexists. apply tm_repr_Put; [apply levelCmp_order|done].
Qed.

Lemma followLog_logged m log off cs m' : followLog m log off = Ok (cs, m') ->
  (push_wf m -> push_wf m') /\ logged m off log cs m'.
Proof.
  unfold followLog. intros (r & Ha & E)%bind_Ok. unfold applyLog in Ha.
  assert (Hsave : forall size id price s, (r0 ← saveOrder m off (GetSeq log) id size price s; mret (Some r0)) = Ok r ->
    (push_wf m -> push_wf m') /\ logged m off log cs m').
  { intros size id price s ([c m1] & Hs & [= <-])%bind_Ok. apply saveOrder_logged in Hs as [Hwf Hc].
    destruct c as [c|]; injection E as <- <-; (split; [done|]).
    - right. destruct Hc as [[? _]|(c' & [= <-] & ?)]; [done|]. by exists c.
    - left. destruct Hc as [[_ ->]|(c' & ? & _)]; done. }
  destruct log as [l|l|l]; simpl in Ha.
  - by eapply Hsave.
  - destruct (pb_orders m !! _) as [order|]; [|done]. by eapply Hsave.
  - destruct (pb_orders m !! _) as [order|]; [by eapply Hsave|]. injection Ha as <-. injection E as <- <-. split; [done|]. by left.
Qed.

Lemma followLogs_changes ologs : forall m cs m', followLogs m ologs = Ok (cs, m') ->
  (push_wf m -> push_wf m') /\ changesTo (pb_seq m) cs (pb_seq m') /\ (length cs <= length ologs)%nat.
Proof.
  induction ologs as [|[log off] ologs IH]; intros m cs m' E; simpl in E; [injection E as <- <-; done|].
  apply bind_Ok in E as ([cs1 m1] & E1 & E). apply bind_Ok in E as ([cs2 m2] & E2 & [= <- <-]).
  apply followLog_logged in E1 as [W1 H1]. destruct (IH _ _ _ E2) as (W2 & C2 & Hlen). split; [by intros; apply W2, W1|].
  rewrite length_app. simpl. destruct H1 as [[-> ->]|(c & -> & Es & Em & _)]; [split; [done|simpl; lia]|].
  split; [|simpl; lia]. simpl. split; [done|]. by rewrite <- Em.
Qed.

Lemma SnapshotLevel2_Ok m n : push_wf m -> 0 <= n -> exists snapshot, SnapshotLevel2 m n = Ok snapshot.
Proof.
  intros Hwf Hn. unfold SnapshotLevel2. destruct (Hwf SideSell ltac:(by right)) as (t1 & l1 & -> & R1).
  destruct (Hwf SideBuy ltac:(by left)) as (t2 & l2 & -> & R2). go_red.
  rewrite (sideRows_spec _ _ _ R2 n Hn). go_red. rewrite (sideRows_spec _ _ _ R1 n Hn). go_red. by eexists.
Qed.
End Shape.

(** ** The system *)

Section System.
Context {P : DecimalPkg} {L : DecimalLaws P} {T : TreeMapPkg} {TL : TreeMapLaws T}.
Context (visit : list BookOrder -> list BookOrder) (pid : string).

Record streamSys := {
  sy_lastSeq : Z;              (** the log reader's *)
  sy_topic : list logMessage;  (** what it has not read yet *)
  sy_stream : OrderBookStream;
  sy_hub : hub;
}.

Inductive streamEvent :=
| StRead                   (** the log reader takes a message; its callback sends the log *)
| StSend
| StApply
| StFinish
| StTimer
| StStore (storeOk : bool)
| StHub (ev : hubEvent).   (** any other goroutine of the process *)

Definition level2Channel : string := FormatWithProductId ChannelLevel2 pid.

(** What only the stream does to the hub. *)
Definition streamOwned (ev : hubEvent) : bool :=
  match ev with
  | EvPublish channel _ => channel =s? level2Channel
  | EvSetLevel2 productId _ => productId =s? pid
  | _ => false
  end.

Definition sy_setStream (sys : streamSys) s h : streamSys :=
  {| sy_lastSeq := sy_lastSeq sys; sy_topic := sy_topic sys; sy_stream := s; sy_hub := h |}.

Definition streamStep (ev : streamEvent) (sys : streamSys) : outcome blocked streamSys :=
  let s := sy_stream sys in
  let h := sy_hub sys in
  match ev with
  | StRead =>
      match os_sending s with
      | _ :: _ => Err Blocked
      | [] =>
          '(m, topic) ← recv (sy_topic sys);
          st ← fatalErr (readerStep {| rd_lastSeq := sy_lastSeq sys; rd_observer := s |} m);
          mret {| sy_lastSeq := rd_lastSeq st; sy_topic := topic; sy_stream := rd_observer st; sy_hub := h |}
      end
  | StSend => s ← sendLog s; mret (sy_setStream sys s h)
  | StApply => '(s, h) ← applierStep visit s h; mret (sy_setStream sys s h)
  | StFinish => '(s, h) ← applierFinish s h; mret (sy_setStream sys s h)
  | StTimer => '(s, h) ← applierTimer s h; mret (sy_setStream sys s h)
  | StStore storeOk => s ← storeStep storeOk s; mret (sy_setStream sys s h)
  | StHub ev => if streamOwned ev then Err Blocked else h ← hubStep ev h; mret (sy_setStream sys s h)
  end.

Fixpoint streamRun (sys : streamSys) (evs : list streamEvent) : outcome blocked streamSys :=
  match evs with [] => mret sys | ev :: evs => sys ← streamStep ev sys; streamRun sys evs end.

(** The stream as [Start] starts it, on a topic. *)
Definition startSys (s : OrderBookStream) (topic : list logMessage) (h : hub) : streamSys := {|
  sy_lastSeq := (streamStart s).1; sy_topic := filter (fun m => (streamStart s).2 <= lm_Offset m) topic;
  sy_stream := s; sy_hub := h |}.

(** ** What the applier does *)

(** The changes published on the channel of the stream. *)
Definition levelPubs (evs : list hubEvent) : list Message :=
  omap (fun ev => match ev with
                  | EvPublish channel msg => if channel =s? level2Channel then Some msg else None
                  | _ => None
                  end) evs.

Lemma levelPubs_app l1 l2 : levelPubs (l1 ++ l2) = levelPubs l1 ++ levelPubs l2.
Proof. apply omap_app. Qed.

Record applied (s : OrderBookStream) (h : hub) (log : Log) (off : Z) (s' : OrderBookStream) (h' : hub) : Prop := {
  ap_pid : os_productId s' = os_productId s;
  ap_idle : os_idle s = true;
  ap_ch : os_logCh s = (log, off) :: os_logCh s';
  ap_sending : os_sending s' = os_sending s;
  ap_stored : os_stored s' = os_stored s;
  ap_effect : exists cs hevs, followLog (os_orderBook s) log off = Ok (cs, os_orderBook s') /\
    hubRun h hevs = Ok h' /\ levelPubs hevs = [] /\ option_list (os_unpublished s') = cs /\
    (forall snapshot, EvSetLevel2 pid snapshot ∈ hevs -> SnapshotLevel2 (os_orderBook s') 1000 = Ok snapshot);
  ap_level2 snapshot : os_lastLevel2Snapshot s' = Some snapshot ->
    (os_lastLevel2Snapshot s = Some snapshot /\
       (os_orderBook s' = os_orderBook s \/ i64 (pb_seq (os_orderBook s') - l2_Seq snapshot) <= 10)) \/
    SnapshotLevel2 (os_orderBook s') 1000 = Ok snapshot;
  ap_full full : os_unsent s' = Some full -> full = SnapshotFull visit (os_orderBook s');
  ap_snapshots : os_snapshotCh s' = os_snapshotCh s;
}.

Lemma applyLog_follow m log off r : applyLog m log off = Ok r ->
  followLog m log off = Ok match r with Some (Some c, s) => ([c], s) | Some (None, s) => ([], s) | None => ([], m) end.
Proof. unfold followLog. by intros ->. Qed.

Lemma idle_Ok s : os_idle s = true -> os_unsent s = None /\ os_unpublished s = None.
Proof. unfold os_idle. by destruct (os_unsent s), (os_unpublished s). Qed.

Lemma applierStep_applied s h s' h' : os_productId s = pid -> applierStep visit s h = Ok (s', h') ->
  exists log off, applied s h log off s' h'.
Proof.
  intros Hpid. unfold applierStep. destruct (os_idle s) eqn:Hidle; [|done]. destruct (idle_Ok s Hidle) as [Hun1 Hun2].
  intros ([[log off] ch] & Hr%recv_Ok & E)%bind_Ok. apply bind_Ok in E as (r & Ha & E).
  assert (Ha' : applyLog (os_orderBook s) log off = Ok r) by (destruct (applyLog _ _ _) as [|[]| |]; [by injection Ha as <-|done..]).
  apply applyLog_follow in Ha'. exists log, off. destruct r as [[c book]|].
  2:{ injection E as <- <-. split; simpl; try done; [|intros snap ->; left; split; [done|by left]|by rewrite Hun1].
      exists [], []. split; [done|]. split; [done|]. split; [done|]. split; [by rewrite Hun2|]. intros snap H. by apply not_elem_of_nil in H. }
  apply bind_Ok in E as ([lastLevel2 h1] & E1 & E).
  assert (H1 : exists hevs, hubRun h hevs = Ok h1 /\ levelPubs hevs = [] /\
    (forall snap, EvSetLevel2 pid snap ∈ hevs -> SnapshotLevel2 book 1000 = Ok snap) /\
    (forall snap, lastLevel2 = Some snap -> (os_lastLevel2Snapshot s = Some snap /\ i64 (pb_seq book - l2_Seq snap) <= 10) \/
      SnapshotLevel2 book 1000 = Ok snap)).
  { destruct (match os_lastLevel2Snapshot s with None => true | Some last => 10 <? i64 (pb_seq book - l2_Seq last) end) eqn:Ec.
    - unfold takeLevel2 in E1. apply bind_Ok in E1 as (snap & Es & [= <- <-]).
      assert (Hs : SnapshotLevel2 book 1000 = Ok snap) by (destruct (SnapshotLevel2 book 1000) as [|[]| |]; [by injection Es as <-|done..]).
      exists [EvSetLevel2 (os_productId s) snap]. rewrite Hpid. do 2 (split; [done|]). split; [|by intros ? [= <-]; right].
      intros snap' [= <-]%list_elem_of_singleton. done.
    - injection E1 as <- <-. exists []. do 2 (split; [done|]). split; [intros snap H; by apply not_elem_of_nil in H|].
      intros snap Hs. left. split; [done|]. rewrite Hs in Ec. apply Z.ltb_ge in Ec. done. }
  destruct H1 as (hevs & Hrun & Hpubs & Hset & Hlast).
  destruct (if match os_lastFullSnapshot s with None => true | Some _ => _ end then _ else _) as [lastFull unsent] eqn:Ef in E.
  injection E as <- <-. split; simpl; [done|done|by rewrite Hr|done|done| | | |done].
  - exists (option_list c), hevs. split; [rewrite Ha'; by destruct c|]. do 2 (split; [done|]). by split.
  - intros snap Hs. destruct (Hlast snap Hs) as [[? ?]|?]; [left; split; [done|by right]|by right].
  - intros full Hf. destruct (match os_lastFullSnapshot s with None => true | Some _ => _ end);
      injection Ef as _ <-; [by injection Hf as <-|done].
Qed.

(** ** The invariant *)

Definition logOf (m : logMessage) : Log * Z := (lm_Log m, lm_Offset m).

Context (stored : option OrderBookFullSnapshot) (s0 : OrderBookStream) (topic : list logMessage) (h0 : hub).

(** The logs the stream is to work: what its reader delivers. *)
Definition source : list (Log * Z) := logOf <$> freshLogs (sy_lastSeq (startSys s0 topic h0)) (sy_topic (startSys s0 topic h0)).

Context (Hnew : newOrderBookStream pid stored = Ok s0) (Hwf : push_wf (os_orderBook s0)).
Context (Hgap : gap_free (sy_lastSeq (startSys s0 topic h0)) (sy_topic (startSys s0 topic h0))).
Context (Hi64 : Forall (fun m => is_i64 (lm_Seq m)) topic).
Context (Hsrc : isOk (followLogs (os_orderBook s0) source) = true).
Context (Hseq : 0 <= pb_seq (os_orderBook s0)) (Hlen : pb_seq (os_orderBook s0) + Z.of_nat (length source) < i64_half).

(** [Q] holds of the book after some beginning of the logs. *)
Definition afterPrefix (worked : list (Log * Z)) (Q : pushBook -> Prop) : Prop :=
  exists pre cs m, pre `prefix_of` worked /\ followLogs (os_orderBook s0) pre = Ok (cs, m) /\ Q m.

Record stream_ok (sys : streamSys) : Prop := {
  sk_pid : os_productId (sy_stream sys) = pid;
  sk_gap : gap_free (sy_lastSeq sys) (sy_topic sys);
  sk_i64 : Forall (fun m => is_i64 (lm_Seq m)) (sy_topic sys);
  sk_work : exists worked cs hevs,
    source = worked ++ os_logCh (sy_stream sys) ++ os_sending (sy_stream sys) ++ (logOf <$> freshLogs (sy_lastSeq sys) (sy_topic sys)) /\
    followLogs (os_orderBook s0) worked = Ok (cs, os_orderBook (sy_stream sys)) /\
    hubRun h0 hevs = Ok (sy_hub sys) /\
    levelPubs hevs ++ (MLevel2Change <$> option_list (os_unpublished (sy_stream sys))) = MLevel2Change <$> cs /\
    (forall snapshot, EvSetLevel2 pid snapshot ∈ hevs -> afterPrefix worked (fun m => SnapshotLevel2 m 1000 = Ok snapshot)) /\
    (forall full, full ∈ option_list (os_unsent (sy_stream sys)) ++ os_snapshotCh (sy_stream sys) -> afterPrefix worked (fun m => full = SnapshotFull visit m)) /\
    (os_stored (sy_stream sys) = stored \/
     exists full, os_stored (sy_stream sys) = Some full /\ afterPrefix worked (fun m => full = SnapshotFull visit m));
  sk_near snapshot : os_lastLevel2Snapshot (sy_stream sys) = Some snapshot ->
    l2_Seq snapshot <= pb_seq (os_orderBook (sy_stream sys)) <= l2_Seq snapshot + 10;
}.

Lemma new_fields : os_productId s0 = pid /\ os_sending s0 = [] /\ os_logCh s0 = [] /\ os_lastLevel2Snapshot s0 = None /\
  os_snapshotCh s0 = [] /\ os_stored s0 = stored /\ os_unsent s0 = None /\ os_unpublished s0 = None.
Proof. unfold newOrderBookStream in Hnew. apply bind_Ok in Hnew as (book & _ & [= <-]). done. Qed.

Lemma start_ok : stream_ok (startSys s0 topic h0).
Proof.
  destruct new_fields as (E1 & E2 & E3 & E4 & E5 & E6 & E7 & E8). split; [exact E1|exact Hgap| | |cbn [startSys sy_stream]; by rewrite E4].
  - apply Forall_forall. intros m [_ Hm]%list_elem_of_filter. rewrite Forall_forall in Hi64. by apply Hi64.
  - exists [], [], []. cbn [startSys sy_stream]. rewrite E2, E3, E5, E6, E7, E8. do 4 (split; [done|]).
    split; [intros ? H; by apply not_elem_of_nil in H|]. split; [intros ? H; by apply not_elem_of_nil in H|by left].
Qed.

Lemma afterPrefix_grow worked x Q : afterPrefix worked Q -> afterPrefix (worked ++ x) Q.
Proof. intros (pre & cs & m & Hp & H). exists pre, cs, m. split; [by apply prefix_app_r|done]. Qed.

Lemma afterPrefix_now worked cs m (Q : pushBook -> Prop) : followLogs (os_orderBook s0) worked = Ok (cs, m) -> Q m -> afterPrefix worked Q.
Proof. intros E HQ. exists worked, cs, m. done. Qed.

(** What is known of the book after a beginning of the logs. *)
Lemma worked_book worked rest cs m : source = worked ++ rest -> followLogs (os_orderBook s0) worked = Ok (cs, m) ->
  push_wf m /\ pb_seq m = pb_seq (os_orderBook s0) + Z.of_nat (length cs) /\ (length cs <= length worked)%nat /\
  exists cs' m', followLogs m rest = Ok (cs', m').
Proof.
  intros Es E. pose proof (followLogs_changes _ _ _ _ E) as (Hw & Hc & Hl). rewrite Es, length_app in Hlen.
  split; [by apply Hw|]. split; [apply changesTo_last in Hc; lia|]. split; [done|].
  rewrite Es, followLogs_app, E in Hsrc. cbn [mbind outcome_bind] in Hsrc.
  destruct (followLogs m rest) as [[cs' m']| | |]; [by exists cs', m'|done..].
Qed.

Lemma readerStep_stream last (s : OrderBookStream) m : gap_free last [m] -> is_i64 (lm_Seq m) ->
  readerStep {| rd_lastSeq := last; rd_observer := s |} m =
  Ok (if lm_Seq m <=? last then {| rd_lastSeq := last; rd_observer := s |}
      else {| rd_lastSeq := lm_Seq m; rd_observer := os_setSending s [logOf m] (os_logCh s) |}).
Proof.
  intros [Hm _] Hi. unfold readerStep. cbn [rd_lastSeq rd_observer]. destruct (Z.leb_spec (lm_Seq m) last); [done|].
  assert (last + 1 = lm_Seq m) as -> by lia. rewrite i64_id, Z.eqb_refl, andb_false_r by done.
  unfold deliver, logOf. by destruct m as [off []].
Qed.

Lemma read_ok sys sys' : stream_ok sys -> streamStep StRead sys = Ok sys' -> stream_ok sys'.
Proof.
  intros [Hp Hg Hi Hw Hn]. simpl. destruct (os_sending (sy_stream sys)) eqn:Es; [|done].
  intros ([m rest] & Hr%recv_Ok & E)%bind_Ok. rewrite Hr in Hg, Hi, Hw. apply Forall_cons in Hi as [Hm Hi]. destruct Hg as [Hgm Hg].
  rewrite readerStep_stream in E by (simpl; done). injection E as <-. simpl in Hw.
  destruct (Z.leb_spec (lm_Seq m) (sy_lastSeq sys)) as [Hle|Hgt].
  - rewrite Z.max_l in Hg by lia. split; simpl; rewrite ?Es; done.
  - rewrite Z.max_r in Hg by lia. split; simpl; done.
Qed.

Lemma send_ok sys sys' : stream_ok sys -> streamStep StSend sys = Ok sys' -> stream_ok sys'.
Proof.
  intros [Hp Hg Hi Hw Hn]. simpl. unfold sendLog. intros (s & E & [= <-])%bind_Ok.
  destruct (os_sending (sy_stream sys)) as [|x rest] eqn:Es; [done|]. apply bind_Ok in E as (ch & Hs & [= <-]).
  unfold send in Hs. destruct (_ <? _); [|done]. injection Hs as <-. split; simpl; [done..| |done].
  destruct Hw as (worked & cs & hevs & Hsrc1 & Hw). exists worked, cs, hevs. split; [|exact Hw]. by rewrite Hsrc1, <- app_assoc.
Qed.

Lemma store_ok storeOk sys sys' : stream_ok sys -> streamStep (StStore storeOk) sys = Ok sys' -> stream_ok sys'.
Proof.
  intros [Hp Hg Hi Hw Hn]. simpl. unfold storeStep. intros (s & ([full ch] & Hr%recv_Ok & [= <-])%bind_Ok & [= <-])%bind_Ok.
  split; simpl; [done..| |done]. destruct Hw as (worked & cs & hevs & Hsrc1 & H1 & H2 & H3 & H4 & H5 & H6). rewrite Hr in H5.
  exists worked, cs, hevs. do 5 (split; [done|]). split; [intros ? ?; apply H5; set_solver|].
  destruct storeOk; [|done]. right. exists full. split; [done|]. apply H5. set_solver.
Qed.

Lemma hub_step_ok ev sys sys' : stream_ok sys -> streamStep (StHub ev) sys = Ok sys' -> stream_ok sys'.
Proof.
  intros [Hp Hg Hi Hw Hn]. simpl. destruct (streamOwned ev) eqn:Hown; [done|]. intros (h & E & [= <-])%bind_Ok.
  split; simpl; [done..| |done]. destruct Hw as (worked & cs & hevs & H0 & H1 & H2 & H3 & H4 & H5 & H6).
  exists worked, cs, (hevs ++ [ev]). do 2 (split; [done|]). rewrite hubRun_app, H2. cbn [mbind outcome_bind hubRun]. rewrite E.
  split; [done|]. rewrite levelPubs_app, <- H3. split; [|split; [|done]].
  - assert (levelPubs [ev] = []) as -> by (destruct ev; simpl in *; by rewrite ?Hown). by rewrite app_nil_r.
  - intros snap [?|Hin]%elem_of_app; [by apply H4|]. apply list_elem_of_singleton in Hin as <-. simpl in Hown.
    by rewrite String.eqb_refl in Hown.
Qed.

Lemma timer_ok sys sys' : stream_ok sys -> streamStep StTimer sys = Ok sys' -> stream_ok sys'.
Proof.
  intros Hok. simpl. intros ([s h] & E & [= <-])%bind_Ok. unfold applierTimer in E.
  destruct (os_idle (sy_stream sys)); [|done]. destruct (match os_lastLevel2Snapshot _ with None => true | Some _ => _ end); [|injection E as <- <-; by destruct sys].
  destruct Hok as [Hp Hg Hi Hw Hn]. apply bind_Ok in E as ([last h1] & E & [= <- <-]). unfold takeLevel2 in E. rewrite Hp in E.
  apply bind_Ok in E as (snap & Es & [= <- <-]).
  assert (Hs : SnapshotLevel2 (os_orderBook (sy_stream sys)) 1000 = Ok snap)
    by (destruct (SnapshotLevel2 _ 1000) as [|[]| |]; [by injection Es as <-|done..]).
  split; simpl; [done..| |].
  2:{ intros ? [= <-]. rewrite (SnapshotLevel2_seq _ _ _ Hs). lia. }
  destruct Hw as (worked & cs & hevs & H0 & H1 & H2 & H3 & H4 & H5 & H6).
  exists worked, cs, (hevs ++ [EvSetLevel2 pid snap]). do 2 (split; [done|]). rewrite hubRun_app, H2. split; [done|].
  rewrite levelPubs_app, <- H3. split; [simpl; by rewrite app_nil_r|]. split; [|done].
  intros snap' [?|Hin]%elem_of_app; [by apply H4|]. apply list_elem_of_singleton in Hin as [= ->]. by eapply afterPrefix_now.
Qed.

Lemma apply_ok sys sys' : stream_ok sys -> streamStep StApply sys = Ok sys' -> stream_ok sys'.
Proof.
  intros [Hp Hg Hi Hw Hn]. simpl. intros ([s h] & E & [= <-])%bind_Ok.
  apply applierStep_applied in E as (log & off & [Ap Ai Ach As Ast (cs1 & hevs1 & F1 & R1 & P1 & U1 & S1) Al2 Af Asn]); [|done].
  destruct (idle_Ok _ Ai) as [Hun1 Hun2].
  destruct Hw as (worked & cs & hevs & H0 & H1 & H2 & H3 & H4 & H5 & H6). rewrite Ach in H0.
  assert (E0 : source = (worked ++ [(log, off)]) ++ os_logCh s ++ os_sending s ++ (logOf <$> freshLogs (sy_lastSeq sys) (sy_topic sys))).
  { rewrite H0, As. by rewrite <- !app_assoc. }
  assert (E1 : followLogs (os_orderBook s0) (worked ++ [(log, off)]) = Ok (cs ++ cs1, os_orderBook s)).
  { rewrite followLogs_app, H1. cbn [mbind outcome_bind followLogs]. rewrite F1. cbn. by rewrite app_nil_r. }
  destruct (worked_book _ _ _ _ H0 H1) as (_ & Q0 & L0 & _). destruct (worked_book _ _ _ _ E0 E1) as (_ & Q1 & L1 & _).
  rewrite length_app in Q1, L1. simpl in L1.
  assert (Lc : (length cs1 <= 1)%nat) by (destruct (followLog_logged _ _ _ _ _ F1) as [_ [[-> _]|(c & -> & _)]]; simpl; lia).
  assert (Hsrcl : Z.of_nat (length source) >= Z.of_nat (length worked + 1)) by (rewrite E0, !length_app; simpl; lia).
  split; simpl; [by rewrite Ap|done|done| |].
  - exists (worked ++ [(log, off)]), (cs ++ cs1), (hevs ++ hevs1). split; [exact E0|]. split; [exact E1|].
    rewrite hubRun_app, H2. split; [exact R1|]. rewrite Hun2, app_nil_r in H3.
    rewrite levelPubs_app, H3, P1, app_nil_r, U1, fmap_app. split; [done|].
    split; [|split].
    + intros snap [?|?]%elem_of_app; [by apply afterPrefix_grow, H4|]. eapply afterPrefix_now; [exact E1|]. by apply S1.
    + intros full [Hf|Hf]%elem_of_app; [|rewrite Asn in Hf; apply afterPrefix_grow, H5; set_solver].
      destruct (os_unsent s) as [f|]; [|by apply not_elem_of_nil in Hf]. apply list_elem_of_singleton in Hf. subst f.
      eapply afterPrefix_now; [exact E1|by apply Af].
    + rewrite Ast. destruct H6 as [?|(full & ? & ?)]; [by left|]. right. exists full. split; [done|]. by apply afterPrefix_grow.
  - intros snap [[Ho Hd]|Hs]%Al2; [|rewrite (SnapshotLevel2_seq _ _ _ Hs); lia]. specialize (Hn snap Ho).
    destruct Hd as [->|Hd]; [done|]. rewrite i64_id in Hd by (unfold is_i64, i64_half in *; lia). lia.
Qed.

Lemma finish_ok sys sys' : stream_ok sys -> streamStep StFinish sys = Ok sys' -> stream_ok sys'.
Proof.
  intros [Hp Hg Hi Hw Hn]. simpl. intros ([s h] & E & [= <-])%bind_Ok. unfold applierFinish in E.
  destruct Hw as (worked & cs & hevs & H0 & H1 & H2 & H3 & H4 & H5 & H6). destruct (os_unsent (sy_stream sys)) as [full|] eqn:Eu.
  - apply bind_Ok in E as (ch & Hs & [= <- <-]). unfold send in Hs. destruct (_ <? _); [|done]. injection Hs as <-.
    split; simpl; [done..| |done]. exists worked, cs, hevs. do 5 (split; [done|]). split; [|done]. intros f Hf. apply H5. simpl. set_solver.
  - destruct (os_unpublished (sy_stream sys)) as [c|] eqn:Ec; [|done]. injection E as <- <-. split; simpl; [done..| |done].
    exists worked, cs, (hevs ++ [EvPublish level2Channel (MLevel2Change c)]). do 2 (split; [done|]). rewrite hubRun_app, H2, Hp.
    split; [done|]. rewrite levelPubs_app. split; [|split; [|done]].
    + rewrite <- H3, app_nil_r. unfold levelPubs at 2. simpl. by rewrite String.eqb_refl.
    + intros snap [?|H]%elem_of_app; [by apply H4|]. by apply list_elem_of_singleton in H.
Qed.

Lemma step_ok ev sys sys' : stream_ok sys -> streamStep ev sys = Ok sys' -> stream_ok sys'.
Proof. destruct ev; [apply read_ok|apply send_ok|apply apply_ok|apply finish_ok|apply timer_ok|apply store_ok|apply hub_step_ok]. Qed.

Lemma streamRun_ok evs : forall sys sys', stream_ok sys -> streamRun sys evs = Ok sys' -> stream_ok sys'.
Proof.
  induction evs as [|ev evs IH]; intros sys sys' Hok E; simpl in E; [by injection E as <-|].
  apply bind_Ok in E as (sys1 & E1 & E). by eapply IH, E; eapply step_ok.
Qed.

(** *** No step of the stream crashes *)

Lemma applied_no_crash sys : stream_ok sys -> applierStep visit (sy_stream sys) (sy_hub sys) <> Panic.
Proof.
  intros [Hp _ _ (worked & cs & hevs & H0 & H1 & _) _] Hcrash. unfold applierStep in Hcrash. destruct (os_idle (sy_stream sys)); [|done].
  destruct (os_logCh (sy_stream sys)) as [|[log off] ch]; [done|]. cbn [recv mbind outcome_bind] in Hcrash.
  destruct (worked_book _ _ _ _ H0 H1) as (Hwf1 & _ & _ & cs' & m' & E'). simpl in E'.
  apply bind_Ok in E' as ([cs2 m2] & E2 & _). pose proof (followLog_logged _ _ _ _ _ E2) as [Hwf2 _]. specialize (Hwf2 Hwf1).
  unfold followLog in E2. apply bind_Ok in E2 as (r & Ea & E2). rewrite Ea in Hcrash. cbn [fatalErr mbind outcome_bind] in Hcrash.
  destruct r as [[c book]|]; [|done].
  assert (book = m2) as -> by (destruct c; by injection E2 as _ <-).
  destruct (SnapshotLevel2_Ok m2 1000 Hwf2 ltac:(lia)) as [snap Es]. unfold takeLevel2 in Hcrash. rewrite Es in Hcrash.
  cbn [fatalErr mbind outcome_bind] in Hcrash.
  destruct (match os_lastLevel2Snapshot _ with None => true | Some _ => _ end); go_red; cbn [mbind outcome_bind mret outcome_ret] in Hcrash.
  all: by destruct (match os_lastFullSnapshot _ with None => true | Some _ => _ end).
Qed.

Lemma stream_no_crash ev sys : stream_ok sys -> (forall hev, ev <> StHub hev) -> streamStep ev sys <> Panic.
Proof.
  intros Hok Hev. destruct ev as [| | | | |storeOk|hev]; simpl.
  - destruct Hok as [_ Hg Hi _ _]. destruct (os_sending (sy_stream sys)); [|done].
    destruct (sy_topic sys) as [|m rest]; [done|]. cbn [recv mbind outcome_bind]. apply Forall_cons in Hi as [Hm _].
    rewrite readerStep_stream by (simpl; try done; by destruct Hg). done.
  - unfold sendLog. destruct (os_sending (sy_stream sys)); [done|]. unfold send. by destruct (_ <? _).
  - intros E. apply (applied_no_crash sys Hok). by destruct (applierStep _ _ _) as [[? ?]| | |].
  - unfold applierFinish. destruct (os_unsent (sy_stream sys)); [unfold send; by destruct (_ <? _)|]. by destruct (os_unpublished (sy_stream sys)).
  - unfold applierTimer. destruct (os_idle (sy_stream sys)); [|done]. destruct (match os_lastLevel2Snapshot _ with None => true | Some _ => _ end); [|done].
    destruct Hok as [_ _ _ (worked & cs & hevs & H0 & H1 & _) _]. destruct (worked_book _ _ _ _ H0 H1) as (Hwf1 & _).
    destruct (SnapshotLevel2_Ok _ 1000 Hwf1 ltac:(lia)) as [snap Es]. unfold takeLevel2. by rewrite Es.
  - unfold storeStep. by destruct (os_snapshotCh (sy_stream sys)).
  - by destruct (Hev hev).
Qed.
End System.
