(* ===== verification/PushTheorems.v ===== *)
(** The theorems on the push server's order book: [src/pushing/order_book.go],
    [order_book_stream.go] and the level 2 writer of [client.go], fed with the
    logs of the matching engine. *)
From S2P Require Import Prelude Decimal TreeMap Models Window MatchLog OrderBook DepthInv Matching Book Trading Applier Snapshots Observe.
From S2P Require Import PushBook PushInv PushView PushMirror PushEquiv Messages Hub HubRun Level2 ClientView LogReader Ledger Streams StreamRun.
From Stdlib Require Import QArith.
From stdpp Require Import gmap strings list.
Open Scope string_scope.
Open Scope list_scope.
Open Scope Z_scope.

Section Books.
Context {P : DecimalPkg} {L : DecimalLaws P} {T : TreeMapPkg} {TL : TreeMapLaws T}.
Context (now : Z -> Instant).
Implicit Types (o : orderBook) (a : AbsBook) (m : pushBook).

(** The orders that rest in a side of the matching engine's book. *)
Definition restingAt o (s : Side) : list BookOrder :=
  default [] ((fun d => (map_to_list (d_orders d)).*2) <$> ob_depths o !! s).

(** The orders of a side of the push server's book. *)
Definition pushedAt m (s : Side) : list BookOrder := filter (fun b => bo_Side b = s) (map_to_list (pb_orders m)).*2.

(** The push server's book holds the orders that rest, by id, and its levels
    are the prices at which orders rest, with the sum of their sizes and their
    number. *)
Record mirrors m o : Prop := {
  mi_orders id b' : pb_orders m !! id = Some b' <->
    exists s b, valid_side s /\ b ∈ restingAt o s /\ bo_OrderId b = id /\ b' = trim b;
  mi_levels s : valid_side s ->
    exists t l, pb_depths m !! s = Some t /\ tm_repr (levelCmp s) t l /\ levels_ok (restingAt o s) l;
}.

Lemma resting_perm o a s : book_repr o a -> valid_side s -> restingAt o s ≡ₚ ab_get a s.
Proof.
  intros R Hs. destruct (book_depth o a s R Hs) as (d & Hd & Rd). unfold restingAt. rewrite Hd. simpl.
  by apply (depth_values s).
Qed.

Lemma push_mirrors m o a : push_repr m a -> book_repr o a -> mirrors m o.
Proof.
  intros R B. split.
  - intros id b'. rewrite (pr_orders _ _ R). split.
    + intros (b & Hb & Hid & Eb). rewrite (ab_all_perm a SideBuy), elem_of_app in Hb by (by left).
      destruct Hb as [Hb|Hb]; [exists SideBuy|exists (Opposite SideBuy)]; exists b.
      all: (split; [first [by left|apply valid_Opposite]|split; [|done]]).
      all: rewrite resting_perm; first [exact Hb|done|by left|apply valid_Opposite].
    + intros (s & b & Hs & Hb & Hid & Eb). exists b. split; [|done]. rewrite (resting_perm o a s B Hs) in Hb. by eapply elem_side.
  - intros s Hs. destruct (pr_side _ _ R s Hs) as (t & Ht & l & Rt & Hl). exists t, l. split; [done|]. split; [done|].
    eapply levels_ok_perm; [|exact Hl]. by rewrite (resting_perm o a s B Hs).
Qed.

Lemma pushed_shows m a v : push_repr m a -> shows (ab_get a) v -> shows (pushedAt m) v.
Proof.
  intros R Hv. apply (shows_perm (fun s => trim <$> ab_get a s)).
  - intros s Hs. symmetry. by apply stored_side.
  - intros s q Hs. specialize (Hv s q Hs). rewrite levelOrders_trim.
    destruct (levelOrders q (ab_get a s)) as [|b lo]; [done|]. destruct Hv as (size & Hv & Hsum). exists size. split; [done|].
    rewrite Hsum. change (trim b :: list_fmap _ _ trim lo) with (trim <$> b :: lo). by rewrite <- list_fmap_compose.
Qed.

(** *** The book between two logs *)

Lemma empty_shows : shows (ab_get ab_empty) ∅.
Proof. intros s q [-> | ->]; simpl; apply lookup_empty. Qed.

(** The books after a beginning of the engine's logs and after all of them. *)
Lemma prefix_book pid a logs pre suf : follows ab_empty logs a -> (pre ++ suf).*1 = logs ->
  exists a1 cs1 m1 cs2 m2, followLogs (newOrderBook pid) pre = Ok (cs1, m1) /\ push_repr m1 a1 /\
    changesTo 0 cs1 (pb_seq m1) /\ shows (ab_get a1) (replay ∅ cs1) /\
    followLogs m1 suf = Ok (cs2, m2) /\ push_repr m2 a /\ changesTo (pb_seq m1) cs2 (pb_seq m2) /\
    shows (ab_get a) (replay ∅ (cs1 ++ cs2)).
Proof.
  intros [Hall Hpre] E. destruct (Hpre pre.*1) as [a1 Hto]; [rewrite <- E, fmap_app; apply prefix_app_r; done|].
  destruct (Hto (newOrderBook pid) pre (newOrderBook_repr pid) eq_refl) as (cs1 & m1 & E1 & R1 & C1 & V1).
  destruct (Hall (newOrderBook pid) (pre ++ suf) (newOrderBook_repr pid) E) as (cs & m2 & E2 & R2 & C2 & V2).
  rewrite followLogs_app, E1 in E2. cbn [mbind outcome_bind] in E2. apply bind_Ok in E2 as ([cs2 m2'] & E2 & [= <- <-]).
  exists a1, cs1, m1, cs2, m2'. do 2 (split; [done|]). split; [exact C1|]. split; [apply V1, empty_shows|]. do 2 (split; [done|]).
  split; [|apply V2, empty_shows]. by eapply changesTo_app_inv.
Qed.

(** ** The theorems *)

(** C25: the push server's book mirrors the engine's.  Whatever well-formed
    orders the engine works, its logs run through the push server without a
    crash; the push server's book then holds exactly the orders that rest, each
    price level with the sum of their sizes and their number, and the changes
    it publishes are numbered 1, 2, 3, ... (A redelivered order that the engine
    may kill is excluded: it is reported done once more.) *)
Theorem push_book_mirrors product pid (orders : list Order) : Forall order_ok orders -> killsFresh [] orders ->
  exists o logs, runOrders now (NewOrderBook product) orders = Ok (o, logs) /\
    forall ologs, ologs.*1 = logs ->
      exists cs m, followLogs (newOrderBook pid) ologs = Ok (cs, m) /\ mirrors m o /\ changesTo 0 cs (pb_seq m).
Proof.
  intros Hok Hk. destruct (runOrders_followed now orders _ _ [] (NewOrderBook_repr product) Hok) as (o & a & logs & E & B & [F _]);
    [intros id Hid; inversion Hid|done|].
  exists o, logs. split; [done|]. intros ologs El.
  destruct (F (newOrderBook pid) ologs (newOrderBook_repr pid) El) as (cs & m & E1 & R & C & _).
  exists cs, m. split; [done|]. split; [by apply (push_mirrors m o a)|exact C].
Qed.

(** What the level 2 writer of a client finds: changes of the stream or requests
    for a snapshot, and snapshots of the stream's book after some of the logs,
    with all its levels. *)
Definition streamed pid (ologs : list (Log * Z)) (cs : list Level2Change) (i : l2input) : Prop :=
  (in_change i ∈ cs \/ lc_Seq (in_change i) = 0) /\
  (forall snapshot, in_snapshot i = Some snapshot -> exists pre suf cs1 m1, ologs = pre ++ suf /\
     followLogs (newOrderBook pid) pre = Ok (cs1, m1) /\ SnapshotLevel2 m1 1000 = Ok snapshot /\
     (forall s, valid_side s -> levelCount m1 s <= 1000)).

(** The beginnings of the logs, as the changes see them. *)
Lemma prefix_changes pid a ologs pre suf cs m cs1 m1 : follows ab_empty ologs.*1 a ->
  followLogs (newOrderBook pid) ologs = Ok (cs, m) -> Z.of_nat (length cs) < i64_half - 1 -> ologs = pre ++ suf ->
  followLogs (newOrderBook pid) pre = Ok (cs1, m1) ->
  exists a1, push_repr m1 a1 /\ inRange cs (pb_seq m1) /\ shows (ab_get a1) (upTo cs (pb_seq m1)) /\
    pb_seq m1 = Z.of_nat (length cs1).
Proof.
  intros F E Hlen -> E1. destruct (prefix_book pid a _ pre suf F eq_refl) as (a1 & cs1' & m1' & cs2 & m2 & E1' & R1 & C1 & V1 & E2 & _).
  rewrite E1 in E1'. injection E1' as <- <-. rewrite followLogs_app, E1 in E. cbn [mbind outcome_bind] in E. rewrite E2 in E.
  injection E as <- <-. rewrite length_app in Hlen. exists a1. split; [done|].
  apply changesTo_last in C1; [|lia|lia]. rewrite Z.add_0_l in C1. rewrite C1. unfold inRange, upTo. rewrite length_app.
  split; [lia|]. split; [|done]. by rewrite Nat2Z.id, take_app_length.
Qed.

Lemma streamed_fed pid a ologs cs m i : follows ab_empty ologs.*1 a ->
  followLogs (newOrderBook pid) ologs = Ok (cs, m) -> Z.of_nat (length cs) < i64_half - 1 ->
  streamed pid ologs cs i -> fed cs i.
Proof.
  intros F E Hlen [Hc Hs]. split; [done|]. intros snapshot (pre & suf & cs1 & m1 & El & E1 & Esnap & Hn)%Hs.
  destruct (prefix_changes pid a ologs pre suf cs m cs1 m1 F E Hlen El E1) as (a1 & R1 & Hr & V1 & _).
  assert (l2_Seq snapshot = pb_seq m1) as Eseq by (by eapply SnapshotLevel2_seq).
  split; rewrite Eseq; [done|]. eapply shows_agree; [|exact V1]. by eapply snapshot_shows.
Qed.

Lemma followLog_one m log off cs m' : followLog m log off = Ok (cs, m') -> (length cs <= 1)%nat.
Proof. unfold followLog. intros (r & _ & E)%bind_Ok. destruct r as [[[c|] s]|]; injection E as <- <-; simpl; lia. Qed.

(** Every number of changes is that of a beginning of the logs. *)
Lemma prefix_at ologs : forall m0 cs m n, followLogs m0 ologs = Ok (cs, m) -> (n <= length cs)%nat ->
  exists pre suf m1, ologs = pre ++ suf /\ followLogs m0 pre = Ok (take n cs, m1).
Proof.
  induction ologs as [|[log off] ologs IH]; intros m0 cs m n E Hn; simpl in E.
  { injection E as <- <-. simpl in Hn. exists [], [], m0. by destruct n. }
  apply bind_Ok in E as ([cs0 m0'] & E0 & E). apply bind_Ok in E as ([cs' m'] & E' & [= <- <-]).
  destruct n as [|n]; [exists [], ((log, off) :: ologs), m0; done|]. pose proof (followLog_one _ _ _ _ _ E0) as H1.
  rewrite length_app in Hn. destruct (IH _ _ _ (S n - length cs0)%nat E') as (pre & suf & m1 & -> & E1); [lia|].
  exists ((log, off) :: pre), suf, m1. split; [done|]. simpl. rewrite E0. cbn [mbind outcome_bind]. rewrite E1.
  cbn [mbind outcome_bind]. rewrite take_app, (take_ge cs0) by lia. done.
Qed.

(** C26: a client that subscribes to the book sees the engine's book.  Whatever
    changes the client's level 2 writer misses or gets twice and whenever it
    finds which snapshot, the messages it sends (a snapshot and the updates
    after it, again and again) give the client, once it has a snapshot, the
    book of the push server between two logs: at every price of every side the
    sum of the sizes of the orders there, and no level where there is no order.
    With the last change it is the book the engine ends with.  The view is that
    of the last change the writer has worked, unless it holds changes back or
    waits for a snapshot.  On two conditions.  No snapshot is sent while changes
    are held back ([calm]); a second subscription, or the request the writer
    puts in its own queue after a gap, can come between a held back change and
    the next one, and then the view is wrong ([level2_resubscribe_stale]).  And
    the snapshots are of books of at most 1000 levels a side, for no more are
    sent ([streamed]). *)
Theorem client_shows_book product pid (orders : list Order) : Forall order_ok orders -> killsFresh [] orders ->
  exists o logs, runOrders now (NewOrderBook product) orders = Ok (o, logs) /\
    forall ologs, ologs.*1 = logs ->
      exists cs m, followLogs (newOrderBook pid) ologs = Ok (cs, m) /\
        (Z.of_nat (length cs) < i64_half - 1 -> forall ins, Forall (streamed pid ologs cs) ins -> calm freshL2 ins ->
         forall v, clientView (l2Run freshL2 ins).2 = Some v ->
           exists pre suf cs1 m1, ologs = pre ++ suf /\ followLogs (newOrderBook pid) pre = Ok (cs1, m1) /\
             shows (pushedAt m1) v /\ (pb_seq m1 = pb_seq m -> shows (restingAt o) v) /\
             let st := (l2Run freshL2 ins).1 in
             (l2s_resendSnapshot st = false -> l2s_changes st = [] -> pb_seq m1 = l2s_lastSeq st)).
Proof.
  intros Hok Hk. destruct (runOrders_followed now orders _ _ [] (NewOrderBook_repr product) Hok) as (o & a & logs & E & B & F);
    [intros id Hid; inversion Hid|done|].
  exists o, logs. split; [done|]. intros ologs <-.
  destruct F as [Fto Fpre]. pose proof (conj Fto Fpre : follows ab_empty ologs.*1 a) as F.
  destruct (Fto (newOrderBook pid) ologs (newOrderBook_repr pid) eq_refl) as (cs & m & E1 & R & C & V).
  exists cs, m. split; [done|]. intros Hlen ins Hins Hcalm v Hv.
  destruct (fed_view cs (pb_seq m) ins C Hlen) as (n & Hn & Hst); [|done|].
  { eapply Forall_impl; [exact Hins|]. intros i. by apply (streamed_fed pid a ologs cs m). }
  rewrite Hv in Hn. destruct n as [n|]; [|done]. destruct Hn as (Hr & w & [= <-] & Hag). unfold inRange in Hr.
  destruct (prefix_at _ _ _ _ (Z.to_nat n) E1) as (pre & suf & m1 & El & Epre); [lia|].
  destruct (prefix_changes pid a ologs pre suf cs m _ m1 F E1 Hlen El Epre) as (a1 & R1 & _ & V1 & Eseq).
  rewrite length_take_le in Eseq by lia. assert (pb_seq m1 = n) as En by lia. rewrite En in V1.
  exists pre, suf, (take (Z.to_nat n) cs), m1. split; [done|]. split; [done|]. split.
  { apply (pushed_shows m1 a1); [done|]. by eapply agree_shows. }
  split; [|intros st Hre Hch; destruct Hst as (_ & _ & Hst); destruct (Hst Hre) as (n' & [= <-] & El' & _); unfold st in *; rewrite Hch in El'; simpl in El'; lia].
  intros Em. change (pb_seq (newOrderBook pid)) with 0 in C. apply changesTo_last in C; [|lia|lia]. rewrite Z.add_0_l in C.
  apply (shows_perm (ab_get a)); [intros s Hs; by rewrite (resting_perm o a s B Hs)|].
  eapply agree_shows; [exact Hag|]. unfold upTo. rewrite En in Em. rewrite take_ge by lia. apply V, empty_shows.
Qed.

(** *** Restarts *)

(** The book has the place of the last log that changed it. *)
Lemma followLogs_place pre : forall m0 cs m, followLogs m0 pre = Ok (cs, m) ->
  exists p1 p2, pre = p1 ++ p2 /\ followLogs m p2 = Ok ([], m) /\
    ((p1 = [] /\ pb_logOffset m = pb_logOffset m0 /\ pb_logSeq m = pb_logSeq m0) \/
     exists p0 log off, p1 = p0 ++ [(log, off)] /\ pb_logOffset m = off /\ pb_logSeq m = GetSeq log).
Proof.
  induction pre as [|[log off] pre IH] using rev_ind; intros m0 cs m E.
  { injection E as <- <-. exists [], []. split; [done|]. split; [done|]. by left. }
  rewrite followLogs_app in E. apply bind_Ok in E as ([cs1 m1] & E1 & E). apply bind_Ok in E as ([cs2 m2] & E2 & [= <- <-]).
  simpl in E2. apply bind_Ok in E2 as ([cs3 m3] & E3 & [= _ <-]). destruct (followLog_logged _ _ _ _ _ E3) as [_ H].
  destruct H as [[-> ->]|(c & -> & _ & _ & Eo & Es)].
  - destruct (IH _ _ _ E1) as (p1 & p2 & -> & Ep & Hplace). exists p1, (p2 ++ [(log, off)]). rewrite app_assoc. split; [done|].
    split; [|exact Hplace]. rewrite followLogs_app, Ep. cbn [mbind outcome_bind followLogs]. rewrite E3. done.
  - exists (pre ++ [(log, off)]), []. split; [by rewrite app_nil_r|]. split; [done|]. right. by exists pre, log, off.
Qed.

(** What the log reader delivers to a stream that starts at a sequence number and an offset. *)
Definition deliveredFrom (start : Z * Z) (ologs : list (Log * Z)) : list (Log * Z) :=
  filter (fun x => start.1 < GetSeq x.1 /\ start.2 <= x.2) ologs.

Definition offsets_ok (ologs : list (Log * Z)) : Prop :=
  StronglySorted Z.lt ologs.*2 /\ Forall (fun off => 0 <= off < i64_half - 1) ologs.*2.

Lemma numbered_lookup (ologs : list (Log * Z)) i x : GetSeq <$> ologs.*1 = seqZ 1 (Z.of_nat (length ologs)) ->
  ologs !! i = Some x -> GetSeq x.1 = 1 + Z.of_nat i.
Proof.
  intros Hn Hi. assert (H : (GetSeq <$> ologs.*1) !! i = Some (GetSeq x.1)) by (by rewrite !list_lookup_fmap, Hi).
  rewrite Hn in H. apply lookup_seqZ in H as [-> _]. done.
Qed.

Lemma deliveredFrom_place m p1 p2 suf : GetSeq <$> (p1 ++ p2 ++ suf).*1 = seqZ 1 (Z.of_nat (length (p1 ++ p2 ++ suf))) ->
  offsets_ok (p1 ++ p2 ++ suf) ->
  ((p1 = [] /\ pb_logOffset m = 0 /\ pb_logSeq m = 0) \/
   exists p0 log off, p1 = p0 ++ [(log, off)] /\ pb_logOffset m = off /\ pb_logSeq m = GetSeq log) ->
  deliveredFrom (pb_logSeq m, if 0 <? pb_logOffset m then i64 (pb_logOffset m + 1) else pb_logOffset m) (p1 ++ p2 ++ suf) = p2 ++ suf.
Proof.
  intros Hn [Hs Hr] Hplace. assert (Hseq : forall i x, (p1 ++ p2 ++ suf) !! i = Some x -> GetSeq x.1 = 1 + Z.of_nat i)
    by (intros; by apply (numbered_lookup (p1 ++ p2 ++ suf))).
  assert (Hoff : forall x, x ∈ p1 ++ p2 ++ suf -> 0 <= x.2 < i64_half - 1).
  { intros x Hx. rewrite Forall_forall in Hr. apply Hr. by apply list_elem_of_fmap_2. }
  unfold deliveredFrom. rewrite filter_app. destruct Hplace as [(-> & -> & ->)|(p0 & log & off & -> & -> & ->)].
  - simpl. apply filter_id. intros x Hx. split; [|by apply (Hoff x)].
    apply list_elem_of_lookup in Hx as [i Hi]. rewrite (Hseq i x Hi). simpl. lia.
  - assert (El : GetSeq log = 1 + Z.of_nat (length p0)).
    { apply (Hseq (length p0) (log, off)). rewrite <- app_assoc. by apply list_lookup_middle. }
    assert (Ho : 0 <= off < i64_half - 1) by (apply (Hoff (log, off)); set_solver).
    rewrite filter_none, filter_id; [done| |].
    + intros x Hx. simpl. split.
      * apply list_elem_of_lookup in Hx as [i Hi]. rewrite (Hseq (length (p0 ++ [(log, off)]) + i)%nat x) by (rewrite lookup_app_r by lia; by rewrite Nat.add_comm, Nat.add_sub).
        rewrite El, length_app. simpl. lia.
      * rewrite fmap_app in Hs. apply StronglySorted_app in Hs as (Hcross & _).
        assert (off < x.2). { apply Hcross; [rewrite fmap_app; set_solver|by apply list_elem_of_fmap_2]. }
        destruct (0 <? off); [|lia]. rewrite i64_id by (unfold is_i64; lia). lia.
    + intros x Hx [Hgt _]. apply list_elem_of_lookup in Hx as [i Hi]. simpl in Hgt.
      assert (Hi' : (i < length (p0 ++ [(log, off)]))%nat) by (by eapply lookup_lt_Some). rewrite length_app in Hi'. simpl in Hi'.
      rewrite (Hseq i x) in Hgt by (by apply lookup_app_l_Some). lia.
Qed.

(** C28: a restart of the push server is invisible.  Take the engine's logs with
    their offsets in the log topic, and the full snapshot of the push server's
    book after any beginning of them, written in whatever order Go visits the
    map.  The stream that starts from this snapshot is delivered, by the
    sequence number and the offset it asks for, logs that give exactly the
    changes the old book would have published, and every level 2 snapshot it
    takes is that of the old book. *)
Theorem push_restart_continues visit product pid (orders : list Order) : (forall l, visit l ≡ₚ l) ->
  Forall order_ok orders -> killsFresh [] orders ->
  exists o logs, runOrders now (NewOrderBook product) orders = Ok (o, logs) /\
    forall pre suf, (pre ++ suf).*1 = logs -> offsets_ok (pre ++ suf) -> Z.of_nat (length logs) < i64_half ->
      exists cs m cs' m', followLogs (newOrderBook pid) pre = Ok (cs, m) /\ followLogs m suf = Ok (cs', m') /\
        exists s m2, newOrderBookStream pid (Some (SnapshotFull visit m)) = Ok s /\
          followLogs (os_orderBook s) (deliveredFrom (streamStart s) (pre ++ suf)) = Ok (cs', m2) /\
          forall n, SnapshotLevel2 m2 n = SnapshotLevel2 m' n.
Proof.
  intros Hv Hok Hk. destruct (runOrders_followed now orders _ _ [] (NewOrderBook_repr product) Hok) as (o & a & logs & E & B & F);
    [intros id Hid; inversion Hid|done|].
  exists o, logs. split; [done|]. intros pre suf El Hoff Hlen.
  destruct (runOrders_ok now orders _ _ (NewOrderBook_ok product) Hok) as (o' & a' & logs' & E' & _ & _ & Hnum & _).
  rewrite E in E'. injection E' as <- <-. destruct (numbered_seqZ logs 0 _ Hnum) as [Hn _]; [lia|lia|].
  destruct (prefix_book pid a logs pre suf F El) as (a1 & cs1 & m1 & cs2 & m2 & E1 & R1 & _ & _ & E2 & _).
  exists cs1, m1, cs2, m2. split; [done|]. split; [done|].
  destruct (RestoreFull_same pid visit m1 a1 Hv R1) as (m1' & Er & Sm).
  assert (exists s, newOrderBookStream pid (Some (SnapshotFull visit m1)) = Ok s /\ os_orderBook s = m1') as (s & Es & Eb)
    by (unfold newOrderBookStream; rewrite Er; by eexists).
  destruct (followLogs_place _ _ _ _ E1) as (p1 & p2 & -> & Ep2 & Hplace). rewrite <- app_assoc in *.
  pose proof (followLogs_same (p2 ++ suf) _ _ Sm) as Hsame. rewrite (followLogs_app m1), Ep2 in Hsame. cbn [mbind outcome_bind] in Hsame.
  rewrite E2 in Hsame. cbn [mbind outcome_bind] in Hsame.
  destruct (followLogs m1' (p2 ++ suf)) as [[cs3 m3]| | |] eqn:E3; [|done..]. destruct Hsame as [-> Hm].
  exists s, m3. split; [done|]. split; [|intros n; by apply SnapshotLevel2_same].
  unfold streamStart. rewrite Eb, (sp_logSeq _ _ Sm), (sp_logOffset _ _ Sm).
  rewrite deliveredFrom_place; [exact E3|rewrite El; rewrite Hn; by rewrite <- El, length_fmap|done|exact Hplace].
Qed.
End Books.

(** ** The theorems at work *)

Module PushDemo.
Import Demo.

(** Two bids at one price, a sell that takes one of them and half of the other, an ask. *)
Definition orders : list Order := [
  order 2000 SideBuy OrderTypeLimit GoodTillCanceled 2%Q 101%Q 0%Q; order 2001 SideBuy OrderTypeLimit GoodTillCanceled 1%Q 101%Q 0%Q;
  order 2002 SideSell OrderTypeLimit GoodTillCanceled (5 # 2)%Q 99%Q 0%Q; order 2003 SideSell OrderTypeLimit GoodTillCanceled 2%Q 102%Q 0%Q].
Definition ologs : list (Log * Z) :=
  imap (fun i log => (log, Z.of_nat i)) (getOk (NewOrderBook product, []) (runOrders clock (NewOrderBook product) orders)).2.
Definition followed : list Level2Change * pushBook := getOk ([], newOrderBook "BTC-USDT") (followLogs (newOrderBook "BTC-USDT") ologs).

Lemma imap_fst {A B} (f : nat -> B) (l : list A) : (imap (fun i x => (x, f i)) l).*1 = l.
Proof. revert f. induction l as [|x l IH]; intros f; [done|]. cbn. f_equal. apply (IH (f ∘ S)). Qed.
Lemma Ok_eq {E A} (x y : A) : Ok (E := E) x = Ok y -> x = y.
Proof. by intros [= ->]. Qed.
Lemma orders_ok : Forall order_ok orders.
Proof. repeat constructor; simpl; try (unfold u64_size; lia); first [by left|by right]. Qed.
Lemma orders_fresh : killsFresh [] orders.
Proof. repeat split; intros [_ [H|H]]; discriminate H. Qed.
Lemma run_logs o logs : runOrders clock (NewOrderBook product) orders = Ok (o, logs) -> ologs.*1 = logs.
Proof. intros E. unfold ologs. rewrite E. apply imap_fst. Qed.
Lemma run_follows : followLogs (newOrderBook "BTC-USDT") ologs = Ok followed.
Proof. apply isOk_get. vm_compute. reflexivity. Qed.

End PushDemo.

Section Witnesses.
Import Demo PushDemo.

Lemma push_book_mirrors_witness :
  exists o m, isOk (runOrders clock (NewOrderBook product) orders) = true /\ mirrors m o /\ pb_seq m = 5.
Proof.
  destruct (push_book_mirrors clock product "BTC-USDT" orders orders_ok orders_fresh) as (o & logs & E & H).
  destruct (H ologs (run_logs o logs E)) as (cs & m & E1 & Hm & _).
  exists o, m. split; [rewrite E; reflexivity|]. split; [exact Hm|].
  rewrite run_follows in E1. apply Ok_eq in E1. rewrite <- (f_equal snd E1 : followed.2 = m). vm_compute. reflexivity.
Defined.

Let bookAfter (k : nat) : pushBook := (getOk ([], newOrderBook "") (followLogs (newOrderBook "BTC-USDT") (take k ologs))).2.
Let snapAfter (k : nat) : OrderBookLevel2Snapshot :=
  getOk {| l2_ProductId := ""; l2_Seq := 0; l2_Asks := []; l2_Bids := [] |} (SnapshotLevel2 (bookAfter k) 1000).
Let change (n : nat) : Level2Change := nth n followed.1 (askSnapshot "").

(** Change 3 is lost; the client asks for a snapshot and goes on with change 5. *)
Let ins : list l2input := [
  {| in_snapshot := None; in_more := 1; in_change := askSnapshot "BTC-USDT" |};
  {| in_snapshot := Some (snapAfter 1); in_more := 0; in_change := change 0 |};
  {| in_snapshot := Some (snapAfter 1); in_more := 0; in_change := change 1 |};
  {| in_snapshot := Some (snapAfter 1); in_more := 0; in_change := change 3 |};
  {| in_snapshot := Some (snapAfter 5); in_more := 0; in_change := askSnapshot "BTC-USDT" |};
  {| in_snapshot := Some (snapAfter 5); in_more := 0; in_change := change 4 |}].

#[local] Lemma snap_streamed k : isOk (followLogs (newOrderBook "BTC-USDT") (take k ologs)) = true ->
  isOk (SnapshotLevel2 (bookAfter k) 1000) = true -> levelCount (bookAfter k) SideBuy <= 1000 ->
  levelCount (bookAfter k) SideSell <= 1000 -> forall snapshot, Some (snapAfter k) = Some snapshot ->
  exists pre suf cs1 m1, ologs = pre ++ suf /\ followLogs (newOrderBook "BTC-USDT") pre = Ok (cs1, m1) /\
    SnapshotLevel2 m1 1000 = Ok snapshot /\ (forall s, valid_side s -> levelCount m1 s <= 1000).
Proof.
  intros E1 E2 H1 H2 snapshot Es. apply (inj Some) in Es. rewrite <- Es.
  exists (take k ologs), (drop k ologs), (getOk ([], newOrderBook "") (followLogs (newOrderBook "BTC-USDT") (take k ologs))).1, (bookAfter k).
  split; [symmetry; apply take_drop|]. split; [rewrite <- surjective_pairing; by apply isOk_get|]. split; [by apply isOk_get|].
  intros s [Hs|Hs]; rewrite Hs; assumption.
Qed.

#[local] Lemma input_streamed sn more c : c ∈ followed.1 \/ lc_Seq c = 0 ->
  (forall snapshot, sn = Some snapshot -> exists pre suf cs1 m1, ologs = pre ++ suf /\
     followLogs (newOrderBook "BTC-USDT") pre = Ok (cs1, m1) /\ SnapshotLevel2 m1 1000 = Ok snapshot /\
     (forall s, valid_side s -> levelCount m1 s <= 1000)) ->
  streamed "BTC-USDT" ologs followed.1 {| in_snapshot := sn; in_more := more; in_change := c |}.
Proof. intros H1 H2. split; [exact H1|exact H2]. Qed.
#[local] Lemma change_in n : followed.1 !! n = Some (change n) -> change n ∈ followed.1 \/ lc_Seq (change n) = 0.
Proof. intros H. left. by eapply list_elem_of_lookup_2. Qed.

#[local] Lemma ins_streamed : Forall (streamed "BTC-USDT" ologs followed.1) ins.
Proof.
  assert (H1 : forall snapshot, Some (snapAfter 1) = Some snapshot -> _)
    by (apply snap_streamed; vm_compute; [reflexivity|reflexivity|discriminate|discriminate]).
  assert (H5 : forall snapshot, Some (snapAfter 5) = Some snapshot -> _)
    by (apply snap_streamed; vm_compute; [reflexivity|reflexivity|discriminate|discriminate]).
  assert (C0 := change_in 0 ltac:(vm_compute; reflexivity)). assert (C1 := change_in 1 ltac:(vm_compute; reflexivity)).
  assert (C3 := change_in 3 ltac:(vm_compute; reflexivity)). assert (C4 := change_in 4 ltac:(vm_compute; reflexivity)).
  refine (Forall_cons_2 _ _ _ _ (Forall_cons_2 _ _ _ _ (Forall_cons_2 _ _ _ _ (Forall_cons_2 _ _ _ _
    (Forall_cons_2 _ _ _ _ (Forall_cons_2 _ _ _ _ (Forall_nil_2 _))))))).
  - apply input_streamed; [right; reflexivity|]. intros snapshot Hs. discriminate Hs.
  - exact (input_streamed _ _ _ C0 H1).
  - exact (input_streamed _ _ _ C1 H1).
  - exact (input_streamed _ _ _ C3 H1).
  - apply input_streamed; [right; reflexivity|exact H5].
  - exact (input_streamed _ _ _ C4 H5).
Qed.

Lemma client_shows_book_witness :
  exists o v, isOk (runOrders clock (NewOrderBook product) orders) = true /\
    clientView (l2Run freshL2 ins).2 = Some v /\ shows (restingAt o) v /\ size v = 2%nat.
Proof.
  destruct (client_shows_book clock product "BTC-USDT" orders orders_ok orders_fresh) as (o & logs & E & H).
  destruct (H ologs (run_logs o logs E)) as (cs & m & E1 & Hc). rewrite run_follows in E1. apply Ok_eq in E1.
  assert (Ecs : followed.1 = cs) by (by rewrite E1). assert (Em : followed.2 = m) by (by rewrite E1).
  rewrite <- Ecs in Hc. specialize (Hc ltac:(vm_compute; reflexivity) ins ins_streamed).
  assert (Hcalm : calm freshL2 ins).
  { vm_compute. repeat (split; [intros; first [reflexivity|discriminate]|]). exact I. }
  assert (Hv : clientView (l2Run freshL2 ins).2 = Some (default ∅ (clientView (l2Run freshL2 ins).2)))
    by (apply isSome_get; vm_compute; reflexivity).
  destruct (Hc Hcalm _ Hv) as (pre & suf & cs1 & m1 & _ & _ & _ & Hshow & Hat).
  exists o. eexists. split; [rewrite E; reflexivity|]. split; [exact Hv|]. split; [|vm_compute; reflexivity].
  apply Hshow. rewrite Hat; [|vm_compute; reflexivity|vm_compute; reflexivity]. rewrite <- Em. vm_compute. reflexivity.
Defined.

#[local] Lemma ologs_offsets : offsets_ok ologs.
Proof.
  assert (E : ologs.*2 = [0; 1; 2; 3; 4; 5; 6]) by (vm_compute; reflexivity).
  unfold offsets_ok. rewrite E. unfold i64_half. split; repeat constructor; lia.
Qed.

Lemma push_restart_continues_witness :
  exists cs' m s m2, followLogs m (drop 3 ologs) = Ok (cs', m2) /\
    newOrderBookStream "BTC-USDT" (Some (SnapshotFull (fun l => reverse l) m)) = Ok s /\
    isOk (followLogs (os_orderBook s) (deliveredFrom (streamStart s) ologs)) = true /\
    followLogs (newOrderBook "BTC-USDT") (take 3 ologs) = Ok (take 3 followed.1, m).
Proof.
  assert (Hlen : Z.of_nat (length ologs) < i64_half) by (vm_compute; reflexivity).
  destruct (push_restart_continues clock (fun l => reverse l) product "BTC-USDT" orders (fun l => reverse_Permutation l) orders_ok orders_fresh)
    as (o & logs & E & H). pose proof (run_logs o logs E) as El.
  destruct (H (take 3 ologs) (drop 3 ologs)) as (cs & m & cs' & m' & E1 & E2 & s & m2 & Es & Ed & _).
  { rewrite take_drop. exact El. }
  { rewrite take_drop. exact ologs_offsets. }
  { rewrite <- El, length_fmap. exact Hlen. }
  rewrite take_drop in Ed. exists cs', m, s, m'. split; [exact E2|]. split; [exact Es|]. split; [rewrite Ed; reflexivity|].
  rewrite E1. do 2 f_equal. apply (f_equal (fun r => (getOk ([], newOrderBook "") r).1)) in E1.
  transitivity (getOk ([], newOrderBook "") (followLogs (newOrderBook "BTC-USDT") (take 3 ologs))).1; [symmetry; exact E1|vm_compute; reflexivity].
Defined.
End Witnesses.
