(* ===== verification/HubTheorems.v ===== *)
(** The theorems on the push server's streams and clients: what reaches whom, in
    what order, and where the goroutines of a client stop. *)
From S2P Require Import Prelude Decimal TreeMap Models Window MatchLog OrderBook DepthInv Matching Book Trading Applier Snapshots Observe.
From S2P Require Import PushBook PushInv PushView PushMirror PushEquiv Messages Hub HubRun Publishing HubAccess Level2 ClientView LogReader Ledger Streams StreamRun PushTheorems.
From Stdlib Require Import QArith Lqa.
From stdpp Require Import gmap strings list.
Open Scope string_scope.
Open Scope list_scope.
Open Scope Z_scope.

(** ** The order book stream *)

Section Stream.
Context {P : DecimalPkg} {L : DecimalLaws P} {T : TreeMapPkg} {TL : TreeMapLaws T}.
Context (now : Z -> Instant).

(** The topic holds the logs, each at least once, from offset zero on. *)
Record topicOf (logs : list Log) (topic : list logMessage) : Prop := {
  to_logs : lm_Log <$> freshLogs 0 topic = logs;
  to_gap : gap_free 0 topic;
  to_i64 : Forall (fun m => is_i64 (lm_Seq m)) topic;
  to_offsets : Forall (fun m => 0 <= lm_Offset m) topic;
}.

(** C27: the order book stream follows the engine.  In every interleaving of the
    log reader, the callback's send, the applier (its work on a log, its send of a
    full snapshot, its publishing) and its timer, the snapshot goroutine and
    whatever the other goroutines of the push server do, the logs of the topic
    are worked one by one in order, exactly the changes of the logs worked so
    far have been published, in order, but for the last while the applier has it
    in hand; every level 2 snapshot it has
    put up is one of the book after some beginning of the logs, and the last is at most
    ten changes behind; every full snapshot it has stored is one of such a
    book; no step of it crashes; and when it has worked everything its book
    mirrors the engine's. *)
Theorem stream_follows_engine visit product pid (orders : list Order) : Forall order_ok orders -> killsFresh [] orders ->
  exists o logs, runOrders now (NewOrderBook product) orders = Ok (o, logs) /\
    forall topic h0 s0 evs sys, topicOf logs topic -> Z.of_nat (length logs) < i64_half ->
      newOrderBookStream pid None = Ok s0 -> streamRun visit pid (startSys s0 topic h0) evs = Ok sys ->
      let st := sy_stream sys in
      exists worked rest cs hevs, logOf <$> freshLogs 0 topic = worked ++ rest /\
        followLogs (newOrderBook pid) worked = Ok (cs, os_orderBook st) /\
        hubRun h0 hevs = Ok (sy_hub sys) /\
        levelPubs pid hevs ++ (MLevel2Change <$> option_list (os_unpublished st)) = MLevel2Change <$> cs /\
        (forall snapshot, EvSetLevel2 pid snapshot ∈ hevs ->
           afterPrefix s0 worked (fun m => SnapshotLevel2 m 1000 = Ok snapshot)) /\
        (forall snapshot, os_lastLevel2Snapshot st = Some snapshot ->
           l2_Seq snapshot <= pb_seq (os_orderBook st) <= l2_Seq snapshot + 10) /\
        (forall full, os_stored st = Some full -> afterPrefix s0 worked (fun m => full = SnapshotFull visit m)) /\
        (forall ev, (forall hev, ev <> StHub hev) -> streamStep visit pid ev sys <> Panic) /\
        (rest = [] -> mirrors (os_orderBook st) o).
Proof.
  intros Hok Hk. destruct (runOrders_followed now orders _ _ [] (NewOrderBook_repr product) Hok) as (o & a & logs & E & B & F);
    [intros id Hid; inversion Hid|done|].
  exists o, logs. split; [done|]. intros topic h0 s0 evs sys [Tl Tg Ti To] Hlen Hnew Hrun st.
  assert (Eb : os_orderBook s0 = newOrderBook pid) by (unfold newOrderBookStream in Hnew; by injection Hnew as <-).
  assert (Est : streamStart s0 = (0, 0)) by (unfold streamStart; by rewrite Eb).
  assert (Ef : sy_topic (startSys s0 topic h0) = topic).
  { unfold startSys. cbn [sy_topic]. rewrite Est. apply filter_id. intros m Hm. rewrite Forall_forall in To. by apply To. }
  assert (El : sy_lastSeq (startSys s0 topic h0) = 0) by (unfold startSys; cbn [sy_lastSeq]; by rewrite Est).
  assert (Esrc : source s0 topic h0 = logOf <$> freshLogs 0 topic) by (unfold source; by rewrite Ef, El).
  assert (Efst : (source s0 topic h0).*1 = logs) by (rewrite Esrc, <- list_fmap_compose; exact Tl).
  assert (Hwf : push_wf (os_orderBook s0)).
  { rewrite Eb. intros s Hs. destruct (pr_side _ _ (newOrderBook_repr pid) s Hs) as (t & Ht & l & Rt & _). by exists t, l. }
  destruct F as [Fto Fpre]. destruct (Fto (newOrderBook pid) (source s0 topic h0) (newOrderBook_repr pid) Efst)
    as (csA & mA & EA & RA & _).
  assert (Hsrc : isOk (followLogs (os_orderBook s0) (source s0 topic h0)) = true) by (by rewrite Eb, EA).
  assert (Hl : pb_seq (os_orderBook s0) + Z.of_nat (length (source s0 topic h0)) < i64_half).
  { rewrite Eb. rewrite <- Efst, length_fmap in Hlen. exact Hlen. }
  assert (Hseq : 0 <= pb_seq (os_orderBook s0)) by (by rewrite Eb).
  assert (Hgap : gap_free (sy_lastSeq (startSys s0 topic h0)) (sy_topic (startSys s0 topic h0))) by (by rewrite Ef, El).
  pose proof (streamRun_ok visit pid None s0 topic h0 Hnew Hwf Hgap Ti Hsrc Hseq Hl evs _ _
    (start_ok visit pid None s0 topic h0 Hnew Hwf Hgap Ti Hsrc Hseq Hl) Hrun) as Hst.
  pose proof (fun ev => stream_no_crash visit pid None s0 topic h0 Hwf Hsrc Hseq Hl ev sys Hst) as Hnc.
  destruct Hst as [_ _ _ (worked & cs & hevs & H0 & H1 & H2 & H3 & H4 & _ & H6) Hn]. rewrite Esrc in H0. rewrite Eb in H1.
  eexists worked, _, cs, hevs. split; [exact H0|]. do 3 (split; [done|]). split; [exact H4|]. split; [exact Hn|].
  split; [intros full Ef'; destruct H6 as [H6|(full' & E' & H6)]; unfold st in Ef'; [congruence|by assert (full' = full) as -> by congruence]|].
  split; [exact Hnc|]. intros Hrest. rewrite Hrest, app_nil_r, <- Esrc in H0. rewrite H0, H1 in EA. injection EA as _ <-.
  by apply (push_mirrors _ o a).
Qed.
End Stream.

(** ** Who gets what is published *)


(** C30: nobody can listen to another user's orders, trades or funds.  Whatever a
    request asks for, the only channels with a user's own data it subscribes
    its client to are those of the user of its token (of user 0, without one);
    a request whose token is refused changes nothing. *)
Theorem request_keeps_private CheckToken h id req h' : onMessage CheckToken h id req = Ok h' ->
  match CheckToken (req_Token req) with
  | Ok user => forall i channel, inChannel (h_subscribers h') i channel ->
      inChannel (h_subscribers h) i channel \/ (i = id /\ forall v, privateTo v channel -> v = default 0 user)
  | _ => h' = h
  end.
Proof.
  intros E. destruct (CheckToken (req_Token req)) as [user|e| |] eqn:Hu.
  - destruct (onMessage_runs CheckToken id h req user Hu h' E) as (evs & Hrun & Hevs). intros i channel Hin.
    destruct (request_adds id (default 0 user) evs h h' i channel Hrun Hevs Hin) as [?|[? Hp]]; [by left|by right].
  - rewrite (onMessage_refused CheckToken id h req e Hu) in E. by injection E.
  - unfold onMessage, onSub, onUnSub in E. rewrite Hu in E. repeat case_bool; try done. by injection E.
  - unfold onMessage, onSub, onUnSub in E. rewrite Hu in E. repeat case_bool; try done. by injection E.
Qed.

(** ** The two writers of a client wait for each other *)

(** The writer wants to send to a full [l2ChangeCh], the level 2 writer to a full [writeCh]. *)
Definition stuck (c : Client) : Prop :=
  is_Some (c_forwarding c) /\ l2ChangeChannelSize <= Z.of_nat (length (c_l2ChangeCh c)) /\
  c_pushing c <> [] /\ writeChannelSize <= Z.of_nat (length (c_writeCh c)).

Lemma stuck_send {A} cap (ch : list A) x r : cap <= Z.of_nat (length ch) -> send cap ch x = Ok r -> False.
Proof. unfold send. destruct (Z.ltb_spec (Z.of_nat (length ch)) cap); [lia|done]. Qed.

(** A client that is stuck stays as it is, but for its channels. *)
Definition stays (c c' : Client) : Prop := stuck c' /\ c_sent c' = c_sent c /\ c_writeCh c' = c_writeCh c.

Lemma stays_channels c chs : stuck c -> stays c (c_setChannels c chs).
Proof. intros H. split; [exact H|done]. Qed.
Lemma stays_refl c : stuck c -> stays c c.
Proof. intros H. split; [exact H|done]. Qed.
#[local] Hint Resolve stays_refl stays_channels : core.

Lemma stuck_stays ev h h' id c : hubStep ev h = Ok h' -> h_clients h !! id = Some c -> stuck c ->
  exists c', h_clients h' !! id = Some c' /\ stays c c'.
Proof.
  intros E Hc Hst. pose proof Hst as ((l & Hl) & Hl2 & Hp & Hw). assert (Hself : exists c', Some c = Some c' /\ stays c c') by eauto.
  assert (Hch : forall i c0 chs, h_clients h !! i = Some c0 ->
    exists c', <[i := c_setChannels c0 chs]> (h_clients h) !! id = Some c' /\ stays c c').
  { intros i c0 chs Hi. destruct (decide (i = id)) as [->|]; [rewrite lookup_insert_eq|rewrite lookup_insert_ne, Hc by done; eauto].
    assert (c0 = c) as -> by congruence. eauto. }
  assert (Hown : forall i f, clientStep h i f = Ok h' -> (forall r, f c = Ok r -> False) ->
    exists c', h_clients h' !! id = Some c' /\ stays c c').
  { intros i f (c0 & c1 & Hi & Ef & ->)%clientStep_Ok Hf. simpl. destruct (decide (i = id)) as [->|Hne].
    - assert (c0 = c) as -> by congruence. by destruct (Hf c1).
    - rewrite lookup_insert_ne, Hc by done. done. }
  destruct ev; simpl in E.
  - destruct (decide _) as [Hn|]; [|done]. injection E as <-. simpl. rewrite lookup_insert_ne by congruence. by rewrite Hc.
  - apply withClient_Ok in E as (c0 & Hi & [= <-]). unfold subscribe. destruct (decide _); [simpl; by rewrite Hc|].
    destruct (sub_subscribe _ _ _) as [[] subs]; simpl; [by apply Hch|by rewrite Hc].
  - apply withClient_Ok in E as (c0 & Hi & [= <-]). unfold unsubscribe.
    destruct (sub_unsubscribe _ _ _) as [[] subs]; simpl; [by apply Hch|by rewrite Hc].
  - apply withClient_Ok in E as (c0 & Hi & [= <-]). simpl. by rewrite Hc.
  - apply (Hown _ _ E). intros r (ch & Hs & _)%bind_Ok. exact (stuck_send _ _ _ _ Hl2 Hs).
  - apply (Hown _ _ E). intros r (ch & Hs & _)%bind_Ok. exact (stuck_send _ _ _ _ Hw Hs).
  - injection E as <-. unfold publish. destruct (h_subscribers h !! channel); [|by rewrite Hc]. simpl. unfold publishTo.
    rewrite map_lookup_imap, Hc. simpl. unfold offer. destruct (Z.ltb_spec (Z.of_nat (length (c_writeCh c))) writeChannelSize); [lia|].
    by destruct (decide _).
  - apply (Hown _ _ E). unfold writeStep. rewrite Hl. intros r (ch & Hs & _)%bind_Ok. exact (stuck_send _ _ _ _ Hl2 Hs).
  - apply (Hown _ _ E). unfold l2Step. destruct (c_pushing c) as [|msg msgs]; [done|]. intros r (ch & Hs & _)%bind_Ok. exact (stuck_send _ _ _ _ Hw Hs).
  - injection E as <-. simpl. by rewrite Hc.
  - injection E as <-. simpl. by rewrite Hc.
Qed.

Lemma stuck_forever evs : forall h h' id c, hubRun h evs = Ok h' -> h_clients h !! id = Some c -> stuck c ->
  exists c', h_clients h' !! id = Some c' /\ stays c c'.
Proof.
  induction evs as [|ev evs IH]; intros h h' id c E Hc Hst; simpl in E; [injection E as <-; eauto|].
  apply bind_Ok in E as (h1 & E1 & E). destruct (stuck_stays ev h h1 id c E1 Hc Hst) as (c1 & Hc1 & Hst1 & Es & Ew).
  destruct (IH h1 h' id c1 E Hc1 Hst1) as (c2 & Hc2 & Hst2 & Es2 & Ew2). exists c2. split; [done|]. split; [done|].
  by rewrite Es2, Ew2, Es, Ew.
Qed.

(** A burst of changes on a subscribed client. *)
Definition burstChange (n : nat) : Level2Change :=
  {| lc_Seq := Z.of_nat n; lc_ProductId := "BTC-USDT"; lc_Side := "buy"; lc_Price := "1"; lc_Size := pretty.pretty (Z.of_nat n) |}.
Definition burst (first count : nat) : list hubEvent :=
  (fun n => EvPublish "level2:BTC-USDT" (MLevel2Change (burstChange n))) <$> seq first count.
(** A change is published and passed on by the writer. *)
Definition passOn (first count : nat) : list hubEvent :=
  n ← seq first count; [EvPublish "level2:BTC-USDT" (MLevel2Change (burstChange n)); EvWrite 1; EvWrite 1].

Definition burstRun : list hubEvent :=
  [EvSetLevel2 "BTC-USDT" {| l2_ProductId := "BTC-USDT"; l2_Seq := 0; l2_Asks := []; l2_Bids := [] |};
   EvConnect 1; EvSubscribe 1 "level2:BTC-USDT"; EvAsk 1 "BTC-USDT"; EvLevel2 1] ++
  passOn 1 512 ++ burst 513 256 ++ [EvWrite 1] ++ burst 769 1.

(** A client can stop for good.  A client subscribes to a book, its level 2
    writer has taken the request and holds the snapshot; then 769 changes are
    published, numbered 1 to 769, before the level 2 writer sends.  Now the writer waits to pass a
    change on to the level 2 writer, whose channel is full, and the level 2
    writer waits to send the snapshot to the writer, whose channel is full:
    whatever happens afterwards, neither takes a step and nothing is ever
    written to the connection again. *)
Theorem level2_deadlock : exists h c, hubRun newHub burstRun = Ok h /\
  h_clients h !! 1 = Some c /\ stuck c /\ c_sent c = [] /\
  forall evs h', hubRun h evs = Ok h' -> exists c', h_clients h' !! 1 = Some c' /\ stuck c' /\ c_sent c' = [].
Proof.
  assert (H : match hubRun newHub burstRun with
              | Ok h => match h_clients h !! 1 with
                        | Some c => isSome (c_forwarding c) && (length (c_l2ChangeCh c) =? 512)%nat &&
                                    (length (c_pushing c) =? 1)%nat && (length (c_writeCh c) =? 256)%nat && (length (c_sent c) =? 0)%nat
                        | None => false
                        end
              | _ => false
              end = true) by (vm_compute; reflexivity).
  destruct (hubRun newHub burstRun) as [h| | |]; [|done..]. destruct (h_clients h !! 1) as [c|] eqn:Hc; [|done].
  apply andb_true_iff in H as [[[[H1 H2]%andb_true_iff H3]%andb_true_iff H4]%andb_true_iff H5].
  apply Nat.eqb_eq in H2, H3, H4, H5. assert (Hst : stuck c).
  { split; [destruct (c_forwarding c); [by eexists|done]|]. rewrite H2, H4. unfold l2ChangeChannelSize, writeChannelSize.
    split; [lia|]. split; [|lia]. intros E. by rewrite E in H3. }
  apply nil_length_inv in H5. exists h, c. split; [done|].
  do 3 (split; [done|]). intros evs h' E. destruct (stuck_forever evs h h' 1 c E Hc Hst) as (c' & Hc' & Hst' & Es & _).
  exists c'. split; [done|]. split; [done|]. by rewrite Es.
Qed.

(** ** Two publishes and a client that has stopped *)

(** A publish waits to send to a client that is stuck. *)
Definition held (s : server) (p id : Z) : Prop :=
  (exists u, sv_publishers s !! p = Some u /\ pu_sending u = Some id) /\ exists c, h_clients (sv_hub s) !! id = Some c /\ stuck c.

Lemma held_stays ev s s' p id : serverStep ev s = Ok s' -> held s p id -> held s' p id.
Proof.
  intros E [(u & Hu & Hs) (c & Hc & Hst)]. assert (Hown : held s p id) by (split; eauto).
  assert (Hpub : forall p' u', p' <> p -> held (sv_setPublisher s p' u') p id).
  { intros p' u' Hne. split; [exists u; simpl; by rewrite lookup_insert_ne|eauto]. }
  destruct ev; simpl in E.
  - case_bool; [|done]. apply bind_Ok in E as (h & E & [= <-]).
    destruct (stuck_stays _ _ _ id c E Hc Hst) as (c' & Hc' & Hst' & _). split; eauto.
  - apply publishStart_Ok in E as (Hn & _ & _ & ->). apply Hpub. congruence.
  - apply publishTest_Ok in E as (u1 & i & todo & c1 & u' & Hu1 & E1 & _ & _ & -> & _). apply Hpub. congruence.
  - apply publishSend_Ok in E as (u1 & i & c1 & Hu1 & E1 & H1 & Hlen & ->). destruct Hst as (_ & _ & _ & Hfull).
    assert (i <> id) as Hi by (intros ->; assert (c1 = c) as -> by congruence; lia). split; simpl.
    + exists u. rewrite lookup_insert_ne by congruence. done.
    + exists c. rewrite lookup_insert_ne by done. split; [done|]. destruct Hown as [_ (c2 & Hc2 & Hst2)].
      by assert (c2 = c) as <- by congruence.
  - apply publishReturn_Ok in E as (u1 & Hu1 & E1 & _ & ->). split; [exists u; simpl; rewrite lookup_delete_ne by congruence; done|eauto].
  - apply withClient_Ok in E as (c1 & _ & E). case_bool; [|done]. injection E as <-. exact Hown.
  - unfold closeLeave in E. destruct (sv_closing s !! id0); [|done]. case_bool; [|done]. injection E as <-. exact Hown.
  - unfold closeEnd in E. destruct (sv_closing s !! id0); [|done]. case_bool; [|done]. injection E as <-. exact Hown.
Qed.

Lemma held_forever evs : forall s s' p id, serverRun s evs = Ok s' -> held s p id -> held s' p id.
Proof.
  induction evs as [|ev evs IH]; intros s s' p id E H; simpl in E; [by injection E as <-|].
  apply bind_Ok in E as (s1 & E1 & E). eapply IH; [exact E|]. by eapply held_stays.
Qed.

Lemma held_locked s p id : held s p id -> unlocked s = false.
Proof. intros [(u & Hu & _) _]. apply bool_decide_eq_false_2. intros E. by rewrite E, lookup_empty in Hu. Qed.

(** A step of [burstRun], its publishes with all their steps. *)
Definition uninterrupted (ev : hubEvent) : list serverEvent :=
  match ev with
  | EvPublish channel msg => [SvPublish 0 channel msg [1]; SvTest 0; SvSend 0; SvReturn 0]
  | _ => [SvHub ev]
  end.
(** The client's queues fill as in [burstRun]; when one place is left in
    [writeCh], two publishes test, and one sends. *)
Definition lockRun : list serverEvent :=
  (take (length burstRun - 1) burstRun ≫= uninterrupted) ++
  [SvPublish 1 "level2:BTC-USDT" (MLevel2Change (burstChange 769)) [1]; SvPublish 2 "level2:BTC-USDT" (MLevel2Change (burstChange 770)) [1];
   SvTest 1; SvTest 2; SvSend 1; SvReturn 1].

(** One client that has stopped can stop the whole server.  [publish] reads the
    length of a queue before it sends; when two publishes find the same last
    place, one of them waits, with the read lock held.  If the client is one
    that has stopped ([level2_deadlock]), it waits for ever, and from then on
    nobody can subscribe to a channel that is new to him, or unsubscribe, or
    leave his channels when he is closed. *)
Theorem publish_keeps_lock : exists s, serverRun newServer lockRun = Ok s /\
  forall evs s', serverRun s evs = Ok s' -> forall id channel,
    (known (sv_hub s') id channel = false -> serverStep (SvHub (EvSubscribe id channel)) s' = Err Blocked) /\
    serverStep (SvHub (EvUnsubscribe id channel)) s' = Err Blocked /\
    serverStep (SvLeave id channel) s' = Err Blocked.
Proof.
  assert (H : match serverRun newServer lockRun with
              | Ok s => match sv_publishers s !! 2, h_clients (sv_hub s) !! 1 with
                        | Some u, Some c => bool_decide (pu_sending u = Some 1) && isSome (c_forwarding c) && (length (c_l2ChangeCh c) =? 512)%nat &&
                                    (length (c_pushing c) =? 1)%nat && (length (c_writeCh c) =? 256)%nat
                        | _, _ => false
                        end
              | _ => false
              end = true) by (vm_compute; reflexivity).
  destruct (serverRun newServer lockRun) as [s| | |]; [|done..]. destruct (sv_publishers s !! 2) as [u|] eqn:Hu; [|done].
  destruct (h_clients (sv_hub s) !! 1) as [c|] eqn:Hc; [|done].
  apply andb_true_iff in H as [[[[H0 H1]%andb_true_iff H2]%andb_true_iff H3]%andb_true_iff H4].
  apply Nat.eqb_eq in H2, H3, H4. apply bool_decide_eq_true in H0. assert (Hst : stuck c).
  { split; [destruct (c_forwarding c); [by eexists|done]|]. rewrite H2, H4. unfold l2ChangeChannelSize, writeChannelSize.
    split; [lia|]. split; [|lia]. intros E. by rewrite E in H3. }
  exists s. split; [done|]. intros evs s' E id channel.
  assert (Hl : unlocked s' = false) by (eapply held_locked, (held_forever evs s s' 2 1 E); split; eauto).
  split; [|split].
  - intros Hk. cbn [serverStep mayRun]. rewrite Hk, Hl. by rewrite andb_false_r.
  - cbn [serverStep mayRun]. rewrite Hl. by rewrite andb_false_r.
  - cbn [serverStep]. unfold closeLeave. destruct (sv_closing s' !! id); [|done]. by rewrite Hl, andb_false_r.
Qed.

(** ** A second subscription in the middle of a burst *)

Section Stale.
Import Demo.

Definition staleChange (n : Z) (side : Side) (price size : Q) : Level2Change := {|
  lc_Seq := n; lc_ProductId := "BTC-USDT"; lc_Side := side; lc_Price := dec_String price; lc_Size := dec_String size |}.

(** A bid comes and goes, another one stays, an ask comes and grows, another ask comes. *)
Definition staleChanges : list Level2Change := [
  staleChange 1 SideBuy 100%Q 2%Q; staleChange 2 SideBuy 99%Q 1%Q; staleChange 3 SideBuy 100%Q 0%Q;
  staleChange 4 SideSell 101%Q 1%Q; staleChange 5 SideSell 101%Q 3%Q; staleChange 6 SideSell 102%Q 1%Q].

Definition staleSnapshot0 : OrderBookLevel2Snapshot := {| l2_ProductId := "BTC-USDT"; l2_Seq := 0; l2_Asks := []; l2_Bids := [] |}.
Definition staleSnapshot5 : OrderBookLevel2Snapshot := {| l2_ProductId := "BTC-USDT"; l2_Seq := 5;
  l2_Asks := [Some (dec_String 101%Q, dec_String 3%Q, 1)]; l2_Bids := [Some (dec_String 99%Q, dec_String 1%Q, 1)] |}.

Definition staleRun : list l2input := [
  {| in_snapshot := Some staleSnapshot0; in_more := 0; in_change := askSnapshot "BTC-USDT" |};
  {| in_snapshot := Some staleSnapshot0; in_more := 1; in_change := staleChange 1 SideBuy 100%Q 2%Q |};
  {| in_snapshot := Some staleSnapshot5; in_more := 0; in_change := askSnapshot "BTC-USDT" |};
  {| in_snapshot := Some staleSnapshot5; in_more := 0; in_change := staleChange 6 SideSell 102%Q 1%Q |}].

Definition staleView : level2View := default ∅ (clientView (l2Run freshL2 staleRun).2).

(** A client that subscribes again can be shown a book that never was.  The
    level 2 writer holds changes back while more are waiting; a request for a
    snapshot sends the snapshot at once and keeps what it holds back.  Here
    change 1 is held back, the snapshot sent next has the changes up to 5 in
    it, and the next update carries change 1 again, before change 6.  Every
    snapshot and change is the stream's, but the client's view is not that of
    any number of changes: it shows the bid of change 1, which change 3 removed. *)
Theorem level2_resubscribe_stale : changesTo 0 staleChanges 6 /\ Forall (fed staleChanges) staleRun /\
  forall n, ~ viewAt staleChanges n (clientView (l2Run freshL2 staleRun).2).
Proof.
  split; [vm_compute; repeat split|]. split.
  - assert (H0 : forall snapshot, Some staleSnapshot0 = Some snapshot -> rightSnapshot staleChanges snapshot).
    { intros snapshot Hs. apply (inj Some) in Hs. rewrite <- Hs. split; [vm_compute; split; discriminate|]. intros s q _. reflexivity. }
    assert (H5 : forall snapshot, Some staleSnapshot5 = Some snapshot -> rightSnapshot staleChanges snapshot).
    { intros snapshot Hs. apply (inj Some) in Hs. rewrite <- Hs. split; [vm_compute; split; discriminate|].
      assert (viewOf staleSnapshot5 = upTo staleChanges (l2_Seq staleSnapshot5)) as ->
        by (apply (bool_decide_unpack _); vm_compute; exact I). done. }
    repeat apply Forall_cons_2; [..|apply Forall_nil_2]; (split; [|assumption]).
    + right. reflexivity.
    + left. apply list_elem_of_here.
    + right. reflexivity.
    + left. apply (list_elem_of_lookup_2 _ 5). reflexivity.
  - intros [n|]; [|intros E; apply (f_equal isSome) in E; vm_compute in E; discriminate E].
    intros (Hn & w & Hw & Hag). unfold inRange in Hn. simpl in Hn.
    assert (Hv := isSome_get ∅ (clientView (l2Run freshL2 staleRun).2) ltac:(vm_compute; reflexivity)).
    rewrite Hv in Hw. apply (inj Some) in Hw. rewrite <- Hw in Hag.
    assert (Hno : forallb (fun n => negb (bool_decide (staleView !! (SideBuy, dec_String 100%Q) = upTo staleChanges n !! (SideBuy, dec_String 100%Q)) &&
      bool_decide (staleView !! (SideSell, dec_String 102%Q) = upTo staleChanges n !! (SideSell, dec_String 102%Q)))) (seqZ 0 7) = true)
      by (vm_compute; reflexivity).
    rewrite forallb_forall in Hno. specialize (Hno n). rewrite <- list_elem_of_In, elem_of_seqZ in Hno. specialize (Hno ltac:(lia)).
    apply negb_true_iff, andb_false_iff in Hno as [Hno|Hno]; apply bool_decide_eq_false in Hno; apply Hno, Hag; [by left|by right].
Qed.
End Stale.

(** ** Tickers *)

Section Tickers.
Context {P : DecimalPkg} {L : DecimalLaws P}.
Implicit Types (t : Tick).

(** What the last ticks add up to. *)
Record merged (kept : list Tick) (newest t : Tick) : Prop := {
  mg_close : tick_Close t = tick_Close newest;
  mg_open : tick_Open t = tick_Open newest;
  mg_volume : (dval (tick_Volume t) == dsum (tick_Volume <$> kept))%Q;
  mg_quote : (dval (tick_QuoteVolume t) == dsum (tick_QuoteVolume <$> kept))%Q;
  mg_high : Forall (fun x => dval (tick_High x) <= dval (tick_High t))%Q kept /\ tick_High t ∈ tick_High <$> kept;
  mg_low : Forall (fun x => dval (tick_Low t) <= dval (tick_Low x))%Q kept /\ tick_Low t ∈ tick_Low <$> kept;
}.

Lemma dsum_one (d : Dec) : (dsum [d] == dval d)%Q.
Proof. rewrite dsum_cons. unfold dsum. simpl. lra. Qed.

Lemma merged_one t : merged [t] t t.
Proof.
  split; [done|done|symmetry; apply dsum_one|symmetry; apply dsum_one|..].
  all: (split; [repeat constructor; lra|rewrite list_fmap_singleton; by apply list_elem_of_singleton]).
Qed.

(** A fold of a choice that bounds both. *)
Lemma bound_snoc (R : Q -> Q -> Prop) (Hrefl : forall a, R a a) (Htrans : forall a b c, R a b -> R b c -> R a c) (f : Tick -> Dec) kept x d d' :
  Forall (fun y => R (dval (f y)) (dval d)) kept /\ d ∈ f <$> kept ->
  (d' = d /\ R (dval (f x)) (dval d)) \/ (d' = f x /\ R (dval d) (dval (f x))) ->
  Forall (fun y => R (dval (f y)) (dval d')) (kept ++ [x]) /\ d' ∈ f <$> (kept ++ [x]).
Proof.
  intros [Hk Hd] Hc. rewrite Forall_app, Forall_singleton, fmap_app, elem_of_app. destruct Hc as [[-> H]|[-> H]].
  - split; [done|by left].
  - split; [split; [|apply Hrefl]|right; rewrite list_fmap_singleton; by apply list_elem_of_singleton].
    eapply Forall_impl; [exact Hk|]. intros y Hy. by apply (Htrans _ (dval d)).
Qed.

Lemma merged_snoc kept newest t x : merged kept newest t -> merged (kept ++ [x]) x (tick_merge t x).
Proof.
  intros [_ _ Hv Hq Hh Hl]. split; [done|done|..]; cbn [tick_merge tick_Volume tick_QuoteVolume tick_High tick_Low].
  - rewrite fmap_app, dsum_app, <- Hv, list_fmap_singleton, dsum_one. dec_lra.
  - rewrite fmap_app, dsum_app, <- Hq, list_fmap_singleton, dsum_one. dec_lra.
  - apply (bound_snoc Qle Qle_refl Qle_trans tick_High _ _ _ _ Hh), dec_Max_val.
  - apply (bound_snoc (fun a b => Qle b a) Qle_refl (fun a b c H1 H2 => Qle_trans _ _ _ H2 H1) tick_Low _ _ _ _ Hl), dec_Min_val.
Qed.

(** The ticks of the interval, oldest first, as the loop's clock sees them. *)
Definition keptTicks (now : nat -> Z) (ticks : list Tick) (interval : Z) : list Tick :=
  omap (fun '(i, t) => if tick_Time t <? now i - interval then None else Some t) (imap pair (reverse ticks)).

Lemma mergeIntervalTicks_kept now ticks interval :
  mergeIntervalTicks now ticks interval = foldl mergeNext None (keptTicks now ticks interval).
Proof.
  unfold mergeIntervalTicks, keptTicks. set (g := (fun '(i, t) => if tick_Time t <? now i - interval then None else Some t) : nat * Tick -> option Tick).
  enough (H : forall (l : list (nat * Tick)) (acc : option Tick), foldl (fun r '(i, tick) => if tick_Time tick <? now i - interval then r else mergeNext r tick) acc l =
    foldl mergeNext acc (omap g l)) by apply H.
  intros l. induction l as [|[i x] l IH]; intros acc; [done|]. simpl. destruct (tick_Time x <? now i - interval); apply IH.
Qed.

Lemma merged_foldl l : match last l, foldl mergeNext None l with
  | None, r => r = None
  | Some newest, Some t => merged l newest t
  | Some _, None => False
  end.
Proof.
  induction l as [|x l IH] using rev_ind; [done|]. rewrite last_snoc, foldl_app. simpl.
  destruct (foldl mergeNext None l) as [t|].
  - simpl. destruct (last l) as [newest|] eqn:E; [by eapply merged_snoc|done].
  - simpl. destruct (last l) as [newest|] eqn:E; [done|]. apply last_None in E. rewrite E. apply merged_one.
Qed.

(** The figures of a ticker.  Over the ticks of its interval a ticker's
    volumes are the sums, its high and low the highest and lowest, and its
    close that of the newest tick; but so is its open, which is not that of the
    oldest tick.  Without a tick in the interval there is none. *)
Theorem ticker_statistics now ticks interval :
  match last (keptTicks now ticks interval), mergeIntervalTicks now ticks interval with
  | Some newest, Some t => merged (keptTicks now ticks interval) newest t
  | None, r => r = None
  | Some _, None => False
  end.
Proof. rewrite mergeIntervalTicks_kept. pose proof (merged_foldl (keptTicks now ticks interval)) as H. by destruct (last _). Qed.
End Tickers.

(** ** The theorems at work *)

Section Witnesses.
Import Demo PushDemo.

(** The topic of the demonstration's logs, its first two logs written again. *)
Let messages : list logMessage := (fun x => {| lm_Offset := x.2; lm_Log := x.1 |}) <$> ologs.
Let topic : list logMessage := messages ++ take 2 messages.
Let stream : OrderBookStream :=
  getOk {| os_productId := ""; os_orderBook := newOrderBook ""; os_sending := []; os_logCh := []; os_lastLevel2Snapshot := None;
           os_lastFullSnapshot := None; os_unsent := None; os_unpublished := None; os_snapshotCh := []; os_stored := None |} (newOrderBookStream "BTC-USDT" None).
Let start : streamSys := startSys stream topic newHub.
Let events : list streamEvent :=
  [StRead; StSend; StRead; StHub (EvConnect 1); StApply; StSend; StFinish; StFinish; StStore true;
   StHub (EvSubscribe 1 "level2:BTC-USDT"); StApply; StFinish; StTimer;
   StRead; StSend; StRead; StSend; StApply; StRead; StFinish; StHub (EvWrite 1)].
Let reached : streamSys := getOk start (streamRun (fun l => reverse l) "BTC-USDT" start events).

Lemma stream_follows_engine_witness :
  exists worked rest cs hevs, logOf <$> freshLogs 0 topic = worked ++ rest /\
    followLogs (newOrderBook "BTC-USDT") worked = Ok (cs, os_orderBook (sy_stream reached)) /\
    hubRun newHub hevs = Ok (sy_hub reached) /\ os_unpublished (sy_stream reached) = None /\
    levelPubs "BTC-USDT" hevs = MLevel2Change <$> cs /\
    pb_seq (os_orderBook (sy_stream reached)) = 3.
Proof.
  destruct (stream_follows_engine clock (fun l => reverse l) product "BTC-USDT" orders orders_ok orders_fresh) as (o & logs & E & H).
  pose proof (run_logs o logs E) as El.
  assert (Ht : topicOf logs topic).
  { split.
    - rewrite <- El. vm_compute. reflexivity.
    - vm_compute. repeat split; discriminate.
    - apply (bool_decide_unpack _). vm_compute. exact I.
    - apply (bool_decide_unpack _). vm_compute. exact I. }
  assert (Hn : newOrderBookStream "BTC-USDT" None = Ok stream) by reflexivity.
  assert (Hr : streamRun (fun l => reverse l) "BTC-USDT" start events = Ok reached) by (apply isOk_get; vm_compute; reflexivity).
  assert (Hl : Z.of_nat (length logs) < i64_half) by (rewrite <- El, length_fmap; vm_compute; reflexivity).
  destruct (H topic newHub stream events reached Ht Hl Hn Hr) as (worked & rest & cs & hevs & H1 & H2 & H3 & H4 & _).
  exists worked, rest, cs, hevs. split; [exact H1|]. split; [exact H2|]. split; [exact H3|].
  assert (Hu : os_unpublished (sy_stream reached) = None) by (vm_compute; reflexivity). cbv zeta in H4. rewrite Hu, app_nil_r in H4.
  split; [exact Hu|]. split; [exact H4|]. vm_compute. reflexivity.
Defined.



(** A token of user 7; any other is refused. *)
Let sevenToken (token : string) : outcome unit (option Z) := if token =s? "seven" then Ok (Some 7) else Err tt.
Let req : Request := {| req_Type := "subscribe"; req_ProductIds := ["BTC-USDT"; "BTC-USDT:8"]; req_CurrencyIds := ["BTC"];
  req_Channels := ["order"; "trade"; "funds"; "match"]; req_Token := "seven" |}.
Let connected : hub := addClient newHub 1.
Let answered : hub := getOk newHub (onMessage sevenToken connected 1 req).

Lemma request_keeps_private_witness :
  onMessage sevenToken connected 1 req = Ok answered /\ inChannel (h_subscribers answered) 1 "order:BTC-USDT:8:7" /\
  forall i channel, inChannel (h_subscribers answered) i channel -> i = 1 /\ forall v, privateTo v channel -> v = 7.
Proof.
  assert (E : onMessage sevenToken connected 1 req = Ok answered) by (apply isOk_get; vm_compute; reflexivity).
  split; [exact E|]. split; [apply inChannel_ids; apply (bool_decide_unpack _); vm_compute; exact I|].
  intros i channel Hin. destruct (request_keeps_private sevenToken connected 1 req answered E i channel Hin) as [H|H]; [|exact H].
  exfalso. apply inChannel_ids in H. unfold connected, addClient, newHub, newSubscription in H. simpl in H. rewrite lookup_empty in H.
  exact (not_elem_of_empty (C := gset Z) i H).
Defined.
End Witnesses.
