(* ===== verification/BinlogTheorems.v ===== *)
(** The binlog stream: what of a change of a table reaches Redis and, through
    Redis, the clients of the push server. *)
From S2P Require Import Prelude Strconv Decimal Models PushBook Messages Hub HubRun Publishing Streams Views Binlog RestDemo.
From Stdlib Require Import QArith.
From stdpp Require Import list pretty gmap.
Open Scope string_scope.
Open Scope list_scope.
Open Scope Z_scope.

Section Binlog.
Context {P : DecimalPkg} {R : RestPkg}.
Implicit Types (e : RowsEvent) (row : list cell) (v : value) (c : cell).

(** The goroutines of [redis_stream.go]: each takes the messages of its topic. *)
Definition redisStream (op : option redisOp) (h : hub) : hub :=
  match op with
  | Some (Publish topic x) =>
      match x with
      | ROrder o => if topic =s? TopicOrder then onOrder FormatRFC3339 o h else h
      | RAccount a => if topic =s? TopicAccount then onAccount a h else h
      | RTrade t => if topic =s? TopicTrade then onTrade FormatRFC3339 t h else h
      | _ => h
      end
  | _ => h
  end.

(** A change of a table on its way to the clients. *)
Definition pushChange e (h : hub) : outcome noerr hub := op ← OnRow e; mret (redisStream op h).

(** ** Rows *)

(** A column's cell holds a field's value: an integer of any width that is the
    value modulo 2^64, the text of a decimal, NULL for a zero value. *)
Definition stored v c : Prop :=
  match v with
  | VInt n => exists t z, c = CInt t z /\ i64 z = n
  | VUint n => exists t z, c = CInt t z /\ u64 z = n
  | VString s => c = CString s \/ c = CNil /\ s = ""
  | VBool b => exists t z, c = CInt t z /\ negb (i64 z =? 0) = b
  | VTime t => c = CTime t \/ c = CNil /\ t = 0
  | VDecimal d => exists s, c = CString s /\ NewFromString s = Ok d
  end.

(** The names [parseRow] takes for another kind than a string. *)
Definition plainNames : list string :=
  ["int64"; "int32"; "int16"; "int8"; "int"; "uint64"; "uint32"; "uint16"; "uint8"; "uint"; "bool"; "Time"; "Decimal"].

(** The types of a struct's values, by their names. *)
Definition ofType (typeName : string) v : Prop :=
  match v with
  | VInt _ => typeName = "int64"
  | VUint _ => typeName = "uint64"
  | VString _ => typeName ∉ plainNames
  | VBool _ => typeName = "bool"
  | VTime _ => typeName = "Time"
  | VDecimal _ => typeName = "Decimal"
  end.

(** What the reflection promises of a struct. *)
Class ReflectLaws (A : Type) `{!Reflect A} := {
  of_to (a : A) : ofValues (toValues a) = Some a;
  of_type (a : A) : Forall2 (fun f v => ofType f.2 v) (structFields (A := A)) (toValues a);
}.
#[export] Instance Order_laws : ReflectLaws Order.
Proof. split; [by intros []|intros []; repeat constructor; apply (bool_decide_unpack _); vm_compute; exact I]. Qed.
#[export] Instance Account_laws : ReflectLaws Account.
Proof. split; [by intros []|intros []; repeat constructor; apply (bool_decide_unpack _); vm_compute; exact I]. Qed.
#[export] Instance Trade_laws : ReflectLaws Trade.
Proof. split; [by intros []|intros []; repeat constructor; apply (bool_decide_unpack _); vm_compute; exact I]. Qed.
#[export] Instance Fill_laws : ReflectLaws Fill.
Proof. split; [by intros []|intros []; repeat constructor; apply (bool_decide_unpack _); vm_compute; exact I]. Qed.
#[export] Instance Bill_laws : ReflectLaws Bill.
Proof. split; [by intros []|intros []; repeat constructor; apply (bool_decide_unpack _); vm_compute; exact I]. Qed.

(** A row of the table holds [a]: each field's column is there, by its name, in
    whatever order and among whatever other columns. *)
Definition rowHolds {A} `{!Reflect A} e row (a : A) : Prop :=
  NoDup (ev_Columns e) /\
  Forall2 (fun f v => exists k c, ev_Columns e !! k = Some (SnakeCase f.1) /\ row !! k = Some c /\ stored v c) (structFields (A := A)) (toValues a).

Lemma columnFrom_found columns name k : forall id, NoDup columns -> columns !! k = Some name ->
  columnFrom id columns name = id + Z.of_nat k.
Proof.
  revert k. induction columns as [|x columns IH]; intros k id Hd Hk; [done|]. apply NoDup_cons in Hd as [Hx Hd].
  destruct k as [|k]; cbn in Hk |- *.
  - injection Hk as ->. rewrite String.eqb_refl. lia.
  - destruct (String.eqb_spec x name) as [->|_]; [by apply list_elem_of_lookup_2 in Hk|]. rewrite (IH k) by done. lia.
Qed.

(** The field is set to the value its cell holds. *)
Lemma setField_stored typeName v c : ofType typeName v -> stored v c -> setField typeName (zeroValue typeName) c = Ok v.
Proof.
  destruct v; cbn [ofType stored]; [intros -> (t & z & -> & <-); by destruct t|intros -> (t & z & -> & <-); by destruct t| |
    intros -> (t & z & -> & <-); by destruct t|intros -> [->|[-> ->]]; done|intros -> (s & -> & Hs); cbn; unfold decimalOf; by rewrite Hs].
  unfold plainNames. intros Hn Hs.
  assert (E : zeroValue typeName = VString "") by (unfold zeroValue; by rewrite !(proj2 (String.eqb_neq typeName _)) by set_solver).
  rewrite E. destruct Hs as [->|[-> ->]]; [|done]. unfold setField. rewrite !bool_decide_false by set_solver.
  destruct (String.eqb_spec typeName "string"); [done|]. by rewrite !(proj2 (String.eqb_neq typeName _)) by set_solver.
Qed.

Lemma parseField_stored e row k name typeName v c : NoDup (ev_Columns e) -> ev_Columns e !! k = Some (SnakeCase name) ->
  row !! k = Some c -> ofType typeName v -> stored v c -> parseField e row name typeName (zeroValue typeName) = Ok v.
Proof.
  intros Hd Hk Hr Ht Hs. unfold parseField, getColumnIndexByName. rewrite (columnFrom_found _ _ k) by done.
  pose proof (lookup_lt_Some _ _ _ Hr). destruct (Z.ltb_spec (0 + Z.of_nat k) 0); [lia|].
  destruct (Z.leb_spec (Z.of_nat (length row)) (0 + Z.of_nat k)); [lia|].
  assert (Hi : indexed row (0 + Z.of_nat k) = Some c) by (apply indexed_Some; split; [lia|]; by replace (Z.to_nat (0 + Z.of_nat k)) with k by lia).
  rewrite Hi. by apply setField_stored.
Qed.

Lemma parseRow_holds {A} `{!Reflect A, !ReflectLaws A} e row (a : A) : rowHolds e row a -> parseRow e row = Ok a.
Proof.
  intros [Hd Hf]. unfold parseRow. pose proof (of_type a) as Ht.
  assert (E : parseFields e row structFields ((fun f => zeroValue f.2) <$> structFields (A := A)) = Ok (toValues a)).
  { revert Ht Hf. generalize (toValues a). generalize (structFields (A := A)). intros fields vs Ht.
    induction Ht as [|[name typeName] v fields vs Hv _ IH]; intros Hf; [done|].
    inversion_clear Hf as [|? ? ? ? (k & c & Hk & Hr & Hs) Hf']. cbn in *.
    rewrite (parseField_stored e row k name typeName v c) by done. cbn. by rewrite IH. }
  rewrite E. cbn. by rewrite of_to.
Qed.

(** The schema has a column for each field. *)
Definition namesColumns (fields : list (string * string)) (columns : list string) : Prop :=
  NoDup columns /\ Permutation ((fun f => SnakeCase f.1) <$> fields) columns.

Lemma schema_complete :
  namesColumns (structFields (A := Account)) accountColumns /\ namesColumns (structFields (A := Bill)) billColumns /\
  namesColumns (structFields (A := Fill)) fillColumns /\ namesColumns (structFields (A := Trade)) tradeColumns /\
  namesColumns (structFields (A := Order)) orderColumns.
Proof. split_and!; apply (bool_decide_unpack _); vm_compute; exact I. Qed.

(** ** What Redis gets *)

Definition holds e row (x : redisValue) : Prop :=
  match x with
  | ROrder o => rowHolds e row o
  | RAccount a => rowHolds e row a
  | RTrade t => rowHolds e row t
  | RFill f => rowHolds e row f
  | RBill b => rowHolds e row b
  end.

(** The table of a row: orders are sharded. *)
Definition inTable (x : redisValue) (table : string) : Prop :=
  match x with
  | ROrder o => table = "g_order_" +:+ pretty (GetTableIndexByUserId (ord_UserId o))
  | RAccount _ => table = "g_account"
  | RTrade _ => table = "g_trade"
  | RFill _ => table = "g_fill"
  | RBill _ => table = "g_bill"
  end.

(** The first row an INSERT wrote, or that an UPDATE changed. *)
Inductive changes e row : Prop :=
| change_insert later : ev_Action e = "insert" -> ev_Rows e = row :: later -> changes e row
| change_update old later : ev_Action e = "update" -> ev_Rows e = old :: row :: later -> changes e row.

(** What the stream is meant to send for it: the executors only want new fills
    and bills. *)
Definition sends e (x : redisValue) : option redisOp :=
  let inserted := negb (ev_Action e =s? "update") in
  match x with
  | ROrder _ => Some (Publish TopicOrder x)
  | RAccount _ => Some (Publish TopicAccount x)
  | RTrade _ => Some (Publish TopicTrade x)
  | RFill _ => if inserted then Some (LPush TopicFill x) else None
  | RBill _ => if inserted then Some (LPush TopicBill x) else None
  end.

Lemma pushRow_changes {A} `{!Reflect A, !ReflectLaws A} e row (a : A) op : changes e row -> rowHolds e row a ->
  pushRow e (newRow e) op = Ok (Some (op a)).
Proof.
  intros Hc Hh. assert (Hrow : indexed (ev_Rows e) (newRow e) = Some row) by (unfold newRow; by destruct Hc as [later -> ->|old later -> ->]).
  unfold pushRow. rewrite Hrow. cbn [deref mbind outcome_bind]. by rewrite (parseRow_holds e row a Hh).
Qed.

Lemma OnRow_sends e row x : inTable x (ev_Table e) -> changes e row -> holds e row x -> OnRow e = Ok (sends e x).
Proof.
  intros Ht Hc Hh.
  assert (Ha : (ev_Action e =s? "delete") = false) by (by destruct Hc as [later -> _|old later -> _]).
  assert (Hn : (ev_Action e =s? "update") = false -> newRow e = 0) by (unfold newRow; by intros ->).
  unfold OnRow, sends. rewrite Ha.
  assert (Hp : forall s, HasPrefix ("g_order_" +:+ s) "g_order" = true) by (intros s; by destruct s).
  destruct x; cbn [inTable holds] in Ht, Hh; rewrite Ht; rewrite ?Hp; cbn -[pretty pushRow];
    first [by rewrite (pushRow_changes e row _ _ Hc Hh)
          |destruct (ev_Action e =s? "update"); [done|]; cbn; rewrite <- (Hn eq_refl); by rewrite (pushRow_changes e row _ _ Hc Hh)].
Qed.


(** ** What the clients are told *)

(** The channels on which a change is announced, and the message on each. *)
Definition told (x : redisValue) : list (string * Messages.Message) :=
  match x with
  | ROrder o =>
      [(Format ChannelOrder (ord_ProductId o) (ord_UserId o), MOrder {|
          om_UserId := ord_UserId o; om_Type := "order"; om_Sequence := 0; om_Id := pretty (ord_Id o);
          om_Price := dec_String (ord_Price o); om_Size := dec_String (ord_Size o); om_Funds := "0";
          om_ProductId := ord_ProductId o; om_Side := ord_Side o; om_OrderType := ord_Type o;
          om_CreatedAt := FormatRFC3339 (ord_CreatedAt o); om_FillFees := dec_String (ord_FillFees o);
          om_FilledSize := dec_String (ord_FilledSize o); om_ExecutedValue := dec_String (ord_ExecutedValue o);
          om_Status := ord_Status o; om_Settled := ord_Settled o |})]
  | RAccount a =>
      [(FormatWithUserId ChannelFunds (acc_UserId a), MFunds {|
          fm_Type := "funds"; fm_Sequence := 0; fm_UserId := pretty (acc_UserId a); fm_Currency := acc_Currency a;
          fm_Available := dec_String (acc_Available a); fm_Hold := dec_String (acc_Hold a) |})]
  | RTrade t =>
      (fun userId => (Format ChannelTrade (trade_ProductId t) userId, MTrade {|
          tr_Type := "trade"; tr_Time := FormatRFC3339 (trade_Time t); tr_ProductId := trade_ProductId t;
          tr_Price := dec_String (trade_Price t); tr_Size := dec_String (trade_Size t);
          tr_MakerOrderId := pretty (trade_MakerOrderId t); tr_TakerOrderId := pretty (trade_TakerOrderId t);
          tr_Side := trade_Side t |})) <$> [trade_MakerUserId t; trade_TakerUserId t]
  | RFill _ | RBill _ => []
  end.

(** What of it a client is offered: the messages on its channels. *)
Definition toldTo (h : hub) (id : Z) (x : redisValue) : list Messages.Message :=
  snd <$> filter (fun p => id ∈ subscribersOf h p.1) (told x).

(** A hub after messages on some channels. *)
Definition announced (h : hub) (news : list (string * Messages.Message)) (h' : hub) : Prop :=
  h_subscribers h' = h_subscribers h /\
  forall id, h_clients h' !! id = (fun client => foldl offer client (snd <$> filter (fun p => id ∈ subscribersOf h p.1) news)) <$> h_clients h !! id.

Lemma announced_publish h channel msg news h' : announced (publish h channel msg) news h' -> announced h ((channel, msg) :: news) h'.
Proof.
  assert (Es : h_subscribers (publish h channel msg) = h_subscribers h) by (unfold publish; by destruct (h_subscribers h !! channel)).
  assert (Ec : forall id, h_clients (publish h channel msg) !! id =
    (fun client => if decide (id ∈ subscribersOf h channel) then offer client msg else client) <$> h_clients h !! id).
  { intros id. unfold publish, subscribersOf. destruct (h_subscribers h !! channel) as [ids|]; simpl.
    - unfold publishTo. rewrite map_lookup_imap. by destruct (h_clients h !! id).
    - by destruct (h_clients h !! id). }
  intros [E1 E2]. split; [by rewrite E1|]. intros id. rewrite E2, Ec. unfold subscribersOf in *. rewrite Es.
  destruct (h_clients h !! id) as [c|]; [|done]. apply (f_equal Some).
  destruct (decide (id ∈ default ∅ (h_subscribers h !! channel))) as [Hin|Hin];
    [by rewrite filter_cons_True|by rewrite filter_cons_False].
Qed.
Lemma announced_nil h : announced h [] h.
Proof. split; [done|]. intros id. by destruct (h_clients h !! id). Qed.

Lemma redisStream_told e x h : (forall f, x = RFill f -> False) -> (forall b, x = RBill b -> False) ->
  announced h (told x) (redisStream (sends e x) h).
Proof.
  intros Hf Hb. destruct x; [| | |by destruct (Hf f)|by destruct (Hb b)]; cbn -[publish];
    repeat apply announced_publish; apply announced_nil.
Qed.

(** C39: a change of a table reaches Redis and the clients as it is.  If the
    first row an INSERT wrote, or the row an UPDATE (of one row) left, holds the
    fields of a struct in columns with their names, in whatever order and among
    whatever others, then the stream sends that very struct: orders (of every
    shard), accounts and trades to the topic of their kind, new fills and bills,
    but not updated ones, to the lists of the executors.  The push server then
    puts at the end of the queues of the clients that have room: the order, for
    those in its user's channel; the balance, for those in its user's channel;
    the trade, for those in the maker's channel and for those in the taker's
    (twice for those in both); and changes nothing else.  The later rows of the
    statement are not looked at. *)
Theorem binlog_pushes e row x h : inTable x (ev_Table e) -> changes e row -> holds e row x ->
  OnRow e = Ok (sends e x) /\
  exists h', pushChange e h = Ok h' /\ h_subscribers h' = h_subscribers h /\
    forall id, h_clients h' !! id = (fun client => foldl offer client (toldTo h id x)) <$> h_clients h !! id.
Proof.
  intros Ht Hc Hh. pose proof (OnRow_sends e row x Ht Hc Hh) as E. split; [done|]. unfold pushChange. rewrite E.
  eexists. split; [reflexivity|]. unfold toldTo. change (announced h (told x) (redisStream (sends e x) h)).
  destruct x as [o|a|t|f|b]; try (by apply redisStream_told); cbn; destruct (ev_Action e =s? "update"); apply announced_nil.
Qed.

(** C40: only the first row of a statement is looked at.  So when the trade maker
    flushes several trades, which [AddTrades] writes with one INSERT, the users
    of all trades but the first are told nothing: if nobody listens for the
    first one, no client gets anything. *)
Theorem binlog_first_trade_only e row t later h : ev_Table e = "g_trade" -> ev_Action e = "insert" -> ev_Rows e = row :: later ->
  rowHolds e row t ->
  h_subscribers h !! Format ChannelTrade (trade_ProductId t) (trade_MakerUserId t) = None ->
  h_subscribers h !! Format ChannelTrade (trade_ProductId t) (trade_TakerUserId t) = None ->
  pushChange e h = Ok h.
Proof.
  intros Ht Ha Hr Hh Hm Hk. unfold pushChange. rewrite (OnRow_sends e row (RTrade t) Ht (change_insert _ _ later Ha Hr) Hh).
  cbn. unfold onTrade, publish. by rewrite Hm, Hk.
Qed.
End Binlog.

(** ** The theorems at work *)

Section Witnesses.
Import RestDemo.

(** The account of user 7 in the columns of the schema, and in others. *)
Let seven : Account := {| acc_Id := 1; acc_CreatedAt := 5; acc_UpdatedAt := 0; acc_UserId := 7; acc_Currency := "BTC";
  acc_Hold := 3%Q; acc_Available := 4%Q |}.
Let sevenRow : list cell := [CInt Int64 1; CTime 5; CNil; CInt Int64 7; CString "BTC"; CString "3"; CString "4"].
Let accountChange : RowsEvent := {| ev_Table := "g_account"; ev_Columns := accountColumns; ev_Action := "update"; ev_Rows := [sevenRow; sevenRow] |}.
Let listening : hub := getOk newHub (hubRun newHub [EvConnect 1; EvSubscribe 1 "funds:7"; EvSubscribe 1 "trade:BTC-USDT:9"]).

(** The next field is in column [k]. *)
Ltac in_column k :=
  constructor; [exists k; eexists; split_and!; [reflexivity|reflexivity|];
    first [eexists _, _; split; reflexivity|left; reflexivity|right; split; reflexivity|eexists; split; reflexivity]|].

Lemma sevenRow_holds : rowHolds accountChange sevenRow seven.
Proof.
  split; [apply (bool_decide_unpack _); vm_compute; exact I|].
  in_column 0%nat. in_column 1%nat. in_column 2%nat. in_column 3%nat. in_column 4%nat. in_column 5%nat. in_column 6%nat.
  constructor.
Qed.

Lemma binlog_pushes_witness : exists h, pushChange accountChange listening = Ok h /\
  c_writeCh <$> h_clients listening !! 1 = Some [] /\
  c_writeCh <$> h_clients h !! 1 = Some [MFunds {| fm_Type := "funds"; fm_Sequence := 0; fm_UserId := "7"; fm_Currency := "BTC";
    fm_Available := dec_String (acc_Available seven); fm_Hold := dec_String (acc_Hold seven) |}].
Proof.
  destruct (binlog_pushes accountChange sevenRow (RAccount seven) listening eq_refl
    (change_update accountChange sevenRow sevenRow [] eq_refl eq_refl) sevenRow_holds) as (_ & h & H1 & _ & H2).
  exists h. split; [exact H1|]. split; [vm_compute; reflexivity|]. rewrite H2. vm_compute. reflexivity.
Defined.

(** Two trades in one INSERT; the second one is of user 9, who listens. *)
Let tradeRow (maker : Z) : list cell := [CInt Int64 1; CTime 5; CNil; CString "BTC-USDT"; CInt Int64 1; CInt Int64 20; CInt Int64 7;
  CInt Int64 21; CInt Int64 maker; CString "10"; CString "2"; CString "buy"; CTime 6; CInt Int64 3; CInt Int64 4].
Let trade (maker : Z) : Trade := {| trade_Id := 1; trade_CreatedAt := 5; trade_UpdatedAt := 0; trade_ProductId := "BTC-USDT";
  trade_TradeSeq := 1; trade_TakerOrderId := 20; trade_TakerUserId := 7; trade_MakerOrderId := 21; trade_MakerUserId := maker;
  trade_Price := 10%Q; trade_Size := 2%Q; trade_Side := "buy"; trade_Time := 6; trade_LogOffset := 3; trade_LogSeq := 4 |}.
Let batch : RowsEvent := {| ev_Table := "g_trade"; ev_Columns := tradeColumns; ev_Action := "insert"; ev_Rows := [tradeRow 8; tradeRow 9] |}.

Lemma tradeRow_holds : rowHolds batch (tradeRow 8) (trade 8).
Proof.
  split; [apply (bool_decide_unpack _); vm_compute; exact I|].
  in_column 0%nat. in_column 1%nat. in_column 2%nat. in_column 3%nat. in_column 4%nat. in_column 5%nat. in_column 6%nat.
  in_column 7%nat. in_column 8%nat. in_column 9%nat. in_column 10%nat. in_column 11%nat. in_column 12%nat. in_column 13%nat.
  in_column 14%nat. constructor.
Qed.

Lemma binlog_first_trade_only_witness : pushChange batch listening = Ok listening /\
  (length ∘ c_writeCh <$> h_clients (onTrade FormatRFC3339 (trade 9) listening) !! 1) = Some 1%nat.
Proof.
  split; [|vm_compute; reflexivity].
  apply (binlog_first_trade_only batch (tradeRow 8) (trade 8) [tradeRow 9]); [reflexivity..|exact tradeRow_holds| |]; vm_compute; reflexivity.
Defined.
End Witnesses.
