(* ===== verification/Json.v ===== *)
(** JSON as the code uses it to keep and pass on its data: what [json.Marshal]
    makes of the structs of [src/matching], [src/pushing] and [src/models], and
    what [json.Unmarshal] makes of it again.

    A value is a tree; its text is left to [encoding/json], with two leaves that
    are strings there: a time (RFC 3339) and a slice of bytes (base 64).  A
    [codec] is the pair of a type; a struct's fields go under their Go names, in
    the order of the struct, those of an embedded struct first and unprefixed. *)
From S2P Require Import Prelude Strconv Decimal Models Window MatchLog OrderBook.
From stdpp Require Import list.
Open Scope string_scope.
Open Scope list_scope.
Open Scope Z_scope.

Inductive json :=
| JsNull
| JsBool (b : bool)
| JsNum (z : Z)
| JsStr (s : string)
| JsTime (t : Instant)
| JsBytes (bs : list Z)
| JsArr (l : list json)
| JsObj (fields : list (string * json)).

(** How a type is written and read.  [codec_zero] is the value of a variable of
    the type before [Unmarshal]; reading back may give a decimal another
    representation of its value, which is what [canon] says. *)
Record codec (A : Type) := {
  codec_zero : A;
  marshal : A -> json;
  unmarshal : json -> option A;
  canon : A -> A;
  codec_wf : A -> Prop;
}.
Arguments codec_zero {A} c.
Arguments marshal {A} c a.
Arguments unmarshal {A} c j.
Arguments canon {A} c a.
Arguments codec_wf {A} c a.

(** What is written is read back. *)
Class CodecLaws {A} (c : codec A) := {
  unmarshal_marshal a : codec_wf c a -> unmarshal c (marshal c a) = Some (canon c a);
  marshal_not_null a : marshal c a <> JsNull;
}.

(** [json.Unmarshal] into a new variable, which [null] leaves as it is. *)
Definition Unmarshal {A} (c : codec A) (j : json) : option A :=
  match j with JsNull => Some (codec_zero c) | _ => unmarshal c j end.

Lemma Unmarshal_marshal {A} (c : codec A) `{!CodecLaws c} a : codec_wf c a -> Unmarshal c (marshal c a) = Some (canon c a).
Proof.
  intros Hw. rewrite <- unmarshal_marshal by done. unfold Unmarshal. pose proof (marshal_not_null a). by destruct (marshal c a).
Qed.

(** ** Fields *)

(** The field of a key: names are compared without regard to case. *)
Definition keyIs (name key : string) : bool := String.eqb (ToLower key) (ToLower name).

(** A key that comes again is read again. *)
Fixpoint lookupKey (name : string) (fields : list (string * json)) : option json :=
  match fields with
  | [] => None
  | (key, j) :: fields =>
      match lookupKey name fields with Some j => Some j | None => if keyIs name key then Some j else None end
  end.

(** A field that is missing stays as it is. *)
Definition field {A} (c : codec A) (name : string) (fields : list (string * json)) : option A :=
  match lookupKey name fields with None => Some (codec_zero c) | Some j => Unmarshal c j end.

Lemma field_marshal {A} (c : codec A) `{!CodecLaws c} name fields a : lookupKey name fields = Some (marshal c a) -> codec_wf c a ->
  field c name fields = Some (canon c a).
Proof. intros Hl Hw. unfold field. rewrite Hl. by apply Unmarshal_marshal. Qed.

(** ** Basic types *)

Definition rangeC (ok : Z -> bool) : codec Z := {|
  codec_zero := 0; marshal := JsNum; canon z := z; codec_wf z := ok z = true;
  unmarshal j := match j with JsNum z => if ok z then Some z else None | _ => None end |}.
Definition int64C : codec Z := rangeC (fun z => (- i64_half <=? z) && (z <? i64_half)).
Definition uint64C : codec Z := rangeC (fun z => (0 <=? z) && (z <=? maxUint64)).
#[export] Instance rangeC_laws ok : CodecLaws (rangeC ok).
Proof. split; [|done]. intros z Hz. cbn in *. by rewrite Hz. Qed.
#[export] Instance int64C_laws : CodecLaws int64C := rangeC_laws _.
#[export] Instance uint64C_laws : CodecLaws uint64C := rangeC_laws _.

Definition stringC : codec string := {|
  codec_zero := ""; marshal := JsStr; canon s := s; codec_wf _ := True;
  unmarshal j := match j with JsStr s => Some s | _ => None end |}.
#[export] Instance stringC_laws : CodecLaws stringC.
Proof. by split. Qed.

Definition boolC : codec bool := {|
  codec_zero := false; marshal := JsBool; canon b := b; codec_wf _ := True;
  unmarshal j := match j with JsBool b => Some b | _ => None end |}.
#[export] Instance boolC_laws : CodecLaws boolC.
Proof. by split. Qed.

Definition timeC : codec Instant := {|
  codec_zero := 0; marshal := JsTime; canon t := t; codec_wf _ := True;
  unmarshal j := match j with JsTime t => Some t | _ => None end |}.
#[export] Instance timeC_laws : CodecLaws timeC.
Proof. by split. Qed.

Definition bytesC : codec (list Z) := {|
  codec_zero := []; marshal := JsBytes; canon bs := bs; codec_wf _ := True;
  unmarshal j := match j with JsBytes bs => Some bs | _ => None end |}.
#[export] Instance bytesC_laws : CodecLaws bytesC.
Proof. by split. Qed.

Definition listC {A} (c : codec A) : codec (list A) := {|
  codec_zero := []; marshal l := JsArr (marshal c <$> l); canon l := canon c <$> l; codec_wf := Forall (codec_wf c);
  unmarshal j := match j with JsArr l => mapM (Unmarshal c) l | _ => None end |}.
#[export] Instance listC_laws {A} (c : codec A) `{!CodecLaws c} : CodecLaws (listC c).
Proof.
  split; [|done]. intros l Hl. cbn. induction Hl as [|a l Ha Hl IH]; [done|]. cbn. by rewrite Unmarshal_marshal, IH by done.
Qed.

(** ** Decimals *)

(** [UnmarshalJSON] of the decimal package, on the text of a number; [MarshalJSON]
    quotes what [String] prints. *)
Class DecimalText {P : DecimalPkg} := { ParseDecimal : string -> option Dec }.
Class DecimalTextLaws {P : DecimalPkg} (L : DecimalLaws P) (X : DecimalText) := {
  ParseDecimal_String d : exists d', ParseDecimal (dec_String d) = Some d' /\ d' ≡d d;
}.

(** A struct is read field by field. *)
Ltac read_fields :=
  repeat match goal with |- mbind _ (field ?c ?n ?o) = _ =>
    erewrite (field_marshal c n o); [cbn [mbind option_bind]|reflexivity|first [done|tauto]] end; try reflexivity.

Section Structs.
Context {P : DecimalPkg} {L : DecimalLaws P} {X : DecimalText} {XL : DecimalTextLaws L X}.

Definition decimalC : codec Dec := {|
  codec_zero := dec_Zero; marshal d := JsStr (dec_String d); canon d := default d (ParseDecimal (dec_String d));
  codec_wf _ := True;
  unmarshal j := match j with JsStr s => ParseDecimal s | JsNum z => Some (dec_NewFromInt z) | _ => None end |}.
#[export] Instance decimalC_laws : CodecLaws decimalC.
Proof. split; [|done]. intros d _. cbn. by destruct (ParseDecimal_String d) as (d' & -> & _). Qed.

Lemma canon_decimal d : canon decimalC d ≡d d.
Proof. cbn. by destruct (ParseDecimal_String d) as (d' & -> & ?). Qed.

(** ** Structs *)

(** [type Window struct] *)
Definition windowC : codec Window := {|
  codec_zero := {| w_Min := 0; w_Max := 0; w_Cap := 0; w_Bitmap := [] |};
  marshal w := JsObj [("Min", marshal uint64C (w_Min w)); ("Max", marshal uint64C (w_Max w)); ("Cap", marshal uint64C (w_Cap w));
                      ("Bitmap", marshal bytesC (w_Bitmap w))];
  unmarshal j := match j with
    | JsObj o => mi ← field uint64C "Min" o; ma ← field uint64C "Max" o; ca ← field uint64C "Cap" o; bs ← field bytesC "Bitmap" o;
                 Some {| w_Min := mi; w_Max := ma; w_Cap := ca; w_Bitmap := bs |}
    | _ => None end;
  canon w := w;
  codec_wf w := codec_wf uint64C (w_Min w) /\ codec_wf uint64C (w_Max w) /\ codec_wf uint64C (w_Cap w) |}.

(** [type BookOrder struct] *)
Definition bookOrderC : codec BookOrder := {|
  codec_zero := {| bo_OrderId := 0; bo_UserId := 0; bo_Size := dec_Zero; bo_Funds := dec_Zero; bo_Price := dec_Zero;
                   bo_Side := ""; bo_Type := ""; bo_TimeInForce := "" |};
  marshal b := JsObj [("OrderId", marshal uint64C (bo_OrderId b)); ("UserId", marshal uint64C (bo_UserId b));
                      ("Size", marshal decimalC (bo_Size b)); ("Funds", marshal decimalC (bo_Funds b));
                      ("Price", marshal decimalC (bo_Price b)); ("Side", marshal stringC (bo_Side b));
                      ("Type", marshal stringC (bo_Type b)); ("TimeInForce", marshal stringC (bo_TimeInForce b))];
  unmarshal j := match j with
    | JsObj o => id ← field uint64C "OrderId" o; user ← field uint64C "UserId" o; size ← field decimalC "Size" o;
                 funds ← field decimalC "Funds" o; price ← field decimalC "Price" o; side ← field stringC "Side" o;
                 ty ← field stringC "Type" o; tif ← field stringC "TimeInForce" o;
                 Some {| bo_OrderId := id; bo_UserId := user; bo_Size := size; bo_Funds := funds; bo_Price := price;
                         bo_Side := side; bo_Type := ty; bo_TimeInForce := tif |}
    | _ => None end;
  canon b := {| bo_OrderId := bo_OrderId b; bo_UserId := bo_UserId b; bo_Size := canon decimalC (bo_Size b);
                bo_Funds := canon decimalC (bo_Funds b); bo_Price := canon decimalC (bo_Price b); bo_Side := bo_Side b;
                bo_Type := bo_Type b; bo_TimeInForce := bo_TimeInForce b |};
  codec_wf b := codec_wf uint64C (bo_OrderId b) /\ codec_wf uint64C (bo_UserId b) |}.

(** [type orderBookSnapshot struct] *)
Definition bookSnapshotC : codec orderBookSnapshot := {|
  codec_zero := {| snap_ProductId := ""; snap_Orders := []; snap_TradeSeq := 0; snap_LogSeq := 0; snap_OrderIdWindows := [] |};
  marshal s := JsObj [("ProductId", marshal stringC (snap_ProductId s)); ("Orders", marshal (listC bookOrderC) (snap_Orders s));
                      ("TradeSeq", marshal int64C (snap_TradeSeq s)); ("LogSeq", marshal int64C (snap_LogSeq s));
                      ("OrderIdWindows", marshal (listC windowC) (snap_OrderIdWindows s))];
  unmarshal j := match j with
    | JsObj o => pid ← field stringC "ProductId" o; orders ← field (listC bookOrderC) "Orders" o;
                 ts ← field int64C "TradeSeq" o; ls ← field int64C "LogSeq" o; ws ← field (listC windowC) "OrderIdWindows" o;
                 Some {| snap_ProductId := pid; snap_Orders := orders; snap_TradeSeq := ts; snap_LogSeq := ls;
                         snap_OrderIdWindows := ws |}
    | _ => None end;
  canon s := {| snap_ProductId := snap_ProductId s; snap_Orders := canon (listC bookOrderC) (snap_Orders s);
                snap_TradeSeq := snap_TradeSeq s; snap_LogSeq := snap_LogSeq s; snap_OrderIdWindows := canon (listC windowC) (snap_OrderIdWindows s) |};
  codec_wf s := codec_wf (listC bookOrderC) (snap_Orders s) /\ codec_wf int64C (snap_TradeSeq s) /\
                codec_wf int64C (snap_LogSeq s) /\ codec_wf (listC windowC) (snap_OrderIdWindows s) |}.

#[export] Instance windowC_laws : CodecLaws windowC.
Proof. split; [|done]. intros w (H1 & H2 & H3). cbn [unmarshal marshal windowC]. read_fields. by destruct w. Qed.
#[export] Instance bookOrderC_laws : CodecLaws bookOrderC.
Proof. split; [|done]. intros b (H1 & H2). cbn [unmarshal marshal bookOrderC]. read_fields. Qed.
#[export] Instance bookSnapshotC_laws : CodecLaws bookSnapshotC.
Proof. split; [|done]. intros s (H1 & H2 & H3 & H4). cbn [unmarshal marshal bookSnapshotC]. read_fields. Qed.
(** [type Base struct], embedded in the logs: its fields are theirs. *)
Definition baseFields (b : Base) : list (string * json) :=
  [("Type", marshal stringC (base_Type b)); ("Sequence", marshal int64C (base_Sequence b));
   ("ProductId", marshal stringC (base_ProductId b)); ("Time", marshal timeC (base_Time b))].
Definition readBase (o : list (string * json)) : option Base :=
  ty ← field stringC "Type" o; seq ← field int64C "Sequence" o; pid ← field stringC "ProductId" o; t ← field timeC "Time" o;
  Some {| base_Type := ty; base_Sequence := seq; base_ProductId := pid; base_Time := t |}.
Definition baseC : codec Base := {|
  codec_zero := {| base_Type := ""; base_Sequence := 0; base_ProductId := ""; base_Time := 0 |};
  marshal b := JsObj (baseFields b);
  unmarshal j := match j with JsObj o => readBase o | _ => None end;
  canon b := b;
  codec_wf b := codec_wf int64C (base_Sequence b) |}.

(** [type OpenLog struct] *)
Definition openLogC : codec OpenLog := {|
  codec_zero := {| ol_Base := codec_zero baseC; ol_OrderId := codec_zero uint64C; ol_UserId := codec_zero uint64C;
                   ol_RemainingSize := codec_zero decimalC; ol_Price := codec_zero decimalC;
                   ol_Side := codec_zero stringC; ol_TimeInForce := codec_zero stringC |};
  marshal x := JsObj (baseFields (ol_Base x) ++ [("OrderId", marshal uint64C (ol_OrderId x)); ("UserId", marshal uint64C (ol_UserId x));
      ("RemainingSize", marshal decimalC (ol_RemainingSize x)); ("Price", marshal decimalC (ol_Price x));
      ("Side", marshal stringC (ol_Side x)); ("TimeInForce", marshal stringC (ol_TimeInForce x))]);
  unmarshal j := match j with
    | JsObj o => b ← readBase o; v0 ← field uint64C "OrderId" o; v1 ← field uint64C "UserId" o;
        v2 ← field decimalC "RemainingSize" o; v3 ← field decimalC "Price" o; v4 ← field stringC "Side" o;
        v5 ← field stringC "TimeInForce" o;
        Some {| ol_Base := b; ol_OrderId := v0; ol_UserId := v1; ol_RemainingSize := v2; ol_Price := v3;
                ol_Side := v4; ol_TimeInForce := v5 |}
    | _ => None end;
  canon x := {| ol_Base := ol_Base x; ol_OrderId := ol_OrderId x; ol_UserId := ol_UserId x;
                ol_RemainingSize := canon decimalC (ol_RemainingSize x); ol_Price := canon decimalC (ol_Price x);
                ol_Side := ol_Side x; ol_TimeInForce := ol_TimeInForce x |};
  codec_wf x := codec_wf int64C (base_Sequence (ol_Base x)) /\ codec_wf uint64C (ol_OrderId x) /\
                codec_wf uint64C (ol_UserId x) |}.

(** [type DoneLog struct] *)
Definition doneLogC : codec DoneLog := {|
  codec_zero := {| dl_Base := codec_zero baseC; dl_OrderId := codec_zero uint64C; dl_UserId := codec_zero uint64C;
                   dl_Price := codec_zero decimalC; dl_RemainingSize := codec_zero decimalC;
                   dl_Reason := codec_zero stringC; dl_Side := codec_zero stringC;
                   dl_TimeInForce := codec_zero stringC |};
  marshal x := JsObj (baseFields (dl_Base x) ++ [("OrderId", marshal uint64C (dl_OrderId x)); ("UserId", marshal uint64C (dl_UserId x));
      ("Price", marshal decimalC (dl_Price x)); ("RemainingSize", marshal decimalC (dl_RemainingSize x));
      ("Reason", marshal stringC (dl_Reason x)); ("Side", marshal stringC (dl_Side x));
      ("TimeInForce", marshal stringC (dl_TimeInForce x))]);
  unmarshal j := match j with
    | JsObj o => b ← readBase o; v0 ← field uint64C "OrderId" o; v1 ← field uint64C "UserId" o; v2 ← field decimalC "Price" o;
        v3 ← field decimalC "RemainingSize" o; v4 ← field stringC "Reason" o; v5 ← field stringC "Side" o;
        v6 ← field stringC "TimeInForce" o;
        Some {| dl_Base := b; dl_OrderId := v0; dl_UserId := v1; dl_Price := v2; dl_RemainingSize := v3;
                dl_Reason := v4; dl_Side := v5; dl_TimeInForce := v6 |}
    | _ => None end;
  canon x := {| dl_Base := dl_Base x; dl_OrderId := dl_OrderId x; dl_UserId := dl_UserId x;
                dl_Price := canon decimalC (dl_Price x); dl_RemainingSize := canon decimalC (dl_RemainingSize x);
                dl_Reason := dl_Reason x; dl_Side := dl_Side x; dl_TimeInForce := dl_TimeInForce x |};
  codec_wf x := codec_wf int64C (base_Sequence (dl_Base x)) /\ codec_wf uint64C (dl_OrderId x) /\
                codec_wf uint64C (dl_UserId x) |}.

(** [type MatchLog struct] *)
Definition matchLogC : codec MatchLog := {|
  codec_zero := {| ml_Base := codec_zero baseC; ml_TradeSeq := codec_zero int64C;
                   ml_TakerOrderId := codec_zero uint64C; ml_MakerOrderId := codec_zero uint64C;
                   ml_TakerUserId := codec_zero uint64C; ml_MakerUserId := codec_zero uint64C;
                   ml_Side := codec_zero stringC; ml_Price := codec_zero decimalC; ml_Size := codec_zero decimalC;
                   ml_TakerTimeInForce := codec_zero stringC; ml_MakerTimeInForce := codec_zero stringC |};
  marshal x := JsObj (baseFields (ml_Base x) ++ [("TradeSeq", marshal int64C (ml_TradeSeq x)); ("TakerOrderId", marshal uint64C (ml_TakerOrderId x));
      ("MakerOrderId", marshal uint64C (ml_MakerOrderId x)); ("TakerUserId", marshal uint64C (ml_TakerUserId x));
      ("MakerUserId", marshal uint64C (ml_MakerUserId x)); ("Side", marshal stringC (ml_Side x));
      ("Price", marshal decimalC (ml_Price x)); ("Size", marshal decimalC (ml_Size x));
      ("TakerTimeInForce", marshal stringC (ml_TakerTimeInForce x));
      ("MakerTimeInForce", marshal stringC (ml_MakerTimeInForce x))]);
  unmarshal j := match j with
    | JsObj o => b ← readBase o; v0 ← field int64C "TradeSeq" o; v1 ← field uint64C "TakerOrderId" o;
        v2 ← field uint64C "MakerOrderId" o; v3 ← field uint64C "TakerUserId" o; v4 ← field uint64C "MakerUserId" o;
        v5 ← field stringC "Side" o; v6 ← field decimalC "Price" o; v7 ← field decimalC "Size" o;
        v8 ← field stringC "TakerTimeInForce" o; v9 ← field stringC "MakerTimeInForce" o;
        Some {| ml_Base := b; ml_TradeSeq := v0; ml_TakerOrderId := v1; ml_MakerOrderId := v2; ml_TakerUserId := v3;
                ml_MakerUserId := v4; ml_Side := v5; ml_Price := v6; ml_Size := v7; ml_TakerTimeInForce := v8;
                ml_MakerTimeInForce := v9 |}
    | _ => None end;
  canon x := {| ml_Base := ml_Base x; ml_TradeSeq := ml_TradeSeq x; ml_TakerOrderId := ml_TakerOrderId x;
                ml_MakerOrderId := ml_MakerOrderId x; ml_TakerUserId := ml_TakerUserId x;
                ml_MakerUserId := ml_MakerUserId x; ml_Side := ml_Side x; ml_Price := canon decimalC (ml_Price x);
                ml_Size := canon decimalC (ml_Size x); ml_TakerTimeInForce := ml_TakerTimeInForce x;
                ml_MakerTimeInForce := ml_MakerTimeInForce x |};
  codec_wf x := codec_wf int64C (base_Sequence (ml_Base x)) /\ codec_wf int64C (ml_TradeSeq x) /\
                codec_wf uint64C (ml_TakerOrderId x) /\ codec_wf uint64C (ml_MakerOrderId x) /\
                codec_wf uint64C (ml_TakerUserId x) /\ codec_wf uint64C (ml_MakerUserId x) |}.

(** [type Order struct] of models.go *)
Definition orderC : codec Order := {|
  codec_zero := {| ord_Id := codec_zero uint64C; ord_CreatedAt := codec_zero timeC; ord_UpdatedAt := codec_zero timeC;
                   ord_ProductId := codec_zero stringC; ord_UserId := codec_zero uint64C;
                   ord_ClientOid := codec_zero stringC; ord_Size := codec_zero decimalC;
                   ord_Funds := codec_zero decimalC; ord_FilledSize := codec_zero decimalC;
                   ord_ExecutedValue := codec_zero decimalC; ord_Price := codec_zero decimalC;
                   ord_FillFees := codec_zero decimalC; ord_Type := codec_zero stringC;
                   ord_Side := codec_zero stringC; ord_TimeInForce := codec_zero stringC;
                   ord_TakerFeeRatio := codec_zero decimalC; ord_MakerFeeRatio := codec_zero decimalC;
                   ord_Status := codec_zero stringC; ord_Settled := codec_zero boolC |};
  marshal x := JsObj ([("Id", marshal uint64C (ord_Id x)); ("CreatedAt", marshal timeC (ord_CreatedAt x));
      ("UpdatedAt", marshal timeC (ord_UpdatedAt x)); ("ProductId", marshal stringC (ord_ProductId x));
      ("UserId", marshal uint64C (ord_UserId x)); ("ClientOid", marshal stringC (ord_ClientOid x));
      ("Size", marshal decimalC (ord_Size x)); ("Funds", marshal decimalC (ord_Funds x));
      ("FilledSize", marshal decimalC (ord_FilledSize x)); ("ExecutedValue", marshal decimalC (ord_ExecutedValue x));
      ("Price", marshal decimalC (ord_Price x)); ("FillFees", marshal decimalC (ord_FillFees x));
      ("Type", marshal stringC (ord_Type x)); ("Side", marshal stringC (ord_Side x));
      ("TimeInForce", marshal stringC (ord_TimeInForce x)); ("TakerFeeRatio", marshal decimalC (ord_TakerFeeRatio x));
      ("MakerFeeRatio", marshal decimalC (ord_MakerFeeRatio x)); ("Status", marshal stringC (ord_Status x));
      ("Settled", marshal boolC (ord_Settled x))]);
  unmarshal j := match j with
    | JsObj o => v0 ← field uint64C "Id" o; v1 ← field timeC "CreatedAt" o; v2 ← field timeC "UpdatedAt" o;
        v3 ← field stringC "ProductId" o; v4 ← field uint64C "UserId" o; v5 ← field stringC "ClientOid" o;
        v6 ← field decimalC "Size" o; v7 ← field decimalC "Funds" o; v8 ← field decimalC "FilledSize" o;
        v9 ← field decimalC "ExecutedValue" o; v10 ← field decimalC "Price" o; v11 ← field decimalC "FillFees" o;
        v12 ← field stringC "Type" o; v13 ← field stringC "Side" o; v14 ← field stringC "TimeInForce" o;
        v15 ← field decimalC "TakerFeeRatio" o; v16 ← field decimalC "MakerFeeRatio" o;
        v17 ← field stringC "Status" o; v18 ← field boolC "Settled" o;
        Some {| ord_Id := v0; ord_CreatedAt := v1; ord_UpdatedAt := v2; ord_ProductId := v3; ord_UserId := v4;
                ord_ClientOid := v5; ord_Size := v6; ord_Funds := v7; ord_FilledSize := v8; ord_ExecutedValue := v9;
                ord_Price := v10; ord_FillFees := v11; ord_Type := v12; ord_Side := v13; ord_TimeInForce := v14;
                ord_TakerFeeRatio := v15; ord_MakerFeeRatio := v16; ord_Status := v17; ord_Settled := v18 |}
    | _ => None end;
  canon x := {| ord_Id := ord_Id x; ord_CreatedAt := ord_CreatedAt x; ord_UpdatedAt := ord_UpdatedAt x;
                ord_ProductId := ord_ProductId x; ord_UserId := ord_UserId x; ord_ClientOid := ord_ClientOid x;
                ord_Size := canon decimalC (ord_Size x); ord_Funds := canon decimalC (ord_Funds x);
                ord_FilledSize := canon decimalC (ord_FilledSize x);
                ord_ExecutedValue := canon decimalC (ord_ExecutedValue x); ord_Price := canon decimalC (ord_Price x);
                ord_FillFees := canon decimalC (ord_FillFees x); ord_Type := ord_Type x; ord_Side := ord_Side x;
                ord_TimeInForce := ord_TimeInForce x; ord_TakerFeeRatio := canon decimalC (ord_TakerFeeRatio x);
                ord_MakerFeeRatio := canon decimalC (ord_MakerFeeRatio x); ord_Status := ord_Status x;
                ord_Settled := ord_Settled x |};
  codec_wf x := codec_wf uint64C (ord_Id x) /\ codec_wf uint64C (ord_UserId x) |}.

Lemma readBase_at o b : codec_wf baseC b -> lookupKey "Type" o = Some (marshal stringC (base_Type b)) ->
  lookupKey "Sequence" o = Some (marshal int64C (base_Sequence b)) ->
  lookupKey "ProductId" o = Some (marshal stringC (base_ProductId b)) ->
  lookupKey "Time" o = Some (marshal timeC (base_Time b)) -> readBase o = Some b.
Proof.
  intros Hb H1 H2 H3 H4. unfold readBase. rewrite (field_marshal _ _ _ _ H1), (field_marshal _ _ _ _ H2), (field_marshal _ _ _ _ H3), (field_marshal _ _ _ _ H4) by done.
  by destruct b.
Qed.
Ltac read_base b := rewrite (readBase_at _ b) by first [reflexivity|tauto]; cbn [mbind option_bind].

#[export] Instance baseC_laws : CodecLaws baseC.
Proof. split; [|done]. intros b Hb. cbn [unmarshal marshal baseC]. by read_base b. Qed.
#[export] Instance openLogC_laws : CodecLaws openLogC.
Proof. split; [|done]. intros l Hl. cbn [codec_wf openLogC] in Hl. cbn [unmarshal marshal openLogC]. read_base (ol_Base l). read_fields. Qed.
#[export] Instance doneLogC_laws : CodecLaws doneLogC.
Proof. split; [|done]. intros l Hl. cbn [codec_wf doneLogC] in Hl. cbn [unmarshal marshal doneLogC]. read_base (dl_Base l). read_fields. Qed.
#[export] Instance matchLogC_laws : CodecLaws matchLogC.
Proof. split; [|done]. intros l Hl. cbn [codec_wf matchLogC] in Hl. cbn [unmarshal marshal matchLogC]. read_base (ml_Base l). read_fields. Qed.
#[export] Instance orderC_laws : CodecLaws orderC.
Proof. split; [|done]. intros o (H1 & H2). cbn [unmarshal marshal orderC]. read_fields. Qed.
End Structs.
