(* ===== verification/Stores.v ===== *)
(** Where the services keep and pass on their data: the snapshots in Redis
    ([src/matching/redis_snapshot_store.go], [src/pushing/order_book.go]) and
    the order and log topics in Kafka ([kafka_order_reader.go],
    [kafka_log_store.go], [kafka_log_reader.go]). *)
From S2P Require Import Prelude Strconv Decimal TreeMap Models Window MatchLog OrderBook DepthInv Matching Book Trading Applier.
From S2P Require Import Snapshots Engine LogReader PushBook Json.
From stdpp Require Import list gmap strings relations.
Open Scope string_scope.
Open Scope list_scope.
Open Scope Z_scope.

(** ** Redis *)

(** [SET] with an expiry and [GET], which answer or fail; the clock is Redis' own. *)
Class RedisPkg := {
  Redis : Type;
  redis_Set : Instant -> Redis -> string -> json -> Z -> outcome string Redis;
  redis_Get : Instant -> Redis -> string -> outcome string (option json);
}.

(** The documented behaviour: a key holds what was set last, until it expires. *)
Class RedisLaws (R : RedisPkg) := {
  redis_content : Redis -> gmap string (json * Instant);
  redis_Set_content now r key v ttl r' : redis_Set now r key v ttl = Ok r' ->
    redis_content r' = <[key := (v, now + ttl)]> (redis_content r);
  redis_Get_content now r key x : redis_Get now r key = Ok x ->
    x = match redis_content r !! key with Some (v, e) => if now <? e then Some v else None | None => None end;
}.

(** [7*24*time.Hour] *)
Definition snapshotTtl : Z := 7 * 24 * 3600000000000.

Definition topicSnapshotPrefix : string := "matching_snapshot_".
Definition orderBookL2SnapshotKeyPrefix : string := "order_book_level2_snapshot_".
Definition orderBookFullSnapshotKeyPrefix : string := "order_book_full_snapshot_".

Section Stores.
Context {P : DecimalPkg} {L : DecimalLaws P} {X : DecimalText} {XL : DecimalTextLaws L X}.

(** [type Snapshot struct] of engine.go *)
Definition engineSnapshotC : codec EngineSnapshot := {|
  codec_zero := {| es_OrderBookSnapshot := codec_zero bookSnapshotC; es_OrderOffset := 0 |};
  marshal s := JsObj [("OrderBookSnapshot", marshal bookSnapshotC (es_OrderBookSnapshot s));
                      ("OrderOffset", marshal int64C (es_OrderOffset s))];
  unmarshal j := match j with
    | JsObj o => book ← field bookSnapshotC "OrderBookSnapshot" o; offset ← field int64C "OrderOffset" o;
                 Some {| es_OrderBookSnapshot := book; es_OrderOffset := offset |}
    | _ => None end;
  canon s := {| es_OrderBookSnapshot := canon bookSnapshotC (es_OrderBookSnapshot s); es_OrderOffset := es_OrderOffset s |};
  codec_wf s := codec_wf bookSnapshotC (es_OrderBookSnapshot s) /\ codec_wf int64C (es_OrderOffset s) |}.
#[export] Instance engineSnapshotC_laws : CodecLaws engineSnapshotC.
Proof. split; [|done]. intros s (H1 & H2). cbn [unmarshal marshal engineSnapshotC]. read_fields. Qed.

(** [type OrderBookFullSnapshot struct] *)
Definition fullSnapshotC : codec OrderBookFullSnapshot := {|
  codec_zero := {| fs_ProductId := ""; fs_Seq := 0; fs_LogOffset := 0; fs_LogSeq := 0; fs_Orders := [] |};
  marshal s := JsObj [("ProductId", marshal stringC (fs_ProductId s)); ("Seq", marshal int64C (fs_Seq s));
                      ("LogOffset", marshal int64C (fs_LogOffset s)); ("LogSeq", marshal int64C (fs_LogSeq s));
                      ("Orders", marshal (listC bookOrderC) (fs_Orders s))];
  unmarshal j := match j with
    | JsObj o => pid ← field stringC "ProductId" o; seq ← field int64C "Seq" o; offset ← field int64C "LogOffset" o;
                 logSeq ← field int64C "LogSeq" o; orders ← field (listC bookOrderC) "Orders" o;
                 Some {| fs_ProductId := pid; fs_Seq := seq; fs_LogOffset := offset; fs_LogSeq := logSeq; fs_Orders := orders |}
    | _ => None end;
  canon s := {| fs_ProductId := fs_ProductId s; fs_Seq := fs_Seq s; fs_LogOffset := fs_LogOffset s; fs_LogSeq := fs_LogSeq s;
                fs_Orders := canon (listC bookOrderC) (fs_Orders s) |};
  codec_wf s := codec_wf int64C (fs_Seq s) /\ codec_wf int64C (fs_LogOffset s) /\ codec_wf int64C (fs_LogSeq s) /\
                codec_wf (listC bookOrderC) (fs_Orders s) |}.
#[export] Instance fullSnapshotC_laws : CodecLaws fullSnapshotC.
Proof. split; [|done]. intros s (H1 & H2 & H3 & H4). cbn [unmarshal marshal fullSnapshotC]. read_fields. Qed.

(** A row of [OrderBookLevel2Snapshot]: price, size and count, or an unset one. *)
Definition marshalRow (row : levelRow) : json :=
  match row with
  | Some (price, size, count) => JsArr [JsStr price; JsStr size; JsNum count]
  | None => JsArr [JsNull; JsNull; JsNull]
  end.
Definition marshalLevel2 (s : OrderBookLevel2Snapshot) : json :=
  JsObj [("ProductId", JsStr (l2_ProductId s)); ("Seq", JsNum (l2_Seq s)); ("Asks", JsArr (marshalRow <$> l2_Asks s));
         ("Bids", JsArr (marshalRow <$> l2_Bids s))].

Section Snapshots.
Context {R : RedisPkg}.

(** A value and the error of reading it. *)
Definition getSnapshot {A} (c : codec A) (now : Instant) (r : Redis) (key : string) : outcome string (option A) :=
  ret ← redis_Get now r key;
  match ret with
  | None => mret None
  | Some v => match Unmarshal c v with Some s => mret (Some s) | None => Err "json" end
  end.

(** [RedisSnapshotStore] of the matching engine. *)
Definition RedisSnapshotStore_Store (productId : string) (now : Instant) (r : Redis) (snapshot : EngineSnapshot) : outcome string Redis :=
  redis_Set now r (topicSnapshotPrefix +:+ productId) (marshal engineSnapshotC snapshot) snapshotTtl.
Definition GetLatest (productId : string) (now : Instant) (r : Redis) : outcome string (option EngineSnapshot) :=
  getSnapshot engineSnapshotC now r (topicSnapshotPrefix +:+ productId).

(** [redisSnapshotStore] of the push server. *)
Definition storeLevel2 (productId : string) (now : Instant) (r : Redis) (snapshot : OrderBookLevel2Snapshot) : outcome string Redis :=
  redis_Set now r (orderBookL2SnapshotKeyPrefix +:+ productId) (marshalLevel2 snapshot) snapshotTtl.
Definition storeFull (productId : string) (now : Instant) (r : Redis) (snapshot : OrderBookFullSnapshot) : outcome string Redis :=
  redis_Set now r (orderBookFullSnapshotKeyPrefix +:+ productId) (marshal fullSnapshotC snapshot) snapshotTtl.
Definition getLastFull (productId : string) (now : Instant) (r : Redis) : outcome string (option OrderBookFullSnapshot) :=
  getSnapshot fullSnapshotC now r (orderBookFullSnapshotKeyPrefix +:+ productId).
End Snapshots.

(** ** Kafka *)

(** A log is written as the struct it is. *)
Definition marshalLog (l : Log) : json :=
  match l with
  | LOpen l => marshal openLogC l
  | LMatch l => marshal matchLogC l
  | LDone l => marshal doneLogC l
  end.

(** What is read back of it, and the logs whose numbers fit their types. *)
Definition canonLog (l : Log) : Log :=
  match l with
  | LOpen l => LOpen (canon openLogC l)
  | LMatch l => LMatch (canon matchLogC l)
  | LDone l => LDone (canon doneLogC l)
  end.
Definition log_wf (l : Log) : Prop :=
  match l with
  | LOpen l => codec_wf openLogC l
  | LMatch l => codec_wf matchLogC l
  | LDone l => codec_wf doneLogC l
  end.

(** [Store] of [KafkaLogStore], on the writer of its topic. *)
Definition KafkaLogStore_Store {A} (WriteMessages : list json -> outcome string A) (logs : list Log) : outcome string A :=
  WriteMessages (marshalLog <$> logs).

(** [FetchOrder] of [KafkaOrderReader], on what [FetchMessage] answers: the
    offset and the value of a message.  The message [null] is no order and no error. *)
Definition KafkaOrderReader_FetchOrder (FetchMessage : outcome string (Z * json)) : outcome string (Z * option Order) :=
  '(offset, value) ← FetchMessage;
  match value with
  | JsNull => mret (offset, None)
  | _ => match Unmarshal orderC value with Some order => mret (offset, Some order) | None => Err "json" end
  end.

(** [json.Unmarshal] whose error is a panic. *)
Definition mustUnmarshal {A} (c : codec A) (v : json) : outcome noerr A :=
  match Unmarshal c v with Some a => Ok a | None => Panic end.

(** A pass of the loop of [KafkaLogReader.Run], from the bytes of a message to
    the callback of the observer.  A log of no known type is only counted. *)
Definition kafkaStep {S} {O : LogObserver S} (st : readerState S) (message : Z * json) : outcome noerr (readerState S) :=
  let '(offset, value) := message in
  base ← mustUnmarshal baseC value;
  if base_Sequence base <=? rd_lastSeq st then mret st
  else if (0 <? rd_lastSeq st) && negb (base_Sequence base =? i64 (rd_lastSeq st + 1)) then Panic
  else
    s ← (if base_Type base =s? LogTypeOpen then log ← mustUnmarshal openLogC value; OnOpenLog log offset (rd_observer st)
         else if base_Type base =s? LogTypeMatch then log ← mustUnmarshal matchLogC value; OnMatchLog log offset (rd_observer st)
         else if base_Type base =s? LogTypeDone then log ← mustUnmarshal doneLogC value; OnDoneLog log offset (rd_observer st)
         else mret (rd_observer st));
    mret {| rd_lastSeq := base_Sequence base; rd_observer := s |}.

Fixpoint kafkaLoop {S} {O : LogObserver S} (st : readerState S) (messages : list (Z * json)) : outcome noerr (readerState S) :=
  match messages with
  | [] => mret st
  | message :: messages => st ← kafkaStep st message; kafkaLoop st messages
  end.

(** [Run] on what the topic holds. *)
Definition kafkaRun {S} {O : LogObserver S} (seq offset : Z) (topic : list (Z * json)) (s : S) : outcome noerr (readerState S) :=
  kafkaLoop {| rd_lastSeq := seq; rd_observer := s |} (filter (fun m => offset <= m.1) topic).

(** ** The types of the logs *)

(** The type a log carries is the one of its struct. *)
Definition typed (l : Log) : Prop :=
  base_Type (log_Base l) = match l with LOpen _ => LogTypeOpen | LMatch _ => LogTypeMatch | LDone _ => LogTypeDone end.

Section Typed.
Context {T : TreeMapPkg} (now : Z -> Instant).

Lemma matchStep_typed o taker id b o' taker' logs : matchStep now o taker id = Ok (b, o', taker', logs) -> Forall typed logs.
Proof.
  unfold matchStep. intros H. apply bind_Ok in H as (d & _ & H). apply bind_Ok in H as (m & _ & H).
  destruct (negb _); [by injection H as <- <- <- <-|]. apply bind_Ok in H as ([[[t z] m1] m2] & _ & H).
  destruct (dec_IsZero z); [by injection H as <- <- <- <-|]. apply bind_Ok in H as ([d1 m3] & _ & H).
  destruct (nextLogSeq _) as [n1 o1]. destruct (nextTradeSeq _) as [n2 o2]. destruct (dec_IsZero (bo_Size m3)).
  - destruct (nextLogSeq _) as [n3 o3]. injection H as <- <- <- <-. by repeat constructor.
  - injection H as <- <- <- <-. by repeat constructor.
Qed.

Lemma matchLoop_typed fuel : forall o taker pos o' taker' logs, matchLoop now fuel o taker pos = Ok (o', taker', logs) -> Forall typed logs.
Proof.
  induction fuel as [|fuel IH]; intros o taker pos o' taker' logs H; [discriminate|]. cbn [matchLoop] in H.
  apply bind_Ok in H as (d & _ & H). destruct (tm_Next _ _) as [[k id]|]; [|by injection H as <- <- <-].
  apply bind_Ok in H as ([[[c o1] t1] l1] & Hs & H). apply matchStep_typed in Hs. destruct c.
  - apply bind_Ok in H as ([[o2 t2] l2] & Hl & H). injection H as <- <- <-. apply Forall_app. split; [done|by eapply IH].
  - by injection H as <- <- <-.
Qed.

Lemma finishTaker_typed o taker o' logs : finishTaker now o taker = Ok (o', logs) -> Forall typed logs.
Proof.
  unfold finishTaker. intros H. destruct (takerRests taker).
  - apply bind_Ok in H as (d & _ & H). destruct (nextLogSeq _). injection H as <- <-. by repeat constructor.
  - destruct (takerDone taker) as [[t z] reason]. destruct (nextLogSeq _). injection H as <- <-. by repeat constructor.
Qed.

Lemma ApplyOrder_typed o order o' logs : ApplyOrder now o order = Ok (o', logs) -> Forall typed logs.
Proof.
  unfold ApplyOrder. intros H. destruct (dedupPut _ _); try discriminate; [|by injection H as <- <-].
  apply bind_Ok in H as (d & _ & H). apply bind_Ok in H as ([[o1 t1] l1] & Hl & H). apply bind_Ok in H as ([o2 l2] & Hf & H).
  injection H as <- <-. apply Forall_app. split; [by eapply matchLoop_typed|by eapply finishTaker_typed].
Qed.

Lemma CancelOrder_typed o order o' logs : CancelOrder now o order = Ok (o', logs) -> Forall typed logs.
Proof.
  unfold CancelOrder. intros H. apply bind_Ok in H as (o1 & _ & H). apply bind_Ok in H as (d & _ & H).
  destruct (d_orders d !! _); [|by injection H as <- <-]. apply bind_Ok in H as ([d1 b1] & _ & H). destruct (nextLogSeq _).
  injection H as <- <-. by repeat constructor.
Qed.

Lemma NullifyOrder_typed o order o' logs : NullifyOrder now o order = Ok (o', logs) -> Forall typed logs.
Proof.
  unfold NullifyOrder. intros H. apply bind_Ok in H as (o1 & _ & H). destruct (nextLogSeq _). injection H as <- <-. by repeat constructor.
Qed.

Lemma applyOffsetOrder_typed o order o' logs : applyOffsetOrder now o order = Ok (o', logs) -> Forall typed logs.
Proof.
  unfold applyOffsetOrder. intros H. destruct (_ =s? _); [by eapply CancelOrder_typed|]. destruct (_ =s? _).
  { apply bind_Ok in H as ([o1 l1] & H1 & H). apply bind_Ok in H as ([o2 l2] & H2 & H). injection H as <- <-.
    apply Forall_app. split; [by eapply ApplyOrder_typed|by eapply CancelOrder_typed]. }
  destruct (_ =s? _); [|destruct (_ =s? _); [|destruct (_ =s? _)]]; try (by injection H as <- <-).
  1,2: apply bind_Ok in H as ([] & _ & H).
  all: first [by eapply ApplyOrder_typed|by eapply NullifyOrder_typed].
Qed.

Lemma runOrders_typed orders : forall o o' logs, runOrders now o orders = Ok (o', logs) -> Forall typed logs.
Proof.
  induction orders as [|order orders IH]; intros o o' logs H; cbn [runOrders] in H; [by injection H as <- <-|].
  apply bind_Ok in H as ([o1 l1] & H1 & H). apply bind_Ok in H as ([o2 l2] & H2 & H). injection H as <- <-.
  apply Forall_app. split; [by eapply applyOffsetOrder_typed|by eapply IH].
Qed.
End Typed.
End Stores.
