(* ===== verification/StoreTheorems.v ===== *)
(** The snapshots in Redis and the log topic in Kafka: what the engine stores is
    what a restart finds, for seven days, and what it logs is what the readers
    of the topic get. *)
From S2P Require Import Prelude Strconv Decimal TreeMap Models Window MatchLog OrderBook DepthInv Matching Book Trading Applier.
From S2P Require Import Snapshots Engine LogReader PushBook Json Stores Observe Restarts.
From Stdlib Require Import QArith Lqa.
From stdpp Require Import list gmap strings relations sorting pretty.
Open Scope string_scope.
Open Scope list_scope.
Open Scope Z_scope.

Section Redis.
Context {P : DecimalPkg} {L : DecimalLaws P} {X : DecimalText} {XL : DecimalTextLaws L X}.
Context {R : RedisPkg} {RL : RedisLaws R}.

(** ** Keys *)

(** The writes of the services to Redis but those of the engine of [productId]. *)
Inductive otherWrite (productId : string) (r r' : Redis) : Prop :=
| write_engine p now s : p <> productId -> RedisSnapshotStore_Store p now r s = Ok r' -> otherWrite productId r r'
| write_full p now s : storeFull p now r s = Ok r' -> otherWrite productId r r'
| write_level2 p now s : storeLevel2 p now r s = Ok r' -> otherWrite productId r r'.

Lemma prefix_inj prefix p q : prefix +:+ p = prefix +:+ q -> p = q.
Proof. apply String.app_inj. Qed.

Lemma otherWrite_content p r r' : otherWrite p r r' ->
  redis_content r' !! (topicSnapshotPrefix +:+ p) = redis_content r !! (topicSnapshotPrefix +:+ p).
Proof.
  intros [q now s Hne H|q now s H|q now s H]; apply redis_Set_content in H as ->; rewrite lookup_insert_ne; try done.
  intros He%prefix_inj. done.
Qed.

Lemma otherWrites_content p r r' : rtc (otherWrite p) r r' ->
  redis_content r' !! (topicSnapshotPrefix +:+ p) = redis_content r !! (topicSnapshotPrefix +:+ p).
Proof. induction 1 as [|r1 r2 r3 H _ IH]; [done|]. by rewrite IH, (otherWrite_content _ _ _ H). Qed.

(** What is read of a key that holds a snapshot. *)
Lemma getSnapshot_content {A} (c : codec A) `{!CodecLaws c} now r key s e x : redis_content r !! key = Some (marshal c s, e) ->
  codec_wf c s -> getSnapshot c now r key = Ok x -> x = if now <? e then Some (canon c s) else None.
Proof.
  intros Hc Hw H. unfold getSnapshot in H. apply bind_Ok in H as (ret & Hget & H). apply redis_Get_content in Hget. rewrite Hc in Hget.
  subst ret. destruct (now <? e); [|by injection H as <-]. rewrite Unmarshal_marshal in H by done. by injection H as <-.
Qed.

Lemma full_snapshot_kept p now r s r' t x : storeFull p now r s = Ok r' -> codec_wf fullSnapshotC s -> getLastFull p t r' = Ok x ->
  x = if t <? now + snapshotTtl then Some (canon fullSnapshotC s) else None.
Proof.
  intros Hs Hw Hg. apply redis_Set_content in Hs. eapply getSnapshot_content; [apply _| |exact Hw|exact Hg]. rewrite Hs. by rewrite lookup_insert_eq.
Qed.

Lemma engine_snapshot_kept p now r s r1 r2 t x : RedisSnapshotStore_Store p now r s = Ok r1 -> rtc (otherWrite p) r1 r2 ->
  codec_wf engineSnapshotC s -> GetLatest p t r2 = Ok x -> x = if t <? now + snapshotTtl then Some (canon engineSnapshotC s) else None.
Proof.
  intros Hs Hr Hw Hg. apply redis_Set_content in Hs. pose proof (otherWrites_content _ _ _ Hr) as Hk.
  rewrite Hs, lookup_insert_eq in Hk. eapply getSnapshot_content; [apply _|exact Hk|exact Hw|exact Hg].
Qed.
End Redis.

(** ** The book behind a snapshot *)

Section Book.
Context {P : DecimalPkg} {L : DecimalLaws P} {X : DecimalText} {XL : DecimalTextLaws L X} {T : TreeMapPkg} {TL : TreeMapLaws T}.
Implicit Types (o : orderBook) (a : AbsBook).

Definition canonOrders (l : list BookOrder) : list BookOrder := canon bookOrderC <$> l.
Definition canonBook a : AbsBook := {| ab_bids := canonOrders (ab_bids a); ab_asks := canonOrders (ab_asks a) |}.

Lemma canonBook_get a s : ab_get (canonBook a) s = canonOrders (ab_get a s).
Proof. unfold ab_get. by destruct (s =s? SideBuy). Qed.
Lemma canonBook_ids a : ab_ids (canonBook a) = ab_ids a.
Proof.
  unfold ab_ids, canonBook, canonOrders. cbn [ab_bids ab_asks]. rewrite <- fmap_app, <- list_fmap_compose. by apply list_fmap_ext.
Qed.

Lemma canon_priority s b b' : priority (cmpOf s) (canon bookOrderC b) (canon bookOrderC b') <-> priority (cmpOf s) b b'.
Proof.
  unfold priority, cmpOf, keyOf. destruct (s =s? SideBuy); unfold priceOrderIdKeyDescComparator, priceOrderIdKeyAscComparator;
    cbn [key_price key_orderId canon bookOrderC bo_Price bo_OrderId]; by rewrite !canon_decimal.
Qed.

Lemma canon_resting s b : resting s b -> resting s (canon bookOrderC b).
Proof.
  intros (H1 & H2 & H3 & H4). unfold resting. cbn [canon bookOrderC bo_Side bo_Type bo_Size bo_Price].
  pose proof (canon_decimal (bo_Size b)) as E1. pose proof (canon_decimal (bo_Price b)) as E2. unfold deq in E1, E2.
  by rewrite E1, E2.
Qed.

Lemma canon_side s l : StronglySorted (priority (cmpOf s)) l /\ Forall (resting s) l ->
  StronglySorted (priority (cmpOf s)) (canonOrders l) /\ Forall (resting s) (canonOrders l).
Proof.
  intros [Hs Hr]. split.
  - eapply (StronglySorted_fmap (canon bookOrderC)); [|exact Hs]. intros b b'. apply canon_priority.
  - apply Forall_fmap. eapply Forall_impl; [exact Hr|]. intros b. apply canon_resting.
Qed.

(** The same order, its decimals equal numbers. *)
Record sameTermsOrder (b b' : BookOrder) : Prop := {
  same_orderId : bo_OrderId b' = bo_OrderId b;
  same_userId : bo_UserId b' = bo_UserId b;
  same_boSide : bo_Side b' = bo_Side b /\ bo_Type b' = bo_Type b /\ bo_TimeInForce b' = bo_TimeInForce b;
  same_amounts : bo_Size b' ≡d bo_Size b /\ bo_Funds b' ≡d bo_Funds b /\ bo_Price b' ≡d bo_Price b;
}.

Lemma canon_same l : Forall2 sameTermsOrder l (canonOrders l).
Proof.
  apply Forall2_fmap_r, Forall_Forall2_diag, Forall_forall. intros b _. split; [done|done|done|].
  split_and!; apply canon_decimal.
Qed.

(** A book restored from what the codec made of its snapshot is the book, its
    decimals written anew. *)
Lemma restore_canon visit o a : (forall l, visit l ≡ₚ l) -> book_ok o a ->
  exists snap o1, Snapshot visit o = Ok snap /\
    Restore (NewOrderBook (ob_product o)) (canon bookSnapshotC snap) = Ok o1 /\ book_ok o1 (canonBook a) /\
    ob_product o1 = ob_product o /\ ob_logSeq o1 = ob_logSeq o /\ ob_tradeSeq o1 = ob_tradeSeq o /\
    ob_orderIdWindows o1 = ob_orderIdWindows o /\
    snap_Orders snap ≡ₚ ab_asks a ++ ab_bids a /\ snap_LogSeq snap = ob_logSeq o /\ snap_TradeSeq snap = ob_tradeSeq o /\
    snap_OrderIdWindows snap = ob_orderIdWindows o.
Proof.
  intros Hv [B U]. destruct (Snapshot_eq visit o a Hv B) as (orders & Es & Hp).
  destruct (restore_repr (ob_product o) (canonOrders orders) (canonBook a) (ob_orderIdWindows o) (ob_logSeq o) (ob_tradeSeq o))
    as (o1 & Er & B1 & E1 & E2 & E3 & E4).
  - apply B.
  - rewrite canonBook_ids. apply B.
  - rewrite canonBook_ids. apply B.
  - intros s Hs. rewrite canonBook_get. apply canon_side. destruct (br_side _ _ B s Hs) as (d & _ & Rd).
    split; [by eapply depth_sorted|apply (dr_resting _ _ _ _ Rd)].
  - unfold canonBook. cbn [ab_asks ab_bids]. unfold canonOrders. rewrite <- fmap_app. by apply fmap_Permutation.
  - eexists _, o1. split; [exact Es|]. split.
    + rewrite <- Er. cbn. unfold canonOrders. by rewrite list_fmap_id.
    + split; [|done]. split; [exact B1|]. intros b k Hb Hk. apply list_elem_of_fmap in Hb as (b0 & -> & Hb), Hk as (k0 & -> & Hk).
      pose proof (U _ _ Hb Hk) as H. pose proof (canon_decimal (bo_Price b0)) as E5. pose proof (canon_decimal (bo_Price k0)) as E6.
      cbn [canon bookOrderC bo_Price]. unfold deq in E5, E6. by rewrite E5, E6.
Qed.

(** The numbers of a book that fit the integers of a snapshot. *)
Record book_fits o a : Prop := {
  fits_users : Forall (fun b => is_u64 (bo_UserId b)) (ab_asks a ++ ab_bids a);
  fits_logSeq : is_i64 (ob_logSeq o);
  fits_tradeSeq : is_i64 (ob_tradeSeq o);
}.

Lemma int64_wf z : is_i64 z -> codec_wf int64C z.
Proof. unfold is_i64. intros [? ?]. cbn. apply andb_true_iff. split; [by apply Z.leb_le|by apply Z.ltb_lt]. Qed.
Lemma uint64_wf z : is_u64 z -> codec_wf uint64C z.
Proof. unfold is_u64, u64_size. intros [? ?]. cbn. unfold maxUint64. apply andb_true_iff. split; apply Z.leb_le; lia. Qed.

Lemma window_codec_wf w : window_wf w -> codec_wf windowC w.
Proof. intros []. cbn [codec_wf windowC]. split_and!; apply uint64_wf; unfold is_u64; lia. Qed.

Lemma snapshot_codec_wf o a snap : book_ok o a -> book_fits o a -> snap_Orders snap ≡ₚ ab_asks a ++ ab_bids a ->
  snap_LogSeq snap = ob_logSeq o -> snap_TradeSeq snap = ob_tradeSeq o -> snap_OrderIdWindows snap = ob_orderIdWindows o ->
  codec_wf bookSnapshotC snap.
Proof.
  intros [B _] [Hu Hl Ht] Ho El Et Ew. cbn [codec_wf bookSnapshotC]. rewrite El, Et, Ew. split_and!.
  - cbn [codec_wf listC]. rewrite Ho. pose proof (br_dedup _ _ B) as Hid. unfold ab_ids in Hid.
    rewrite Forall_fmap, (Permutation_app_comm (ab_bids a)) in Hid. rewrite Forall_forall in *. intros b Hb. cbn [codec_wf bookOrderC].
    split; apply uint64_wf; [|by apply Hu]. destruct (Hid b Hb) as [Hw _]. unfold window_id, is_u64 in *. cbn in Hw. lia.
  - by apply int64_wf.
  - by apply int64_wf.
  - cbn [codec_wf listC]. eapply Forall_impl; [apply (br_windows _ _ B)|]. apply window_codec_wf.
Qed.

(** C19: the book survives Redis.  Whatever the other engines and the push
    server write to Redis in between, a restart of the engine within seven days
    finds the snapshot it stored: the order offset, and a book with the same
    resting orders in the same priority (each decimal an equal number), the
    same counters and windows, from which the engine can start.  After seven
    days it finds nothing and starts with an empty book. *)
Theorem book_survives_redis {R : RedisPkg} {RL : RedisLaws R} visit o a offset now r r1 r2 t x : (forall l, visit l ≡ₚ l) ->
  book_ok o a -> book_fits o a -> is_i64 offset ->
  forall snap, Snapshot visit o = Ok snap ->
  RedisSnapshotStore_Store (prod_Id (ob_product o)) now r {| es_OrderBookSnapshot := snap; es_OrderOffset := offset |} = Ok r1 ->
  rtc (otherWrite (prod_Id (ob_product o))) r1 r2 -> GetLatest (prod_Id (ob_product o)) t r2 = Ok x ->
  if t <? now + 7 * 24 * 3600000000000 then
    exists s o1, x = Some s /\ es_OrderOffset s = offset /\
      Restore (NewOrderBook (ob_product o)) (es_OrderBookSnapshot s) = Ok o1 /\ book_ok o1 (canonBook a) /\
      Forall2 sameTermsOrder (ab_bids a) (ab_bids (canonBook a)) /\ Forall2 sameTermsOrder (ab_asks a) (ab_asks (canonBook a)) /\
      ob_logSeq o1 = ob_logSeq o /\ ob_tradeSeq o1 = ob_tradeSeq o /\ ob_orderIdWindows o1 = ob_orderIdWindows o
  else x = None.
Proof.
  intros Hv B F Ho snap Hsn Hst Hw Hg. destruct (restore_canon visit o a Hv B) as (snap' & o1 & Hsn' & Hr & B1 & _ & E1 & E2 & E3 & Hp & E4 & E5 & E6).
  rewrite Hsn in Hsn'. injection Hsn' as <-. eapply engine_snapshot_kept in Hg; [|exact Hst|exact Hw|].
  - unfold snapshotTtl in Hg. destruct (t <? _); [|done]. eexists _, o1. split; [exact Hg|]. split; [done|]. split; [exact Hr|].
    split; [done|]. split; [apply canon_same|]. split; [apply canon_same|done].
  - split; [by apply (snapshot_codec_wf o a snap)|by apply (int64_wf offset)].
Qed.
End Book.

(** ** The log topic *)

Section Logs.
Context {P : DecimalPkg} {L : DecimalLaws P} {X : DecimalText} {XL : DecimalTextLaws L X}.

Lemma canonLog_base l : log_Base (canonLog l) = log_Base l.
Proof. by destruct l. Qed.

Lemma openLog_base l : codec_wf openLogC l -> Unmarshal baseC (marshal openLogC l) = Some (ol_Base l).
Proof. intros (H & _). unfold Unmarshal. cbn [marshal unmarshal openLogC doneLogC matchLogC baseC]. by apply readBase_at. Qed.
Lemma doneLog_base l : codec_wf doneLogC l -> Unmarshal baseC (marshal doneLogC l) = Some (dl_Base l).
Proof. intros (H & _). unfold Unmarshal. cbn [marshal unmarshal openLogC doneLogC matchLogC baseC]. by apply readBase_at. Qed.
Lemma matchLog_base l : codec_wf matchLogC l -> Unmarshal baseC (marshal matchLogC l) = Some (ml_Base l).
Proof. intros (H & _). unfold Unmarshal. cbn [marshal unmarshal openLogC doneLogC matchLogC baseC]. by apply readBase_at. Qed.

Lemma log_base l : log_wf l -> Unmarshal baseC (marshalLog l) = Some (log_Base l).
Proof. destruct l; [apply openLog_base|apply matchLog_base|apply doneLog_base]. Qed.

(** A message of the topic. *)
Definition kafkaMessage (m : logMessage) : Z * json := (lm_Offset m, marshalLog (lm_Log m)).
Definition canonMessage (m : logMessage) : logMessage := {| lm_Offset := lm_Offset m; lm_Log := canonLog (lm_Log m) |}.

Lemma kafkaStep_log {S} `{!LogObserver S} (st : readerState S) m : typed (lm_Log m) -> log_wf (lm_Log m) ->
  kafkaStep st (kafkaMessage m) = readerStep st (canonMessage m).
Proof.
  intros Ht Hw. unfold kafkaStep, kafkaMessage, readerStep, mustUnmarshal. rewrite (log_base _ Hw). cbn [mbind outcome_bind].
  assert (Hseq : lm_Seq (canonMessage m) = base_Sequence (log_Base (lm_Log m))) by (unfold lm_Seq, GetSeq; cbn; by rewrite canonLog_base).
  rewrite Hseq. destruct (_ <=? _); [done|]. destruct (_ && _); [done|]. unfold deliver, canonMessage. cbn [lm_Log lm_Offset].
  unfold typed in Ht. rewrite Ht. destruct (lm_Log m) as [l|l|l]; cbn [marshalLog canonLog log_wf] in *.
  - by rewrite (Unmarshal_marshal openLogC l Hw).
  - by rewrite (Unmarshal_marshal matchLogC l Hw).
  - by rewrite (Unmarshal_marshal doneLogC l Hw).
Qed.

Lemma kafkaLoop_logs {S} `{!LogObserver S} ms : forall st : readerState S, Forall (fun m => typed (lm_Log m) /\ log_wf (lm_Log m)) ms ->
  kafkaLoop st (kafkaMessage <$> ms) = readerLoop st (canonMessage <$> ms).
Proof.
  induction ms as [|m ms IH]; intros st H; [done|]. apply Forall_cons in H as [[Ht Hw] H].
  cbn [fmap list_fmap kafkaLoop readerLoop]. rewrite kafkaStep_log by done.
  destruct (readerStep _ _); try done. cbn [mbind outcome_bind]. by apply IH.
Qed.

(** The same log, its decimals equal numbers. *)
Definition sameLog (l l' : Log) : Prop :=
  match l, l' with
  | LOpen a, LOpen b => ol_Base b = ol_Base a /\ ol_OrderId b = ol_OrderId a /\ ol_UserId b = ol_UserId a /\ ol_Side b = ol_Side a /\
      ol_TimeInForce b = ol_TimeInForce a /\ ol_RemainingSize b ≡d ol_RemainingSize a /\ ol_Price b ≡d ol_Price a
  | LMatch a, LMatch b => ml_Base b = ml_Base a /\ ml_TradeSeq b = ml_TradeSeq a /\ ml_TakerOrderId b = ml_TakerOrderId a /\
      ml_MakerOrderId b = ml_MakerOrderId a /\ ml_TakerUserId b = ml_TakerUserId a /\ ml_MakerUserId b = ml_MakerUserId a /\
      ml_Side b = ml_Side a /\ ml_TakerTimeInForce b = ml_TakerTimeInForce a /\ ml_MakerTimeInForce b = ml_MakerTimeInForce a /\
      ml_Price b ≡d ml_Price a /\ ml_Size b ≡d ml_Size a
  | LDone a, LDone b => dl_Base b = dl_Base a /\ dl_OrderId b = dl_OrderId a /\ dl_UserId b = dl_UserId a /\ dl_Side b = dl_Side a /\
      dl_Reason b = dl_Reason a /\ dl_TimeInForce b = dl_TimeInForce a /\ dl_Price b ≡d dl_Price a /\
      dl_RemainingSize b ≡d dl_RemainingSize a
  | _, _ => False
  end.

Lemma canonLog_same l : sameLog l (canonLog l).
Proof. destruct l; cbn [canonLog sameLog]; split_and!; first [done|apply canon_decimal]. Qed.

(** The topic after the engine has stored its batches: Kafka appends. *)
Definition appendMessages (topic values : list json) : outcome string (list json) := Ok (topic ++ values).
Fixpoint storeBatches (topic : list json) (batches : list (list Log)) : outcome string (list json) :=
  match batches with
  | [] => mret topic
  | logs :: batches => topic ← KafkaLogStore_Store (appendMessages topic) logs; storeBatches topic batches
  end.

Lemma storeBatches_eq batches : forall topic, storeBatches topic batches = Ok (topic ++ (marshalLog <$> concat batches)).
Proof.
  induction batches as [|logs batches IH]; intros topic; cbn; [by rewrite app_nil_r|].
  unfold KafkaLogStore_Store, appendMessages. cbn [mbind outcome_bind]. by rewrite IH, fmap_app, app_assoc.
Qed.

(** The messages of a topic: a value at each offset. *)
Definition kafkaTopic (values : list json) : list (Z * json) := imap (fun i v => (Z.of_nat i, v)) values.

Lemma kafkaTopic_logs logs : kafkaTopic (marshalLog <$> logs) = kafkaMessage <$> messages logs.
Proof. unfold kafkaTopic, messages. rewrite imap_fmap, fmap_imap. done. Qed.
Lemma canon_messages logs : messages (canonLog <$> logs) = canonMessage <$> messages logs.
Proof. unfold messages. rewrite imap_fmap, fmap_imap. done. Qed.

Lemma filter_fmap_offset {A B} (f : A -> B) (P1 : A -> Prop) (P2 : B -> Prop) `{!forall x, Decision (P1 x)} `{!forall x, Decision (P2 x)} (l : list A) :
  (forall x, P2 (f x) <-> P1 x) -> filter P2 (f <$> l) = f <$> filter P1 l.
Proof.
  intros Hp. induction l as [|x l IH]; [done|]. rewrite fmap_cons, !filter_cons.
  destruct (decide (P1 x)) as [Hx|Hx]; [rewrite decide_True by (by apply Hp)|rewrite decide_False by (by rewrite Hp)]; rewrite IH; done.
Qed.
End Logs.

(** C17: what the engine logs is what the readers of the topic get.  The logs of
    any run of orders, stored in any batches as JSON and read back from any
    offset and after any sequence number, reach an observer just as if the
    reader had been given the logs themselves: each message is told by its type
    for the log it is, none is malformed, and each log has its fields, with
    decimals that are equal numbers. *)
Theorem log_topic_readable {P : DecimalPkg} {L : DecimalLaws P} {X : DecimalText} {XL : DecimalTextLaws L X} {T : TreeMapPkg}
    {S} {O : LogObserver S} now (o o' : orderBook) orders logs batches topic seq offset (s : S) :
  runOrders now o orders = Ok (o', logs) -> Forall log_wf logs -> concat batches = logs -> storeBatches [] batches = Ok topic ->
  kafkaRun seq offset (kafkaTopic topic) s = Run seq offset (messages (canonLog <$> logs)) s /\
  Forall2 sameLog logs (canonLog <$> logs).
Proof.
  intros Hrun Hwf Hb Hs. apply runOrders_typed in Hrun. rewrite storeBatches_eq, Hb in Hs. injection Hs as <-.
  split; [|apply Forall2_fmap_r, Forall_Forall2_diag, Forall_forall; intros l _; apply canonLog_same].
  unfold kafkaRun, Run. cbn [app]. rewrite kafkaTopic_logs, canon_messages.
  rewrite (filter_fmap_offset kafkaMessage (fun m => offset <= lm_Offset m) (fun m => offset <= m.1)) by done.
  rewrite (filter_fmap_offset canonMessage (fun m => offset <= lm_Offset m) (fun m => offset <= lm_Offset m)) by done. apply kafkaLoop_logs.
  apply Forall_forall. intros m Hm. apply list_elem_of_filter in Hm as [_ Hm]. unfold messages in Hm.
  apply elem_of_lookup_imap in Hm as (i & l & -> & Hl). apply list_elem_of_lookup_2 in Hl. rewrite Forall_forall in *. auto.
Qed.

(** ** The theorems at work *)

Module StoreDemo.
Import Demo.

(** Reading a decimal back: the digits of the number of its fraction. *)
Fixpoint readDigits (n : Z) (s : string) : Z :=
  match s with
  | EmptyString => n
  | String c s => readDigits (n * 10 + default 0 (digitOf c)) s
  end.

Lemma readDigits_pretty x : forall s, (0 < x)%N -> readDigits 0 (pretty_N_go x s) = readDigits (Z.of_N x) s.
Proof.
  induction (N.lt_wf_0 x) as [x _ IH]; intros s Hpos. rewrite pretty_N_go_step by done.
  pose proof (N.mod_lt x 10 ltac:(done)) as Hm. destruct (div_less x Hpos) as [Hlt _].
  assert (Hlast : readDigits (Z.of_N (x / 10)) (String (pretty_N_char (x mod 10)) s) = readDigits (Z.of_N x) s).
  { cbn [readDigits]. rewrite digitOf_pretty by done. cbn [default]. f_equal. pose proof (N.div_mod' x 10). change (N.div x 10) with (x / 10)%N in *.
    generalize dependent (x / 10)%N. generalize dependent (x mod 10)%N. intros; cbn; lia. }
  destruct (decide (x / 10 = 0)%N) as [E|E].
  - rewrite E in *. rewrite pretty_N_go_0. exact Hlast.
  - rewrite IH; [exact Hlast|done|by apply N.neq_0_lt_0].
Qed.

Definition parseQ (s : string) : option Q := '(n, d) ← decode (Z.to_pos (readDigits 0 s)); Some (n # d)%Q.
#[export] Instance text : DecimalText := {| ParseDecimal := parseQ : string -> option Dec |}.
#[export] Instance textLaws : DecimalTextLaws QDecimal.laws text.
Proof.
  split. intros d. exists (Qred d). split; [|apply Qred_correct]. change (parseQ (QDecimal.to_string d) = Some (Qred d)).
  unfold parseQ, QDecimal.to_string. cbn zeta.
  assert (Hread : readDigits 0 (pretty (encode (Qnum (Qred d), Qden (Qred d)))) = Z.pos (encode (Qnum (Qred d), Qden (Qred d)))).
  { generalize (encode (Qnum (Qred d), Qden (Qred d))). intros p. change (pretty p) with (pretty_N_go (N.pos p) "").
    by rewrite readDigits_pretty. }
  rewrite Hread. cbn [Z.to_pos]. rewrite decode_encode. cbn [mbind option_bind]. by destruct (Qred d).
Qed.

(** A Redis that never fails: a map of what was set, with the time it expires. *)
#[export] Instance mapRedis : RedisPkg := {|
  Redis := gmap string (json * Instant);
  redis_Set := fun now r key v ttl => Ok (<[key := (v, now + ttl)]> r);
  redis_Get := fun now r key => Ok match r !! key with Some (v, e) => if now <? e then Some v else None | None => None end |}.
#[export] Instance mapRedisLaws : RedisLaws mapRedis.
Proof.
  refine {| redis_content := fun r : @Redis mapRedis => (r : gmap string (json * Instant)) |}.
  - intros now r key v ttl r' [= <-]. done.
  - intros now r key x [= <-]. done.
Defined.

Lemma demo_ok : book_ok ob ab.
Proof.
  split; [apply ob_repr|].
  assert (Forall (fun b => Forall (fun k => bo_Price b < bo_Price k)%Q asks) bids) as H by (by repeat constructor).
  intros b k Hb Hk. rewrite Forall_forall in H. specialize (H b Hb). rewrite Forall_forall in H. by apply H.
Qed.

Lemma demo_fits : book_fits ob ab.
Proof.
  destruct ob_repr as (_ & _ & _ & El & Et). split.
  - repeat constructor; vm_compute; discriminate.
  - rewrite El. by split.
  - rewrite Et. by split.
Qed.

(** The book is stored, the push server stores its own, six and eight days go by. *)
Definition snap0 : orderBookSnapshot := getOk zeroSnapshot (Snapshot (@rev BookOrder) ob).
Definition full0 : OrderBookFullSnapshot := {| fs_ProductId := "BTC-USDT"; fs_Seq := 3; fs_LogOffset := 2; fs_LogSeq := 3; fs_Orders := bids |}.
Definition stored0 : Redis := getOk (∅ : gmap string (json * Instant))
  (RedisSnapshotStore_Store "BTC-USDT" 0 (∅ : gmap string (json * Instant)) {| es_OrderBookSnapshot := snap0; es_OrderOffset := 17 |}).
Definition stored1 : Redis := getOk (∅ : gmap string (json * Instant)) (storeFull "BTC-USDT" 1 stored0 full0).
Definition days (n : Z) : Instant := n * 24 * 3600000000000.
Definition foundAt (t : Instant) : option EngineSnapshot := getOk None (GetLatest "BTC-USDT" t stored1).

Lemma foundAt_get t : GetLatest "BTC-USDT" t stored1 = Ok (foundAt t) \/ isOk (GetLatest "BTC-USDT" t stored1) = false.
Proof. unfold foundAt. by destruct (GetLatest "BTC-USDT" t stored1); [left|right..]. Qed.

Lemma book_survives_redis_witness :
  (exists s o1, foundAt (days 6) = Some s /\ es_OrderOffset s = 17 /\
     Restore (NewOrderBook (ob_product ob)) (es_OrderBookSnapshot s) = Ok o1 /\ book_ok o1 (canonBook ab)) /\
  foundAt (days 8) = None.
Proof.
  assert (Hsnap : Snapshot (@rev BookOrder) ob = Ok snap0) by (unfold snap0; apply isOk_get; vm_compute; reflexivity).
  assert (Hpid : prod_Id (ob_product ob) = "BTC-USDT") by (destruct ob_repr as (_ & _ & -> & _); reflexivity).
  assert (Hst : RedisSnapshotStore_Store (prod_Id (ob_product ob)) 0 (∅ : gmap string (json * Instant))
    {| es_OrderBookSnapshot := snap0; es_OrderOffset := 17 |} = Ok stored0) by (rewrite Hpid; reflexivity).
  assert (Hw : rtc (otherWrite (prod_Id (ob_product ob))) stored0 stored1)
    by (eapply rtc_once, (write_full _ _ _ "BTC-USDT" 1 full0); reflexivity).
  assert (H17 : is_i64 17) by (by split).
  assert (Hrev : forall l : list BookOrder, rev l ≡ₚ l) by (intros l; symmetry; apply Permutation_rev).
  assert (Hget : forall t, isOk (GetLatest "BTC-USDT" t stored1) = true -> GetLatest (prod_Id (ob_product ob)) t stored1 = Ok (foundAt t))
    by (intros t Ht; rewrite Hpid; destruct (foundAt_get t) as [|Hno]; [done|by rewrite Hno in Ht]).
  assert (Hg6 := Hget (days 6) ltac:(vm_compute; reflexivity)). assert (Hg8 := Hget (days 8) ltac:(vm_compute; reflexivity)).
  pose proof (book_survives_redis (@rev BookOrder) ob ab 17 0 _ _ _ _ _ Hrev demo_ok demo_fits H17 snap0 Hsnap Hst Hw Hg6) as H6.
  pose proof (book_survives_redis (@rev BookOrder) ob ab 17 0 _ _ _ _ _ Hrev demo_ok demo_fits H17 snap0 Hsnap Hst Hw Hg8) as H8.
  change (days 6 <? 0 + 7 * 24 * 3600000000000) with true in H6. change (days 8 <? 0 + 7 * 24 * 3600000000000) with false in H8.
  cbv iota in H6, H8. split; [|exact H8]. destruct H6 as (s & o1 & H1 & H2 & H3 & H4 & _). exists s, o1. split_and!; [exact H1|exact H2|exact H3|exact H4].
Defined.

(** An observer that keeps the logs it is shown. *)
#[export] Instance keeper : LogObserver (list Log) := {|
  OnOpenLog l _ seen := Ok (seen ++ [LOpen l]);
  OnMatchLog l _ seen := Ok (seen ++ [LMatch l]);
  OnDoneLog l _ seen := Ok (seen ++ [LDone l]) |}.

#[export] Instance log_wf_dec l : Decision (log_wf l).
Proof. destruct l; cbn [log_wf codec_wf openLogC matchLogC doneLogC int64C uint64C rangeC]; apply _. Defined.

Definition bigBuy : Order := order 2000 SideBuy OrderTypeLimit GoodTillCanceled 9 101 0.
Definition dayLogs : list Log := getOk [] ('(_, logs) ← runOrders clock ob [bigBuy]; mret logs).
Definition dayBatches : list (list Log) := [take 2 dayLogs; drop 2 dayLogs].
Definition dayTopic : list json := marshalLog <$> dayLogs.

Lemma log_topic_readable_witness : length dayLogs = 5%nat /\
  kafkaRun 0 0 (kafkaTopic dayTopic) [] = Run 0 0 (messages (canonLog <$> dayLogs)) [] /\
  Forall2 sameLog dayLogs (canonLog <$> dayLogs).
Proof.
  split; [vm_compute; reflexivity|].
  assert (Hrun : exists o', runOrders clock ob [bigBuy] = Ok (o', dayLogs)).
  { unfold dayLogs. assert (Hok : isOk (runOrders clock ob [bigBuy]) = true) by (vm_compute; reflexivity).
    destruct (runOrders clock ob [bigBuy]) as [[o' logs]| | |]; try discriminate. by exists o'. }
  destruct Hrun as [o' Hrun].
  assert (Hwf : Forall log_wf dayLogs) by (apply (bool_decide_unpack _); vm_compute; exact I).
  assert (Hb : concat dayBatches = dayLogs) by (unfold dayBatches; cbn [concat]; rewrite app_nil_r; apply take_drop).
  assert (Hs : storeBatches [] dayBatches = Ok dayTopic) by (rewrite storeBatches_eq, Hb; reflexivity).
  exact (log_topic_readable clock ob o' [bigBuy] dayLogs dayBatches dayTopic 0 0 [] Hrun Hwf Hb Hs).
Defined.
End StoreDemo.
