(* ===== verification/ClientIO.v ===== *)
(** The connection of a client of the push server: the loops of [runReader] and
    [runWriter] of [src/pushing/client.go], with reads, writes and pings that
    fail.  Either loop closes the client and ends when its side of the
    connection fails; the other goes on until it notices.  [closed_client_gone]
    shows that a client whose reader has ended is in no channel, whatever its
    writer and the rest of the server did before and do afterwards. *)
From S2P Require Import Prelude Decimal Models PushBook Messages Hub HubRun HubAccess MatchLog OrderBook Json.
From stdpp Require Import gmap strings list.
Open Scope string_scope.
Open Scope list_scope.
Open Scope Z_scope.

(** [type Request struct] with its JSON names. *)
Definition requestC : codec Request := {|
  codec_zero := {| req_Type := ""; req_ProductIds := []; req_CurrencyIds := []; req_Channels := []; req_Token := "" |};
  marshal r := JsObj [("type", marshal stringC (req_Type r)); ("product_ids", marshal (listC stringC) (req_ProductIds r));
                      ("currency_ids", marshal (listC stringC) (req_CurrencyIds r));
                      ("channels", marshal (listC stringC) (req_Channels r)); ("token", marshal stringC (req_Token r))];
  unmarshal j := match j with
    | JsObj o => ty ← field stringC "type" o; pids ← field (listC stringC) "product_ids" o;
                 cids ← field (listC stringC) "currency_ids" o; chs ← field (listC stringC) "channels" o;
                 token ← field stringC "token" o;
                 Some {| req_Type := ty; req_ProductIds := pids; req_CurrencyIds := cids; req_Channels := chs; req_Token := token |}
    | _ => None end;
  canon r := {| req_Type := req_Type r; req_ProductIds := canon (listC stringC) (req_ProductIds r);
                req_CurrencyIds := canon (listC stringC) (req_CurrencyIds r); req_Channels := canon (listC stringC) (req_Channels r);
                req_Token := req_Token r |};
  codec_wf r := codec_wf (listC stringC) (req_ProductIds r) /\ codec_wf (listC stringC) (req_CurrencyIds r) /\
                codec_wf (listC stringC) (req_Channels r) |}.
#[export] Instance requestC_laws : CodecLaws requestC.
Proof. split; [|done]. intros r (H1 & H2 & H3). cbn [unmarshal marshal requestC]. read_fields. Qed.

(** ** The loops *)

(** [c.close()] *)
Definition closeClient (h : hub) (id : Z) : outcome blocked hub := withClient h id (fun c => mret (close h id c)).

Section Loops.
Context (CheckToken : string -> outcome unit (option Z)).

(** A pass of the loop of [runReader] on what [ReadMessage] answers, which is an
    error when the deadline passes without a pong; and whether the loop goes on. *)
Definition readOne (h : hub) (id : Z) (message : option json) : outcome blocked (bool * hub) :=
  match message with
  | None => h ← closeClient h id; mret (false, h)
  | Some message =>
      match Unmarshal requestC message with
      | None => h ← closeClient h id; mret (false, h)
      | Some req => h ← onMessage CheckToken h id req; mret (true, h)
      end
  end.

Fixpoint readLoop (h : hub) (id : Z) (messages : list (option json)) : outcome blocked (bool * hub) :=
  match messages with
  | [] => mret (true, h)
  | message :: messages =>
      '(goes, h) ← readOne h id message;
      if goes : bool then readLoop h id messages else mret (false, h)
  end.

(** It ends at once when the deadline of the first read cannot be set. *)
Definition runReader (deadline : bool) (h : hub) (id : Z) (messages : list (option json)) : outcome blocked (bool * hub) :=
  if deadline then readLoop h id messages else mret (false, h).
End Loops.

(** [case message := <-c.writeCh] of [runWriter]: a level 2 change goes to the
    level 2 writer; any other message is written, which may fail. *)
Definition writeOne (h : hub) (id : Z) (sent : bool) : outcome blocked (bool * hub) :=
  withClient h id (fun c =>
    if sent then h ← clientStep h id (writeStep (h_tickers h)); mret (true, h)
    else
      match c_forwarding c, c_writeCh c with
      | None, MLevel2Change _ :: _ | Some _, _ => h ← clientStep h id (writeStep (h_tickers h)); mret (true, h)
      | None, _ =>
          '(msg, ch) ← recv (c_writeCh c);
          h ← closeClient (h_update h id (c_setWriteCh c ch)) id;
          mret (false, h)
      end).

(** [case <-ticker.C]: a ping. *)
Definition pingOne (h : hub) (id : Z) (sent : bool) : outcome blocked (bool * hub) :=
  if sent then mret (true, h) else h ← closeClient h id; mret (false, h).

(** ** The goroutines of a connection among the others *)

Record conn := { cn_hub : hub; cn_reader : bool; cn_writer : bool }.

(** The steps of a request. *)
Definition ofReader (id : Z) (ev : hubEvent) : bool :=
  match ev with
  | EvSubscribe i _ | EvUnsubscribe i _ | EvAsk i _ | EvTicker i _ => i =? id
  | _ => false
  end.
(** The steps of the other goroutines: all but those of the client's reader and
    writer; the level 2 writer runs by itself. *)
Definition ofOthers (id : Z) (ev : hubEvent) : bool :=
  match ev with
  | EvConnect i | EvSubscribe i _ | EvUnsubscribe i _ | EvClose i | EvAsk i _ | EvTicker i _ | EvWrite i => negb (i =? id)
  | _ => true
  end.

Inductive ioEvent :=
| IoRequest (ev : hubEvent)
| IoReadEnd
| IoWrite (sent : bool)
| IoPing (sent : bool)
| IoOther (ev : hubEvent).

Definition ioStep (id : Z) (ev : ioEvent) (cn : conn) : outcome blocked conn :=
  let '{| cn_hub := h; cn_reader := rd; cn_writer := wr |} := cn in
  match ev with
  | IoRequest ev =>
      if rd && ofReader id ev then h ← hubStep ev h; mret {| cn_hub := h; cn_reader := rd; cn_writer := wr |} else Err Blocked
  | IoReadEnd => if rd then h ← closeClient h id; mret {| cn_hub := h; cn_reader := false; cn_writer := wr |} else Err Blocked
  | IoWrite sent =>
      if wr then '(goes, h) ← writeOne h id sent; mret {| cn_hub := h; cn_reader := rd; cn_writer := goes |} else Err Blocked
  | IoPing sent =>
      if wr then '(goes, h) ← pingOne h id sent; mret {| cn_hub := h; cn_reader := rd; cn_writer := goes |} else Err Blocked
  | IoOther ev =>
      if ofOthers id ev then h ← hubStep ev h; mret {| cn_hub := h; cn_reader := rd; cn_writer := wr |} else Err Blocked
  end.

Fixpoint ioRun (id : Z) (evs : list ioEvent) (cn : conn) : outcome blocked conn :=
  match evs with [] => mret cn | ev :: evs => cn ← ioStep id ev cn; ioRun id evs cn end.

Lemma ioRun_app id evs1 evs2 cn : ioRun id (evs1 ++ evs2) cn = (cn ← ioRun id evs1 cn; ioRun id evs2 cn).
Proof.
  revert cn. induction evs1 as [|ev evs1 IH]; intros cn; [done|]. cbn. destruct (ioStep id ev cn); [apply IH|done..].
Qed.

(** ** What a client is subscribed to it knows *)

Definition tracked (h : hub) : Prop := forall id channel, inChannel (h_subscribers h) id channel ->
  exists c, h_clients h !! id = Some c /\ channel ∈ c_channels c.
Definition absent (id : Z) (h : hub) : Prop := forall channel, ~ inChannel (h_subscribers h) id channel.

Lemma tracked_same h h' : tracked h -> h_subscribers h' = h_subscribers h -> same_channels (h_clients h) (h_clients h') -> tracked h'.
Proof.
  intros Ht Es Hs id channel Hin. rewrite Es in Hin. destruct (Ht _ _ Hin) as (c & Hc & Hch). specialize (Hs id). rewrite Hc in Hs.
  inversion Hs as [? c' [E _]|]; subst. exists c'. by rewrite <- E.
Qed.

Lemma clientStep_same h id f h' : keeps f -> clientStep h id f = Ok h' ->
  h_subscribers h' = h_subscribers h /\ same_channels (h_clients h) (h_clients h').
Proof.
  intros Hf (c & c' & Hc & E & ->)%clientStep_Ok. destruct (Hf _ _ E). split; [done|]. by apply (same_channels_update _ id c).
Qed.

Lemma close_tracked h id c : tracked h -> h_clients h !! id = Some c -> tracked (close h id c) /\ absent id (close h id c).
Proof.
  intros Ht Hc. split.
  - intros i ch Hin. pose proof (close_in h id c i ch) as Hci. apply Hci in Hin as [Hin _]. by apply Ht.
  - intros ch Hin. apply (close_in h id c id ch) in Hin as [Hin Hno]. destruct (Ht _ _ Hin) as (c' & Hc' & Hch). apply Hno.
    split; [done|]. congruence.
Qed.

Lemma closeClient_ok h id h' : tracked h -> closeClient h id = Ok h' -> tracked h' /\ absent id h'.
Proof. intros Ht (c & Hc & [= <-])%withClient_Ok. by apply close_tracked. Qed.

(** A step keeps the book-keeping, and only a subscription adds a subscriber. *)
Definition grows (ev : hubEvent) (h h' : hub) : Prop :=
  forall i channel, inChannel (h_subscribers h') i channel -> inChannel (h_subscribers h) i channel \/ ev = EvSubscribe i channel.

Lemma subscribe_tracked h id channel c : tracked h -> h_clients h !! id = Some c ->
  tracked (subscribe h id c channel).2 /\ grows (EvSubscribe id channel) h (subscribe h id c channel).2.
Proof.
  intros Ht Hc. unfold subscribe. case_decide as Hin; [split; [done|by left]|].
  pose proof (sub_subscribe_in (h_subscribers h) id channel) as Hsi. pose proof (sub_subscribe_ok (h_subscribers h) id channel) as Hok.
  destruct (sub_subscribe (h_subscribers h) channel id) as [ok subs]. cbn [fst snd] in *. split.
  - intros i ch Hi. assert (Hi' : inChannel subs i ch) by (by destruct ok). apply Hsi in Hi' as [Hi'|[-> ->]].
    + destruct (Ht _ _ Hi') as (c' & Hc' & Hch). destruct ok; [|by exists c']. cbn. destruct (decide (i = id)) as [->|Hne].
      * rewrite lookup_insert_eq. eexists. split; [done|]. cbn. set_solver.
      * exists c'. by rewrite lookup_insert_ne.
    + destruct ok; cbn; [rewrite lookup_insert_eq; eexists; split; [done|]; cbn; set_solver|].
      assert (H : ~ ~ inChannel (h_subscribers h) id channel) by (intros H; by apply Hok in H).
      exfalso. apply H. intros H'. destruct (Ht _ _ H') as (c' & Hc' & Hch). congruence.
  - intros i ch Hi. assert (Hi' : inChannel subs i ch) by (by destruct ok). apply Hsi in Hi' as [|[-> ->]]; [by left|by right].
Qed.

Lemma unsubscribe_tracked h id channel c : tracked h -> h_clients h !! id = Some c ->
  tracked (unsubscribe h id c channel) /\ grows (EvUnsubscribe id channel) h (unsubscribe h id c channel).
Proof.
  intros Ht Hc. unfold unsubscribe. pose proof (sub_unsubscribe_in (h_subscribers h) id channel) as Hsi.
  destruct (sub_unsubscribe (h_subscribers h) channel id) as [ok subs]. cbn [snd] in Hsi. split.
  - intros i ch Hi. assert (Hi' : inChannel subs i ch) by (by destruct ok). apply Hsi in Hi' as [Hi' Hne].
    destruct (Ht _ _ Hi') as (c' & Hc' & Hch). destruct ok; [|by exists c']. cbn. destruct (decide (i = id)) as [->|Hid].
    + rewrite lookup_insert_eq. eexists. split; [done|]. cbn. assert (c' = c) as -> by congruence. set_solver.
    + exists c'. by rewrite lookup_insert_ne.
  - intros i ch Hi. left. assert (Hi' : inChannel subs i ch) by (by destruct ok). by apply Hsi in Hi' as [? _].
Qed.

Lemma hubStep_tracked ev h h' : tracked h -> hubStep ev h = Ok h' -> tracked h' /\ grows ev h h'.
Proof.
  intros Ht E. assert (Hsame : h_subscribers h' = h_subscribers h -> same_channels (h_clients h) (h_clients h') -> tracked h' /\ grows ev h h').
  { intros Es Hs. split; [by eapply tracked_same|]. intros i ch. rewrite Es. by left. }
  destruct ev; cbn [hubStep] in E.
  - case_decide as Hnone; [|done]. injection E as <-. split; [|by left]. intros i ch Hi. destruct (Ht _ _ Hi) as (c & Hc & Hch).
    exists c. split; [|done]. cbn. rewrite lookup_insert_ne; [done|]. congruence.
  - apply withClient_Ok in E as (c & Hc & [= <-]). by apply subscribe_tracked.
  - apply withClient_Ok in E as (c & Hc & [= <-]). by apply unsubscribe_tracked.
  - apply withClient_Ok in E as (c & Hc & [= <-]). split; [by apply close_tracked|]. intros i ch Hi. left.
    by apply (close_in h id c i ch) in Hi as [? _].
  - apply clientStep_same in E as [? ?]; [by apply Hsame|apply askStep_keeps].
  - apply clientStep_same in E as [? ?]; [by apply Hsame|apply tickerStep_keeps].
  - injection E as <-. apply Hsame; [unfold publish; by destruct (_ !! _)|apply publish_same].
  - apply clientStep_same in E as [? ?]; [by apply Hsame|apply writeStep_keeps].
  - apply clientStep_same in E as [? ?]; [by apply Hsame|apply l2Step_keeps].
  - injection E as <-. apply Hsame; [done|apply same_channels_refl].
  - injection E as <-. apply Hsame; [done|apply same_channels_refl].
Qed.

Lemma absent_grows ev id h h' : absent id h -> grows ev h h' -> (forall channel, ev <> EvSubscribe id channel) -> absent id h'.
Proof. intros Ha Hg Hne ch Hin. destruct (Hg _ _ Hin) as [H|H]; [by apply (Ha ch)|by apply (Hne ch)]. Qed.

(** ** The invariant of a connection *)

Record conn_ok (id : Z) (cn : conn) : Prop := {
  co_tracked : tracked (cn_hub cn);
  co_absent : cn_reader cn = false -> absent id (cn_hub cn);
}.

Lemma writeOne_ok h id sent goes h' : tracked h -> writeOne h id sent = Ok (goes, h') ->
  tracked h' /\ (absent id h -> absent id h').
Proof.
  intros Ht (c & Hc & E)%withClient_Ok.
  assert (Hwrite : (h1 ← clientStep h id (writeStep (h_tickers h)); mret (true, h1)) = Ok (goes, h') -> tracked h' /\ (absent id h -> absent id h')).
  { intros (h1 & E1 & [= _ <-])%bind_Ok. destruct (clientStep_same _ _ _ _ (writeStep_keeps _) E1) as [Es Hs].
    split; [by eapply tracked_same|]. unfold absent. by rewrite Es. }
  assert (Hfail : ('(msg, ch) ← recv (c_writeCh c); h1 ← closeClient (h_update h id (c_setWriteCh c ch)) id; mret (false, h1)) = Ok (goes, h') ->
    tracked h' /\ (absent id h -> absent id h')).
  { intros ([msg ch] & Hr%recv_Ok & E1)%bind_Ok. apply bind_Ok in E1 as (h1 & E1 & E2). injection E2 as _ <-.
    assert (Ht1 : tracked (h_update h id (c_setWriteCh c ch))).
    { eapply tracked_same; [exact Ht|done|]. apply (same_channels_update _ id c); [done|done|].
      unfold client_ok. rewrite Hr. cbn. lia. }
    destruct (closeClient_ok _ _ _ Ht1 E1). done. }
  destruct sent; [auto|]. destruct (c_forwarding c); [auto|]. destruct (c_writeCh c) as [|[] ?]; auto.
Qed.

Lemma pingOne_ok h id sent goes h' : tracked h -> pingOne h id sent = Ok (goes, h') -> tracked h' /\ (absent id h -> absent id h').
Proof.
  intros Ht E. unfold pingOne in E. destruct sent; [by injection E as <- <-|]. apply bind_Ok in E as (h1 & E & [= <- <-]).
  by destruct (closeClient_ok _ _ _ Ht E).
Qed.

Lemma ioStep_ok id ev cn cn' : conn_ok id cn -> ioStep id ev cn = Ok cn' -> conn_ok id cn'.
Proof.
  destruct cn as [h rd wr]. intros [Ht Ha] E. cbn in Ht, Ha. destruct ev; cbn [ioStep] in E.
  - destruct rd; [|done]. cbn [andb] in E. destruct (ofReader id ev) eqn:Hev; [|done]. apply bind_Ok in E as (h1 & E & [= <-]).
    destruct (hubStep_tracked _ _ _ Ht E). by split.
  - destruct rd; [|done]. apply bind_Ok in E as (h1 & E & [= <-]). destruct (closeClient_ok _ _ _ Ht E). by split.
  - destruct wr; [|done]. apply bind_Ok in E as ([goes h1] & E & [= <-]). destruct (writeOne_ok _ _ _ _ _ Ht E). split; cbn; auto.
  - destruct wr; [|done]. apply bind_Ok in E as ([goes h1] & E & [= <-]). destruct (pingOne_ok _ _ _ _ _ Ht E). split; cbn; auto.
  - destruct (ofOthers id ev) eqn:Hev; [|done]. apply bind_Ok in E as (h1 & E & [= <-]). destruct (hubStep_tracked _ _ _ Ht E) as [Ht1 Hg].
    split; [done|]. cbn. intros Hrd. eapply absent_grows; [by apply Ha|done|]. intros ch ->. cbn in Hev. by rewrite Z.eqb_refl in Hev.
Qed.

Lemma ioRun_ok id evs : forall cn cn', conn_ok id cn -> ioRun id evs cn = Ok cn' -> conn_ok id cn'.
Proof.
  induction evs as [|ev evs IH]; intros cn cn' Hok E; cbn in E; [by injection E as <-|].
  apply bind_Ok in E as (cn1 & E1 & E). eapply IH; [|exact E]. by eapply ioStep_ok.
Qed.

(** ** The reader's loop is a run of steps *)

Section Reader.
Context (CheckToken : string -> outcome unit (option Z)).

Lemma request_events id u wr evs : forall h h', hubRun h evs = Ok h' -> Forall (requestEvent id u) evs ->
  ioRun id (IoRequest <$> evs) {| cn_hub := h; cn_reader := true; cn_writer := wr |} = Ok {| cn_hub := h'; cn_reader := true; cn_writer := wr |}.
Proof.
  induction evs as [|ev evs IH]; intros h h' E He; cbn in E; [by injection E as <-|].
  apply Forall_cons in He as [Hev He]. apply bind_Ok in E as (h1 & E1 & E).
  assert (Hof : ofReader id ev = true).
  { destruct ev; cbn in *; try done; apply Z.eqb_eq; tauto. }
  cbn [fmap list_fmap ioRun ioStep]. rewrite Hof. cbn [andb]. rewrite E1. cbn [mbind outcome_bind]. by apply IH.
Qed.

Lemma onMessage_run h id req h' wr : onMessage CheckToken h id req = Ok h' ->
  exists evs, ioRun id evs {| cn_hub := h; cn_reader := true; cn_writer := wr |} = Ok {| cn_hub := h'; cn_reader := true; cn_writer := wr |}.
Proof.
  intros E. destruct (CheckToken (req_Token req)) as [user|e| |] eqn:Hu.
  - destruct (onMessage_runs CheckToken id h req user Hu h' E) as (evs & Hrun & Hevs).
    exists (IoRequest <$> evs). by eapply request_events.
  - rewrite (onMessage_refused CheckToken id h req e Hu) in E. injection E as <-. by exists [].
  - unfold onMessage, onSub, onUnSub in E. rewrite Hu in E. repeat case_bool; try done. injection E as <-. by exists [].
  - unfold onMessage, onSub, onUnSub in E. rewrite Hu in E. repeat case_bool; try done. injection E as <-. by exists [].
Qed.

Lemma readOne_run h id message goes h' wr : readOne CheckToken h id message = Ok (goes, h') ->
  exists evs, ioRun id evs {| cn_hub := h; cn_reader := true; cn_writer := wr |} = Ok {| cn_hub := h'; cn_reader := goes; cn_writer := wr |}.
Proof.
  assert (Hend : (h1 ← closeClient h id; mret (false, h1)) = Ok (goes, h') ->
    exists evs, ioRun id evs {| cn_hub := h; cn_reader := true; cn_writer := wr |} = Ok {| cn_hub := h'; cn_reader := goes; cn_writer := wr |}).
  { intros (h1 & E & [= <- <-])%bind_Ok. exists [IoReadEnd]. cbn. by rewrite E. }
  unfold readOne. destruct message as [j|]; [|exact Hend]. destruct (Unmarshal requestC j) as [req|]; [|exact Hend].
  intros (h1 & E & [= <- <-])%bind_Ok. by apply (onMessage_run h id req).
Qed.

Lemma readLoop_run id wr messages : forall h goes h', readLoop CheckToken h id messages = Ok (goes, h') ->
  exists evs, ioRun id evs {| cn_hub := h; cn_reader := true; cn_writer := wr |} = Ok {| cn_hub := h'; cn_reader := goes; cn_writer := wr |}.
Proof.
  induction messages as [|message messages IH]; intros h goes h' E; cbn in E; [injection E as <- <-; by exists []|].
  apply bind_Ok in E as ([goes1 h1] & E1 & E). apply (readOne_run _ _ _ _ _ wr) in E1 as [evs1 E1]. destruct goes1.
  - apply IH in E as [evs2 E2]. exists (evs1 ++ evs2). by rewrite ioRun_app, E1.
  - injection E as <- <-. by exists evs1.
Qed.

Lemma hubRun_tracked evs : forall h h', tracked h -> hubRun h evs = Ok h' -> tracked h'.
Proof.
  induction evs as [|ev evs IH]; intros h h' Ht E; cbn in E; [by injection E as <-|].
  apply bind_Ok in E as (h1 & E1 & E). eapply IH; [|exact E]. by eapply hubStep_tracked.
Qed.

Lemma newHub_tracked : tracked newHub.
Proof. intros id channel (ids & E & _). cbn in E. unfold newSubscription in E. by rewrite lookup_empty in E. Qed.

(** C31: a client that is gone stays gone.  Whatever the goroutines of its
    connection and of the rest of the server do, in any order, once a client's
    reader has read some messages and ended, on a read that failed or a message
    that is no request, the client is in no channel and never is again: not
    even when its writer had failed and closed it before, while the reader went
    on subscribing. *)
Theorem closed_client_gone id h pre before messages h1 cn cn' after : hubRun newHub pre = Ok h ->
  ioRun id before {| cn_hub := h; cn_reader := true; cn_writer := true |} = Ok cn -> cn_reader cn = true ->
  readLoop CheckToken (cn_hub cn) id messages = Ok (false, h1) ->
  ioRun id after {| cn_hub := h1; cn_reader := false; cn_writer := cn_writer cn |} = Ok cn' ->
  forall channel, ~ inChannel (h_subscribers (cn_hub cn')) id channel.
Proof.
  intros Hpre Hb Hrd Hr Ha. assert (Hok : conn_ok id {| cn_hub := h; cn_reader := true; cn_writer := true |})
    by (split; [by eapply hubRun_tracked; [apply newHub_tracked|]|done]).
  apply (ioRun_ok _ _ _ _ Hok) in Hb. apply (readLoop_run _ (cn_writer cn)) in Hr as [evs Hr].
  assert (Hcn : cn = {| cn_hub := cn_hub cn; cn_reader := true; cn_writer := cn_writer cn |}) by (destruct cn; cbn in *; by subst).
  rewrite Hcn in Hb. apply (ioRun_ok _ _ _ _ Hb) in Hr. apply (ioRun_ok _ _ _ _ Hr) in Ha as H.
  apply (co_absent _ _ H). assert (Hstill : forall evs cn1 cn2, ioRun id evs cn1 = Ok cn2 -> cn_reader cn1 = false -> cn_reader cn2 = false).
  { clear. induction evs as [|ev evs IH]; intros cn1 cn2 E Hf; cbn in E; [by injection E as <-|].
    apply bind_Ok in E as (cn3 & E3 & E). eapply IH; [exact E|]. destruct cn1 as [h0 rd wr]. cbn in Hf. subst rd.
    destruct ev; cbn [ioStep andb] in E3; try done.
    - destruct wr; [|done]. by apply bind_Ok in E3 as ([goes h2] & _ & [= <-]).
    - destruct wr; [|done]. by apply bind_Ok in E3 as ([goes h2] & _ & [= <-]).
    - destruct (ofOthers id ev); [|done]. by apply bind_Ok in E3 as (h2 & _ & [= <-]). }
  by eapply Hstill.
Qed.
End Reader.

(** ** The theorem at work *)

Section Witnesses.
(** A token of user 7; any other is refused. *)
Let sevenToken (token : string) : outcome unit (option Z) := if token =s? "seven" then Ok (Some 7) else Err tt.
Let ask (channel : string) : json := marshal requestC {| req_Type := "subscribe"; req_ProductIds := ["BTC-USDT"];
  req_CurrencyIds := []; req_Channels := [channel]; req_Token := "seven" |}.

Definition joined : hub := getOk newHub (hubRun newHub [EvConnect 1; EvConnect 2; EvSubscribe 2 "match:BTC-USDT"]).
(** It has subscribed to the matches; a write fails. *)
Definition failing : conn := getOk {| cn_hub := newHub; cn_reader := false; cn_writer := false |}
  (ioRun 1 [IoRequest (EvSubscribe 1 "match:BTC-USDT"); IoOther (EvPublish "match:BTC-USDT" (MTicker 0)); IoWrite false]
     {| cn_hub := joined; cn_reader := true; cn_writer := true |}).
(** Its reader goes on with a request for candles before it sees the end. *)
Definition ended : hub := snd (getOk (true, newHub) (readLoop sevenToken (cn_hub failing) 1 [Some (ask "candles_1m"); None])).
Definition later : conn := getOk {| cn_hub := newHub; cn_reader := false; cn_writer := false |}
  (ioRun 1 [IoOther (EvPublish "match:BTC-USDT" (MTicker 0)); IoOther (EvSubscribe 2 "candles_1m:BTC-USDT")]
     {| cn_hub := ended; cn_reader := false; cn_writer := cn_writer failing |}).

Lemma goes_false (d : bool * hub) (m : outcome blocked (bool * hub)) : isOk m = true -> fst (getOk d m) = false ->
  m = Ok (false, snd (getOk d m)).
Proof. destruct m as [[goes h]| | |]; cbn; [by intros _ ->|done..]. Qed.

Lemma closed_client_gone_witness : cn_writer failing = false /\
  isOk (readLoop sevenToken (cn_hub failing) 1 [Some (ask "candles_1m")]) = true /\
  forall channel, ~ inChannel (h_subscribers (cn_hub later)) 1 channel.
Proof.
  split; [vm_compute; reflexivity|]. split; [vm_compute; reflexivity|].
  assert (Hpre : hubRun newHub [EvConnect 1; EvConnect 2; EvSubscribe 2 "match:BTC-USDT"] = Ok joined)
    by (unfold joined; apply isOk_get; vm_compute; reflexivity).
  assert (Hb : ioRun 1 [IoRequest (EvSubscribe 1 "match:BTC-USDT"); IoOther (EvPublish "match:BTC-USDT" (MTicker 0)); IoWrite false]
     {| cn_hub := joined; cn_reader := true; cn_writer := true |} = Ok failing)
    by (unfold failing; apply isOk_get; vm_compute; reflexivity).
  assert (Hrd : cn_reader failing = true) by (vm_compute; reflexivity).
  assert (Hr : readLoop sevenToken (cn_hub failing) 1 [Some (ask "candles_1m"); None] = Ok (false, ended)).
  { apply (goes_false (true, newHub)); vm_compute; reflexivity. }
  assert (Ha : ioRun 1 [IoOther (EvPublish "match:BTC-USDT" (MTicker 0)); IoOther (EvSubscribe 2 "candles_1m:BTC-USDT")]
     {| cn_hub := ended; cn_reader := false; cn_writer := cn_writer failing |} = Ok later)
    by (unfold later; apply isOk_get; vm_compute; reflexivity).
  exact (closed_client_gone sevenToken 1 joined _ _ _ _ failing later _ Hpre Hb Hrd Hr Ha).
Defined.
End Witnesses.
